(** * ICU build scripts: a shallow embedding of [build_icu.py] and
    [build_icu_native.py]

    The two scripts drive a fixed sequence of boolean steps over the
    filesystem, the network and an external toolchain.  The embedding
    threads an explicit [world] (filesystem, console, call logs) through a
    state-and-exception monad; everything the scripts do not implement
    themselves (HTTP, subprocesses, the ZIP codec, the clock, float
    formatting, OS-level I/O faults) is collected in one record of
    [Externals] that the definitions take as a parameter. *)

From stdpp Require Import gmap strings list fin_maps pretty.
From Stdlib Require Import ZArith Lia Ascii.

Open Scope string_scope.
Open Scope list_scope.

(** ** Paths, files and exceptions *)

(** A [pathlib.Path] is its list of components; [p / s] appends one. *)
Abbreviation path := (list string).

Definition pdiv (p : path) (s : string) : path := p ++ [s].
Infix "//" := pdiv (at level 40, left associativity).

(** [".."] is resolved lexically when the path reaches the operating
    system (the behaviour of the Windows path APIs the scripts target). *)
Fixpoint norm_rev (acc : path) (p : path) : path :=
  match p with
  | [] => acc
  | c :: rest =>
      if String.eqb c ".." then norm_rev (tail acc) rest
      else if String.eqb c "." then norm_rev acc rest
      else norm_rev (c :: acc) rest
  end.

Definition norm (p : path) : path := rev (norm_rev [] p).

Definition path_name (p : path) : string := List.last p "".

Definition path_parent (p : path) : path := removelast p.

Definition str_of_path (p : path) : string := String.concat "\" p.

Inductive node :=
| File (content : string)
| Dir.

Inductive exn :=
| FileExistsError
| FileNotFoundError
| NotADirectoryError
| PermissionError
| UnicodeDecodeError
| BadZipFile
| RequestException
| ShutilError
| OSError.

Definition str_of_exn (e : exn) : string :=
  match e with
  | FileExistsError => "FileExistsError"
  | FileNotFoundError => "FileNotFoundError"
  | NotADirectoryError => "NotADirectoryError"
  | PermissionError => "PermissionError"
  | UnicodeDecodeError => "UnicodeDecodeError"
  | BadZipFile => "BadZipFile"
  | RequestException => "RequestException"
  | ShutilError => "shutil.Error"
  | OSError => "OSError"
  end.

(** The commands handed to [subprocess.run].  The shell scripts are opaque
    to the orchestrator, so a Cygwin invocation is identified by which
    script it runs and the values interpolated into it. *)
Inductive script :=
| PrepareScript (source_dir : path)
| ConfigureScript (source_dir : path) (arch : string) (configure_args : list string)
| MakeScript (source_dir : path) (arch : string)
| InstallScript (source_dir : path) (arch : string) (build_dir : path).

Inductive command :=
| CygwinBash (bash_exe : path) (body : script)
| Argv (args : list string).

(** ** The world *)

Record world := World {
  fs : gmap path node;
  stdout : list string;
  http_log : list string;
  proc_log : list command
}.

Definition set_fs (f : gmap path node) (w : world) : world :=
  World f (stdout w) (http_log w) (proc_log w).

(** The fallible filesystem operations, for fault injection.  [OpExists]
    and [OpStat] are the probes [Path.exists] and [Path.stat]; they are
    consulted by the methods of [ProbedConfigure] and [ProbedNative] only. *)
Inductive io_op :=
| OpMkdir | OpRmtree | OpCopy | OpOpenWrite | OpRead | OpWrite | OpIterdir
| OpZipRead | OpZipWrite | OpExists | OpStat.

Record completed_process := Completed {
  returncode : Z;
  proc_stdout : string;
  proc_stderr : string
}.

Record Externals := {
  (** [requests.get(url)] followed by [raise_for_status]: the exception
      raised before anything is written, or the bytes streamed to the
      caller and the exception that interrupts the stream, if any. *)
  requests_get : string -> world -> exn + (string * option exn);
  (** [subprocess.run]: the exception raised when the process cannot be
      started, or the completed process and the filesystem it leaves. *)
  subprocess_run : command -> world -> exn + (completed_process * gmap path node);
  (** the ZIP codec of [zipfile] *)
  zip_encode : list (path * string) -> string;
  zip_decode : string -> option (list (path * string));
  (** [os.environ] *)
  environ : gmap string string;
  (** [datetime.now().strftime('%Y-%m-%d %H:%M:%S UTC')] *)
  now : string;
  (** ["{:.2f}"] applied to a byte count divided twice by 1024 *)
  fmt_mb : nat -> string;
  (** an OS-level failure (permissions, locks, a full disk) of a fallible
      filesystem operation on a path *)
  io_fault : io_op -> path -> option exn
}.

(** ** The state-and-exception monad *)

Inductive result (A : Type) :=
| Ok (a : A)
| Raise (e : exn).
Arguments Ok {A} a.
Arguments Raise {A} e.

Definition M (A : Type) : Type := world -> result A * world.

Definition ret {A} (a : A) : M A := fun w => (Ok a, w).

Definition raise {A} (e : exn) : M A := fun w => (Raise e, w).

Definition bind {A B} (m : M A) (k : A -> M B) : M B :=
  fun w =>
    match m w with
    | (Ok a, w') => k a w'
    | (Raise e, w') => (Raise e, w')
    end.

Notation "x <- m ;; k" := (bind m (fun x => k))
  (at level 100, m at next level, right associativity).
Notation "m ;;; k" := (bind m (fun _ => k))
  (at level 100, right associativity).

(** [try: m except Exception as e: h e] *)
Definition try_except {A} (m : M A) (h : exn -> M A) : M A :=
  fun w =>
    match m w with
    | (Ok a, w') => (Ok a, w')
    | (Raise e, w') => h e w'
    end.

(** [for x in l: body x] *)
Fixpoint for_each {A} (l : list A) (body : A -> M unit) : M unit :=
  match l with
  | [] => ret tt
  | x :: rest => body x ;;; for_each rest body
  end.

Definition when (b : bool) (m : M unit) : M unit :=
  if b then m else ret tt.

Definition get_fs : M (gmap path node) := fun w => (Ok (fs w), w).

Definition put_fs (f : gmap path node) : M unit := fun w => (Ok tt, set_fs f w).

Definition print (line : string) : M unit :=
  fun w => (Ok tt, World (fs w) (stdout w ++ [line]) (http_log w) (proc_log w)).

Definition log_http (url : string) : M unit :=
  fun w => (Ok tt, World (fs w) (stdout w) (http_log w ++ [url]) (proc_log w)).

Definition log_proc (c : command) : M unit :=
  fun w => (Ok tt, World (fs w) (stdout w) (http_log w) (proc_log w ++ [c])).

(** ** Strings *)

(** [s.endswith(suf)], the test behind [glob("*" + suf)] *)
Definition ends_with (suf s : string) : bool :=
  (String.length suf <=? String.length s)%nat &&
  String.eqb
    (String.substring (String.length s - String.length suf) (String.length suf) s)
    suf.

Fixpoint drop_chars (n : nat) (s : string) : string :=
  match n, s with
  | O, _ => s
  | S n', String _ s' => drop_chars n' s'
  | S _, EmptyString => EmptyString
  end.

(** [old in s] *)
Fixpoint contains (old s : string) : bool :=
  String.prefix old s ||
  match s with
  | EmptyString => false
  | String _ s' => contains old s'
  end.

(** [s.replace(old, new)] for a non-empty [old]; [fuel] bounds the scan. *)
Fixpoint replace_fuel (fuel : nat) (old new s : string) : string :=
  match fuel with
  | O => s
  | S fuel' =>
      match s with
      | EmptyString => EmptyString
      | String c s' =>
          if String.prefix old s
          then new +:+ replace_fuel fuel' old new (drop_chars (String.length old) s)
          else String c (replace_fuel fuel' old new s')
      end
  end.

Definition replace (old new s : string) : string :=
  replace_fuel (S (String.length s)) old new s.

(** ** The filesystem *)

Definition lookup_path (f : gmap path node) (p : path) : option node :=
  match norm p with
  | [] => Some Dir
  | q => f !! q
  end.

(** [Path.exists], [Path.is_file], [Path.is_dir], as they answer when the
    file system answers; [Probe.exists_] is [Path.exists] with the
    failures the file system can report instead of an answer. *)
Definition path_exists (f : gmap path node) (p : path) : bool :=
  match lookup_path f p with Some _ => true | None => false end.

Definition is_file (f : gmap path node) (p : path) : bool :=
  match lookup_path f p with Some (File _) => true | _ => false end.

Definition is_dir (f : gmap path node) (p : path) : bool :=
  match lookup_path f p with Some Dir => true | _ => false end.

Definition path_eqb (p q : path) : bool := bool_decide (p = q).

(** The paths the tree holds, in the map's enumeration order (the order
    of [os.scandir] is unspecified).  Only canonical keys name an entry:
    no lookup reaches any other. *)
Definition canonical (k : path) : bool :=
  match k with
  | [] => false
  | _ => path_eqb (norm k) k
  end.

Definition entries (f : gmap path node) : list path :=
  List.filter canonical (List.map fst (map_to_list f)).

(** The entries directly inside a directory. *)
Definition children (f : gmap path node) (p : path) : list path :=
  if is_dir f p then
    List.filter (fun k => path_eqb (path_parent k) (norm p)) (entries f)
  else [].

(** [p.glob("*" + suf)]: entries of any kind whose name ends with [suf] *)
Definition glob (f : gmap path node) (p : path) (suf : string) : list path :=
  List.filter (fun k => ends_with suf (path_name k)) (children f p).

Fixpoint is_prefix (p k : path) : bool :=
  match p, k with
  | [], _ => true
  | a :: p', b :: k' => String.eqb a b && is_prefix p' k'
  | _ :: _, [] => false
  end.

Definition strictly_below (p k : path) : bool :=
  is_prefix p k && negb (path_eqb p k).

(** [p.rglob("*")]: everything below [p] *)
Definition rglob (f : gmap path node) (p : path) : list path :=
  if is_dir f p then
    List.filter (strictly_below (norm p)) (entries f)
  else [].

(** [k.relative_to(p)] for [k] below [p] *)
Definition relative_to (p k : path) : path := drop (length (norm p)) k.

(** [p.stat().st_size]; a directory reports size 0.  [Probe.stat_size] is
    the same call with the failures the file system can report for an
    entry that is listed (a dangling link, a denied permission). *)
Definition stat_size (p : path) : M nat :=
  fun w =>
    match lookup_path (fs w) p with
    | Some (File c) => (Ok (String.length c), w)
    | Some Dir => (Ok O, w)
    | None => (Raise FileNotFoundError, w)
    end.

(** ** Fallible filesystem operations

    Each first consults [io_fault]; otherwise it raises what CPython raises
    from the shape of the tree. *)

Section Operations.
Context (ext : Externals).

Definition faulting {A} (op : io_op) (p : path) (m : M A) : M A :=
  match io_fault ext op p with
  | Some e => raise e
  | None => m
  end.

(** Creating or truncating the file [p] with [content]. *)
Definition store_file (p : path) (content : string) : M unit :=
  fun w =>
    match lookup_path (fs w) p with
    | Some Dir => (Raise PermissionError, w)
    | _ =>
        match lookup_path (fs w) (path_parent (norm p)) with
        | Some Dir => (Ok tt, set_fs (<[norm p := File content]> (fs w)) w)
        | _ => (Raise FileNotFoundError, w)
        end
    end.

(** [p.mkdir()] *)
Definition mkdir (p : path) : M unit :=
  faulting OpMkdir p
    (fun w =>
       if path_exists (fs w) p then (Raise FileExistsError, w)
       else
         match lookup_path (fs w) (path_parent (norm p)) with
         | Some Dir => (Ok tt, set_fs (<[norm p := Dir]> (fs w)) w)
         | _ => (Raise FileNotFoundError, w)
         end).

(** [shutil.rmtree(p)] *)
Definition rmtree (p : path) : M unit :=
  faulting OpRmtree p
    (fun w =>
       match lookup_path (fs w) p with
       | None => (Raise FileNotFoundError, w)
       | Some (File _) => (Raise NotADirectoryError, w)
       | Some Dir =>
           (Ok tt,
            set_fs (filter (fun kv => is_prefix (norm p) (fst kv) = false) (fs w)) w)
       end).

(** [with open(p, "w") as f: f.write(content)] *)
Definition write_file (p : path) (content : string) : M unit :=
  faulting OpOpenWrite p (store_file p content).

(** [p.read_text(encoding='utf-8')] *)
Definition read_text (p : path) : M string :=
  faulting OpRead p
    (fun w =>
       match lookup_path (fs w) p with
       | None => (Raise FileNotFoundError, w)
       | Some Dir => (Raise PermissionError, w)
       | Some (File c) => (Ok c, w)
       end).

(** [p.write_text(content, encoding='utf-8')] *)
Definition write_text (p : path) (content : string) : M unit :=
  faulting OpWrite p (store_file p content).

(** [shutil.copy2(src, dst)]: into [dst] when it is a directory *)
Definition copy2 (src dst : path) : M unit :=
  faulting OpCopy src
    (fun w =>
       match lookup_path (fs w) src with
       | None => (Raise FileNotFoundError, w)
       | Some Dir => (Raise PermissionError, w)
       | Some (File c) =>
           let target := if is_dir (fs w) dst then dst // path_name (norm src) else dst in
           store_file target c w
       end).

(** [list(p.iterdir())] *)
Definition iterdir (p : path) : M (list path) :=
  faulting OpIterdir p
    (fun w =>
       match lookup_path (fs w) p with
       | None => (Raise FileNotFoundError, w)
       | Some (File _) => (Raise NotADirectoryError, w)
       | Some Dir => (Ok (children (fs w) p), w)
       end).

(** [os.makedirs(p, exist_ok=True)], one component at a time *)
Fixpoint makedirs_from (made todo : path) : M unit :=
  match todo with
  | [] => ret tt
  | c :: rest =>
      let d := made // c in
      (fun w =>
         match lookup_path (fs w) d with
         | Some Dir => (Ok tt, w)
         | Some (File _) => (Raise FileExistsError, w)
         | None => (Ok tt, set_fs (<[norm d := Dir]> (fs w)) w)
         end) ;;;
      makedirs_from d rest
  end.

Definition makedirs (p : path) : M unit := makedirs_from [] (norm p).

(** [shutil.copytree(src, dst, dirs_exist_ok=True)]: every entry below
    [src] is copied; failures are collected and raised together at the
    end, as [shutil.Error]. *)
Definition copytree_entry (src dst k : path) : M bool :=
  fun w =>
    let target : path := (dst ++ relative_to src k)%list in
    match lookup_path (fs w) k with
    | Some Dir =>
        match makedirs target w with
        | (Ok _, w') => (Ok true, w')
        | (Raise _, w') => (Ok false, w')
        end
    | Some (File c) =>
        match (makedirs (path_parent (norm target)) ;;;
               faulting OpCopy k (store_file target c)) w with
        | (Ok _, w') => (Ok true, w')
        | (Raise _, w') => (Ok false, w')
        end
    | None => (Ok false, w)
    end.

Fixpoint copytree_entries (src dst : path) (ks : list path) : M bool :=
  match ks with
  | [] => ret true
  | k :: rest =>
      ok1 <- copytree_entry src dst k ;;
      ok2 <- copytree_entries src dst rest ;;
      ret (ok1 && ok2)
  end.

Definition copytree (src dst : path) : M unit :=
  faulting OpCopy src
    (f <- get_fs ;;
     match lookup_path f src with
     | None => raise FileNotFoundError
     | Some (File _) => raise NotADirectoryError
     | Some Dir =>
         makedirs dst ;;;
         ok <- copytree_entries src dst (rglob f src) ;;
         if ok then ret tt else raise ShutilError
     end).

(** [with zipfile.ZipFile(zip_path, 'w', ZIP_DEFLATED) as zipf:] with one
    [zipf.write(file_path, arcname)] per regular file below [root].  The
    archive is created when it is opened and holds the members written so
    far when a member cannot be read. *)
Fixpoint zip_members (zip_path root : path) (acc : list (path * string))
    (ks : list path) : M unit :=
  match ks with
  | [] => ret tt
  | k :: rest =>
      f <- get_fs ;;
      if is_file f k then
        c <- read_text k ;;
        let acc' := (acc ++ [(relative_to root k, c)])%list in
        store_file zip_path (zip_encode ext acc') ;;;
        zip_members zip_path root acc' rest
      else zip_members zip_path root acc rest
  end.

Definition zip_tree (zip_path root : path) : M unit :=
  faulting OpZipWrite zip_path (store_file zip_path (zip_encode ext [])) ;;;
  f <- get_fs ;;
  zip_members zip_path root [] (rglob f root).

(** [with zipfile.ZipFile(zip_path, 'r') as z: z.extractall(dest)] *)
Definition extractall (zip_path dest : path) : M unit :=
  bytes <- faulting OpZipRead zip_path (read_text zip_path) ;;
  match zip_decode ext bytes with
  | None => raise BadZipFile
  | Some entries =>
      for_each entries
        (fun e =>
           let target : path := (dest ++ fst e)%list in
           makedirs (path_parent (norm target)) ;;;
           write_file target (snd e))
  end.

(** [subprocess.run(cmd, ...)] *)
Definition run_process (c : command) : M completed_process :=
  log_proc c ;;;
  (fun w =>
     match subprocess_run ext c w with
     | inl e => (Raise e, w)
     | inr (cp, f') => (Ok cp, set_fs f' w)
     end).

(** The download of [url] into [dest]: [requests.get], [raise_for_status],
    then the body streamed into the opened file. *)
Definition http_download (url : string) (dest : path) : M unit :=
  log_http url ;;;
  (fun w =>
     match requests_get ext url w with
     | inl e => (Raise e, w)
     | inr (body, interrupted) =>
         match write_file dest body w with
         | (Ok _, w') =>
             match interrupted with
             | Some e => (Raise e, w')
             | None => (Ok tt, w')
             end
         | (Raise e, w') => (Raise e, w')
         end
     end).

End Operations.

(** [for x in l: s = body x s], a loop that updates a local variable *)
Fixpoint for_fold {A S} (l : list A) (s : S) (body : A -> S -> M S) : M S :=
  match l with
  | [] => ret s
  | x :: rest => s' <- body x s ;; for_fold rest s' body
  end.

Definition banner : string := "==================================================".

Definition sum_sizes (sizes : list nat) : nat := List.fold_right Nat.add O sizes.

(** [Path.cwd()] is fixed for the run of a script. *)
Record Process := { cwd : path }.

(** * The command line

    [argparse] as the two [main] functions use it: long options that store
    one value (possibly restricted by [choices]) or set a flag, the
    built-in [-h]/[--help], [--name=value], unambiguous abbreviations of
    long options, and no positional arguments.  A parse ends in a namespace
    or in [sys.exit] (status 2 after an error, 0 after the help text). *)

Module Argparse.

Inductive action :=
| Store (choices : option (list string))
| StoreTrue
| Help.

Record option_spec := {
  opt_strings : list string;
  opt_dest : string;
  opt_action : action
}.

Inductive arg_value :=
| VStr (s : string)
| VFlag (b : bool).

Inductive outcome :=
| Parsed (ns : gmap string arg_value)
| Exit (code : Z).

Definition help_option : option_spec :=
  {| opt_strings := ["-h"; "--help"]; opt_dest := "help"; opt_action := Help |}.

Inductive token_class :=
| Arg
| Opt (o : option_spec) (explicit : option string)
| Ambiguous
| Unknown.

Definition split_eq (t : string) : string * option string :=
  match String.index 0 "=" t with
  | Some i =>
      (String.substring 0 i t,
       Some (String.substring (S i) (String.length t - S i) t))
  | None => (t, None)
  end.

Definition find_exact (opts : list option_spec) (s : string) : option option_spec :=
  List.find (fun o => bool_decide (s ∈ opt_strings o)) opts.

Definition find_abbrev (opts : list option_spec) (pre : string) : list option_spec :=
  List.filter (fun o => existsb (String.prefix pre) (opt_strings o)) opts.

Definition is_digit (c : ascii) : bool :=
  (48 <=? nat_of_ascii c)%nat && (nat_of_ascii c <=? 57)%nat.

Fixpoint all_digits (s : string) : bool :=
  match s with
  | EmptyString => true
  | String c s' => is_digit c && all_digits s'
  end.

(** the pattern [^-\d+$|^-\d*\.\d+$] *)
Definition negative_number (t : string) : bool :=
  match t with
  | String "-" body =>
      (negb (String.eqb body "") && all_digits body)
      || match String.index 0 "." body with
         | Some i =>
             let frac := String.substring (S i) (String.length body - S i) body in
             all_digits (String.substring 0 i body)
             && negb (String.eqb frac "") && all_digits frac
         | None => false
         end
  | _ => false
  end.

(** [_parse_optional] *)
Definition classify (opts : list option_spec) (t : string) : token_class :=
  if negb (String.prefix "-" t) then Arg
  else
    match find_exact opts t with
    | Some o => Opt o None
    | None =>
        if String.eqb t "-" then Arg
        else
          let '(key, explicit) := split_eq t in
          match (match explicit with
                 | Some _ => find_exact opts key
                 | None => None
                 end) with
          | Some o => Opt o explicit
          | None =>
              let candidates :=
                if String.prefix "--" t then find_abbrev opts key
                else
                  match find_exact opts (String.substring 0 2 t) with
                  | Some o => [o]
                  | None => []
                  end in
              match candidates with
              | [o] =>
                  if String.prefix "--" t then Opt o explicit
                  else Opt o (Some (String.substring 2 (String.length t - 2) t))
              | _ :: _ :: _ => Ambiguous
              | [] =>
                  if negative_number t then Arg
                  else if contains " " t then Arg
                  else Unknown
              end
          end
    end.

Definition check_choice (choices : option (list string)) (v : string) : bool :=
  match choices with
  | None => true
  | Some allowed => bool_decide (v ∈ allowed)
  end.

(** The scan of the argument strings.  [pending] is an option still
    waiting for its value; [extras] records that an unrecognized argument
    was seen, which is reported once the scan is over.  The scan follows
    argparse on the command lines the scripts document; around the help
    flag it is coarser than argparse, which accepts a cluster of short
    flags ([-hh]) and rejects an ambiguous abbreviation even when it
    stands after [-h]. *)
Fixpoint parse_loop (opts : list option_spec) (pending : option option_spec)
    (extras : bool) (ns : gmap string arg_value) (tokens : list string) : outcome :=
  match tokens with
  | [] =>
      match pending with
      | Some _ => Exit 2
      | None => if extras then Exit 2 else Parsed ns
      end
  | t :: rest =>
      match pending with
      | Some o =>
          match classify opts t, opt_action o with
          | Arg, Store choices =>
              if check_choice choices t
              then parse_loop opts None extras (<[opt_dest o := VStr t]> ns) rest
              else Exit 2
          | _, _ => Exit 2
          end
      | None =>
          match classify opts t with
          | Arg | Unknown => parse_loop opts None true ns rest
          | Ambiguous => Exit 2
          | Opt o explicit =>
              match opt_action o, explicit with
              | Help, None => Exit 0
              | Help, Some _ => Exit 2
              | StoreTrue, None =>
                  parse_loop opts None extras (<[opt_dest o := VFlag true]> ns) rest
              | StoreTrue, Some _ => Exit 2
              | Store choices, Some v =>
                  if check_choice choices v
                  then parse_loop opts None extras (<[opt_dest o := VStr v]> ns) rest
                  else Exit 2
              | Store _, None => parse_loop opts (Some o) extras ns rest
              end
          end
      end
  end.

(** [parser.parse_args()] on [sys.argv[1:]] *)
Definition parse_args (opts : list option_spec) (defaults : gmap string arg_value)
    (argv : list string) : outcome :=
  parse_loop (help_option :: opts) None false defaults argv.

(** Every option declared with [choices] holds one of them. *)
Definition respects_choices (opts : list option_spec) (ns : gmap string arg_value)
    : Prop :=
  forall o allowed,
    In o opts -> opt_action o = Store (Some allowed) ->
    exists v, ns !! opt_dest o = Some (VStr v) /\ In v allowed.

(** No two options write to the same attribute of the namespace. *)
Definition distinct_dests (opts : list option_spec) : Prop :=
  forall o o', In o opts -> In o' opts -> opt_dest o = opt_dest o' -> o = o'.

Definition get_str (ns : gmap string arg_value) (dest : string) : string :=
  match ns !! dest with
  | Some (VStr s) => s
  | _ => ""
  end.

Definition get_flag (ns : gmap string arg_value) (dest : string) : bool :=
  match ns !! dest with
  | Some (VFlag b) => b
  | _ => false
  end.

End Argparse.

(** * build_icu.py: the configure-driven strategy *)

Module Configure.

Record BuildConfig := {
  arch : string;
  build_type : string;
  embed_data : bool;
  icu_version : string;
  icu_tag : string
}.

(** The dataclass defaults. *)
Definition default_config : BuildConfig :=
  {| arch := "x64"; build_type := "Release"; embed_data := false;
     icu_version := "77.1"; icu_tag := "release-77-1" |}.

Definition lib_prefix (c : BuildConfig) : string :=
  if embed_data c then "s" else "".

Definition artifact_suffix (c : BuildConfig) : string :=
  if embed_data c then "static-data" else "separate-data".

Record ICUBuilder := {
  config : BuildConfig;
  workspace : path;
  source_dir : path;
  build_dir : path;
  cygwin_path : path
}.

(** [ICUBuilder.__init__] *)
Definition init (proc : Process) (c : BuildConfig) : ICUBuilder :=
  {| config := c;
     workspace := cwd proc;
     source_dir := cwd proc // ("icu-release-" +:+ icu_tag c) // "icu4c" // "source";
     build_dir := ["D:"; "icu-build"] // (arch c +:+ "-" +:+ build_type c);
     cygwin_path := ["D:"; "cygwin"] |}.

Section Methods.
Context (ext : Externals) (self : ICUBuilder).

Definition download_icu_source : M bool :=
  print "🔍 Checking for ICU source..." ;;;
  f <- get_fs ;;
  if path_exists f (source_dir self) then
    print ("✅ ICU source already available at: " +:+ str_of_path (source_dir self)) ;;;
    ret true
  else
    let source_zip := workspace self // "icu-source.zip" in
    let extract : M bool :=
      print "📦 Extracting ICU source..." ;;;
      try_except
        (extractall ext source_zip (workspace self) ;;;
         print ("✅ Extracted to: " +:+ str_of_path (source_dir self)) ;;;
         ret true)
        (fun e =>
           print ("❌ Failed to extract ICU source: " +:+ str_of_exn e) ;;;
           ret false) in
    if negb (path_exists f source_zip) then
      print ("📥 Downloading ICU " +:+ icu_version (config self) +:+ " source...") ;;;
      let url := "https://github.com/unicode-org/icu/archive/refs/tags/"
                 +:+ icu_tag (config self) +:+ ".zip" in
      downloaded <-
        try_except
          (http_download ext url source_zip ;;;
           print ("✅ Downloaded: " +:+ str_of_path source_zip) ;;;
           ret true)
          (fun e =>
             print ("❌ Failed to download ICU source: " +:+ str_of_exn e) ;;;
             ret false) ;;
      if downloaded then extract else ret false
    else extract.

Definition bash_exe : path := cygwin_path self // "bin" // "bash.exe".

Definition prepare_source : M bool :=
  print "🔧 Preparing ICU source for Windows build..." ;;;
  try_except
    (result <- run_process ext (CygwinBash bash_exe (PrepareScript (source_dir self))) ;;
     if negb (returncode result =? 0)%Z then
       print ("❌ Source preparation failed: " +:+ proc_stderr result) ;;;
       ret false
     else
       print "✅ ICU source prepared successfully" ;;;
       ret true)
    (fun e =>
       print ("❌ Failed to prepare source: " +:+ str_of_exn e) ;;;
       ret false).

Definition get_msvc_env : M (gmap string string) :=
  for_each ["VCINSTALLDIR"; "WindowsSdkBinPath"; "PATH"]
    (fun var =>
       when (bool_decide (environ ext !! var = None))
         (print ("⚠️  Warning: " +:+ var +:+ " not found in environment"))) ;;;
  ret (environ ext).

Definition configure_args : list string :=
  ["Cygwin/MSVC"; "--enable-static"; "--disable-shared"; "--disable-samples";
   "--disable-tests"; "--disable-extras";
   "--prefix=" +:+ String.concat "/" (build_dir self)]
  ++ (if embed_data (config self) then ["--with-data-packaging=static"] else []).

Definition configure_build : M bool :=
  print ("⚙️  Configuring ICU build (" +:+ arch (config self) +:+ " "
         +:+ build_type (config self) +:+ ")...") ;;;
  (if embed_data (config self)
   then print "📦 Using static data packaging (embedded data)"
   else print "📦 Using separate data packaging (.dat file)") ;;;
  get_msvc_env ;;;
  try_except
    (result <- run_process ext
                 (CygwinBash bash_exe
                    (ConfigureScript (source_dir self) (arch (config self)) configure_args)) ;;
     if negb (returncode result =? 0)%Z then
       print ("❌ Configure failed: " +:+ proc_stderr result) ;;;
       print ("stdout: " +:+ proc_stdout result) ;;;
       ret false
     else
       print "✅ Configure completed successfully" ;;;
       ret true)
    (fun e =>
       print ("❌ Configure failed: " +:+ str_of_exn e) ;;;
       ret false).

Definition build_icu : M bool :=
  print "🔨 Building ICU libraries..." ;;;
  try_except
    (get_msvc_env ;;;
     result <- run_process ext
                 (CygwinBash bash_exe (MakeScript (source_dir self) (arch (config self)))) ;;
     if negb (returncode result =? 0)%Z then
       print "❌ Build failed" ;;;
       ret false
     else
       print "✅ Build completed successfully" ;;;
       ret true)
    (fun e =>
       print ("❌ Build failed: " +:+ str_of_exn e) ;;;
       ret false).

Definition install_icu : M bool :=
  print "📦 Installing ICU..." ;;;
  try_except
    (get_msvc_env ;;;
     result <- run_process ext
                 (CygwinBash bash_exe
                    (InstallScript (source_dir self) (arch (config self)) (build_dir self))) ;;
     if negb (returncode result =? 0)%Z then
       print "❌ Install failed" ;;;
       ret false
     else
       print "✅ Install completed successfully" ;;;
       ret true)
    (fun e =>
       print ("❌ Install failed: " +:+ str_of_exn e) ;;;
       ret false).

Definition artifact_name : string :=
  "icu-" +:+ arch (config self) +:+ "-" +:+ build_type (config self)
  +:+ "-" +:+ artifact_suffix (config self).

Definition artifact_dir : path := workspace self // artifact_name.

(** The four places searched for [.dat] files; the last two are relative
    paths, resolved against the working directory, which is the
    workspace. *)
Definition data_paths : list path :=
  [ source_dir self // "data" // "out";
    source_dir self // "data" // "out" // "tmp";
    workspace self // "icu-release-77-1" // "icu4c" // "data" // "out";
    workspace self // "icu-release-77-1" // "icu4c" // "data" ].

Definition build_info : string :=
  "ICU Version: " +:+ icu_version (config self) +:+ "
Architecture: " +:+ arch (config self) +:+ "
Build Type: " +:+ build_type (config self) +:+ "
Compiler: MSVC (Visual Studio 2022)
Build Environment: Python + Cygwin/MSVC
Data Packaging: "
  +:+ (if embed_data (config self) then "Static (embedded)" else "Separate (.dat files)") +:+ "
Library Prefix: "
  +:+ (if String.eqb (lib_prefix (config self)) "" then "none" else lib_prefix (config self)) +:+ "
Build Date: " +:+ now ext +:+ "
".

(** The [for data_path in data_paths] loop of [package_artifacts]; the
    result is its [data_found] flag. *)
Definition copy_data_files (paths : list path) : M bool :=
  for_fold paths false
    (fun data_path found =>
       f <- get_fs ;;
       if path_exists f data_path then
         for_fold (glob f data_path ".dat") found
           (fun dat_file _ =>
              size <- stat_size dat_file ;;
              print ("📊 Copying data file: " +:+ path_name dat_file
                     +:+ " (" +:+ fmt_mb ext size +:+ " MB)") ;;;
              copy2 ext dat_file (artifact_dir // "data") ;;;
              ret true)
       else ret found).

Definition package_artifacts : M bool :=
  print "📋 Packaging artifacts..." ;;;
  (* Clean and create artifact directory *)
  f <- get_fs ;;
  when (path_exists f artifact_dir) (rmtree ext artifact_dir) ;;;
  mkdir ext artifact_dir ;;;
  mkdir ext (artifact_dir // "lib") ;;;
  mkdir ext (artifact_dir // "include") ;;;
  mkdir ext (artifact_dir // "bin") ;;;
  (* Copy libraries *)
  let lib_src := build_dir self // "lib" in
  f <- get_fs ;;
  when (path_exists f lib_src)
    (print ("📚 Copying libraries from: " +:+ str_of_path lib_src) ;;;
     for_each (glob f lib_src ".lib")
       (fun lib_file => copy2 ext lib_file (artifact_dir // "lib"))) ;;;
  (* Copy headers *)
  let include_src := build_dir self // "include" in
  f <- get_fs ;;
  when (path_exists f include_src)
    (print ("📄 Copying headers from: " +:+ str_of_path include_src) ;;;
     copytree ext include_src (artifact_dir // "include")) ;;;
  (* Copy binaries if they exist *)
  let bin_src := build_dir self // "bin" in
  f <- get_fs ;;
  when (path_exists f bin_src)
    (print ("⚙️  Copying binaries from: " +:+ str_of_path bin_src) ;;;
     for_each (glob f bin_src ".exe")
       (fun bin_file => copy2 ext bin_file (artifact_dir // "bin"))) ;;;
  (* Handle data files for separate data builds *)
  when (negb (embed_data (config self)))
    (mkdir ext (artifact_dir // "data") ;;;
     data_found <- copy_data_files data_paths ;;
     when (negb data_found) (print "⚠️  Warning: No .dat files found")) ;;;
  (* Create build info file *)
  write_file ext (artifact_dir // "BUILD_INFO.txt") build_info ;;;
  (* Create zip archive *)
  let zip_path := workspace self // (artifact_name +:+ ".zip") in
  zip_tree ext zip_path artifact_dir ;;;
  print ("✅ Artifacts packaged: " +:+ str_of_path zip_path) ;;;
  ret true.

Definition verify_build : M bool :=
  print "🔍 Verifying build output..." ;;;
  let lib_dir := build_dir self // "lib" in
  f <- get_fs ;;
  if negb (path_exists f lib_dir) then
    print ("❌ Library directory not found: " +:+ str_of_path lib_dir) ;;;
    ret false
  else
    (* Check for libraries *)
    let lib_files := glob f lib_dir ".lib" in
    match lib_files with
    | [] =>
        print "❌ No library files found" ;;;
        ret false
    | _ =>
        print "📚 Static libraries built:" ;;;
        total_size <-
          for_fold lib_files O
            (fun lib_file total =>
               size <- stat_size lib_file ;;
               print ("  " +:+ path_name lib_file +:+ " (" +:+ fmt_mb ext size +:+ " MB)") ;;;
               ret (total + size)%nat) ;;
        (* Check headers *)
        let include_dir := build_dir self // "include" // "unicode" in
        if path_exists f include_dir then
          let header_count := length (glob f include_dir ".h") in
          print ("📄 Header files installed: " +:+ pretty header_count +:+ " files") ;;;
          (* Data verification *)
          (if embed_data (config self) then
             let data_lib := lib_dir // (lib_prefix (config self) +:+ "icudt.lib") in
             if path_exists f data_lib then
               size <- stat_size data_lib ;;
               print ("📊 Data library: " +:+ path_name data_lib +:+ " ("
                      +:+ fmt_mb ext size +:+ " MB) - embedded data")
             else print "⚠️  Data library not found"
           else print "📊 Data files should be in separate .dat files") ;;;
          print ("✅ Build verification completed - Total library size: "
                 +:+ fmt_mb ext total_size +:+ " MB") ;;;
          ret true
        else
          print "❌ Headers not found" ;;;
          ret false
    end.

(** The [for step_name, step_func in steps] loop of [build]. *)
Fixpoint run_steps (steps : list (string * M bool)) : M bool :=
  match steps with
  | [] =>
      print "🎉 ICU build completed successfully!" ;;;
      ret true
  | (step_name, step_func) :: rest =>
      print banner ;;;
      print ("🔸 " +:+ step_name) ;;;
      print banner ;;;
      ok <- step_func ;;
      if negb ok then
        print ("❌ Build failed at step: " +:+ step_name) ;;;
        ret false
      else
        print "" ;;;
        run_steps rest
  end.

Definition steps : list (string * M bool) :=
  [ ("Download ICU source", download_icu_source);
    ("Prepare source", prepare_source);
    ("Configure build", configure_build);
    ("Build ICU", build_icu);
    ("Install ICU", install_icu);
    ("Package artifacts", package_artifacts);
    ("Verify build", verify_build) ].

Definition build : M bool :=
  print ("🚀 Starting ICU " +:+ icu_version (config self) +:+ " build...") ;;;
  print ("   Architecture: " +:+ arch (config self)) ;;;
  print ("   Build Type: " +:+ build_type (config self)) ;;;
  print ("   Data Packaging: " +:+ (if embed_data (config self) then "Embedded" else "Separate")) ;;;
  print "" ;;;
  run_steps steps.

End Methods.

(** [main], with [argv] standing for [sys.argv[1:]].  The result is the
    status passed to [sys.exit], or the exception that escapes [main]. *)
Definition parser : list Argparse.option_spec :=
  [ {| Argparse.opt_strings := ["--arch"]; Argparse.opt_dest := "arch";
       Argparse.opt_action := Argparse.Store (Some ["x64"; "x86"]) |};
    {| Argparse.opt_strings := ["--build-type"]; Argparse.opt_dest := "build_type";
       Argparse.opt_action := Argparse.Store (Some ["Release"; "Debug"]) |};
    {| Argparse.opt_strings := ["--embed-data"]; Argparse.opt_dest := "embed_data";
       Argparse.opt_action := Argparse.StoreTrue |};
    {| Argparse.opt_strings := ["--version"]; Argparse.opt_dest := "version";
       Argparse.opt_action := Argparse.Store None |};
    {| Argparse.opt_strings := ["--tag"]; Argparse.opt_dest := "tag";
       Argparse.opt_action := Argparse.Store None |} ].

Definition parser_defaults : gmap string Argparse.arg_value :=
  list_to_map
    [ ("arch", Argparse.VStr "x64");
      ("build_type", Argparse.VStr "Release");
      ("embed_data", Argparse.VFlag false);
      ("version", Argparse.VStr "77.1");
      ("tag", Argparse.VStr "release-77-1") ].

(** [config = BuildConfig(arch=args.arch, ...)] *)
Definition config_of_args (args : gmap string Argparse.arg_value) : BuildConfig :=
  {| arch := Argparse.get_str args "arch";
     build_type := Argparse.get_str args "build_type";
     embed_data := Argparse.get_flag args "embed_data";
     icu_version := Argparse.get_str args "version";
     icu_tag := Argparse.get_str args "tag" |}.

Definition main (ext : Externals) (proc : Process) (argv : list string) : M Z :=
  match Argparse.parse_args parser parser_defaults argv with
  | Argparse.Exit code => ret code
  | Argparse.Parsed args =>
      let config := config_of_args args in
      let builder := init proc config in
      success <- build ext builder ;;
      ret (if success then 0 else 1)%Z
  end.

End Configure.

(** * build_icu_native.py: the project-file-driven strategy *)

Module Native.

Record BuildConfig := {
  arch : string;
  build_type : string;
  icu_version : string;
  icu_tag : string
}.

Definition default_config : BuildConfig :=
  {| arch := "x64"; build_type := "Release";
     icu_version := "77.1"; icu_tag := "release-77-1" |}.

Definition artifact_name (c : BuildConfig) : string :=
  "icu-" +:+ arch c +:+ "-" +:+ build_type c.

Record ICUNativeBuilder := {
  config : BuildConfig;
  workspace : path;
  source_dir : path;
  solution_path : path
}.

(** [ICUNativeBuilder.__init__] *)
Definition init (proc : Process) (c : BuildConfig) : ICUNativeBuilder :=
  let src := cwd proc // ("icu-release-" +:+ icu_tag c) // "icu4c" // "source" in
  {| config := c;
     workspace := cwd proc;
     source_dir := src;
     solution_path := src // "allinone" // "allinone.sln" |}.

(** The dictionary built by [locate_build_artifacts]; its three keys are
    fixed, so it is a record of three lists. *)
Record artifacts := {
  lib_files : list path;
  exe_files : list path;
  dat_files : list path
}.

Section Methods.
Context (ext : Externals) (self : ICUNativeBuilder).

Definition download_icu_source : M bool :=
  print "🔍 Checking for ICU source..." ;;;
  f <- get_fs ;;
  if path_exists f (source_dir self) then
    print ("✅ ICU source already available at: " +:+ str_of_path (source_dir self)) ;;;
    ret true
  else
    let source_zip := workspace self // "icu-source.zip" in
    let extract : M bool :=
      print "📦 Extracting ICU source..." ;;;
      try_except
        (extractall ext source_zip (workspace self) ;;;
         print ("✅ Extracted to: " +:+ str_of_path (source_dir self)) ;;;
         ret true)
        (fun e =>
           print ("❌ Failed to extract ICU source: " +:+ str_of_exn e) ;;;
           ret false) in
    if negb (path_exists f source_zip) then
      print ("📥 Downloading ICU " +:+ icu_version (config self) +:+ " source...") ;;;
      let url := "https://github.com/unicode-org/icu/archive/refs/tags/"
                 +:+ icu_tag (config self) +:+ ".zip" in
      downloaded <-
        try_except
          (http_download ext url source_zip ;;;
           print ("✅ Downloaded: " +:+ str_of_path source_zip) ;;;
           ret true)
          (fun e =>
             print ("❌ Failed to download ICU source: " +:+ str_of_exn e) ;;;
             ret false) ;;
      if downloaded then extract else ret false
    else extract.

Definition verify_visual_studio_solution : M bool :=
  print "🔍 Verifying Visual Studio solution..." ;;;
  f <- get_fs ;;
  if negb (path_exists f (solution_path self)) then
    print ("❌ Visual Studio solution not found at: " +:+ str_of_path (solution_path self)) ;;;
    let allinone_dir := source_dir self // "allinone" in
    (if path_exists f allinone_dir then
       print "📁 Available files in allinone directory:" ;;;
       files <- iterdir ext allinone_dir ;;
       for_each files (fun file => print ("  " +:+ path_name file))
     else print "❌ allinone directory does not exist") ;;;
    ret false
  else
    print ("✅ Found Visual Studio solution: " +:+ str_of_path (solution_path self)) ;;;
    ret true.

Definition toolset_v140 : string := "<PlatformToolset>v140</PlatformToolset>".
Definition toolset_v141 : string := "<PlatformToolset>v141</PlatformToolset>".
Definition toolset_v143 : string := "<PlatformToolset>v143</PlatformToolset>".

Definition update_visual_studio_toolset : M bool :=
  print "🔧 Updating project configuration for Visual Studio 2022..." ;;;
  let props_file := source_dir self // "allinone" // "Build.Windows.ProjectConfiguration.props" in
  f <- get_fs ;;
  if negb (path_exists f props_file) then
    print ("⚠️  Warning: Could not find project configuration file: "
           +:+ str_of_path props_file) ;;;
    ret true
  else
    try_except
      (content <- read_text ext props_file ;;
       let has141 := contains toolset_v141 content in
       let content1 := if has141 then replace toolset_v141 toolset_v143 content else content in
       let has140 := contains toolset_v140 content1 in
       let content2 := if has140 then replace toolset_v140 toolset_v143 content1 else content1 in
       let updated := has141 || has140 in
       (if updated then
          write_text ext props_file content2 ;;;
          print "✅ Updated toolset to v143 (Visual Studio 2022)"
        else print "ℹ️  Toolset already up to date or not found") ;;;
       ret true)
      (fun e =>
         print ("⚠️  Warning: Failed to update toolset: " +:+ str_of_exn e) ;;;
         ret true).

Definition msbuild_args : list string :=
  [ "msbuild";
    str_of_path (solution_path self);
    "/p:Configuration=" +:+ build_type (config self);
    "/p:Platform=" +:+ arch (config self);
    "/p:SkipUWP=true";
    "/p:UseDebugLibraries="
      +:+ (if String.eqb (build_type (config self)) "Debug" then "true" else "false");
    "/m";
    "/verbosity:normal" ].

Definition build_icu_with_msbuild : M bool :=
  print ("🔨 Building ICU with MSBuild (" +:+ arch (config self) +:+ " "
         +:+ build_type (config self) +:+ ")...") ;;;
  print ("🚀 Running: " +:+ String.concat " " msbuild_args) ;;;
  try_except
    (result <- run_process ext (Argv msbuild_args) ;;
     if negb (returncode result =? 0)%Z then
       print ("❌ Initial ICU build failed with exit code " +:+ pretty (returncode result)) ;;;
       print ("STDOUT: " +:+ proc_stdout result) ;;;
       print ("STDERR: " +:+ proc_stderr result) ;;;
       ret false
     else
       print "✅ Initial ICU build completed successfully" ;;;
       print "📊 Building full ICU data library..." ;;;
       let makedata_args := (msbuild_args ++ ["/target:MakeData"])%list in
       result <- run_process ext (Argv makedata_args) ;;
       if negb (returncode result =? 0)%Z then
         print ("❌ ICU data build failed with exit code " +:+ pretty (returncode result)) ;;;
         print ("STDOUT: " +:+ proc_stdout result) ;;;
         print ("STDERR: " +:+ proc_stderr result) ;;;
         ret false
       else
         print "✅ Full ICU data build completed successfully" ;;;
         ret true)
    (fun e =>
       print ("❌ Build failed: " +:+ str_of_exn e) ;;;
       ret false).

Definition icu4c : path := workspace self // ("icu-release-" +:+ icu_tag (config self)) // "icu4c".

Definition possible_paths : list path :=
  [ icu4c // "bin64";
    icu4c // "lib64";
    icu4c // "bin";
    icu4c // "lib";
    source_dir self // ".." // ".." // "lib64";
    source_dir self // ".." // ".." // "bin64" ].

Definition data_paths : list path :=
  [ source_dir self // "data" // "out";
    source_dir self // "data" // "out" // "tmp";
    icu4c // "data" // "out";
    icu4c // "data" ].

(** The body of [locate_build_artifacts], over the two lists of candidate
    directories it searches. *)
Definition locate (possible_paths data_paths : list path) : M artifacts :=
  print "🔍 Locating build artifacts..." ;;;
  found <-
    for_fold possible_paths ([], [])
      (fun p (acc : list path * list path) =>
         f <- get_fs ;;
         if path_exists f p then
           print ("📁 Checking directory: " +:+ str_of_path p) ;;;
           (* Look for .lib files *)
           let libs := glob f p ".lib" in
           when (negb (bool_decide (libs = [])))
             (print ("  Found " +:+ pretty (length libs) +:+ " .lib files")) ;;;
           (* Look for .exe files *)
           let exes := glob f p ".exe" in
           when (negb (bool_decide (exes = [])))
             (print ("  Found " +:+ pretty (length exes) +:+ " .exe files")) ;;;
           ret ((fst acc ++ libs)%list, (snd acc ++ exes)%list)
         else ret acc) ;;
  (* Look for data files in specific locations *)
  dats <-
    for_fold data_paths []
      (fun data_path (acc : list path) =>
         f <- get_fs ;;
         if path_exists f data_path then
           let dat := glob f data_path ".dat" in
           when (negb (bool_decide (dat = [])))
             (print ("📊 Found " +:+ pretty (length dat) +:+ " .dat files in: "
                     +:+ str_of_path data_path)) ;;;
           ret (acc ++ dat)%list
         else ret acc) ;;
  ret {| lib_files := fst found; exe_files := snd found; dat_files := dats |}.

Definition locate_build_artifacts : M artifacts := locate possible_paths data_paths.

Definition artifact_dir : path := workspace self // artifact_name (config self).

Definition header_paths : list path :=
  [ source_dir self // "common" // "unicode";
    source_dir self // "i18n" // "unicode";
    source_dir self // "io" // "unicode" ].

Definition build_info : string :=
  "ICU Version: " +:+ icu_version (config self) +:+ "
Architecture: " +:+ arch (config self) +:+ "
Build Type: " +:+ build_type (config self) +:+ "
Compiler: MSVC (Visual Studio 2022)
Build Environment: Native Windows (MSBuild)
Build Date: " +:+ now ext +:+ "
Static Libraries: Yes
Shared Libraries: No
Data Library: Complete (built with MakeData target)
Data Packaging: Built-in DLL + .dat files
".

Definition package_artifacts : M bool :=
  print "📦 Packaging artifacts..." ;;;
  artifacts <- locate_build_artifacts ;;
  match lib_files artifacts with
  | [] =>
      print "❌ No .lib files found in any expected location" ;;;
      ret false
  | _ =>
      (* Clean and create artifact directory *)
      f <- get_fs ;;
      when (path_exists f artifact_dir) (rmtree ext artifact_dir) ;;;
      mkdir ext artifact_dir ;;;
      mkdir ext (artifact_dir // "lib") ;;;
      mkdir ext (artifact_dir // "include") ;;;
      mkdir ext (artifact_dir // "bin") ;;;
      mkdir ext (artifact_dir // "data") ;;;
      (* Copy libraries *)
      print ("📚 Copying " +:+ pretty (length (lib_files artifacts)) +:+ " library files...") ;;;
      for_each (lib_files artifacts)
        (fun lib_file =>
           copy2 ext lib_file (artifact_dir // "lib") ;;;
           size <- stat_size lib_file ;;
           print ("  " +:+ path_name lib_file +:+ " (" +:+ fmt_mb ext size +:+ " MB)")) ;;;
      (* Copy headers *)
      let unicode_include_dir := artifact_dir // "include" // "unicode" in
      mkdir ext unicode_include_dir ;;;
      for_each header_paths
        (fun header_path =>
           f <- get_fs ;;
           when (path_exists f header_path)
             (print ("📄 Copying headers from: " +:+ str_of_path header_path) ;;;
              for_each (glob f header_path ".h")
                (fun header_file => copy2 ext header_file unicode_include_dir))) ;;;
      (* Copy binaries *)
      when (negb (bool_decide (exe_files artifacts = [])))
        (print ("⚙️  Copying " +:+ pretty (length (exe_files artifacts))
                +:+ " executable files...") ;;;
         for_each (exe_files artifacts)
           (fun exe_file => copy2 ext exe_file (artifact_dir // "bin"))) ;;;
      (* Copy data files *)
      (if negb (bool_decide (dat_files artifacts = [])) then
         print ("📊 Copying " +:+ pretty (length (dat_files artifacts)) +:+ " data files...") ;;;
         for_each (dat_files artifacts)
           (fun dat_file =>
              size <- stat_size dat_file ;;
              print ("  " +:+ path_name dat_file +:+ " (" +:+ fmt_mb ext size +:+ " MB)") ;;;
              copy2 ext dat_file (artifact_dir // "data"))
       else print "⚠️  Warning: No .dat files found - ICU data may be incomplete") ;;;
      (* Create build info file *)
      write_file ext (artifact_dir // "BUILD_INFO.txt") build_info ;;;
      (* Create zip archive *)
      let zip_path := workspace self // (artifact_name (config self) +:+ ".zip") in
      zip_tree ext zip_path artifact_dir ;;;
      print ("✅ Artifacts packaged: " +:+ str_of_path zip_path) ;;;
      ret true
  end.

Definition verify_build : M bool :=
  print "🔍 Verifying build output..." ;;;
  (* Check libraries *)
  let lib_dir := artifact_dir // "lib" in
  f <- get_fs ;;
  if negb (path_exists f lib_dir) then
    print ("❌ Library directory not found: " +:+ str_of_path lib_dir) ;;;
    ret false
  else
    let libs := glob f lib_dir ".lib" in
    match libs with
    | [] =>
        print "❌ No library files found" ;;;
        ret false
    | _ =>
        print "📚 Static libraries built:" ;;;
        total_size <-
          for_fold libs O
            (fun lib_file total =>
               size <- stat_size lib_file ;;
               print ("  " +:+ path_name lib_file +:+ " (" +:+ fmt_mb ext size +:+ " MB)") ;;;
               ret (total + size)%nat) ;;
        (* Check headers *)
        let include_dir := artifact_dir // "include" // "unicode" in
        if path_exists f include_dir then
          let header_count := length (glob f include_dir ".h") in
          print ("📄 Header files installed: " +:+ pretty header_count +:+ " files") ;;;
          (* Check data files *)
          let data_dir := artifact_dir // "data" in
          when (path_exists f data_dir)
            (match glob f data_dir ".dat" with
             | [] => print "⚠️  Warning: No data files found"
             | dats =>
                 print "📊 ICU data files:" ;;;
                 for_each dats
                   (fun dat_file =>
                      size <- stat_size dat_file ;;
                      print ("  " +:+ path_name dat_file +:+ " ("
                             +:+ fmt_mb ext size +:+ " MB)"))
             end) ;;;
          print ("✅ Build verification completed - Total library size: "
                 +:+ fmt_mb ext total_size +:+ " MB") ;;;
          ret true
        else
          print "❌ Headers not found" ;;;
          ret false
    end.

(** The [for step_name, step_func in steps] loop of [build]. *)
Fixpoint run_steps (steps : list (string * M bool)) : M bool :=
  match steps with
  | [] =>
      print "🎉 ICU native MSVC build completed successfully!" ;;;
      ret true
  | (step_name, step_func) :: rest =>
      print banner ;;;
      print ("🔸 " +:+ step_name) ;;;
      print banner ;;;
      ok <- step_func ;;
      if negb ok then
        print ("❌ Build failed at step: " +:+ step_name) ;;;
        ret false
      else
        print "" ;;;
        run_steps rest
  end.

Definition steps : list (string * M bool) :=
  [ ("Download ICU source", download_icu_source);
    ("Verify Visual Studio solution", verify_visual_studio_solution);
    ("Update Visual Studio toolset", update_visual_studio_toolset);
    ("Build ICU with MSBuild", build_icu_with_msbuild);
    ("Package artifacts", package_artifacts);
    ("Verify build", verify_build) ].

Definition build : M bool :=
  print ("🚀 Starting ICU " +:+ icu_version (config self) +:+ " native MSVC build...") ;;;
  print ("   Architecture: " +:+ arch (config self)) ;;;
  print ("   Build Type: " +:+ build_type (config self)) ;;;
  print "" ;;;
  run_steps steps.

End Methods.

(** [main], with [argv] standing for [sys.argv[1:]]. *)
Definition parser : list Argparse.option_spec :=
  [ {| Argparse.opt_strings := ["--arch"]; Argparse.opt_dest := "arch";
       Argparse.opt_action := Argparse.Store (Some ["x64"; "x86"]) |};
    {| Argparse.opt_strings := ["--build-type"]; Argparse.opt_dest := "build_type";
       Argparse.opt_action := Argparse.Store (Some ["Release"; "Debug"]) |};
    {| Argparse.opt_strings := ["--version"]; Argparse.opt_dest := "version";
       Argparse.opt_action := Argparse.Store None |};
    {| Argparse.opt_strings := ["--tag"]; Argparse.opt_dest := "tag";
       Argparse.opt_action := Argparse.Store None |} ].

Definition parser_defaults : gmap string Argparse.arg_value :=
  list_to_map
    [ ("arch", Argparse.VStr "x64");
      ("build_type", Argparse.VStr "Release");
      ("version", Argparse.VStr "77.1");
      ("tag", Argparse.VStr "release-77-1") ].

(** [config = BuildConfig(arch=args.arch, ...)] *)
Definition config_of_args (args : gmap string Argparse.arg_value) : BuildConfig :=
  {| arch := Argparse.get_str args "arch";
     build_type := Argparse.get_str args "build_type";
     icu_version := Argparse.get_str args "version";
     icu_tag := Argparse.get_str args "tag" |}.

Definition main (ext : Externals) (proc : Process) (argv : list string) : M Z :=
  match Argparse.parse_args parser parser_defaults argv with
  | Argparse.Exit code => ret code
  | Argparse.Parsed args =>
      let config := config_of_args args in
      let builder := init proc config in
      success <- build ext builder ;;
      ret (if success then 0 else 1)%Z
  end.

End Native.

(** * The Pipeline of the specification

    One loop for every strategy: announce the step, call its action, stop
    at the first [False].  The loop is instrumented with the names of the
    steps whose action it has called, oldest first. *)

Module Pipeline.

Definition announce (name : string) : M unit :=
  print banner ;;;
  print ("🔸 " +:+ name) ;;;
  print banner.

(** The world in which the action of a step named [name] starts. *)
Definition announced (name : string) (w : world) : world := snd (announce name w).

(** The world after the loop has acknowledged a successful step. *)
Definition acknowledged (w : world) : world := snd (print "" w).

(** The world after the loop has reported the failing step. *)
Definition failed_at (name : string) (w : world) : world :=
  snd (print ("❌ Build failed at step: " +:+ name) w).

Definition completed (message : string) (w : world) : world := snd (print message w).

Fixpoint run_traced (message : string) (steps : list (string * M bool)) (w : world)
    : (result bool * world) * list string :=
  match steps with
  | [] => ((Ok true, completed message w), [])
  | (name, action) :: rest =>
      match action (announced name w) with
      | (Ok true, w') =>
          let '(r, called) := run_traced message rest (acknowledged w') in
          (r, name :: called)
      | (Ok false, w') => ((Ok false, failed_at name w'), [name])
      | (Raise e, w') => ((Raise e, w'), [name])
      end
  end.

Definition run (message : string) (steps : list (string * M bool)) : M bool :=
  fun w => fst (run_traced message steps w).

Definition invoked (message : string) (steps : list (string * M bool)) (w : world)
    : list string :=
  snd (run_traced message steps w).

(** The world reached when every step of [steps] succeeds from [w]. *)
Fixpoint after_successes (steps : list (string * M bool)) (w : world) : option world :=
  match steps with
  | [] => Some w
  | (name, action) :: rest =>
      match action (announced name w) with
      | (Ok true, w') => after_successes rest (acknowledged w')
      | _ => None
      end
  end.

End Pipeline.

(** * The mandatory postconditions checked by verification

    What both [verify_build] methods require of the directory [root] they
    inspect: a [lib] directory holding at least one [*.lib] entry, and an
    [include/unicode] directory. *)

Module Verifier.

Definition has_libraries (f : gmap path node) (root : path) : bool :=
  path_exists f (root // "lib")
  && negb (bool_decide (glob f (root // "lib") ".lib" = [])).

Definition has_header_dir (f : gmap path node) (root : path) : bool :=
  path_exists f (root // "include" // "unicode").

Definition verdict (f : gmap path node) (root : path) : bool :=
  has_libraries f root && has_header_dir f root.

End Verifier.

(** [m] returns normally from every world. *)
Definition never_raises {A} (m : M A) : Prop :=
  forall w, exists a w', m w = (Ok a, w').

(** The world [w] after more lines have been printed. *)
Definition add_lines (lines : list string) (w : world) : world :=
  World (fs w) (stdout w ++ lines) (http_log w) (proc_log w).

(** [m] run in [w] returns [a] and does nothing but print [lines]. *)
Definition emits {A} (m : M A) (w : world) (a : A) (lines : list string) : Prop :=
  m w = (Ok a, add_lines lines w).

(** * What a search of candidate directories finds

    The entries ending in [suf] of the candidate directories that exist,
    in the order of the candidates; a candidate that does not exist
    contributes nothing. *)

Module Locator.

Definition found_in (f : gmap path node) (suf : string) (candidates : list path)
    : list path :=
  flat_map (fun p => if path_exists f p then glob f p suf else []) candidates.

End Locator.

(** * Concrete scenarios

    A silent environment (no network, a toolchain that always exits with
    status 0 and changes nothing, no I/O faults) and small trees on which
    the scripts are evaluated. *)

Module Scenario.

Definition quiet : Externals :=
  {| requests_get := fun _ _ => inl RequestException;
     subprocess_run := fun _ w => inr (Completed 0 "" "", fs w);
     zip_encode := fun members => String.concat ";" (List.map (fun e => str_of_path (fst e)) members);
     zip_decode := fun _ => None;
     environ := ∅;
     now := "2025-01-01 00:00:00 UTC";
     fmt_mb := fun n => pretty (n / 1024 / 1024)%nat;
     io_fault := fun _ _ => None |}.

Definition proc : Process := {| cwd := ["W"] |}.

Definition tree (l : list (path * node)) : world := World (list_to_map l) [] [] [].

Definition configure_builder : Configure.ICUBuilder :=
  Configure.init proc Configure.default_config.

Definition embedded_builder : Configure.ICUBuilder :=
  Configure.init proc
    {| Configure.arch := "x64"; Configure.build_type := "Release";
       Configure.embed_data := true; Configure.icu_version := "77.1";
       Configure.icu_tag := "release-77-1" |}.

Definition native_builder : Native.ICUNativeBuilder :=
  Native.init proc Native.default_config.

(** Only the workspace directory. *)
Definition bare : world := tree [(["W"], Dir)].

(** Three stub steps: the first succeeds, the second fails, the third
    would raise if it were ever called. *)
Definition stub_first : string * M bool := ("first", print "first ran" ;;; ret true).
Definition stub_second : string * M bool := ("second", print "second ran" ;;; ret false).
Definition stub_third : string * M bool := ("third", raise OSError).

Definition source_tree : list (path * node) :=
  [ (["W"], Dir);
    (["W"; "icu-release-release-77-1"], Dir);
    (["W"; "icu-release-release-77-1"; "icu4c"], Dir);
    (["W"; "icu-release-release-77-1"; "icu4c"; "source"], Dir) ].

(** The unpacked source tree only. *)
Definition unpacked : world := tree source_tree.

(** The source tree, and a regular file where the configure-driven
    strategy puts its artifact directory. *)
Definition stale_artifact : world :=
  tree (source_tree ++ [(["W"; "icu-x64-Release-separate-data"], File "stale")]).

(** The source tree with its solution file and one built library, and a
    regular file where the project-file-driven strategy puts its artifact
    directory. *)
Definition native_stale_artifact : world :=
  tree (source_tree
        ++ [ (["W"; "icu-release-release-77-1"; "icu4c"; "source"; "allinone"], Dir);
             (["W"; "icu-release-release-77-1"; "icu4c"; "source"; "allinone"; "allinone.sln"],
              File "solution");
             (["W"; "icu-release-release-77-1"; "icu4c"; "lib64"], Dir);
             (["W"; "icu-release-release-77-1"; "icu4c"; "lib64"; "icuuc.lib"], File "library");
             (["W"; "icu-x64-Release"], File "stale") ]).

(** A configuration that no command line can produce. *)
Definition unvalidated_config : Configure.BuildConfig :=
  {| Configure.arch := "arm64"; Configure.build_type := "Fast";
     Configure.embed_data := false; Configure.icu_version := "77.1";
     Configure.icu_tag := "release-77-1" |}.

(** A directory with one library and an [include/unicode] directory that
    holds no header. *)
Definition layout_without_headers (root : path) : list (path * node) :=
  [ (root, Dir);
    (root // "lib", Dir);
    (root // "lib" // "icuuc.lib", File "library");
    (root // "include", Dir);
    (root // "include" // "unicode", Dir) ].

(** A directory with one library and no [include/unicode] directory. *)
Definition layout_without_header_dir (root : path) : list (path * node) :=
  [ (root, Dir);
    (root // "lib", Dir);
    (root // "lib" // "icuuc.lib", File "library");
    (root // "include", Dir) ].

Definition native_packaged : path := ["W"; "icu-x64-Release"].
Definition configure_packaged : path := ["W"; "icu-x64-Release-static-data"].
Definition install_prefix : path := ["D:"; "icu-build"; "x64-Release"].

(** Both packaged directories hold a library and an empty header
    directory; nothing is installed under the install prefix. *)
Definition packaged_without_headers : world :=
  tree ([(["W"], Dir)]
        ++ layout_without_headers native_packaged
        ++ layout_without_headers configure_packaged).

(** The install prefix holds a library and an empty header directory. *)
Definition installed_without_headers : world :=
  tree ([(["D:"], Dir); (["D:"; "icu-build"], Dir)]
        ++ layout_without_headers install_prefix).

Definition packaged_without_header_dir : world :=
  tree ([(["W"], Dir); (["D:"], Dir); (["D:"; "icu-build"], Dir)]
        ++ layout_without_header_dir native_packaged
        ++ layout_without_header_dir install_prefix).

End Scenario.

(** * Footprints

    [respects R m]: whatever its outcome, [m] leaves a world related by [R]
    to the one it started in. *)

Definition respects {A} (R : world -> world -> Prop) (m : M A) : Prop :=
  forall w r w', m w = (r, w') -> R w w'.

Definition same_http (w w' : world) : Prop := http_log w' = http_log w.

Definition same_procs (w w' : world) : Prop := proc_log w' = proc_log w.

Definition same_fs (w w' : world) : Prop := fs w' = fs w.

(** Nothing is created, changed or removed at the keys outside [S]. *)
Definition same_outside (S : path -> Prop) (w w' : world) : Prop :=
  forall k, ~ S k -> fs w' !! k = fs w !! k.

(** Neither log grows. *)
Definition same_logs (w w' : world) : Prop :=
  http_log w' = http_log w /\ proc_log w' = proc_log w.

(** A component that names an entry, not [.] or [..]. *)
Definition plain (c : string) : Prop := c <> ".." /\ c <> ".".

(** * Outcomes of a toolchain call *)

Module Toolchain.

(** The process could be started and exited with status 0. *)
Definition exit_ok (o : exn + (completed_process * gmap path node)) : bool :=
  match o with
  | inr (cp, _) => (returncode cp =? 0)%Z
  | inl _ => false
  end.

(** The tree after the call: the one the process leaves, or the old one
    when the process could not be started. *)
Definition tree_after (o : exn + (completed_process * gmap path node))
    (f : gmap path node) : gmap path node :=
  match o with
  | inr (_, f') => f'
  | inl _ => f
  end.

(** A world in which [c] is being run from [w]: the same tree and network
    log, and [c] as the latest entry of the process log. *)
Definition calling (c : command) (w at_call : world) : Prop :=
  fs at_call = fs w
  /\ http_log at_call = http_log w
  /\ proc_log at_call = proc_log w ++ [c].

End Toolchain.

Module ScenarioNet.

(** A network whose connection breaks after two bytes. *)
Definition flaky : Externals :=
  {| requests_get := fun _ _ => inr ("PK", Some RequestException);
     subprocess_run := subprocess_run Scenario.quiet;
     zip_encode := zip_encode Scenario.quiet;
     zip_decode := zip_decode Scenario.quiet;
     environ := environ Scenario.quiet;
     now := now Scenario.quiet;
     fmt_mb := fmt_mb Scenario.quiet;
     io_fault := io_fault Scenario.quiet |}.

End ScenarioNet.

Module ScenarioSolution.

(** The unpacked source tree, with a regular file named [allinone] where
    the solution directory is expected. *)
Definition allinone_is_a_file : world :=
  Scenario.tree
    (Scenario.source_tree
     ++ [(["W"; "icu-release-release-77-1"; "icu4c"; "source"; "allinone"], File "")]).

End ScenarioSolution.

Module ScenarioToolset.

Definition props_path : path :=
  ["W"; "icu-release-release-77-1"; "icu4c"; "source"; "allinone";
   "Build.Windows.ProjectConfiguration.props"].

(** The source tree with a props file that still names the v141 toolset. *)
Definition old_toolset : world :=
  Scenario.tree
    (Scenario.source_tree
     ++ [ (["W"; "icu-release-release-77-1"; "icu4c"; "source"; "allinone"], Dir);
          (props_path, File "<Project><PlatformToolset>v141</PlatformToolset></Project>") ]).

End ScenarioToolset.

(** * Configurations the command line can produce *)

Module Valid.

Definition arch (a : string) : Prop := In a ["x64"; "x86"].

Definition build_type (t : string) : Prop := In t ["Release"; "Debug"].

Definition configure (c : Configure.BuildConfig) : Prop :=
  arch (Configure.arch c) /\ build_type (Configure.build_type c).

Definition native (c : Native.BuildConfig) : Prop :=
  arch (Native.arch c) /\ build_type (Native.build_type c).

End Valid.

(** * The members of an archive

    What [zip_tree] stores for a tree [f] and a root directory: one member
    per regular file below the root, named by its path relative to it. *)

Module Archive.

Definition member (f : gmap path node) (root k : path) : list (path * string) :=
  match f !! k with
  | Some (File c) => [(relative_to root k, c)]
  | _ => []
  end.

Definition members (f : gmap path node) (root : path) : list (path * string) :=
  flat_map (member f root) (rglob f root).

End Archive.

(** Every entry is still there, and of the kind it was: a directory is
    still a directory, a regular file still a regular file (its content
    may have changed). *)
Definition kinds_kept (w w' : world) : Prop :=
  forall k,
    match fs w !! k with
    | Some Dir => fs w' !! k = Some Dir
    | Some (File _) => exists c, fs w' !! k = Some (File c)
    | None => True
    end.

Module ScenarioBuilt.

(** The source tree after a build that produced one library. *)
Definition one_library : world :=
  Scenario.tree
    (Scenario.source_tree
     ++ [ (["W"; "icu-release-release-77-1"; "icu4c"; "lib64"], Dir);
          (["W"; "icu-release-release-77-1"; "icu4c"; "lib64"; "icuuc.lib"],
           File "library") ]).

End ScenarioBuilt.

(** The names [package_artifacts] creates directly inside the artifact
    directory. *)
Definition package_entries : list string :=
  ["lib"; "include"; "bin"; "data"; "BUILD_INFO.txt"].

(** The keys packaging writes once the artifact directory has been
    cleaned: the artifact directory and the directories leading to it, the
    archive, and what lies at or below one of the [package_entries]. *)
Definition packaging_target (dir archive k : path) : bool :=
  is_prefix k dir
  || path_eqb k archive
  || existsb (fun top => is_prefix (dir ++ [top]) k) package_entries.

Module ScenarioStale.

(** One built library, and an artifact directory left by an earlier run
    with a file that no run would create now. *)
Definition leftover : world :=
  Scenario.tree
    (Scenario.source_tree
     ++ [ (["W"; "icu-release-release-77-1"; "icu4c"; "lib64"], Dir);
          (["W"; "icu-release-release-77-1"; "icu4c"; "lib64"; "icuuc.lib"],
           File "library");
          (["W"; "icu-x64-Release"], Dir);
          (["W"; "icu-x64-Release"; "old.txt"], File "stale") ]).

End ScenarioStale.

(** The tree [g] after the regular files [srcs] of the tree [f0] have been
    copied into the directory [dst], in that order, each under its own
    name: of two files of one name the later one overwrites the earlier. *)
Definition copied_into (f0 : gmap path node) (dst : path) (srcs : list path)
    (g : gmap path node) : gmap path node :=
  fold_left
    (fun g l =>
       match lookup_path f0 l with
       | Some (File c) => <[(norm dst ++ [path_name (norm l)])%list := File c]> g
       | _ => g
       end)
    srcs g.

(** The shell commands of the configure-driven pipeline, in the order of
    the steps that run them. *)
Definition configure_toolchain (self : Configure.ICUBuilder) : list command :=
  [ CygwinBash (Configure.bash_exe self) (PrepareScript (Configure.source_dir self));
    CygwinBash (Configure.bash_exe self)
      (ConfigureScript (Configure.source_dir self)
         (Configure.arch (Configure.config self)) (Configure.configure_args self));
    CygwinBash (Configure.bash_exe self)
      (MakeScript (Configure.source_dir self) (Configure.arch (Configure.config self)));
    CygwinBash (Configure.bash_exe self)
      (InstallScript (Configure.source_dir self)
         (Configure.arch (Configure.config self)) (Configure.build_dir self)) ].

Module ScenarioInstalled.

(** The unpacked source tree, and an install prefix that already holds a
    library and a header directory. *)
Definition ready : world :=
  Scenario.tree
    (Scenario.source_tree
     ++ [(["D:"], Dir); (["D:"; "icu-build"], Dir)]
     ++ Scenario.layout_without_headers Scenario.install_prefix).

End ScenarioInstalled.

(** * Probes of the file system that can fail

    [Path.exists] and [Path.stat] are system calls: they raise an OS error
    of their own when permission is denied on a parent directory, or when
    a link among the entries that a [glob] has listed dangles.  The methods
    above are written with probes that always answer.  The methods whose
    probes stand outside every handler follow here once more, with probes
    that consult [io_fault]; under an [answering] environment they are the
    methods above. *)

(** The environment [ext] with probes that always answer. *)
Definition answering (ext : Externals) : Externals :=
  {| requests_get := requests_get ext;
     subprocess_run := subprocess_run ext;
     zip_encode := zip_encode ext;
     zip_decode := zip_decode ext;
     environ := environ ext;
     now := now ext;
     fmt_mb := fmt_mb ext;
     io_fault := fun op p =>
                   match op with
                   | OpExists | OpStat => None
                   | _ => io_fault ext op p
                   end |}.

Module Probe.

(** [p.exists()] *)
Definition exists_ (ext : Externals) (p : path) : M bool :=
  faulting ext OpExists p (fun w => (Ok (path_exists (fs w) p), w)).

(** [p.stat().st_size] *)
Definition stat_size (ext : Externals) (p : path) : M nat :=
  faulting ext OpStat p (stat_size p).

End Probe.

Module ProbedConfigure.

Section Methods.
Context (ext : Externals) (self : Configure.ICUBuilder).

Definition download_icu_source : M bool :=
  print "🔍 Checking for ICU source..." ;;;
  present <- Probe.exists_ ext (Configure.source_dir self) ;;
  if present then
    print ("✅ ICU source already available at: "
           +:+ str_of_path (Configure.source_dir self)) ;;;
    ret true
  else
    let source_zip := Configure.workspace self // "icu-source.zip" in
    let extract : M bool :=
      print "📦 Extracting ICU source..." ;;;
      try_except
        (extractall ext source_zip (Configure.workspace self) ;;;
         print ("✅ Extracted to: " +:+ str_of_path (Configure.source_dir self)) ;;;
         ret true)
        (fun e =>
           print ("❌ Failed to extract ICU source: " +:+ str_of_exn e) ;;;
           ret false) in
    zipped <- Probe.exists_ ext source_zip ;;
    if negb zipped then
      print ("📥 Downloading ICU " +:+ Configure.icu_version (Configure.config self)
             +:+ " source...") ;;;
      let url := "https://github.com/unicode-org/icu/archive/refs/tags/"
                 +:+ Configure.icu_tag (Configure.config self) +:+ ".zip" in
      downloaded <-
        try_except
          (http_download ext url source_zip ;;;
           print ("✅ Downloaded: " +:+ str_of_path source_zip) ;;;
           ret true)
          (fun e =>
             print ("❌ Failed to download ICU source: " +:+ str_of_exn e) ;;;
             ret false) ;;
      if downloaded then extract else ret false
    else extract.

(** The [for data_path in data_paths] loop of [package_artifacts]. *)
Definition copy_data_files (paths : list path) : M bool :=
  for_fold paths false
    (fun data_path found =>
       present <- Probe.exists_ ext data_path ;;
       if present then
         f <- get_fs ;;
         for_fold (glob f data_path ".dat") found
           (fun dat_file _ =>
              size <- Probe.stat_size ext dat_file ;;
              print ("📊 Copying data file: " +:+ path_name dat_file
                     +:+ " (" +:+ fmt_mb ext size +:+ " MB)") ;;;
              copy2 ext dat_file (Configure.artifact_dir self // "data") ;;;
              ret true)
       else ret found).

Definition verify_build : M bool :=
  print "🔍 Verifying build output..." ;;;
  let lib_dir := Configure.build_dir self // "lib" in
  lib_there <- Probe.exists_ ext lib_dir ;;
  if negb lib_there then
    print ("❌ Library directory not found: " +:+ str_of_path lib_dir) ;;;
    ret false
  else
    f <- get_fs ;;
    let lib_files := glob f lib_dir ".lib" in
    match lib_files with
    | [] =>
        print "❌ No library files found" ;;;
        ret false
    | _ =>
        print "📚 Static libraries built:" ;;;
        total_size <-
          for_fold lib_files O
            (fun lib_file total =>
               size <- Probe.stat_size ext lib_file ;;
               print ("  " +:+ path_name lib_file +:+ " (" +:+ fmt_mb ext size +:+ " MB)") ;;;
               ret (total + size)%nat) ;;
        let include_dir := Configure.build_dir self // "include" // "unicode" in
        headers_there <- Probe.exists_ ext include_dir ;;
        if headers_there then
          f <- get_fs ;;
          let header_count := length (glob f include_dir ".h") in
          print ("📄 Header files installed: " +:+ pretty header_count +:+ " files") ;;;
          (if Configure.embed_data (Configure.config self) then
             let data_lib :=
               lib_dir // (Configure.lib_prefix (Configure.config self) +:+ "icudt.lib") in
             data_there <- Probe.exists_ ext data_lib ;;
             if data_there then
               size <- Probe.stat_size ext data_lib ;;
               print ("📊 Data library: " +:+ path_name data_lib +:+ " ("
                      +:+ fmt_mb ext size +:+ " MB) - embedded data")
             else print "⚠️  Data library not found"
           else print "📊 Data files should be in separate .dat files") ;;;
          print ("✅ Build verification completed - Total library size: "
                 +:+ fmt_mb ext total_size +:+ " MB") ;;;
          ret true
        else
          print "❌ Headers not found" ;;;
          ret false
    end.

End Methods.

End ProbedConfigure.

Module ProbedNative.

Section Methods.
Context (ext : Externals) (self : Native.ICUNativeBuilder).

Definition download_icu_source : M bool :=
  print "🔍 Checking for ICU source..." ;;;
  present <- Probe.exists_ ext (Native.source_dir self) ;;
  if present then
    print ("✅ ICU source already available at: "
           +:+ str_of_path (Native.source_dir self)) ;;;
    ret true
  else
    let source_zip := Native.workspace self // "icu-source.zip" in
    let extract : M bool :=
      print "📦 Extracting ICU source..." ;;;
      try_except
        (extractall ext source_zip (Native.workspace self) ;;;
         print ("✅ Extracted to: " +:+ str_of_path (Native.source_dir self)) ;;;
         ret true)
        (fun e =>
           print ("❌ Failed to extract ICU source: " +:+ str_of_exn e) ;;;
           ret false) in
    zipped <- Probe.exists_ ext source_zip ;;
    if negb zipped then
      print ("📥 Downloading ICU " +:+ Native.icu_version (Native.config self)
             +:+ " source...") ;;;
      let url := "https://github.com/unicode-org/icu/archive/refs/tags/"
                 +:+ Native.icu_tag (Native.config self) +:+ ".zip" in
      downloaded <-
        try_except
          (http_download ext url source_zip ;;;
           print ("✅ Downloaded: " +:+ str_of_path source_zip) ;;;
           ret true)
          (fun e =>
             print ("❌ Failed to download ICU source: " +:+ str_of_exn e) ;;;
             ret false) ;;
      if downloaded then extract else ret false
    else extract.

Definition update_visual_studio_toolset : M bool :=
  print "🔧 Updating project configuration for Visual Studio 2022..." ;;;
  let props_file :=
    Native.source_dir self // "allinone" // "Build.Windows.ProjectConfiguration.props" in
  present <- Probe.exists_ ext props_file ;;
  if negb present then
    print ("⚠️  Warning: Could not find project configuration file: "
           +:+ str_of_path props_file) ;;;
    ret true
  else
    try_except
      (content <- read_text ext props_file ;;
       let has141 := contains Native.toolset_v141 content in
       let content1 :=
         if has141 then replace Native.toolset_v141 Native.toolset_v143 content
         else content in
       let has140 := contains Native.toolset_v140 content1 in
       let content2 :=
         if has140 then replace Native.toolset_v140 Native.toolset_v143 content1
         else content1 in
       let updated := has141 || has140 in
       (if updated then
          write_text ext props_file content2 ;;;
          print "✅ Updated toolset to v143 (Visual Studio 2022)"
        else print "ℹ️  Toolset already up to date or not found") ;;;
       ret true)
      (fun e =>
         print ("⚠️  Warning: Failed to update toolset: " +:+ str_of_exn e) ;;;
         ret true).

End Methods.

(** The body of [locate_build_artifacts], over the two lists of candidate
    directories it searches. *)
Definition locate (ext : Externals) (possible_paths data_paths : list path)
    : M Native.artifacts :=
  print "🔍 Locating build artifacts..." ;;;
  found <-
    for_fold possible_paths ([], [])
      (fun p (acc : list path * list path) =>
         present <- Probe.exists_ ext p ;;
         if present then
           print ("📁 Checking directory: " +:+ str_of_path p) ;;;
           f <- get_fs ;;
           let libs := glob f p ".lib" in
           when (negb (bool_decide (libs = [])))
             (print ("  Found " +:+ pretty (length libs) +:+ " .lib files")) ;;;
           f <- get_fs ;;
           let exes := glob f p ".exe" in
           when (negb (bool_decide (exes = [])))
             (print ("  Found " +:+ pretty (length exes) +:+ " .exe files")) ;;;
           ret ((fst acc ++ libs)%list, (snd acc ++ exes)%list)
         else ret acc) ;;
  dats <-
    for_fold data_paths []
      (fun data_path (acc : list path) =>
         present <- Probe.exists_ ext data_path ;;
         if present then
           f <- get_fs ;;
           let dat := glob f data_path ".dat" in
           when (negb (bool_decide (dat = [])))
             (print ("📊 Found " +:+ pretty (length dat) +:+ " .dat files in: "
                     +:+ str_of_path data_path)) ;;;
           ret (acc ++ dat)%list
         else ret acc) ;;
  ret {| Native.lib_files := fst found; Native.exe_files := snd found;
         Native.dat_files := dats |}.

Definition locate_build_artifacts (ext : Externals) (self : Native.ICUNativeBuilder)
    : M Native.artifacts :=
  locate ext (Native.possible_paths self) (Native.data_paths self).

Definition verify_build (ext : Externals) (self : Native.ICUNativeBuilder) : M bool :=
  print "🔍 Verifying build output..." ;;;
  let lib_dir := Native.artifact_dir self // "lib" in
  lib_there <- Probe.exists_ ext lib_dir ;;
  if negb lib_there then
    print ("❌ Library directory not found: " +:+ str_of_path lib_dir) ;;;
    ret false
  else
    f <- get_fs ;;
    let libs := glob f lib_dir ".lib" in
    match libs with
    | [] =>
        print "❌ No library files found" ;;;
        ret false
    | _ =>
        print "📚 Static libraries built:" ;;;
        total_size <-
          for_fold libs O
            (fun lib_file total =>
               size <- Probe.stat_size ext lib_file ;;
               print ("  " +:+ path_name lib_file +:+ " (" +:+ fmt_mb ext size +:+ " MB)") ;;;
               ret (total + size)%nat) ;;
        let include_dir := Native.artifact_dir self // "include" // "unicode" in
        headers_there <- Probe.exists_ ext include_dir ;;
        if headers_there then
          f <- get_fs ;;
          let header_count := length (glob f include_dir ".h") in
          print ("📄 Header files installed: " +:+ pretty header_count +:+ " files") ;;;
          let data_dir := Native.artifact_dir self // "data" in
          data_there <- Probe.exists_ ext data_dir ;;
          when data_there
            (f <- get_fs ;;
             match glob f data_dir ".dat" with
             | [] => print "⚠️  Warning: No data files found"
             | dats =>
                 print "📊 ICU data files:" ;;;
                 for_each dats
                   (fun dat_file =>
                      size <- Probe.stat_size ext dat_file ;;
                      print ("  " +:+ path_name dat_file +:+ " ("
                             +:+ fmt_mb ext size +:+ " MB)"))
             end) ;;;
          print ("✅ Build verification completed - Total library size: "
                 +:+ fmt_mb ext total_size +:+ " MB") ;;;
          ret true
        else
          print "❌ Headers not found" ;;;
          ret false
    end.

End ProbedNative.

Module ScenarioProbe.

(** The quiet environment, except that permission is denied when the path
    [q] is probed. *)
Definition denying (q : path) : Externals :=
  {| requests_get := requests_get Scenario.quiet;
     subprocess_run := subprocess_run Scenario.quiet;
     zip_encode := zip_encode Scenario.quiet;
     zip_decode := zip_decode Scenario.quiet;
     environ := environ Scenario.quiet;
     now := now Scenario.quiet;
     fmt_mb := fmt_mb Scenario.quiet;
     io_fault := fun op p =>
                   match op with
                   | OpExists | OpStat =>
                       if bool_decide (p = q) then Some PermissionError else None
                   | _ => None
                   end |}.

Definition props_file : path :=
  Native.source_dir Scenario.native_builder
  // "allinone" // "Build.Windows.ProjectConfiguration.props".

(** The second directory searched for binaries, and the second one searched
    for data by the configure-driven packaging. *)
Definition lib64 : path := Native.icu4c Scenario.native_builder // "lib64".

Definition data_out_tmp : path :=
  Configure.source_dir Scenario.configure_builder // "data" // "out" // "tmp".

End ScenarioProbe.

(** * Warnings

    Both scripts start every line that warns with the warning sign. *)
Definition is_warning (line : string) : bool := String.prefix "⚠️" line.

(** * Programs that see only the tree *)

(** [m] reads nothing of the world but its tree: started on two worlds
    with one tree, it returns the same and leaves the same tree. *)
Definition fs_only {A} (m : M A) : Prop :=
  forall w1 w2,
    fs w1 = fs w2 -> fst (m w1) = fst (m w2) /\ fs (snd (m w1)) = fs (snd (m w2)).

(** The world without the entry [dir] and without anything below it. *)
Definition cleared (dir : path) (w : world) : world :=
  set_fs (filter (fun kv => is_prefix dir (fst kv) = false) (fs w)) w.

(** * One name in two of the directories searched *)

Module ScenarioTwice.

(** The source tree after a build that left a library of one name in two
    of the directories searched: [bin64] is searched before [lib64]. *)
Definition one_name_twice : world :=
  Scenario.tree
    (Scenario.source_tree
     ++ [ (["W"; "icu-release-release-77-1"; "icu4c"; "bin64"], Dir);
          (["W"; "icu-release-release-77-1"; "icu4c"; "bin64"; "icuuc.lib"],
           File "first");
          (["W"; "icu-release-release-77-1"; "icu4c"; "lib64"], Dir);
          (["W"; "icu-release-release-77-1"; "icu4c"; "lib64"; "icuuc.lib"],
           File "second") ]).

End ScenarioTwice.

(** * Reasoning about the monad *)

Lemma bind_ok {A B} (m : M A) (k : A -> M B) w a w' :
  m w = (Ok a, w') -> bind m k w = k a w'.
Proof. intros H. unfold bind. now rewrite H. Qed.

Lemma bind_raise {A B} (m : M A) (k : A -> M B) w e w' :
  m w = (Raise e, w') -> bind m k w = (Raise e, w').
Proof. intros H. unfold bind. now rewrite H. Qed.

Lemma add_lines_nil w : add_lines [] w = w.
Proof. destruct w. unfold add_lines. cbn. now rewrite app_nil_r. Qed.

Lemma add_lines_app l1 l2 w : add_lines l2 (add_lines l1 w) = add_lines (l1 ++ l2) w.
Proof. unfold add_lines. cbn. now rewrite app_assoc. Qed.

Lemma fs_add_lines l w : fs (add_lines l w) = fs w.
Proof. reflexivity. Qed.

Lemma emits_ret {A} (a : A) w : emits (ret a) w a [].
Proof. unfold emits, ret. now rewrite add_lines_nil. Qed.

Lemma emits_print line w : emits (print line) w tt [line].
Proof. reflexivity. Qed.

Lemma emits_get_fs w : emits get_fs w (fs w) [].
Proof. unfold emits, get_fs. now rewrite add_lines_nil. Qed.

Lemma emits_bind {A B} (m : M A) (k : A -> M B) w a b l1 l2 :
  emits m w a l1 ->
  emits (k a) (add_lines l1 w) b l2 ->
  emits (bind m k) w b (l1 ++ l2).
Proof.
  unfold emits. intros Hm Hk. rewrite (bind_ok _ _ _ _ _ Hm), Hk.
  now rewrite add_lines_app.
Qed.

Lemma emits_when_false (m : M unit) w : emits (when false m) w tt [].
Proof. apply emits_ret. Qed.

(** Every listed entry is present, so [stat] on it succeeds. *)
Lemma entries_lookup f k :
  In k (entries f) -> exists n, lookup_path f k = Some n.
Proof.
  unfold entries. rewrite filter_In, in_map_iff.
  intros [[[k' n] [Hk Hin]] Hcanon]. cbn in Hk. subst k'.
  apply list_elem_of_In, elem_of_map_to_list in Hin.
  exists n. unfold lookup_path, canonical, path_eqb in *.
  destruct k as [|c k]; [discriminate|].
  apply bool_decide_eq_true in Hcanon. rewrite Hcanon. exact Hin.
Qed.

Lemma glob_entries f p suf k : In k (glob f p suf) -> In k (entries f).
Proof.
  unfold glob, children. rewrite filter_In. intros [H _].
  destruct (is_dir f p); [|contradiction].
  now apply filter_In in H.
Qed.

Lemma emits_stat_size k w :
  In k (entries (fs w)) -> exists size, emits (stat_size k) w size [].
Proof.
  intros H. destruct (entries_lookup _ _ H) as [n Hn].
  unfold emits, stat_size. rewrite Hn, add_lines_nil.
  destruct n; eauto.
Qed.

(** * The loops of the two scripts are the Pipeline *)

Lemma configure_run_steps_traced steps w :
  Configure.run_steps steps w
  = fst (Pipeline.run_traced "🎉 ICU build completed successfully!" steps w).
Proof.
  revert w. induction steps as [|[name action] rest IH]; intros w; [reflexivity|].
  cbn [Configure.run_steps Pipeline.run_traced].
  change ((print banner ;;; print ("🔸 " +:+ name) ;;; print banner ;;; ?k) w)
    with (k (Pipeline.announced name w)).
  unfold bind at 1.
  destruct (action (Pipeline.announced name w)) as [[[]|e] w']; cbn [negb fst].
  - change ((print "" ;;; ?k) w') with (k (Pipeline.acknowledged w')).
    rewrite IH. now destruct (Pipeline.run_traced _ rest _).
  - reflexivity.
  - reflexivity.
Qed.

Lemma native_run_steps_traced steps w :
  Native.run_steps steps w
  = fst (Pipeline.run_traced "🎉 ICU native MSVC build completed successfully!" steps w).
Proof.
  revert w. induction steps as [|[name action] rest IH]; intros w; [reflexivity|].
  cbn [Native.run_steps Pipeline.run_traced].
  change ((print banner ;;; print ("🔸 " +:+ name) ;;; print banner ;;; ?k) w)
    with (k (Pipeline.announced name w)).
  unfold bind at 1.
  destruct (action (Pipeline.announced name w)) as [[[]|e] w']; cbn [negb fst].
  - change ((print "" ;;; ?k) w') with (k (Pipeline.acknowledged w')).
    rewrite IH. now destruct (Pipeline.run_traced _ rest _).
  - reflexivity.
  - reflexivity.
Qed.

(** ** Halting at the first failing step *)

Lemma run_traced_success message steps w w' :
  Pipeline.after_successes steps w = Some w' ->
  Pipeline.run_traced message steps w
  = ((Ok true, Pipeline.completed message w'), List.map fst steps).
Proof.
  revert w. induction steps as [|[name action] rest IH]; intros w H;
    cbn [Pipeline.after_successes Pipeline.run_traced List.map fst] in *.
  - now inversion H.
  - destruct (action (Pipeline.announced name w)) as [[[]|e] w1]; try discriminate.
    now rewrite (IH _ H).
Qed.

Lemma run_traced_failure message pre name action post w w1 w2 :
  Pipeline.after_successes pre w = Some w1 ->
  action (Pipeline.announced name w1) = (Ok false, w2) ->
  Pipeline.run_traced message (pre ++ (name, action) :: post) w
  = ((Ok false, Pipeline.failed_at name w2), (List.map fst pre ++ [name])%list).
Proof.
  revert w. induction pre as [|[n a] pre IH]; intros w Hpre Hfail;
    cbn [Pipeline.after_successes Pipeline.run_traced List.map fst app] in *.
  - inversion Hpre; subst. now rewrite Hfail.
  - destruct (a (Pipeline.announced n w)) as [[[]|e] w0]; try discriminate.
    now rewrite (IH _ Hpre Hfail).
Qed.

(** An exception raised by a step is not handled by the loop. *)
Lemma run_traced_raise message pre name action post w w1 e w2 :
  Pipeline.after_successes pre w = Some w1 ->
  action (Pipeline.announced name w1) = (Raise e, w2) ->
  Pipeline.run_traced message (pre ++ (name, action) :: post) w
  = ((Raise e, w2), (List.map fst pre ++ [name])%list).
Proof.
  revert w. induction pre as [|[n a] pre IH]; intros w Hpre Hfail;
    cbn [Pipeline.after_successes Pipeline.run_traced List.map fst app] in *.
  - inversion Hpre; subst. now rewrite Hfail.
  - destruct (a (Pipeline.announced n w)) as [[[]|e0] w0]; try discriminate.
    now rewrite (IH _ Hpre Hfail).
Qed.

(** C1.  In both scripts the step loop stops at the first step that returns
    [False]: when the steps before step [name] all succeed and its action
    returns [False], the run returns [False], the last line printed is the
    failure report naming [name], the final world is the one the failing
    step left (plus that line), and the actions called are exactly those of
    the steps up to and including [name], whatever follows it.  When every
    step succeeds the run returns [True] after calling every action. *)
Theorem pipeline_halts_at_first_failure :
  (forall pre name action post w w1 w2,
      Pipeline.after_successes pre w = Some w1 ->
      action (Pipeline.announced name w1) = (Ok false, w2) ->
      let steps := (pre ++ (name, action) :: post)%list in
      Configure.run_steps steps w = (Ok false, Pipeline.failed_at name w2)
      /\ Native.run_steps steps w = (Ok false, Pipeline.failed_at name w2)
      /\ last (stdout (Pipeline.failed_at name w2))
         = Some ("❌ Build failed at step: " +:+ name)
      /\ (forall message,
            Pipeline.invoked message steps w = (List.map fst pre ++ [name])%list))
  /\ (forall steps w w',
        Pipeline.after_successes steps w = Some w' ->
        Configure.run_steps steps w
        = (Ok true, Pipeline.completed "🎉 ICU build completed successfully!" w')
        /\ Native.run_steps steps w
           = (Ok true,
              Pipeline.completed "🎉 ICU native MSVC build completed successfully!" w')
        /\ (forall message, Pipeline.invoked message steps w = List.map fst steps)).
Proof.
  split.
  - intros pre name action post w w1 w2 Hpre Hfail steps. subst steps.
    rewrite configure_run_steps_traced, native_run_steps_traced.
    unfold Pipeline.invoked.
    repeat split.
    + now rewrite (run_traced_failure _ _ _ _ _ _ _ _ Hpre Hfail).
    + now rewrite (run_traced_failure _ _ _ _ _ _ _ _ Hpre Hfail).
    + unfold Pipeline.failed_at. cbn. apply last_snoc.
    + intros message. now rewrite (run_traced_failure _ _ _ _ _ _ _ _ Hpre Hfail).
  - intros steps w w' H.
    rewrite configure_run_steps_traced, native_run_steps_traced.
    unfold Pipeline.invoked.
    repeat split.
    + now rewrite (run_traced_success _ _ _ _ H).
    + now rewrite (run_traced_success _ _ _ _ H).
    + intros message. now rewrite (run_traced_success _ _ _ _ H).
Qed.

Lemma pipeline_halts_at_first_failure_witness :
  fst (Configure.run_steps
         [Scenario.stub_first; Scenario.stub_second; Scenario.stub_third] Scenario.bare)
  = Ok false
  /\ fst (Native.run_steps
            [Scenario.stub_first; Scenario.stub_second; Scenario.stub_third] Scenario.bare)
     = Ok false
  /\ Pipeline.invoked ""
       [Scenario.stub_first; Scenario.stub_second; Scenario.stub_third] Scenario.bare
     = ["first"; "second"].
Proof.
  destruct (proj1 pipeline_halts_at_first_failure
              [Scenario.stub_first] "second" (snd Scenario.stub_second)
              [Scenario.stub_third] Scenario.bare
              (Pipeline.acknowledged
                 (snd (snd Scenario.stub_first (Pipeline.announced "first" Scenario.bare))))
              (snd (snd Scenario.stub_second
                      (Pipeline.announced "second"
                         (Pipeline.acknowledged
                            (snd (snd Scenario.stub_first
                                    (Pipeline.announced "first" Scenario.bare)))))))
              eq_refl eq_refl)
    as (Hc & Hn & _ & Hinv).
  split; [|split].
  - exact (f_equal fst Hc).
  - exact (f_equal fst Hn).
  - exact (Hinv "").
Defined.

(** ** Verification *)

Lemma emits_for_fold {A S} (l : list A) (body : A -> S -> M S) f :
  (forall x s w, In x l -> fs w = f -> exists s' lines, emits (body x s) w s' lines) ->
  forall s w, fs w = f -> exists s' lines, emits (for_fold l s body) w s' lines.
Proof.
  induction l as [|x l IH]; intros Hbody s w Hw; cbn [for_fold].
  - exists s, []. apply emits_ret.
  - destruct (Hbody x s w (or_introl eq_refl) Hw) as (s1 & l1 & H1).
    destruct (IH (fun y s w Hy => Hbody y s w (or_intror Hy)) s1 (add_lines l1 w) Hw)
      as (s2 & l2 & H2).
    exists s2, (l1 ++ l2). eapply emits_bind; eassumption.
Qed.

Lemma emits_for_each {A} (l : list A) (body : A -> M unit) f :
  (forall x w, In x l -> fs w = f -> exists lines, emits (body x) w tt lines) ->
  forall w, fs w = f -> exists lines, emits (for_each l body) w tt lines.
Proof.
  induction l as [|x l IH]; intros Hbody w Hw; cbn [for_each].
  - exists []. apply emits_ret.
  - destruct (Hbody x w (or_introl eq_refl) Hw) as (l1 & H1).
    destruct (IH (fun y w Hy => Hbody y w (or_intror Hy)) (add_lines l1 w) Hw)
      as (l2 & H2).
    exists (l1 ++ l2). eapply emits_bind; eassumption.
Qed.

(** One step of symbolic execution through a [bind]. *)
Ltac emit_step :=
  eapply emits_bind;
  [ first [ apply emits_print | apply emits_get_fs | apply emits_ret | eassumption ]
  | rewrite ?add_lines_app, ?fs_add_lines; cbn [app] ].

(** The size report over the libraries a [glob] has listed. *)
Lemma emits_library_report ext f (libs : list path) w :
  (forall k, In k libs -> In k (entries f)) ->
  fs w = f ->
  exists total lines,
    emits
      (for_fold libs O
         (fun lib_file total =>
            size <- stat_size lib_file ;;
            print ("  " +:+ path_name lib_file +:+ " (" +:+ fmt_mb ext size +:+ " MB)") ;;;
            ret (total + size)%nat))
      w total lines.
Proof.
  intros Hlibs Hw. eapply emits_for_fold; [|exact Hw].
  intros k s w0 Hk Hw0.
  destruct (emits_stat_size k w0) as [size Hsize].
  { rewrite Hw0. now apply Hlibs. }
  eexists _, _. emit_step. emit_step. apply emits_ret.
Qed.

Lemma emits_stat_size_exists p w :
  path_exists (fs w) p = true -> exists size, emits (stat_size p) w size [].
Proof.
  unfold path_exists, emits, stat_size. intros H.
  destruct (lookup_path (fs w) p) as [[c|]|]; [| |discriminate];
    rewrite add_lines_nil; eauto.
Qed.

Lemma has_libraries_true f root :
  Verifier.has_libraries f root = true ->
  path_exists f (root // "lib") = true
  /\ exists k ks, glob f (root // "lib") ".lib" = k :: ks.
Proof.
  unfold Verifier.has_libraries. intros H.
  apply andb_prop in H as [H1 H2]. split; [exact H1|].
  destruct (glob f (root // "lib") ".lib") as [|k ks]; [discriminate|eauto].
Qed.

Lemma has_libraries_false f root :
  Verifier.has_libraries f root = false ->
  path_exists f (root // "lib") = false
  \/ (path_exists f (root // "lib") = true /\ glob f (root // "lib") ".lib" = []).
Proof.
  unfold Verifier.has_libraries. intros H.
  destruct (path_exists f (root // "lib")); [right|now left].
  split; [reflexivity|].
  destruct (glob f (root // "lib") ".lib"); [reflexivity|discriminate].
Qed.

Lemma last_cons2_snoc {A} (a b x : A) l : last (a :: b :: l ++ [x]) = Some x.
Proof. change (a :: b :: l ++ [x]) with ((a :: b :: l) ++ [x]). apply last_snoc. Qed.

(** *** build_icu.py *)

Lemma configure_verify_no_libraries ext self w :
  Verifier.has_libraries (fs w) (Configure.build_dir self) = false ->
  exists lines, emits (Configure.verify_build ext self) w false lines.
Proof.
  intros H. apply has_libraries_false in H as [Hdir|[Hdir Hglob]];
    eexists; unfold Configure.verify_build.
  - emit_step. emit_step. rewrite Hdir. cbn [negb]. emit_step. apply emits_ret.
  - emit_step. emit_step. rewrite Hdir. cbn [negb]. rewrite Hglob.
    emit_step. apply emits_ret.
Qed.

Lemma configure_verify_headers_missing ext self w :
  Verifier.has_libraries (fs w) (Configure.build_dir self) = true ->
  Verifier.has_header_dir (fs w) (Configure.build_dir self) = false ->
  exists lines,
    emits (Configure.verify_build ext self) w false lines
    /\ last lines = Some "❌ Headers not found".
Proof.
  intros Hlib Hhdr. apply has_libraries_true in Hlib as (Hdir & k & ks & Hglob).
  unfold Verifier.has_header_dir in Hhdr.
  destruct (emits_library_report ext (fs w) (k :: ks)
              (add_lines ["🔍 Verifying build output..."; "📚 Static libraries built:"] w))
    as (total & lines & Hrep).
  { intros x Hx. rewrite <- Hglob in Hx. eapply glob_entries, Hx. }
  { reflexivity. }
  eexists. split.
  - unfold Configure.verify_build.
    emit_step. emit_step. rewrite Hdir. cbn [negb]. rewrite Hglob.
    emit_step. emit_step. rewrite Hhdr. emit_step. apply emits_ret.
  - cbn [app]. apply last_cons2_snoc.
Qed.

Lemma configure_verify_success ext self w :
  Verifier.verdict (fs w) (Configure.build_dir self) = true ->
  exists lines,
    emits (Configure.verify_build ext self) w true lines
    /\ (Configure.embed_data (Configure.config self) = true ->
        path_exists (fs w)
          (Configure.build_dir self // "lib"
           // (Configure.lib_prefix (Configure.config self) +:+ "icudt.lib")) = false ->
        In "⚠️  Data library not found" lines).
Proof.
  unfold Verifier.verdict. intros H. apply andb_prop in H as [Hlib Hhdr].
  apply has_libraries_true in Hlib as (Hdir & k & ks & Hglob).
  unfold Verifier.has_header_dir in Hhdr.
  destruct (emits_library_report ext (fs w) (k :: ks)
              (add_lines ["🔍 Verifying build output..."; "📚 Static libraries built:"] w))
    as (total & lines & Hrep).
  { intros x Hx. rewrite <- Hglob in Hx. eapply glob_entries, Hx. }
  { reflexivity. }
  destruct (Configure.embed_data (Configure.config self)) eqn:Hembed.
  - destruct (path_exists (fs w)
                (Configure.build_dir self // "lib"
                 // (Configure.lib_prefix (Configure.config self) +:+ "icudt.lib")))
      eqn:Hdata.
    + match type of Hdata with
      | path_exists _ ?p = _ =>
          destruct (emits_stat_size_exists p
                      (add_lines
                         (["🔍 Verifying build output..."; "📚 Static libraries built:"]
                          ++ lines
                          ++ ["📄 Header files installed: " +:+
                              pretty (length (glob (fs w)
                                (Configure.build_dir self // "include" // "unicode") ".h"))
                              +:+ " files"]) w) Hdata) as [size Hsize]
      end.
      eexists. split; [|discriminate].
      unfold Configure.verify_build.
      emit_step. emit_step. rewrite Hdir. cbn [negb]. rewrite Hglob.
      emit_step. emit_step. rewrite Hhdr. emit_step. rewrite Hembed, Hdata.
      eapply emits_bind.
      { emit_step. apply emits_print. }
      rewrite ?add_lines_app. emit_step. apply emits_ret.
    + eexists. split.
      * unfold Configure.verify_build.
        emit_step. emit_step. rewrite Hdir. cbn [negb]. rewrite Hglob.
        emit_step. emit_step. rewrite Hhdr. emit_step. rewrite Hembed, Hdata.
        emit_step. emit_step. apply emits_ret.
      * intros _ _. cbn [app In]. rewrite !in_app_iff. cbn [In]. tauto.
  - eexists. split; [|discriminate].
    unfold Configure.verify_build.
    emit_step. emit_step. rewrite Hdir. cbn [negb]. rewrite Hglob.
    emit_step. emit_step. rewrite Hhdr. emit_step. rewrite Hembed.
    emit_step. emit_step. apply emits_ret.
Qed.

(** *** build_icu_native.py *)

Lemma native_verify_no_libraries ext self w :
  Verifier.has_libraries (fs w) (Native.artifact_dir self) = false ->
  exists lines, emits (Native.verify_build ext self) w false lines.
Proof.
  intros H. apply has_libraries_false in H as [Hdir|[Hdir Hglob]];
    eexists; unfold Native.verify_build.
  - emit_step. emit_step. rewrite Hdir. cbn [negb]. emit_step. apply emits_ret.
  - emit_step. emit_step. rewrite Hdir. cbn [negb]. rewrite Hglob.
    emit_step. apply emits_ret.
Qed.

Lemma native_verify_headers_missing ext self w :
  Verifier.has_libraries (fs w) (Native.artifact_dir self) = true ->
  Verifier.has_header_dir (fs w) (Native.artifact_dir self) = false ->
  exists lines,
    emits (Native.verify_build ext self) w false lines
    /\ last lines = Some "❌ Headers not found".
Proof.
  intros Hlib Hhdr. apply has_libraries_true in Hlib as (Hdir & k & ks & Hglob).
  unfold Verifier.has_header_dir in Hhdr.
  destruct (emits_library_report ext (fs w) (k :: ks)
              (add_lines ["🔍 Verifying build output..."; "📚 Static libraries built:"] w))
    as (total & lines & Hrep).
  { intros x Hx. rewrite <- Hglob in Hx. eapply glob_entries, Hx. }
  { reflexivity. }
  eexists. split.
  - unfold Native.verify_build.
    emit_step. emit_step. rewrite Hdir. cbn [negb]. rewrite Hglob.
    emit_step. emit_step. rewrite Hhdr. emit_step. apply emits_ret.
  - cbn [app]. apply last_cons2_snoc.
Qed.

(** The data check of the native [verify_build] prints and nothing else. *)
Lemma native_data_report ext f data_dir w :
  fs w = f ->
  exists lines,
    emits
      (when (path_exists f data_dir)
         (match glob f data_dir ".dat" with
          | [] => print "⚠️  Warning: No data files found"
          | dats =>
              print "📊 ICU data files:" ;;;
              for_each dats
                (fun dat_file =>
                   size <- stat_size dat_file ;;
                   print ("  " +:+ path_name dat_file +:+ " ("
                          +:+ fmt_mb ext size +:+ " MB)"))
          end))
      w tt lines
    /\ (path_exists f data_dir = true -> glob f data_dir ".dat" = [] ->
        In "⚠️  Warning: No data files found" lines).
Proof.
  intros Hw. destruct (path_exists f data_dir); cbn [when].
  - destruct (glob f data_dir ".dat") as [|d ds] eqn:Hglob.
    + exists ["⚠️  Warning: No data files found"]. split; [apply emits_print|].
      intros _ _. now left.
    + destruct (emits_for_each (d :: ds)
                  (fun dat_file =>
                     size <- stat_size dat_file ;;
                     print ("  " +:+ path_name dat_file +:+ " ("
                            +:+ fmt_mb ext size +:+ " MB)"))
                  f) with (w := add_lines ["📊 ICU data files:"] w) as [lines Hlines].
      { intros k w0 Hk Hw0.
        destruct (emits_stat_size k w0) as [size Hsize].
        { rewrite Hw0. eapply glob_entries. rewrite Hglob. exact Hk. }
        eexists. emit_step. apply emits_print. }
      { exact Hw. }
      eexists. split; [|discriminate].
      emit_step. exact Hlines.
  - exists []. split; [apply emits_ret|discriminate].
Qed.

Lemma native_verify_success ext self w :
  Verifier.verdict (fs w) (Native.artifact_dir self) = true ->
  exists lines,
    emits (Native.verify_build ext self) w true lines
    /\ (path_exists (fs w) (Native.artifact_dir self // "data") = true ->
        glob (fs w) (Native.artifact_dir self // "data") ".dat" = [] ->
        In "⚠️  Warning: No data files found" lines).
Proof.
  unfold Verifier.verdict. intros H. apply andb_prop in H as [Hlib Hhdr].
  apply has_libraries_true in Hlib as (Hdir & k & ks & Hglob).
  unfold Verifier.has_header_dir in Hhdr.
  destruct (emits_library_report ext (fs w) (k :: ks)
              (add_lines ["🔍 Verifying build output..."; "📚 Static libraries built:"] w))
    as (total & lines & Hrep).
  { intros x Hx. rewrite <- Hglob in Hx. eapply glob_entries, Hx. }
  { reflexivity. }
  destruct (native_data_report ext (fs w) (Native.artifact_dir self // "data")
              (add_lines
                 (["🔍 Verifying build output..."; "📚 Static libraries built:"]
                  ++ lines
                  ++ ["📄 Header files installed: " +:+
                      pretty (length (glob (fs w)
                        (Native.artifact_dir self // "include" // "unicode") ".h"))
                      +:+ " files"]) w) eq_refl) as (dlines & Hdata & Hwarn).
  eexists. split.
  - unfold Native.verify_build.
    emit_step. emit_step. rewrite Hdir. cbn [negb]. rewrite Hglob.
    emit_step. emit_step. rewrite Hhdr. emit_step.
    emit_step. emit_step. apply emits_ret.
  - intros Hd Hg. specialize (Hwarn Hd Hg).
    repeat (cbn [app In]; rewrite ?in_app_iff). tauto.
Qed.

Lemma emits_result {A} (m : M A) w a lines :
  emits m w a lines -> m w = (Ok a, add_lines lines w).
Proof. exact id. Qed.

Lemma last_add_lines lines w x :
  last lines = Some x -> last (stdout (add_lines lines w)) = Some x.
Proof. intros H. cbn. rewrite last_app, H. reflexivity. Qed.

Lemma in_add_lines lines w x :
  In x lines -> In x (stdout (add_lines lines w)).
Proof. intros H. cbn. apply in_or_app. now right. Qed.

(** The boolean returned by each [verify_build] is the verdict on the
    directory it inspects. *)
Lemma configure_verify_verdict ext self w :
  fst (Configure.verify_build ext self w)
  = Ok (Verifier.verdict (fs w) (Configure.build_dir self)).
Proof.
  unfold Verifier.verdict.
  destruct (Verifier.has_libraries (fs w) (Configure.build_dir self)) eqn:Hlib.
  - destruct (Verifier.has_header_dir (fs w) (Configure.build_dir self)) eqn:Hhdr.
    + destruct (configure_verify_success ext self w) as (lines & H & _).
      { unfold Verifier.verdict. now rewrite Hlib, Hhdr. }
      now rewrite H.
    + destruct (configure_verify_headers_missing ext self w Hlib Hhdr) as (lines & H & _).
      now rewrite H.
  - destruct (configure_verify_no_libraries ext self w Hlib) as (lines & H).
    now rewrite H.
Qed.

Lemma native_verify_verdict ext self w :
  fst (Native.verify_build ext self w)
  = Ok (Verifier.verdict (fs w) (Native.artifact_dir self)).
Proof.
  unfold Verifier.verdict.
  destruct (Verifier.has_libraries (fs w) (Native.artifact_dir self)) eqn:Hlib.
  - destruct (Verifier.has_header_dir (fs w) (Native.artifact_dir self)) eqn:Hhdr.
    + destruct (native_verify_success ext self w) as (lines & H & _).
      { unfold Verifier.verdict. now rewrite Hlib, Hhdr. }
      now rewrite H.
    + destruct (native_verify_headers_missing ext self w Hlib Hhdr) as (lines & H & _).
      now rewrite H.
  - destruct (native_verify_no_libraries ext self w Hlib) as (lines & H).
    now rewrite H.
Qed.

(** C3, as stated, fails: a header directory that exists but holds no
    header passes verification in both scripts, and the configure-driven
    script inspects the install prefix, not the packaged directory. *)
Lemma verify_accepts_header_dir_without_headers :
  glob (fs Scenario.packaged_without_headers)
    (Native.artifact_dir Scenario.native_builder // "include" // "unicode") ".h" = []
  /\ fst (Native.verify_build Scenario.quiet Scenario.native_builder
            Scenario.packaged_without_headers) = Ok true
  /\ glob (fs Scenario.installed_without_headers)
       (Configure.build_dir Scenario.embedded_builder // "include" // "unicode") ".h" = []
  /\ path_exists (fs Scenario.installed_without_headers)
       (Configure.artifact_dir Scenario.embedded_builder) = false
  /\ fst (Configure.verify_build Scenario.quiet Scenario.embedded_builder
            Scenario.installed_without_headers) = Ok true.
Proof. vm_compute. repeat split. Qed.

(** C3, amended.  When the library check has passed and the directory
    [include/unicode] does not exist, verification returns [False], its
    last line names the headers as missing, and nothing is changed on disk,
    whatever the data files are.  The directory inspected is the install
    prefix [build_dir] in the configure-driven script and the packaged
    artifact directory in the project-file-driven script. *)
Theorem verify_fails_without_header_dir :
  forall ext w,
    (forall self,
        Verifier.has_libraries (fs w) (Configure.build_dir self) = true ->
        path_exists (fs w) (Configure.build_dir self // "include" // "unicode") = false ->
        exists w',
          Configure.verify_build ext self w = (Ok false, w')
          /\ last (stdout w') = Some "❌ Headers not found"
          /\ fs w' = fs w)
    /\ (forall self,
          Verifier.has_libraries (fs w) (Native.artifact_dir self) = true ->
          path_exists (fs w) (Native.artifact_dir self // "include" // "unicode") = false ->
          exists w',
            Native.verify_build ext self w = (Ok false, w')
            /\ last (stdout w') = Some "❌ Headers not found"
            /\ fs w' = fs w).
Proof.
  intros ext w. split; intros self Hlib Hhdr.
  - destruct (configure_verify_headers_missing ext self w Hlib Hhdr) as (lines & H & Hlast).
    eexists. split; [exact H|]. split; [now apply last_add_lines|reflexivity].
  - destruct (native_verify_headers_missing ext self w Hlib Hhdr) as (lines & H & Hlast).
    eexists. split; [exact H|]. split; [now apply last_add_lines|reflexivity].
Qed.

Lemma verify_fails_without_header_dir_witness :
  exists w',
    Native.verify_build Scenario.quiet Scenario.native_builder
      Scenario.packaged_without_header_dir = (Ok false, w')
    /\ last (stdout w') = Some "❌ Headers not found"
    /\ fs w' = fs Scenario.packaged_without_header_dir.
Proof.
  apply (proj2 (verify_fails_without_header_dir Scenario.quiet
                  Scenario.packaged_without_header_dir) Scenario.native_builder);
    vm_compute; reflexivity.
Defined.

(** C6, as stated, fails.  With no library anywhere, packaging succeeds
    and writes an archive in the configure-driven script and fails in the
    project-file-driven one; and with complete packaged directories but
    nothing under the install prefix, verification fails in the
    configure-driven script and succeeds in the other. *)
Lemma strategies_diverge_after_the_build :
  fst (Configure.package_artifacts Scenario.quiet Scenario.configure_builder Scenario.bare)
  = Ok true
  /\ fst (Native.package_artifacts Scenario.quiet Scenario.native_builder Scenario.bare)
     = Ok false
  /\ fst (Configure.verify_build Scenario.quiet Scenario.embedded_builder
            Scenario.packaged_without_headers) = Ok false
  /\ fst (Native.verify_build Scenario.quiet Scenario.native_builder
            Scenario.packaged_without_headers) = Ok true.
Proof. vm_compute. repeat split. Qed.

(** C6, amended.  The two scripts share the step loop (the same
    announcements, the same halt at the first [False], the same failure
    report; only the closing line differs) and the verdict of
    verification, which is one function of the inspected directory: the
    install prefix for the configure-driven script, the packaged artifact
    directory for the project-file-driven one. *)
Theorem strategies_share_loop_and_verdict :
  (forall steps w,
      Configure.run_steps steps w
      = Pipeline.run "🎉 ICU build completed successfully!" steps w
      /\ Native.run_steps steps w
         = Pipeline.run "🎉 ICU native MSVC build completed successfully!" steps w
      /\ fst (Configure.run_steps steps w) = fst (Native.run_steps steps w))
  /\ (forall ext self w,
        fst (Configure.verify_build ext self w)
        = Ok (Verifier.verdict (fs w) (Configure.build_dir self)))
  /\ (forall ext self w,
        fst (Native.verify_build ext self w)
        = Ok (Verifier.verdict (fs w) (Native.artifact_dir self))).
Proof.
  split; [|split].
  - intros steps w. unfold Pipeline.run.
    rewrite configure_run_steps_traced, native_run_steps_traced.
    split; [reflexivity|]. split; [reflexivity|].
    revert w. induction steps as [|[name action] rest IH]; intros w; [reflexivity|].
    cbn [Pipeline.run_traced].
    destruct (action (Pipeline.announced name w)) as [[[]|e] w']; try reflexivity.
    specialize (IH (Pipeline.acknowledged w')).
    destruct (Pipeline.run_traced _ rest _) as [[r1 w1] c1].
    destruct (Pipeline.run_traced _ rest _) as [[r2 w2] c2].
    exact IH.
  - apply configure_verify_verdict.
  - apply native_verify_verdict.
Qed.

(** ** Locating artifacts *)

Lemma emits_when_print (b : bool) line w :
  emits (when b (print line)) w tt (if b then [line] else []).
Proof. destruct b; [apply emits_print|apply emits_ret]. Qed.

Lemma locate_binaries_emits (paths : list path) (acc : list path * list path) w :
  exists lines,
    emits
      (for_fold paths acc
         (fun p (acc : list path * list path) =>
            f <- get_fs ;;
            if path_exists f p then
              print ("📁 Checking directory: " +:+ str_of_path p) ;;;
              let libs := glob f p ".lib" in
              when (negb (bool_decide (libs = [])))
                (print ("  Found " +:+ pretty (length libs) +:+ " .lib files")) ;;;
              let exes := glob f p ".exe" in
              when (negb (bool_decide (exes = [])))
                (print ("  Found " +:+ pretty (length exes) +:+ " .exe files")) ;;;
              ret ((fst acc ++ libs)%list, (snd acc ++ exes)%list)
            else ret acc))
      w
      (fst acc ++ Locator.found_in (fs w) ".lib" paths,
       snd acc ++ Locator.found_in (fs w) ".exe" paths)
      lines.
Proof.
  revert acc w. induction paths as [|p paths IH]; intros acc w; cbn [for_fold].
  - exists []. cbn [Locator.found_in flat_map]. rewrite !app_nil_r.
    destruct acc. apply emits_ret.
  - cbn [Locator.found_in flat_map]. fold (Locator.found_in (fs w) ".lib" paths).
    fold (Locator.found_in (fs w) ".exe" paths).
    destruct (path_exists (fs w) p) eqn:Hp.
    + edestruct (IH (fst acc ++ glob (fs w) p ".lib", snd acc ++ glob (fs w) p ".exe"))
        as [lines Hlines].
      eexists. eapply emits_bind.
      { emit_step. rewrite Hp. emit_step. cbn zeta.
        eapply emits_bind; [apply emits_when_print|rewrite ?add_lines_app].
        eapply emits_bind; [apply emits_when_print|rewrite ?add_lines_app].
        apply emits_ret. }
      cbn [fst snd] in Hlines. rewrite <- !app_assoc in Hlines.
      rewrite ?fs_add_lines in Hlines. exact Hlines.
    + destruct (IH acc w) as [lines Hlines].
      eexists. eapply emits_bind.
      { emit_step. rewrite Hp. apply emits_ret. }
      rewrite add_lines_nil. cbn [app]. exact Hlines.
Qed.

Lemma locate_data_emits (paths : list path) (acc : list path) w :
  exists lines,
    emits
      (for_fold paths acc
         (fun data_path (acc : list path) =>
            f <- get_fs ;;
            if path_exists f data_path then
              let dat := glob f data_path ".dat" in
              when (negb (bool_decide (dat = [])))
                (print ("📊 Found " +:+ pretty (length dat) +:+ " .dat files in: "
                        +:+ str_of_path data_path)) ;;;
              ret (acc ++ dat)%list
            else ret acc))
      w (acc ++ Locator.found_in (fs w) ".dat" paths) lines.
Proof.
  revert acc w. induction paths as [|p paths IH]; intros acc w; cbn [for_fold].
  - exists []. cbn [Locator.found_in flat_map]. rewrite app_nil_r. apply emits_ret.
  - cbn [Locator.found_in flat_map]. fold (Locator.found_in (fs w) ".dat" paths).
    destruct (path_exists (fs w) p) eqn:Hp.
    + edestruct (IH (acc ++ glob (fs w) p ".dat")) as [lines Hlines].
      eexists. eapply emits_bind.
      { emit_step. rewrite Hp. cbn zeta.
        eapply emits_bind; [apply emits_when_print|rewrite ?add_lines_app].
        apply emits_ret. }
      rewrite <- app_assoc in Hlines. rewrite ?fs_add_lines in Hlines. exact Hlines.
    + destruct (IH acc w) as [lines Hlines].
      eexists. eapply emits_bind.
      { emit_step. rewrite Hp. apply emits_ret. }
      rewrite add_lines_nil. cbn [app]. exact Hlines.
Qed.

Lemma locate_emits (possible_paths data_paths : list path) w :
  exists lines,
    emits (Native.locate possible_paths data_paths) w
      {| Native.lib_files := Locator.found_in (fs w) ".lib" possible_paths;
         Native.exe_files := Locator.found_in (fs w) ".exe" possible_paths;
         Native.dat_files := Locator.found_in (fs w) ".dat" data_paths |}
      lines.
Proof.
  edestruct (locate_binaries_emits possible_paths ([], [])) as [l1 H1].
  edestruct (locate_data_emits data_paths []) as [l2 H2].
  eexists. unfold Native.locate.
  emit_step. emit_step. eapply emits_bind; [exact H2|].
  rewrite ?fs_add_lines. cbn [fst snd app]. apply emits_ret.
Qed.

Lemma found_in_nothing f suf candidates :
  (forall p, In p candidates -> path_exists f p = false) ->
  Locator.found_in f suf candidates = [].
Proof.
  induction candidates as [|p ps IH]; intros H; [reflexivity|].
  cbn [Locator.found_in flat_map]. rewrite (H p (or_introl eq_refl)).
  apply IH. intros q Hq. apply H. now right.
Qed.

(** A candidate directory that does not exist is passed over by the data
    loop of the configure-driven [package_artifacts]. *)
Lemma copy_data_files_skips ext self (paths : list path) w :
  (forall p, In p paths -> path_exists (fs w) p = false) ->
  Configure.copy_data_files ext self paths w = (Ok false, w).
Proof.
  unfold Configure.copy_data_files. intros H.
  match goal with
  | |- for_fold _ _ ?body _ = _ =>
      enough (Hgen : forall found, for_fold paths found body w = (Ok found, w))
        by apply Hgen
  end.
  induction paths as [|p ps IH]; intros found; [reflexivity|].
  cbn [for_fold]. unfold bind at 1. unfold bind at 1. cbn [get_fs].
  rewrite (H p (or_introl eq_refl)). cbn [ret].
  apply IH. intros q Hq. apply H. now right.
Qed.

Lemma for_fold_unchanged {A S} (l : list A) (body : A -> S -> M S) s w :
  (forall x s, In x l -> body x s w = (Ok s, w)) ->
  for_fold l s body w = (Ok s, w).
Proof.
  revert s. induction l as [|x l IH]; intros s H; [reflexivity|].
  cbn [for_fold]. rewrite (bind_ok _ _ _ _ _ (H x s (or_introl eq_refl))).
  apply IH. intros y s' Hy. apply H. now right.
Qed.

(** With no candidate directory on disk the locator prints its heading and
    nothing more. *)
Lemma locate_nothing (possible_paths data_paths : list path) w :
  (forall p, In p (possible_paths ++ data_paths) -> path_exists (fs w) p = false) ->
  Native.locate possible_paths data_paths w
  = (Ok {| Native.lib_files := []; Native.exe_files := []; Native.dat_files := [] |},
     add_lines ["🔍 Locating build artifacts..."] w).
Proof.
  intros H. unfold Native.locate.
  rewrite (bind_ok _ _ _ _ _ (emits_print _ w)).
  erewrite bind_ok; cycle 1.
  { apply for_fold_unchanged. intros p acc Hp.
    unfold bind, get_fs. rewrite fs_add_lines, (H p); [reflexivity|].
    apply in_or_app. now left. }
  erewrite bind_ok; cycle 1.
  { apply for_fold_unchanged. intros p acc Hp.
    unfold bind, get_fs. rewrite fs_add_lines, (H p); [reflexivity|].
    apply in_or_app. now right. }
  reflexivity.
Qed.

Lemma none_exists_spec f (candidates : list path) :
  forallb (fun p => negb (path_exists f p)) candidates = true ->
  forall p, In p candidates -> path_exists f p = false.
Proof.
  rewrite forallb_forall. intros H p Hp. specialize (H p Hp).
  now destruct (path_exists f p).
Qed.

(** ** Packaging *)

(** The project-file-driven [package_artifacts] stops before touching the
    disk when the locator has found no library. *)
Lemma native_package_fails_without_libraries ext self w :
  Locator.found_in (fs w) ".lib" (Native.possible_paths self) = [] ->
  exists lines,
    emits (Native.package_artifacts ext self) w false lines
    /\ last lines = Some "❌ No .lib files found in any expected location".
Proof.
  intros Hnone.
  edestruct (locate_emits (Native.possible_paths self) (Native.data_paths self))
    as [lines Hl].
  eexists. split.
  - unfold Native.package_artifacts. emit_step.
    eapply emits_bind; [exact Hl|]. rewrite ?add_lines_app, ?fs_add_lines.
    cbn [Native.lib_files]. rewrite Hnone. emit_step. apply emits_ret.
  - cbn [app]. rewrite ?app_comm_cons, ?app_assoc. apply last_snoc.
Qed.

(** C2, at the failing input.  With no library under the install prefix
    the configure-driven [package_artifacts] still returns [True] and
    leaves an archive in the workspace. *)
Theorem configure_package_archives_without_libraries :
  glob (fs Scenario.bare) (Configure.build_dir Scenario.configure_builder // "lib") ".lib" = []
  /\ fst (Configure.package_artifacts Scenario.quiet Scenario.configure_builder Scenario.bare)
     = Ok true
  /\ is_file
       (fs (snd (Configure.package_artifacts Scenario.quiet Scenario.configure_builder
                   Scenario.bare)))
       ["W"; "icu-x64-Release-separate-data.zip"] = true.
Proof. vm_compute. repeat split. Qed.

(** ** Faults *)

Lemma never_raises_ret {A} (a : A) : never_raises (ret a).
Proof. intros w. now exists a, w. Qed.

Lemma never_raises_print line : never_raises (print line).
Proof. intros w. eexists _, _. reflexivity. Qed.

Lemma never_raises_bind {A B} (m : M A) (k : A -> M B) :
  never_raises m -> (forall a, never_raises (k a)) -> never_raises (bind m k).
Proof.
  intros Hm Hk w. destruct (Hm w) as (a & w1 & H1).
  destruct (Hk a w1) as (b & w2 & H2).
  exists b, w2. now rewrite (bind_ok _ _ _ _ _ H1).
Qed.

Lemma never_raises_try_except {A} (m : M A) (h : exn -> M A) :
  (forall e, never_raises (h e)) -> never_raises (try_except m h).
Proof.
  intros Hh w. unfold try_except.
  destruct (m w) as [[a|e] w1]; [now exists a, w1|apply Hh].
Qed.

Lemma never_raises_for_each {A} (l : list A) (body : A -> M unit) :
  (forall x, never_raises (body x)) -> never_raises (for_each l body).
Proof.
  intros H. induction l as [|x l IH]; cbn [for_each].
  - apply never_raises_ret.
  - apply never_raises_bind; [apply H|intros _; exact IH].
Qed.

Lemma never_raises_when b (m : M unit) : never_raises m -> never_raises (when b m).
Proof. destruct b; [auto|intros _; apply never_raises_ret]. Qed.

Ltac total_step :=
  repeat first
    [ apply never_raises_bind; [|intros ?]
    | apply never_raises_try_except; intros ?
    | apply never_raises_for_each; intros ?
    | apply never_raises_when
    | apply never_raises_print
    | apply never_raises_ret
    | match goal with |- never_raises (if ?b then _ else _) => destruct b end ].

(** The steps that talk to the network or to the toolchain wrap their work
    in [try]/[except] and turn every exception into a boolean. *)
Lemma guarded_steps_never_raise ext :
  (forall self,
      never_raises (Configure.prepare_source ext self)
      /\ never_raises (Configure.configure_build ext self)
      /\ never_raises (Configure.build_icu ext self)
      /\ never_raises (Configure.install_icu ext self))
  /\ (forall self,
        never_raises (Native.build_icu_with_msbuild ext self)).
Proof.
  split; [intros self; repeat split|intros self].
  - unfold Configure.prepare_source. total_step.
  - unfold Configure.configure_build, Configure.get_msvc_env. total_step.
  - unfold Configure.build_icu. total_step.
  - unfold Configure.install_icu. total_step.
  - unfold Native.build_icu_with_msbuild. total_step.
Qed.

(** C4, at the failing input.  A regular file in the place of the artifact
    directory makes [shutil.rmtree] raise inside [package_artifacts]; no
    handler catches it, and it leaves the step loop, [build] and [main] as
    an exception, in both scripts. *)
Theorem packaging_fault_escapes_the_pipeline :
  fst (Configure.package_artifacts Scenario.quiet Scenario.configure_builder
         Scenario.stale_artifact) = Raise NotADirectoryError
  /\ fst (Configure.build Scenario.quiet Scenario.configure_builder Scenario.stale_artifact)
     = Raise NotADirectoryError
  /\ fst (Configure.main Scenario.quiet Scenario.proc [] Scenario.stale_artifact)
     = Raise NotADirectoryError
  /\ fst (Native.build Scenario.quiet Scenario.native_builder Scenario.native_stale_artifact)
     = Raise NotADirectoryError
  /\ fst (Native.main Scenario.quiet Scenario.proc [] Scenario.native_stale_artifact)
     = Raise NotADirectoryError.
Proof. vm_compute. repeat split. Qed.

(** ** Re-running the preparatory steps *)

Lemma configure_download_skips ext self w :
  path_exists (fs w) (Configure.source_dir self) = true ->
  emits (Configure.download_icu_source ext self) w true
    [ "🔍 Checking for ICU source...";
      "✅ ICU source already available at: " +:+ str_of_path (Configure.source_dir self) ].
Proof.
  intros H. unfold Configure.download_icu_source.
  change [ "🔍 Checking for ICU source...";
           "✅ ICU source already available at: " +:+ str_of_path (Configure.source_dir self) ]
    with (["🔍 Checking for ICU source..."] ++ [] ++
          ["✅ ICU source already available at: " +:+ str_of_path (Configure.source_dir self)]
          ++ []).
  eapply emits_bind; [apply emits_print|].
  eapply emits_bind; [apply emits_get_fs|].
  rewrite !fs_add_lines, H.
  eapply emits_bind; [apply emits_print|apply emits_ret].
Qed.

Lemma native_download_skips ext self w :
  path_exists (fs w) (Native.source_dir self) = true ->
  emits (Native.download_icu_source ext self) w true
    [ "🔍 Checking for ICU source...";
      "✅ ICU source already available at: " +:+ str_of_path (Native.source_dir self) ].
Proof.
  intros H. unfold Native.download_icu_source.
  change [ "🔍 Checking for ICU source...";
           "✅ ICU source already available at: " +:+ str_of_path (Native.source_dir self) ]
    with (["🔍 Checking for ICU source..."] ++ [] ++
          ["✅ ICU source already available at: " +:+ str_of_path (Native.source_dir self)]
          ++ []).
  eapply emits_bind; [apply emits_print|].
  eapply emits_bind; [apply emits_get_fs|].
  rewrite !fs_add_lines, H.
  eapply emits_bind; [apply emits_print|apply emits_ret].
Qed.

(** Every call of [prepare_source] starts the Cygwin shell once more. *)
Lemma prepare_source_runs_toolchain ext self w :
  proc_log (snd (Configure.prepare_source ext self w))
  = proc_log w
    ++ [CygwinBash (Configure.bash_exe self) (PrepareScript (Configure.source_dir self))].
Proof.
  unfold Configure.prepare_source, try_except, run_process, bind, log_proc, print.
  cbn [fs stdout http_log proc_log].
  destruct (subprocess_run ext _ _) as [e|[cp f']]; cbn; [reflexivity|].
  destruct (negb (returncode cp =? 0)%Z); reflexivity.
Qed.

(** C5, as stated, fails for the preparation step: with the source tree
    already prepared by a first successful call, a second call of
    [prepare_source] runs the toolchain again. *)
Lemma prepare_source_repeats_its_work :
  let first := Configure.prepare_source Scenario.quiet Scenario.configure_builder
                 Scenario.unpacked in
  let second := Configure.prepare_source Scenario.quiet Scenario.configure_builder
                  (snd first) in
  fst first = Ok true
  /\ length (proc_log (snd first)) = 1
  /\ fst second = Ok true
  /\ length (proc_log (snd second)) = 2.
Proof. vm_compute. repeat split. Qed.

(** C5, amended.  In both scripts source acquisition looks for the source
    directory first and, when it exists, returns [True] having done nothing
    but print two lines: no network call, no process, no change on disk,
    for every configuration.  [prepare_source] has no such check: every
    call runs its shell command. *)
Theorem source_acquisition_is_idempotent :
  forall ext w,
    (forall self,
        path_exists (fs w) (Configure.source_dir self) = true ->
        exists w',
          Configure.download_icu_source ext self w = (Ok true, w')
          /\ http_log w' = http_log w
          /\ proc_log w' = proc_log w
          /\ fs w' = fs w)
    /\ (forall self,
          path_exists (fs w) (Native.source_dir self) = true ->
          exists w',
            Native.download_icu_source ext self w = (Ok true, w')
            /\ http_log w' = http_log w
            /\ proc_log w' = proc_log w
            /\ fs w' = fs w)
    /\ (forall self,
          proc_log (snd (Configure.prepare_source ext self w))
          = proc_log w
            ++ [CygwinBash (Configure.bash_exe self)
                  (PrepareScript (Configure.source_dir self))]).
Proof.
  intros ext w. split; [|split].
  - intros self H. eexists. split; [apply (configure_download_skips ext self w H)|].
    repeat split.
  - intros self H. eexists. split; [apply (native_download_skips ext self w H)|].
    repeat split.
  - intros self. apply prepare_source_runs_toolchain.
Qed.

Lemma source_acquisition_is_idempotent_witness :
  exists w',
    Configure.download_icu_source Scenario.quiet Scenario.configure_builder
      Scenario.unpacked = (Ok true, w')
    /\ http_log w' = http_log Scenario.unpacked
    /\ proc_log w' = proc_log Scenario.unpacked
    /\ fs w' = fs Scenario.unpacked.
Proof.
  apply (proj1 (source_acquisition_is_idempotent Scenario.quiet Scenario.unpacked)
           Scenario.configure_builder).
  vm_compute. reflexivity.
Defined.

(** ** The toolset update *)

(** Once the existence check on the props file has answered,
    [update_visual_studio_toolset] returns [True]: with the props file
    missing, with a file that needs no change, with one that is rewritten,
    and when reading or writing it raises.  The step loop then goes on to
    the steps that follow. *)
Lemma toolset_update_with_answering_probe :
  forall ext self w,
    exists w',
      Native.update_visual_studio_toolset ext self w = (Ok true, w')
      /\ (forall rest,
            Native.run_steps
              (("Update Visual Studio toolset", Native.update_visual_studio_toolset ext self)
               :: rest) w
            = Native.run_steps rest
                (Pipeline.acknowledged
                   (snd (Native.update_visual_studio_toolset ext self
                           (Pipeline.announced "Update Visual Studio toolset" w))))).
Proof.
  assert (Hok : forall ext self w,
             fst (Native.update_visual_studio_toolset ext self w) = Ok true).
  { intros ext self w. unfold Native.update_visual_studio_toolset.
    unfold bind at 1. cbn [print]. unfold bind at 1. cbn [get_fs fs].
    destruct (path_exists _ _); cbn [negb]; [|reflexivity].
    unfold try_except, bind.
    destruct (read_text ext _ _) as [[content|e] w1]; [|reflexivity].
    destruct (_ || _).
    - destruct (write_text ext _ _ _) as [[[]|e] w2]; reflexivity.
    - reflexivity. }
  intros ext self w. exists (snd (Native.update_visual_studio_toolset ext self w)).
  split.
  - specialize (Hok ext self w).
    destruct (Native.update_visual_studio_toolset ext self w) as [r w']. cbn in *.
    now subst.
  - intros rest. rewrite !native_run_steps_traced. cbn [Pipeline.run_traced].
    specialize (Hok ext self (Pipeline.announced "Update Visual Studio toolset" w)).
    destruct (Native.update_visual_studio_toolset ext self _) as [r w']. cbn in Hok.
    subst r. cbn [snd]. now destruct (Pipeline.run_traced _ rest _).
Qed.

(** ** The command line *)

Lemma find_exact_in opts t o : Argparse.find_exact opts t = Some o -> In o opts.
Proof. unfold Argparse.find_exact. intros H. now apply find_some in H. Qed.

Lemma classify_in opts t o explicit :
  Argparse.classify opts t = Argparse.Opt o explicit -> In o opts.
Proof.
  unfold Argparse.classify.
  destruct (negb (String.prefix "-" t)); [discriminate|].
  destruct (Argparse.find_exact opts t) as [o0|] eqn:H0.
  { intros [= <- _]. eapply find_exact_in, H0. }
  destruct (String.eqb t "-"); [discriminate|].
  destruct (Argparse.split_eq t) as [key expl].
  destruct (match expl with
            | Some _ => Argparse.find_exact opts key
            | None => None
            end) as [o1|] eqn:H1.
  { intros [= <- _]. destruct expl; [|discriminate]. eapply find_exact_in, H1. }
  destruct (String.prefix "--" t).
  - destruct (Argparse.find_abbrev opts key) as [|c [|c' cs]] eqn:Hc.
    + destruct (Argparse.negative_number t); [discriminate|].
      destruct (contains " " t); discriminate.
    + intros [= <- _].
      assert (Hin : In c (Argparse.find_abbrev opts key)) by (rewrite Hc; now left).
      unfold Argparse.find_abbrev in Hin. now apply filter_In in Hin.
    + discriminate.
  - destruct (Argparse.find_exact opts (String.substring 0 2 t)) as [o2|] eqn:H2.
    + intros [= <- _]. eapply find_exact_in, H2.
    + destruct (Argparse.negative_number t); [discriminate|].
      destruct (contains " " t); discriminate.
Qed.

Lemma store_respects opts ns o choices v :
  Argparse.distinct_dests opts -> In o opts ->
  Argparse.opt_action o = Argparse.Store choices ->
  Argparse.check_choice choices v = true ->
  Argparse.respects_choices opts ns ->
  Argparse.respects_choices opts (<[Argparse.opt_dest o := Argparse.VStr v]> ns).
Proof.
  intros Hdist Ho Hact Hcheck Hns o' allowed Ho' Hact'.
  destruct (decide (Argparse.opt_dest o = Argparse.opt_dest o')) as [Heq|Hne].
  - pose proof (Hdist o o' Ho Ho' Heq) as ->.
    rewrite Hact in Hact'. injection Hact' as ->.
    exists v. rewrite lookup_insert_eq. split; [reflexivity|].
    cbn in Hcheck. apply bool_decide_eq_true in Hcheck. now apply list_elem_of_In.
  - rewrite lookup_insert_ne by exact Hne. now apply Hns.
Qed.

Lemma flag_respects opts ns o :
  Argparse.distinct_dests opts -> In o opts ->
  Argparse.opt_action o = Argparse.StoreTrue ->
  Argparse.respects_choices opts ns ->
  Argparse.respects_choices opts (<[Argparse.opt_dest o := Argparse.VFlag true]> ns).
Proof.
  intros Hdist Ho Hact Hns o' allowed Ho' Hact'.
  destruct (decide (Argparse.opt_dest o = Argparse.opt_dest o')) as [Heq|Hne].
  - pose proof (Hdist o o' Ho Ho' Heq) as ->. congruence.
  - rewrite lookup_insert_ne by exact Hne. now apply Hns.
Qed.

(** A successful parse keeps every option with [choices] within them. *)
Lemma parse_loop_respects opts :
  Argparse.distinct_dests opts ->
  forall tokens pending extras ns ns',
    (forall o, pending = Some o -> In o opts) ->
    Argparse.respects_choices opts ns ->
    Argparse.parse_loop opts pending extras ns tokens = Argparse.Parsed ns' ->
    Argparse.respects_choices opts ns'.
Proof.
  intros Hdist. induction tokens as [|t rest IH]; intros pending extras ns ns' Hpend Hns;
    cbn [Argparse.parse_loop].
  - destruct pending; [discriminate|]. destruct extras; [discriminate|].
    now intros [= <-].
  - destruct pending as [o|].
    + destruct (Argparse.classify opts t); try discriminate.
      destruct (Argparse.opt_action o) as [choices| |] eqn:Hact; try discriminate.
      destruct (Argparse.check_choice choices t) eqn:Hcheck; [|discriminate].
      apply IH; [discriminate|].
      eapply store_respects; eauto.
    + destruct (Argparse.classify opts t) as [|o explicit| |] eqn:Hclass.
      * apply IH; [discriminate|exact Hns].
      * pose proof (classify_in _ _ _ _ Hclass) as Ho.
        destruct (Argparse.opt_action o) as [choices| |] eqn:Hact.
        -- destruct explicit as [v|].
           ++ destruct (Argparse.check_choice choices v) eqn:Hcheck; [|discriminate].
              apply IH; [discriminate|]. eapply store_respects; eauto.
           ++ apply IH; [|exact Hns]. now intros o' [= <-].
        -- destruct explicit; [discriminate|].
           apply IH; [discriminate|]. eapply flag_respects; eauto.
        -- destruct explicit; discriminate.
      * discriminate.
      * apply IH; [discriminate|exact Hns].
Qed.

Ltac each_option H :=
  cbn [In Configure.parser Native.parser] in H;
  repeat match type of H with
         | _ \/ _ => destruct H as [<-|H]
         | False => destruct H
         end.

Lemma configure_parser_distinct :
  Argparse.distinct_dests (Argparse.help_option :: Configure.parser).
Proof.
  intros o o' Ho Ho' Heq.
  each_option Ho; each_option Ho'; first [reflexivity | discriminate Heq].
Qed.

Lemma native_parser_distinct :
  Argparse.distinct_dests (Argparse.help_option :: Native.parser).
Proof.
  intros o o' Ho Ho' Heq.
  each_option Ho; each_option Ho'; first [reflexivity | discriminate Heq].
Qed.

Lemma configure_defaults_respect_choices :
  Argparse.respects_choices (Argparse.help_option :: Configure.parser)
    Configure.parser_defaults.
Proof.
  intros o allowed Ho Hact.
  each_option Ho; cbn in Hact; try discriminate Hact; injection Hact as <-.
  - exists "x64". split; [reflexivity|now left].
  - exists "Release". split; [reflexivity|now left].
Qed.

Lemma native_defaults_respect_choices :
  Argparse.respects_choices (Argparse.help_option :: Native.parser)
    Native.parser_defaults.
Proof.
  intros o allowed Ho Hact.
  each_option Ho; cbn in Hact; try discriminate Hact; injection Hact as <-.
  - exists "x64". split; [reflexivity|now left].
  - exists "Release". split; [reflexivity|now left].
Qed.

Lemma get_str_respects opts ns o allowed :
  Argparse.respects_choices opts ns -> In o opts ->
  Argparse.opt_action o = Argparse.Store (Some allowed) ->
  In (Argparse.get_str ns (Argparse.opt_dest o)) allowed.
Proof.
  intros Hns Ho Hact. destruct (Hns o allowed Ho Hact) as (v & Hv & Hin).
  unfold Argparse.get_str. now rewrite Hv.
Qed.

(** C9, as stated, fails: [BuildConfig] is a plain dataclass whose
    constructor checks nothing.  A configuration outside both closed sets is
    a value like any other, and the builder derives its paths from it and
    runs its steps on it. *)
Lemma build_config_is_not_validated_at_construction :
  ~ In (Configure.arch Scenario.unvalidated_config) ["x64"; "x86"]
  /\ ~ In (Configure.build_type Scenario.unvalidated_config) ["Release"; "Debug"]
  /\ Configure.build_dir (Configure.init Scenario.proc Scenario.unvalidated_config)
     = ["D:"; "icu-build"; "arm64-Fast"]
  /\ fst (Configure.download_icu_source Scenario.quiet
            (Configure.init Scenario.proc Scenario.unvalidated_config)
            Scenario.unpacked) = Ok true.
Proof.
  split; [|split; [|split]].
  - cbn. intros [H|[H|[]]]; discriminate H.
  - cbn. intros [H|[H|[]]]; discriminate H.
  - reflexivity.
  - vm_compute. reflexivity.
Qed.

(** C9, amended.  The architecture and the build type are checked against
    their closed sets by the command-line parser of [main], before the
    [BuildConfig] is constructed: whenever parsing succeeds the
    configuration handed to the builder has both within their sets (the
    data-packaging mode is a boolean flag), and when parsing fails [main]
    exits with the parser's status and builds nothing.  The builder runs
    the whole pipeline on that one configuration, which is a read-only
    parameter of every step. *)
Theorem main_validates_enumerated_arguments :
  (forall argv args,
      Argparse.parse_args Configure.parser Configure.parser_defaults argv
      = Argparse.Parsed args ->
      In (Configure.arch (Configure.config_of_args args)) ["x64"; "x86"]
      /\ In (Configure.build_type (Configure.config_of_args args)) ["Release"; "Debug"]
      /\ forall ext proc,
           Configure.main ext proc argv
           = (success <- Configure.build ext
                           (Configure.init proc (Configure.config_of_args args)) ;;
              ret (if success then 0 else 1)%Z))
  /\ (forall argv args,
        Argparse.parse_args Native.parser Native.parser_defaults argv
        = Argparse.Parsed args ->
        In (Native.arch (Native.config_of_args args)) ["x64"; "x86"]
        /\ In (Native.build_type (Native.config_of_args args)) ["Release"; "Debug"]
        /\ forall ext proc,
             Native.main ext proc argv
             = (success <- Native.build ext
                             (Native.init proc (Native.config_of_args args)) ;;
                ret (if success then 0 else 1)%Z))
  /\ (forall argv code ext proc,
        Argparse.parse_args Configure.parser Configure.parser_defaults argv
        = Argparse.Exit code ->
        Configure.main ext proc argv = ret code)
  /\ (forall argv code ext proc,
        Argparse.parse_args Native.parser Native.parser_defaults argv
        = Argparse.Exit code ->
        Native.main ext proc argv = ret code).
Proof.
  split; [|split; [|split]].
  - intros argv args H.
    assert (Hns : Argparse.respects_choices (Argparse.help_option :: Configure.parser) args).
    { eapply (parse_loop_respects _ configure_parser_distinct);
        [|apply configure_defaults_respect_choices|exact H]. discriminate. }
    split; [|split].
    + apply (get_str_respects _ _
               {| Argparse.opt_strings := ["--arch"]; Argparse.opt_dest := "arch";
                  Argparse.opt_action := Argparse.Store (Some ["x64"; "x86"]) |} _ Hns);
        [cbn; tauto|reflexivity].
    + apply (get_str_respects _ _
               {| Argparse.opt_strings := ["--build-type"]; Argparse.opt_dest := "build_type";
                  Argparse.opt_action := Argparse.Store (Some ["Release"; "Debug"]) |} _ Hns);
        [cbn; tauto|reflexivity].
    + intros ext proc. unfold Configure.main. now rewrite H.
  - intros argv args H.
    assert (Hns : Argparse.respects_choices (Argparse.help_option :: Native.parser) args).
    { eapply (parse_loop_respects _ native_parser_distinct);
        [|apply native_defaults_respect_choices|exact H]. discriminate. }
    split; [|split].
    + apply (get_str_respects _ _
               {| Argparse.opt_strings := ["--arch"]; Argparse.opt_dest := "arch";
                  Argparse.opt_action := Argparse.Store (Some ["x64"; "x86"]) |} _ Hns);
        [cbn; tauto|reflexivity].
    + apply (get_str_respects _ _
               {| Argparse.opt_strings := ["--build-type"]; Argparse.opt_dest := "build_type";
                  Argparse.opt_action := Argparse.Store (Some ["Release"; "Debug"]) |} _ Hns);
        [cbn; tauto|reflexivity].
    + intros ext proc. unfold Native.main. now rewrite H.
  - intros argv code ext proc H. unfold Configure.main. now rewrite H.
  - intros argv code ext proc H. unfold Native.main. now rewrite H.
Qed.

Lemma main_validates_enumerated_arguments_witness :
  exists args,
    Argparse.parse_args Configure.parser Configure.parser_defaults
      ["--arch"; "x86"; "--build-type=Debug"; "--embed-data"] = Argparse.Parsed args
    /\ In (Configure.arch (Configure.config_of_args args)) ["x64"; "x86"]
    /\ In (Configure.build_type (Configure.config_of_args args)) ["Release"; "Debug"].
Proof.
  eexists. split; [vm_compute; reflexivity|].
  pose proof (proj1 main_validates_enumerated_arguments
                ["--arch"; "x86"; "--build-type=Debug"; "--embed-data"] _
                ltac:(vm_compute; reflexivity)) as (Harch & Htype & _).
  split; [exact Harch|exact Htype].
Defined.

(** * Footprints of the operations *)

#[export] Instance same_http_refl : Reflexive same_http.
Proof. now intros w. Qed.
#[export] Instance same_http_trans : Transitive same_http.
Proof. unfold same_http. intros a b c H1 H2. congruence. Qed.
#[export] Instance same_procs_refl : Reflexive same_procs.
Proof. now intros w. Qed.
#[export] Instance same_procs_trans : Transitive same_procs.
Proof. unfold same_procs. intros a b c H1 H2. congruence. Qed.
#[export] Instance same_fs_refl : Reflexive same_fs.
Proof. now intros w. Qed.
#[export] Instance same_fs_trans : Transitive same_fs.
Proof. unfold same_fs. intros a b c H1 H2. congruence. Qed.
#[export] Instance same_outside_refl S : Reflexive (same_outside S).
Proof. now intros w k. Qed.
#[export] Instance same_outside_trans S : Transitive (same_outside S).
Proof. intros a b c H1 H2 k Hk. now rewrite (H2 k Hk), (H1 k Hk). Qed.

Section Respects.
Context (R : world -> world -> Prop) `{!Reflexive R} `{!Transitive R}.

Lemma respects_ret {A} (a : A) : respects R (ret a).
Proof. intros w r w' [= _ <-]. reflexivity. Qed.

Lemma respects_raise {A} e : respects R (@raise A e).
Proof. intros w r w' [= _ <-]. reflexivity. Qed.

Lemma respects_bind {A B} (m : M A) (k : A -> M B) :
  respects R m -> (forall a, respects R (k a)) -> respects R (bind m k).
Proof.
  intros Hm Hk w r w'. unfold bind.
  destruct (m w) as [[a|e] w1] eqn:H1.
  - intros H2. etransitivity; [eapply Hm, H1|eapply Hk, H2].
  - intros [= _ <-]. eapply Hm, H1.
Qed.

Lemma respects_try_except {A} (m : M A) (h : exn -> M A) :
  respects R m -> (forall e, respects R (h e)) -> respects R (try_except m h).
Proof.
  intros Hm Hh w r w'. unfold try_except.
  destruct (m w) as [[a|e] w1] eqn:H1.
  - intros [= _ <-]. eapply Hm, H1.
  - intros H2. etransitivity; [eapply Hm, H1|eapply Hh, H2].
Qed.

Lemma respects_for_each {A} (l : list A) (body : A -> M unit) :
  (forall x, respects R (body x)) -> respects R (for_each l body).
Proof.
  intros H. induction l as [|x l IH]; cbn [for_each].
  - apply respects_ret.
  - apply respects_bind; [apply H|intros _; exact IH].
Qed.

Lemma respects_for_fold {A S} (l : list A) (s : S) (body : A -> S -> M S) :
  (forall x s, respects R (body x s)) -> respects R (for_fold l s body).
Proof.
  intros H. revert s. induction l as [|x l IH]; intros s; cbn [for_fold].
  - apply respects_ret.
  - apply respects_bind; [apply H|intros s'; apply IH].
Qed.

Lemma respects_when b (m : M unit) : respects R m -> respects R (when b m).
Proof. destruct b; [auto|intros _; apply respects_ret]. Qed.

Lemma respects_faulting ext {A} op p (m : M A) :
  respects R m -> respects R (faulting ext op p m).
Proof. unfold faulting. destruct (io_fault ext op p); [intros _; apply respects_raise|auto]. Qed.

End Respects.

#[export] Instance same_logs_refl : Reflexive same_logs.
Proof. now intros w. Qed.
#[export] Instance same_logs_trans : Transitive same_logs.
Proof. unfold same_logs. intros a b c [H1 H2] [H3 H4]. split; congruence. Qed.

Lemma respects_weaken {A} (R R' : world -> world -> Prop) (m : M A) :
  (forall w w', R w w' -> R' w w') -> respects R m -> respects R' m.
Proof. intros HR Hm w r w' H. eapply HR, Hm, H. Qed.

(** A state transformer written as a cascade of matches, each branch
    returning the world with at most its tree replaced. *)
Ltac atomic_footprint :=
  let w := fresh "w" in
  let r := fresh "r" in
  let w' := fresh "w'" in
  let H := fresh "H" in
  intros w r w';
  repeat match goal with
         | |- context [match ?x with _ => _ end] => destruct x
         end;
  intros H; inversion H; subst; clear H;
  first [ reflexivity | split; reflexivity | discriminate ].

Ltac inv_result :=
  let H := fresh "H" in intros H; inversion H; subst; clear H.

Lemma logs_print line : respects same_logs (print line).
Proof. unfold print. atomic_footprint. Qed.

Lemma logs_get_fs : respects same_logs get_fs.
Proof. unfold get_fs. atomic_footprint. Qed.

Lemma logs_stat_size p : respects same_logs (stat_size p).
Proof. unfold stat_size. atomic_footprint. Qed.

Lemma logs_store_file p c : respects same_logs (store_file p c).
Proof. unfold store_file. atomic_footprint. Qed.

Lemma logs_mkdir ext p : respects same_logs (mkdir ext p).
Proof.
  apply respects_faulting; try typeclasses eauto. atomic_footprint.
Qed.

Lemma logs_rmtree ext p : respects same_logs (rmtree ext p).
Proof.
  apply respects_faulting; try typeclasses eauto. atomic_footprint.
Qed.

Lemma logs_write_file ext p c : respects same_logs (write_file ext p c).
Proof.
  apply respects_faulting; try typeclasses eauto. apply logs_store_file.
Qed.

Lemma logs_write_text ext p c : respects same_logs (write_text ext p c).
Proof.
  apply respects_faulting; try typeclasses eauto. apply logs_store_file.
Qed.

Lemma logs_read_text ext p : respects same_logs (read_text ext p).
Proof.
  apply respects_faulting; try typeclasses eauto. atomic_footprint.
Qed.

Lemma logs_copy2 ext src dst : respects same_logs (copy2 ext src dst).
Proof.
  apply respects_faulting; try typeclasses eauto.
  intros w r w'. destruct (lookup_path (fs w) src) as [[c|]|].
  - apply logs_store_file.
  - intros [= _ <-]. reflexivity.
  - intros [= _ <-]. reflexivity.
Qed.

Lemma logs_iterdir ext p : respects same_logs (iterdir ext p).
Proof.
  apply respects_faulting; try typeclasses eauto. atomic_footprint.
Qed.

Lemma logs_makedirs p : respects same_logs (makedirs p).
Proof.
  unfold makedirs. generalize (@nil string) as made. generalize (norm p) as todo.
  induction todo as [|c rest IH]; intros made; cbn [makedirs_from].
  - apply respects_ret; typeclasses eauto.
  - apply respects_bind; try typeclasses eauto; [atomic_footprint|intros _; apply IH].
Qed.

Lemma http_of_logs {A} (m : M A) : respects same_logs m -> respects same_http m.
Proof. apply respects_weaken. now intros w w' [H _]. Qed.

Lemma procs_of_logs {A} (m : M A) : respects same_logs m -> respects same_procs m.
Proof. apply respects_weaken. now intros w w' [_ H]. Qed.

Create HintDb footprint.
#[export] Hint Resolve logs_print logs_get_fs logs_stat_size logs_store_file logs_mkdir
  logs_rmtree logs_write_file logs_write_text logs_read_text logs_copy2 logs_iterdir
  logs_makedirs : footprint.

(** Decomposes a program along its binds, handlers, loops and branches,
    closing the leaves with the [footprint] hints. *)
Ltac footprint :=
  repeat first
    [ solve [eauto 2 with footprint typeclass_instances]
    | apply respects_ret; try typeclasses eauto
    | apply respects_raise; try typeclasses eauto
    | apply respects_bind; try typeclasses eauto; [|intros ?]
    | apply respects_try_except; try typeclasses eauto; [|intros ?]
    | apply respects_for_each; try typeclasses eauto; intros ?
    | apply respects_for_fold; try typeclasses eauto; intros ? ?
    | apply respects_when; try typeclasses eauto
    | match goal with
      | |- respects _ (if ?b then _ else _) => destruct b
      | |- respects _ (match ?x with _ => _ end) => destruct x
      | |- respects _ (let '(_, _) := ?x in _) => destruct x
      end ].

Lemma logs_copytree ext src dst : respects same_logs (copytree ext src dst).
Proof.
  unfold copytree. apply respects_faulting; try typeclasses eauto.
  assert (Hentry : forall k, respects same_logs (copytree_entry ext src dst k)).
  { intros k w r w'. unfold copytree_entry. cbv zeta.
    destruct (lookup_path (fs w) k) as [[c|]|].
    - match goal with
      | |- context [let (_, _) := ?t in _] => destruct t as [[u|e] w1] eqn:H1
      end; inv_result;
        (eapply (respects_bind same_logs); [apply logs_makedirs| |exact H1]);
        intros ?; apply respects_faulting; try typeclasses eauto; apply logs_store_file.
    - match goal with
      | |- context [let (_, _) := ?t in _] => destruct t as [[u|e] w1] eqn:H1
      end; inv_result;
        eapply logs_makedirs, H1.
    - inv_result. reflexivity. }
  assert (Hentries : forall ks, respects same_logs (copytree_entries ext src dst ks)).
  { induction ks as [|k ks IH]; cbn [copytree_entries]; footprint. }
  footprint.
Qed.

Lemma logs_zip_tree ext zip_path root : respects same_logs (zip_tree ext zip_path root).
Proof.
  assert (Hmembers : forall ks acc,
             respects same_logs (zip_members ext zip_path root acc ks)).
  { induction ks as [|k ks IH]; intros acc; cbn [zip_members]; footprint. }
  unfold zip_tree. footprint.
  apply respects_faulting; try typeclasses eauto. footprint.
Qed.

Lemma logs_extractall ext zip_path dest : respects same_logs (extractall ext zip_path dest).
Proof.
  unfold extractall. footprint.
  apply respects_faulting; try typeclasses eauto. footprint.
Qed.

#[export] Hint Resolve logs_copytree logs_zip_tree logs_extractall : footprint.
#[export] Hint Resolve http_of_logs procs_of_logs : footprint.

Lemma http_run_process ext c : respects same_http (run_process ext c).
Proof.
  unfold run_process. apply respects_bind; try typeclasses eauto.
  - unfold log_proc. atomic_footprint.
  - intros _. atomic_footprint.
Qed.

Lemma fs_log_http url : respects same_fs (log_http url).
Proof. unfold log_http. atomic_footprint. Qed.

Lemma procs_http_download ext url dest : respects same_procs (http_download ext url dest).
Proof.
  unfold http_download. apply respects_bind; try typeclasses eauto.
  - unfold log_http. atomic_footprint.
  - intros _ w r w'. destruct (requests_get ext url w) as [e|[body interrupted]].
    + inv_result. reflexivity.
    + destruct (write_file ext dest body w) as [[u|e] w1] eqn:H1.
      * destruct interrupted; inv_result;
          exact (procs_of_logs _ (logs_write_file ext dest body) _ _ _ H1).
      * inv_result. exact (procs_of_logs _ (logs_write_file ext dest body) _ _ _ H1).
Qed.

#[export] Hint Resolve http_run_process procs_http_download : footprint.

(** * Source acquisition and the network *)

Lemma respects_snd {A} R (m : M A) w : respects R m -> R w (snd (m w)).
Proof. intros H. destruct (m w) as [r w'] eqn:E. eapply H, E. Qed.

Lemma http_download_logs ext url dest w :
  http_log (snd (http_download ext url dest w)) = http_log w ++ [url].
Proof.
  unfold http_download, bind, log_http. cbn [fs stdout http_log proc_log].
  destruct (requests_get ext url _) as [e|[body interrupted]]; [reflexivity|].
  match goal with
  | |- context [write_file ext dest body ?W] =>
      pose proof (respects_snd _ _ W (http_of_logs _ (logs_write_file ext dest body))) as H;
      destruct (write_file ext dest body W) as [[u|e] w1]
  end; [destruct interrupted|]; exact H.
Qed.

Lemma http_bind_grows {A B} (m : M A) (k : A -> M B) w url :
  http_log (snd (m w)) = http_log w ++ [url] ->
  (forall a, respects same_http (k a)) ->
  http_log (snd (bind m k w)) = http_log w ++ [url].
Proof.
  intros Hm Hk. unfold bind. destruct (m w) as [[a|e] w1]; cbn [snd] in *; [|exact Hm].
  pose proof (respects_snd _ _ w1 (Hk a)) as H. unfold same_http in H. congruence.
Qed.

Lemma http_try_grows {A} (m : M A) (h : exn -> M A) w url :
  http_log (snd (m w)) = http_log w ++ [url] ->
  (forall e, respects same_http (h e)) ->
  http_log (snd (try_except m h w)) = http_log w ++ [url].
Proof.
  intros Hm Hh. unfold try_except. destruct (m w) as [[a|e] w1]; cbn [snd] in *; [exact Hm|].
  pose proof (respects_snd _ _ w1 (Hh e)) as H. unfold same_http in H. congruence.
Qed.

Lemma extract_keeps_logs ext zip_path dest done_msg :
  respects same_logs
    (print "📦 Extracting ICU source..." ;;;
     try_except
       (extractall ext zip_path dest ;;; print done_msg ;;; ret true)
       (fun e => print ("❌ Failed to extract ICU source: " +:+ str_of_exn e) ;;; ret false)).
Proof. footprint. Qed.

Lemma configure_download_http ext self w :
  let source_zip := Configure.workspace self // "icu-source.zip" in
  let url := "https://github.com/unicode-org/icu/archive/refs/tags/"
             +:+ Configure.icu_tag (Configure.config self) +:+ ".zip" in
  let w' := snd (Configure.download_icu_source ext self w) in
  http_log w'
  = if path_exists (fs w) (Configure.source_dir self) || path_exists (fs w) source_zip
    then http_log w
    else http_log w ++ [url].
Proof.
  intros source_zip url w'. subst w'.
  unfold Configure.download_icu_source.
  rewrite (bind_ok _ _ _ _ _ (emits_print _ w)).
  rewrite (bind_ok _ _ _ _ _ (emits_get_fs _)). rewrite fs_add_lines.
  destruct (path_exists (fs w) (Configure.source_dir self)); cbn [orb].
  { reflexivity. }
  cbv zeta. fold source_zip. destruct (path_exists (fs w) source_zip); cbn [negb].
  - match goal with
    | |- http_log (snd (?m ?W)) = _ =>
        exact (respects_snd _ m W (http_of_logs _ (extract_keeps_logs ext _ _ _)))
    end.
  - rewrite (bind_ok _ _ _ _ _ (emits_print _ _)).
    match goal with
    | |- http_log (snd (_ ?W)) = _ => change (http_log w) with (http_log W)
    end.
    apply http_bind_grows.
    + apply http_try_grows; [|intros e; footprint].
      apply http_bind_grows; [apply http_download_logs|intros _; footprint].
    + intros [|]; [apply http_of_logs, extract_keeps_logs|footprint].
Qed.

Lemma native_download_http ext self w :
  let source_zip := Native.workspace self // "icu-source.zip" in
  let url := "https://github.com/unicode-org/icu/archive/refs/tags/"
             +:+ Native.icu_tag (Native.config self) +:+ ".zip" in
  let w' := snd (Native.download_icu_source ext self w) in
  http_log w'
  = if path_exists (fs w) (Native.source_dir self) || path_exists (fs w) source_zip
    then http_log w
    else http_log w ++ [url].
Proof.
  intros source_zip url w'. subst w'.
  unfold Native.download_icu_source.
  rewrite (bind_ok _ _ _ _ _ (emits_print _ w)).
  rewrite (bind_ok _ _ _ _ _ (emits_get_fs _)). rewrite fs_add_lines.
  destruct (path_exists (fs w) (Native.source_dir self)); cbn [orb].
  { reflexivity. }
  cbv zeta. fold source_zip. destruct (path_exists (fs w) source_zip); cbn [negb].
  - match goal with
    | |- http_log (snd (?m ?W)) = _ =>
        exact (respects_snd _ m W (http_of_logs _ (extract_keeps_logs ext _ _ _)))
    end.
  - rewrite (bind_ok _ _ _ _ _ (emits_print _ _)).
    match goal with
    | |- http_log (snd (_ ?W)) = _ => change (http_log w) with (http_log W)
    end.
    apply http_bind_grows.
    + apply http_try_grows; [|intros e; footprint].
      apply http_bind_grows; [apply http_download_logs|intros _; footprint].
    + intros [|]; [apply http_of_logs, extract_keeps_logs|footprint].
Qed.

(** X1.  Source acquisition makes exactly one HTTP request, for the archive
    of the configured tag, when neither the source directory nor
    [icu-source.zip] is present, and no request at all otherwise, whether it
    then succeeds or fails.  It never starts a process. *)
Theorem download_requests_the_archive_at_most_once :
  forall ext w,
    (forall self,
        http_log (snd (Configure.download_icu_source ext self w))
        = (if path_exists (fs w) (Configure.source_dir self)
              || path_exists (fs w) (Configure.workspace self // "icu-source.zip")
           then http_log w
           else http_log w
                ++ ["https://github.com/unicode-org/icu/archive/refs/tags/"
                    +:+ Configure.icu_tag (Configure.config self) +:+ ".zip"])
        /\ proc_log (snd (Configure.download_icu_source ext self w)) = proc_log w)
    /\ (forall self,
          http_log (snd (Native.download_icu_source ext self w))
          = (if path_exists (fs w) (Native.source_dir self)
                || path_exists (fs w) (Native.workspace self // "icu-source.zip")
             then http_log w
             else http_log w
                  ++ ["https://github.com/unicode-org/icu/archive/refs/tags/"
                      +:+ Native.icu_tag (Native.config self) +:+ ".zip"])
          /\ proc_log (snd (Native.download_icu_source ext self w)) = proc_log w).
Proof.
  intros ext w. split; intros self; split.
  - apply configure_download_http.
  - apply (respects_snd same_procs). unfold Configure.download_icu_source. footprint.
  - apply native_download_http.
  - apply (respects_snd same_procs). unfold Native.download_icu_source. footprint.
Qed.

(** * Which steps can raise *)

Lemma never_raises_get_fs : never_raises get_fs.
Proof. intros w. eexists _, _. reflexivity. Qed.

Lemma never_raises_emits {A} (m : M A) :
  (forall w, exists a lines, emits m w a lines) -> never_raises m.
Proof. intros H w. destruct (H w) as (a & lines & Hm). eauto. Qed.

Ltac total_steps :=
  repeat first
    [ apply never_raises_get_fs
    | apply never_raises_bind; [|intros ?]
    | apply never_raises_try_except; intros ?
    | apply never_raises_for_each; intros ?
    | apply never_raises_when
    | apply never_raises_print
    | apply never_raises_ret
    | match goal with |- never_raises (if ?b then _ else _) => destruct b end ].

(** With probes of the file system that answer, every step of both
    pipelines apart from [package_artifacts] and
    [verify_visual_studio_solution] returns a boolean: whatever else is
    raised inside is caught by the step itself. *)
Lemma steps_return_when_probes_answer :
  forall ext,
    (forall self,
        never_raises (Configure.download_icu_source ext self)
        /\ never_raises (Configure.prepare_source ext self)
        /\ never_raises (Configure.configure_build ext self)
        /\ never_raises (Configure.build_icu ext self)
        /\ never_raises (Configure.install_icu ext self)
        /\ never_raises (Configure.verify_build ext self))
    /\ (forall self,
          never_raises (Native.download_icu_source ext self)
          /\ never_raises (Native.update_visual_studio_toolset ext self)
          /\ never_raises (Native.build_icu_with_msbuild ext self)
          /\ never_raises (Native.locate_build_artifacts self)
          /\ never_raises (Native.verify_build ext self)).
Proof.
  intros ext. split; intros self.
  - destruct (proj1 (guarded_steps_never_raise ext) self) as (Hp & Hc & Hb & Hi).
    repeat split; try assumption.
    + unfold Configure.download_icu_source. total_steps.
    + intros w.
      destruct (Verifier.has_libraries (fs w) (Configure.build_dir self)) eqn:Hlib.
      * destruct (Verifier.has_header_dir (fs w) (Configure.build_dir self)) eqn:Hhdr.
        -- destruct (configure_verify_success ext self w) as (lines & H & _); eauto.
           unfold Verifier.verdict. now rewrite Hlib, Hhdr.
        -- destruct (configure_verify_headers_missing ext self w Hlib Hhdr)
             as (lines & H & _); eauto.
      * destruct (configure_verify_no_libraries ext self w Hlib) as (lines & H); eauto.
  - repeat split.
    + unfold Native.download_icu_source. total_steps.
    + unfold Native.update_visual_studio_toolset. total_steps.
    + apply (proj2 (guarded_steps_never_raise ext) self).
    + intros w. destruct (locate_emits (Native.possible_paths self)
                            (Native.data_paths self) w) as (lines & H).
      eauto.
    + intros w.
      destruct (Verifier.has_libraries (fs w) (Native.artifact_dir self)) eqn:Hlib.
      * destruct (Verifier.has_header_dir (fs w) (Native.artifact_dir self)) eqn:Hhdr.
        -- destruct (native_verify_success ext self w) as (lines & H & _); eauto.
           unfold Verifier.verdict. now rewrite Hlib, Hhdr.
        -- destruct (native_verify_headers_missing ext self w Hlib Hhdr)
             as (lines & H & _); eauto.
      * destruct (native_verify_no_libraries ext self w Hlib) as (lines & H); eauto.
Qed.

(** * Paths *)

Lemma norm_rev_snoc acc p c :
  plain c -> norm_rev acc (p ++ [c]) = c :: norm_rev acc p.
Proof.
  intros [H1 H2]. revert acc. induction p as [|d p IH]; intros acc; cbn [norm_rev app].
  - apply String.eqb_neq in H1, H2. now rewrite H1, H2.
  - destruct (String.eqb d ".."); [apply IH|].
    destruct (String.eqb d "."); apply IH.
Qed.

Lemma norm_snoc p c : plain c -> norm (p // c) = norm p ++ [c].
Proof. intros H. unfold norm, pdiv. now rewrite norm_rev_snoc. Qed.

Lemma norm_rev_plain acc p :
  Forall plain acc -> Forall plain (norm_rev acc p).
Proof.
  revert acc. induction p as [|d p IH]; intros acc Hacc; cbn [norm_rev]; [exact Hacc|].
  destruct (String.eqb d "..") eqn:H1.
  { apply IH. destruct acc; [constructor|]. now inversion Hacc. }
  destruct (String.eqb d ".") eqn:H2; [now apply IH|].
  apply IH. constructor; [|exact Hacc].
  apply String.eqb_neq in H1, H2. now split.
Qed.

Lemma norm_plain p : Forall plain (norm p).
Proof.
  unfold norm. apply Forall_rev, norm_rev_plain. constructor.
Qed.

Lemma norm_rev_of_plain acc p :
  Forall plain p -> norm_rev acc p = rev p ++ acc.
Proof.
  revert acc. induction p as [|d p IH]; intros acc Hp; cbn [norm_rev rev]; [reflexivity|].
  inversion Hp as [|? ? [H1 H2] Hrest]; subst.
  apply String.eqb_neq in H1, H2. rewrite H1, H2, IH by exact Hrest.
  now rewrite <- app_assoc.
Qed.

Lemma norm_of_plain p : Forall plain p -> norm p = p.
Proof.
  intros H. unfold norm. rewrite norm_rev_of_plain by exact H.
  now rewrite app_nil_r, rev_involutive.
Qed.

Lemma norm_idemp p : norm (norm p) = norm p.
Proof. apply norm_of_plain, norm_plain. Qed.

Lemma lookup_path_norm f p : lookup_path f (norm p) = lookup_path f p.
Proof. unfold lookup_path. now rewrite norm_idemp. Qed.

Lemma path_parent_snoc p c : path_parent (p ++ [c]) = p.
Proof. unfold path_parent. apply removelast_last. Qed.

Lemma path_name_snoc p c : path_name (p ++ [c]) = c.
Proof. unfold path_name. apply last_last. Qed.

(** The directory that holds [p / c] is [p]. *)
Lemma lookup_parent_snoc f p c :
  plain c -> lookup_path f (path_parent (norm (p // c))) = lookup_path f p.
Proof.
  intros H. rewrite norm_snoc, path_parent_snoc by exact H. apply lookup_path_norm.
Qed.

Lemma lookup_path_snoc f p c :
  plain c -> lookup_path f (p // c) = f !! (norm p ++ [c]).
Proof.
  intros H. unfold lookup_path. rewrite norm_snoc by exact H.
  now destruct (norm p).
Qed.

Ltac plain_string := split; discriminate.

(** * A download that fails *)

Lemma store_file_creates f_w p c w :
  fs w = f_w ->
  path_exists f_w p = false ->
  is_dir f_w (path_parent (norm p)) = true ->
  store_file p c w = (Ok tt, set_fs (<[norm p := File c]> f_w) w).
Proof.
  intros <- Hp Hdir. unfold store_file, path_exists, is_dir in *.
  destruct (lookup_path (fs w) p); [discriminate|].
  now destruct (lookup_path (fs w) (path_parent (norm p))) as [[|]|].
Qed.

Lemma lookup_path_insert f p n : lookup_path (<[norm p := n]> f) p = Some n \/ norm p = [].
Proof.
  unfold lookup_path. destruct (norm p) as [|c q] eqn:H; [now right|left].
  apply lookup_insert_eq.
Qed.

(** X3.  When the HTTP request fails before anything is received, source
    acquisition returns [False], its last line is the download failure, the
    tree is left as it was and no extraction is attempted.  When the
    connection breaks while the body is being streamed, it also returns
    [False], but the bytes received so far stay on disk as
    [icu-source.zip]: the next run finds that file, requests nothing and
    goes on to extract it. *)
Theorem download_failure_modes :
  forall ext self w e,
    let source_zip := Configure.workspace self // "icu-source.zip" in
    let url := "https://github.com/unicode-org/icu/archive/refs/tags/"
               +:+ Configure.icu_tag (Configure.config self) +:+ ".zip" in
    path_exists (fs w) (Configure.source_dir self) = false ->
    path_exists (fs w) source_zip = false ->
    ((forall w0, requests_get ext url w0 = inl e) ->
     exists w',
       Configure.download_icu_source ext self w = (Ok false, w')
       /\ fs w' = fs w
       /\ last (stdout w') = Some ("❌ Failed to download ICU source: " +:+ str_of_exn e))
    /\ (forall body,
          (forall w0, requests_get ext url w0 = inr (body, Some e)) ->
          io_fault ext OpOpenWrite source_zip = None ->
          is_dir (fs w) (Configure.workspace self) = true ->
          exists w',
            Configure.download_icu_source ext self w = (Ok false, w')
            /\ fs w' = <[norm source_zip := File body]> (fs w)
            /\ http_log (snd (Configure.download_icu_source ext self w'))
               = http_log w').
Proof.
  intros ext self w e source_zip url Hs Hz. split.
  - intros Hreq. eexists. split; [|split].
    + unfold Configure.download_icu_source.
      rewrite (bind_ok _ _ _ _ _ (emits_print _ w)).
      rewrite (bind_ok _ _ _ _ _ (emits_get_fs _)). rewrite fs_add_lines.
      rewrite Hs. cbv zeta. fold source_zip. rewrite Hz. cbn [negb].
      rewrite (bind_ok _ _ _ _ _ (emits_print _ _)).
      unfold try_except at 1, http_download, bind, log_http. fold url.
      rewrite Hreq. reflexivity.
    + reflexivity.
    + cbn [stdout add_lines fs print snd]. apply last_snoc.
  - intros body Hreq Hfault Hws.
    assert (Hplain : plain "icu-source.zip") by plain_string.
    assert (Hzip : Configure.download_icu_source ext self w
                   = (Ok false,
                      World (<[norm source_zip := File body]> (fs w))
                        (stdout w
                         ++ [ "🔍 Checking for ICU source...";
                              "📥 Downloading ICU "
                              +:+ Configure.icu_version (Configure.config self)
                              +:+ " source...";
                              "❌ Failed to download ICU source: " +:+ str_of_exn e ])
                        (http_log w ++ [url]) (proc_log w))).
    { unfold Configure.download_icu_source.
      rewrite (bind_ok _ _ _ _ _ (emits_print _ w)).
      rewrite (bind_ok _ _ _ _ _ (emits_get_fs _)). rewrite fs_add_lines.
      rewrite Hs. cbv zeta. fold source_zip. rewrite Hz. cbn [negb].
      rewrite (bind_ok _ _ _ _ _ (emits_print _ _)).
      unfold try_except at 1, http_download, bind at 1 2 3, log_http. fold url.
      rewrite Hreq. unfold write_file, faulting. rewrite Hfault.
      erewrite (store_file_creates (fs w)); [| reflexivity | exact Hz |].
      2:{ unfold is_dir in *. unfold source_zip.
          now rewrite lookup_parent_snoc by exact Hplain. }
      cbn. rewrite <- !app_assoc. reflexivity. }
    eexists. split; [exact Hzip|]. split; [reflexivity|].
    rewrite configure_download_http. cbn [fs].
    assert (Hnow : path_exists (<[norm source_zip := File body]> (fs w)) source_zip = true).
    { unfold path_exists, source_zip. rewrite lookup_path_snoc by exact Hplain.
      rewrite norm_snoc by exact Hplain. now rewrite lookup_insert_eq. }
    fold source_zip. rewrite Hnow, orb_true_r. reflexivity.
Qed.

Lemma download_failure_modes_witness :
  (exists w',
      Configure.download_icu_source Scenario.quiet Scenario.configure_builder Scenario.bare
      = (Ok false, w')
      /\ fs w' = fs Scenario.bare
      /\ last (stdout w') = Some "❌ Failed to download ICU source: RequestException")
  /\ (exists w',
        Configure.download_icu_source ScenarioNet.flaky Scenario.configure_builder
          Scenario.bare = (Ok false, w')
        /\ fs w' = <[["W"; "icu-source.zip"] := File "PK"]> (fs Scenario.bare)
        /\ http_log (snd (Configure.download_icu_source ScenarioNet.flaky
                            Scenario.configure_builder w')) = http_log w').
Proof.
  split.
  - apply (proj1 (download_failure_modes Scenario.quiet Scenario.configure_builder
                    Scenario.bare RequestException
                    ltac:(vm_compute; reflexivity) ltac:(vm_compute; reflexivity))).
    intros w0. reflexivity.
  - apply (proj2 (download_failure_modes ScenarioNet.flaky Scenario.configure_builder
                    Scenario.bare RequestException
                    ltac:(vm_compute; reflexivity) ltac:(vm_compute; reflexivity)) "PK").
    + intros w0. reflexivity.
    + reflexivity.
    + vm_compute. reflexivity.
Defined.

(** * The toolchain steps *)

Lemma get_msvc_env_emits ext w :
  emits (Configure.get_msvc_env ext) w (environ ext)
    (flat_map
       (fun var =>
          if bool_decide (environ ext !! var = None)
          then ["⚠️  Warning: " +:+ var +:+ " not found in environment"]
          else [])
       ["VCINSTALLDIR"; "WindowsSdkBinPath"; "PATH"]).
Proof.
  unfold Configure.get_msvc_env. cbn [for_each flat_map].
  rewrite <- (app_nil_r (_ ++ _ ++ _ ++ [])).
  eapply emits_bind; [|apply emits_ret].
  eapply emits_bind; [apply emits_when_print|].
  eapply emits_bind; [apply emits_when_print|].
  eapply emits_bind; [apply emits_when_print|].
  apply emits_ret.
Qed.

Ltac at_the_call :=
  match goal with
  | |- context [subprocess_run ?ext ?c ?W] =>
      exists W; split; [repeat split|];
      destruct (subprocess_run ext c W) as [?e|[?cp ?f']]; cbn;
      [repeat split|];
      match goal with
      | |- context [(returncode ?cp =? 0)%Z] => destruct (returncode cp =? 0)%Z
      end; cbn; repeat split
  end.

(** X4.  Each of the four Cygwin steps of the configure-driven pipeline
    runs its shell command exactly once, on the tree as it is, and returns
    [True] exactly when the process could be started and exited with
    status 0; a non-zero status and a process that cannot be started both
    give [False], never an exception.  The step itself changes nothing on
    disk: the tree afterwards is the one the process left. *)
Theorem cygwin_steps_report_the_exit_status :
  forall ext self w,
    let steps :=
      [ (Configure.prepare_source ext self,
         CygwinBash (Configure.bash_exe self) (PrepareScript (Configure.source_dir self)));
        (Configure.configure_build ext self,
         CygwinBash (Configure.bash_exe self)
           (ConfigureScript (Configure.source_dir self)
              (Configure.arch (Configure.config self)) (Configure.configure_args self)));
        (Configure.build_icu ext self,
         CygwinBash (Configure.bash_exe self)
           (MakeScript (Configure.source_dir self) (Configure.arch (Configure.config self))));
        (Configure.install_icu ext self,
         CygwinBash (Configure.bash_exe self)
           (InstallScript (Configure.source_dir self)
              (Configure.arch (Configure.config self)) (Configure.build_dir self))) ] in
    Forall
      (fun '(step, c) =>
         exists at_call,
           Toolchain.calling c w at_call
           /\ let o := subprocess_run ext c at_call in
              fst (step w) = Ok (Toolchain.exit_ok o)
              /\ fs (snd (step w)) = Toolchain.tree_after o (fs w)
              /\ http_log (snd (step w)) = http_log w
              /\ proc_log (snd (step w)) = proc_log w ++ [c])
      steps.
Proof.
  intros ext self w steps. subst steps. repeat constructor.
  - unfold Configure.prepare_source.
    rewrite (bind_ok _ _ _ _ _ (emits_print _ w)).
    unfold try_except, run_process, bind, log_proc. cbn [fs stdout http_log proc_log add_lines].
    at_the_call.
  - unfold Configure.configure_build.
    rewrite (bind_ok _ _ _ _ _ (emits_print _ w)).
    destruct (Configure.embed_data (Configure.config self));
      rewrite (bind_ok _ _ _ _ _ (emits_print _ _));
      rewrite (bind_ok _ _ _ _ _ (get_msvc_env_emits ext _));
      unfold try_except, run_process, bind, log_proc;
      cbn [fs stdout http_log proc_log add_lines];
      at_the_call.
  - unfold Configure.build_icu.
    rewrite (bind_ok _ _ _ _ _ (emits_print _ w)).
    unfold try_except. rewrite (bind_ok _ _ _ _ _ (get_msvc_env_emits ext _)).
    unfold run_process, bind, log_proc. cbn [fs stdout http_log proc_log add_lines].
    at_the_call.
  - unfold Configure.install_icu.
    rewrite (bind_ok _ _ _ _ _ (emits_print _ w)).
    unfold try_except. rewrite (bind_ok _ _ _ _ _ (get_msvc_env_emits ext _)).
    unfold run_process, bind, log_proc. cbn [fs stdout http_log proc_log add_lines].
    at_the_call.
Qed.

(** X5.  [build_icu_with_msbuild] builds the solution first and starts the
    [MakeData] target only after that build has exited with status 0, on
    the tree it left.  The step returns [True] exactly when both processes
    exit with 0; when the first fails or cannot be started the second is
    never run. *)
Theorem makedata_runs_only_after_a_successful_build :
  forall ext self w,
    let build := Argv (Native.msbuild_args self) in
    let makedata := Argv (Native.msbuild_args self ++ ["/target:MakeData"]) in
    let after := Native.build_icu_with_msbuild ext self w in
    exists at_build,
      Toolchain.calling build w at_build
      /\ let o1 := subprocess_run ext build at_build in
         if Toolchain.exit_ok o1 then
           exists at_makedata,
             fs at_makedata = Toolchain.tree_after o1 (fs w)
             /\ proc_log at_makedata = proc_log w ++ [build; makedata]
             /\ let o2 := subprocess_run ext makedata at_makedata in
                fst after = Ok (Toolchain.exit_ok o2)
                /\ fs (snd after) = Toolchain.tree_after o2 (Toolchain.tree_after o1 (fs w))
                /\ proc_log (snd after) = proc_log w ++ [build; makedata]
         else
           fst after = Ok false
           /\ fs (snd after) = Toolchain.tree_after o1 (fs w)
           /\ proc_log (snd after) = proc_log w ++ [build].
Proof.
  intros ext self w build makedata after. subst after.
  unfold Native.build_icu_with_msbuild.
  rewrite (bind_ok _ _ _ _ _ (emits_print _ w)).
  rewrite (bind_ok _ _ _ _ _ (emits_print _ _)).
  unfold try_except, run_process, bind, log_proc.
  cbn [fs stdout http_log proc_log add_lines]. fold build makedata.
  match goal with
  | |- context [subprocess_run ext build ?W] =>
      exists W; split; [repeat split|];
      destruct (subprocess_run ext build W) as [e|[cp1 f1]]; cbn;
      [repeat split|]
  end.
  destruct (returncode cp1 =? 0)%Z; cbn; [|repeat split].
  match goal with
  | |- context [subprocess_run ext makedata ?W] =>
      exists W; split; [reflexivity|]; split; [cbn; now rewrite <- app_assoc|];
      destruct (subprocess_run ext makedata W) as [e|[cp2 f2]]; cbn
  end.
  - repeat split. now rewrite <- app_assoc.
  - destruct (returncode cp2 =? 0)%Z; cbn; repeat split; now rewrite <- app_assoc.
Qed.

(** * The solution check *)

Lemma is_file_exists f p : is_file f p = true -> path_exists f p = true.
Proof. unfold is_file, path_exists. now destruct (lookup_path f p) as [[|]|]. Qed.

Lemma emits_lines {A} (m : M A) w a lines lines' :
  emits m w a lines -> lines = lines' -> emits m w a lines'.
Proof. now intros H <-. Qed.

Lemma is_dir_exists f p : is_dir f p = true -> path_exists f p = true.
Proof. unfold is_dir, path_exists. now destruct (lookup_path f p) as [[|]|]. Qed.

(** X6.  [verify_visual_studio_solution] returns [True] exactly when
    [allinone.sln] exists and never changes the disk.  When the solution is
    missing it returns [False], after listing the [allinone] directory if
    there is one; but if [allinone] exists and cannot be listed (it is a
    regular file, or the listing fails) the exception is not caught and
    leaves the step. *)
Theorem solution_check_outcomes :
  forall ext self w,
    let allinone := Native.source_dir self // "allinone" in
    (path_exists (fs w) (Native.solution_path self) = true ->
     emits (Native.verify_visual_studio_solution ext self) w true
       [ "🔍 Verifying Visual Studio solution...";
         "✅ Found Visual Studio solution: " +:+ str_of_path (Native.solution_path self) ])
    /\ (path_exists (fs w) (Native.solution_path self) = false ->
        (path_exists (fs w) allinone = false ->
         emits (Native.verify_visual_studio_solution ext self) w false
           [ "🔍 Verifying Visual Studio solution...";
             "❌ Visual Studio solution not found at: "
             +:+ str_of_path (Native.solution_path self);
             "❌ allinone directory does not exist" ])
        /\ (is_dir (fs w) allinone = true ->
            io_fault ext OpIterdir allinone = None ->
            emits (Native.verify_visual_studio_solution ext self) w false
              ([ "🔍 Verifying Visual Studio solution...";
                 "❌ Visual Studio solution not found at: "
                 +:+ str_of_path (Native.solution_path self);
                 "📁 Available files in allinone directory:" ]
               ++ List.map (fun file => "  " +:+ path_name file) (children (fs w) allinone)))
        /\ (is_file (fs w) allinone = true ->
            io_fault ext OpIterdir allinone = None ->
            fst (Native.verify_visual_studio_solution ext self w) = Raise NotADirectoryError)
        /\ (forall e,
              path_exists (fs w) allinone = true ->
              io_fault ext OpIterdir allinone = Some e ->
              fst (Native.verify_visual_studio_solution ext self w) = Raise e)).
Proof.
  intros ext self w allinone. split; [|intros Hsol; repeat split].
  - intros Hsol. unfold Native.verify_visual_studio_solution.
    eapply emits_lines.
    + emit_step. emit_step. rewrite Hsol. cbn [negb]. emit_step. apply emits_ret.
    + reflexivity.
  - intros Hall. unfold Native.verify_visual_studio_solution.
    eapply emits_lines.
    + emit_step. emit_step. rewrite Hsol. cbn [negb]. emit_step.
      fold allinone. rewrite Hall. emit_step. apply emits_ret.
    + reflexivity.
  - intros Hdir Hfault. unfold Native.verify_visual_studio_solution.
    assert (Hlist : forall (l : list path) w0,
               emits (for_each l (fun file => print ("  " +:+ path_name file))) w0 tt
                 (List.map (fun file => "  " +:+ path_name file) l)).
    { induction l as [|x l IH]; intros w0; cbn [for_each List.map]; [apply emits_ret|].
      change (?a :: ?l) with ([a] ++ l). eapply emits_bind; [apply emits_print|apply IH]. }
    eapply emits_lines.
    + emit_step. emit_step. rewrite Hsol. cbn [negb]. emit_step.
      fold allinone. rewrite (is_dir_exists _ _ Hdir).
      eapply emits_bind; [|apply emits_ret].
      emit_step. eapply emits_bind.
      * unfold emits, iterdir, faulting. rewrite Hfault.
        unfold is_dir in Hdir. rewrite !fs_add_lines.
        destruct (lookup_path (fs w) allinone) as [[|]|]; try discriminate.
        rewrite add_lines_nil. reflexivity.
      * rewrite ?fs_add_lines. apply Hlist.
    + cbn [app]. now rewrite app_nil_r.
  - intros Hfile Hfault. unfold Native.verify_visual_studio_solution.
    rewrite (bind_ok _ _ _ _ _ (emits_print _ w)).
    rewrite (bind_ok _ _ _ _ _ (emits_get_fs _)). rewrite fs_add_lines, Hsol. cbn [negb].
    rewrite (bind_ok _ _ _ _ _ (emits_print _ _)).
    fold allinone. rewrite (is_file_exists _ _ Hfile).
    unfold bind, iterdir, faulting, print. rewrite Hfault. cbn [fs add_lines].
    unfold is_file in Hfile.
    destruct (lookup_path (fs w) allinone) as [[|]|]; try discriminate. reflexivity.
  - intros e Hall Hfault. unfold Native.verify_visual_studio_solution.
    rewrite (bind_ok _ _ _ _ _ (emits_print _ w)).
    rewrite (bind_ok _ _ _ _ _ (emits_get_fs _)). rewrite fs_add_lines, Hsol. cbn [negb].
    rewrite (bind_ok _ _ _ _ _ (emits_print _ _)).
    fold allinone. rewrite Hall.
    unfold bind, iterdir, faulting, print, raise. rewrite Hfault. reflexivity.
Qed.

Lemma solution_check_outcomes_witness :
  fst (Native.verify_visual_studio_solution Scenario.quiet Scenario.native_builder
         ScenarioSolution.allinone_is_a_file) = Raise NotADirectoryError.
Proof.
  apply (proj1 (proj2 (proj2 (proj2 (solution_check_outcomes Scenario.quiet
                  Scenario.native_builder ScenarioSolution.allinone_is_a_file)
                  ltac:(vm_compute; reflexivity)))));
    vm_compute; reflexivity.
Defined.

(** * What a step touches on disk *)

Lemma outside_of_fs {A} S (m : M A) : respects same_fs m -> respects (same_outside S) m.
Proof. apply respects_weaken. intros w w' H k _. unfold same_fs in H. now rewrite H. Qed.

Lemma outside_weaken {A} (S S' : path -> Prop) (m : M A) :
  (forall k, S k -> S' k) -> respects (same_outside S) m -> respects (same_outside S') m.
Proof. intros HS. apply respects_weaken. intros w w' H k Hk. apply H. auto. Qed.

Lemma fs_print line : respects same_fs (print line).
Proof. unfold print. atomic_footprint. Qed.

Lemma fs_get_fs : respects same_fs get_fs.
Proof. unfold get_fs. atomic_footprint. Qed.

Lemma fs_stat_size p : respects same_fs (stat_size p).
Proof. unfold stat_size. atomic_footprint. Qed.

Lemma fs_read_text ext p : respects same_fs (read_text ext p).
Proof. apply respects_faulting; try typeclasses eauto. atomic_footprint. Qed.

Lemma fs_iterdir ext p : respects same_fs (iterdir ext p).
Proof. apply respects_faulting; try typeclasses eauto. atomic_footprint. Qed.

Lemma outside_store_file p c : respects (same_outside (eq (norm p))) (store_file p c).
Proof.
  intros w r w'. unfold store_file.
  destruct (lookup_path (fs w) p) as [[|]|];
    try (inv_result; reflexivity);
    destruct (lookup_path (fs w) (path_parent (norm p))) as [[|]|];
    inv_result; try reflexivity;
    intros k Hk; cbn; now rewrite lookup_insert_ne.
Qed.

Lemma outside_write_text ext p c :
  respects (same_outside (eq (norm p))) (write_text ext p c).
Proof. apply respects_faulting; try typeclasses eauto. apply outside_store_file. Qed.

Lemma outside_write_file ext p c :
  respects (same_outside (eq (norm p))) (write_file ext p c).
Proof. apply respects_faulting; try typeclasses eauto. apply outside_store_file. Qed.

#[export] Hint Resolve fs_print fs_get_fs fs_stat_size fs_read_text fs_iterdir
  outside_store_file outside_write_text outside_write_file outside_of_fs : footprint.

Lemma replace_fuel_absent fuel old new s :
  contains old s = false -> replace_fuel fuel old new s = s.
Proof.
  revert s. induction fuel as [|fuel IH]; intros s H; [reflexivity|].
  destruct s as [|c s]; [reflexivity|]. cbn [replace_fuel].
  cbn [contains] in H. apply orb_false_elim in H as [Hp Hs].
  rewrite Hp. f_equal. now apply IH.
Qed.

(** Replacing a text that does not occur changes nothing. *)
Lemma replace_absent old new s : contains old s = false -> replace old new s = s.
Proof. apply replace_fuel_absent. Qed.

Lemma replace_if_present old new s :
  (if contains old s then replace old new s else s) = replace old new s.
Proof. destruct (contains old s) eqn:H; [reflexivity|]. symmetry. now apply replace_absent. Qed.

(** X7.  [update_visual_studio_toolset] touches nothing on disk but the
    props file, talks to no network and starts no process.  When the props
    file can be read and written, it is rewritten exactly when it names the
    v141 toolset, or names the v140 toolset once v141 has been replaced; its
    new content is the old one with every v141 tag and then every v140 tag
    replaced by v143.  Otherwise the tree is left as it was. *)
Theorem toolset_update_rewrites_only_the_props_file :
  forall ext self w,
    let props := Native.source_dir self // "allinone"
                 // "Build.Windows.ProjectConfiguration.props" in
    let after := snd (Native.update_visual_studio_toolset ext self w) in
    same_outside (eq (norm props)) w after
    /\ http_log after = http_log w
    /\ proc_log after = proc_log w
    /\ (forall content,
          lookup_path (fs w) props = Some (File content) ->
          is_dir (fs w) (Native.source_dir self // "allinone") = true ->
          io_fault ext OpRead props = None ->
          io_fault ext OpWrite props = None ->
          let content1 := replace Native.toolset_v141 Native.toolset_v143 content in
          fs after
          = if contains Native.toolset_v141 content || contains Native.toolset_v140 content1
            then <[norm props := File (replace Native.toolset_v140 Native.toolset_v143 content1)]>
                   (fs w)
            else fs w).
Proof.
  intros ext self w props after. subst after. split; [|split; [|split]].
  - apply (respects_snd (same_outside (eq (norm props)))).
    unfold Native.update_visual_studio_toolset. fold props. footprint.
  - apply (respects_snd same_http).
    unfold Native.update_visual_studio_toolset. footprint.
  - apply (respects_snd same_procs).
    unfold Native.update_visual_studio_toolset. footprint.
  - intros content Hfile Hdir Hread Hwrite content1.
    assert (Hplain : plain "Build.Windows.ProjectConfiguration.props") by plain_string.
    unfold Native.update_visual_studio_toolset. fold props.
    rewrite (bind_ok _ _ _ _ _ (emits_print _ w)).
    rewrite (bind_ok _ _ _ _ _ (emits_get_fs _)). rewrite fs_add_lines.
    unfold path_exists. rewrite Hfile. cbn [negb].
    unfold try_except, bind at 1, read_text, faulting. rewrite Hread.
    rewrite !fs_add_lines, Hfile.
    rewrite !replace_if_present. fold content1.
    destruct (contains Native.toolset_v141 content || contains Native.toolset_v140 content1).
    + unfold bind, write_text, faulting. rewrite Hwrite.
      unfold store_file. rewrite !fs_add_lines, Hfile.
      unfold props at 1. rewrite lookup_parent_snoc by exact Hplain.
      unfold is_dir in Hdir.
      destruct (lookup_path (fs w) (Native.source_dir self // "allinone")) as [[|]|];
        try discriminate.
      reflexivity.
    + reflexivity.
Qed.

Lemma toolset_update_rewrites_only_the_props_file_witness :
  let props := Native.source_dir Scenario.native_builder // "allinone"
               // "Build.Windows.ProjectConfiguration.props" in
  let content := "<Project><PlatformToolset>v141</PlatformToolset></Project>" in
  let content1 := replace Native.toolset_v141 Native.toolset_v143 content in
  fs (snd (Native.update_visual_studio_toolset Scenario.quiet Scenario.native_builder
             ScenarioToolset.old_toolset))
  = if contains Native.toolset_v141 content || contains Native.toolset_v140 content1
    then <[norm props := File (replace Native.toolset_v140 Native.toolset_v143 content1)]>
           (fs ScenarioToolset.old_toolset)
    else fs ScenarioToolset.old_toolset.
Proof.
  exact (proj2 (proj2 (proj2 (toolset_update_rewrites_only_the_props_file
                  Scenario.quiet Scenario.native_builder ScenarioToolset.old_toolset)))
           "<Project><PlatformToolset>v141</PlatformToolset></Project>"
           ltac:(vm_compute; reflexivity) ltac:(vm_compute; reflexivity)
           ltac:(reflexivity) ltac:(reflexivity)).
Defined.

(** * Exceptions and the step loop *)

(** X8.  The step loop of both scripts has no handler of its own: when the
    steps before [name] succeed and the action of [name] raises, the run
    ends with that exception in the world the step left, without a failure
    report, and no later step is called. *)
Theorem step_loop_lets_exceptions_through :
  forall pre name action post w w1 e w2,
    Pipeline.after_successes pre w = Some w1 ->
    action (Pipeline.announced name w1) = (Raise e, w2) ->
    let steps := pre ++ (name, action) :: post in
    Configure.run_steps steps w = (Raise e, w2)
    /\ Native.run_steps steps w = (Raise e, w2)
    /\ (forall message, Pipeline.invoked message steps w = List.map fst pre ++ [name]).
Proof.
  intros pre name action post w w1 e w2 Hpre Hraise steps. subst steps.
  rewrite configure_run_steps_traced, native_run_steps_traced. unfold Pipeline.invoked.
  repeat split; intros; now rewrite (run_traced_raise _ _ _ _ _ _ _ _ _ Hpre Hraise).
Qed.

Lemma step_loop_lets_exceptions_through_witness :
  fst (Configure.run_steps [Scenario.stub_first; Scenario.stub_third; Scenario.stub_second]
         Scenario.bare) = Raise OSError
  /\ Pipeline.invoked "" [Scenario.stub_first; Scenario.stub_third; Scenario.stub_second]
       Scenario.bare = ["first"; "third"].
Proof.
  destruct (step_loop_lets_exceptions_through [Scenario.stub_first] "third"
              (snd Scenario.stub_third) [Scenario.stub_second] Scenario.bare
              (Pipeline.acknowledged
                 (snd (snd Scenario.stub_first (Pipeline.announced "first" Scenario.bare))))
              OSError
              (Pipeline.announced "third"
                 (Pipeline.acknowledged
                    (snd (snd Scenario.stub_first
                            (Pipeline.announced "first" Scenario.bare)))))
              eq_refl eq_refl) as (Hc & _ & Hinv).
  split; [exact (f_equal fst Hc)|exact (Hinv "")].
Defined.

(** * Artifact names *)

Ltac each_choice :=
  repeat match goal with
         | H : Valid.configure _ |- _ => destruct H
         | H : Valid.native _ |- _ => destruct H
         | H : Valid.arch _ |- _ => unfold Valid.arch in H; cbn [In] in H
         | H : Valid.build_type _ |- _ => unfold Valid.build_type in H; cbn [In] in H
         | H : _ /\ _ |- _ => destruct H
         | H : _ \/ _ |- _ => destruct H
         | H : False |- _ => destruct H
         end;
  subst.

(** X9.  For configurations within the closed value sets, the artifact
    name determines the architecture, the build type and the data-packaging
    mode: two different validated configurations never package into the same
    directory or archive.  Nor does a configure-driven build ever share its
    artifact name with a project-file-driven one. *)
Theorem artifact_names_identify_the_configuration :
  (forall proc c1 c2,
      Valid.configure c1 -> Valid.configure c2 ->
      Configure.artifact_name (Configure.init proc c1)
      = Configure.artifact_name (Configure.init proc c2) ->
      Configure.arch c1 = Configure.arch c2
      /\ Configure.build_type c1 = Configure.build_type c2
      /\ Configure.embed_data c1 = Configure.embed_data c2)
  /\ (forall c1 c2,
        Valid.native c1 -> Valid.native c2 ->
        Native.artifact_name c1 = Native.artifact_name c2 ->
        Native.arch c1 = Native.arch c2 /\ Native.build_type c1 = Native.build_type c2)
  /\ (forall proc c1 c2,
        Valid.configure c1 -> Valid.native c2 ->
        Configure.artifact_name (Configure.init proc c1) <> Native.artifact_name c2).
Proof.
  split; [|split].
  - intros proc [a1 t1 e1 v1 g1] [a2 t2 e2 v2 g2] H1 H2.
    unfold Valid.configure in *. cbn [Configure.arch Configure.build_type] in *.
    each_choice; destruct e1, e2; intros H; vm_compute in H;
      first [discriminate H | repeat split].
  - intros [a1 t1 v1 g1] [a2 t2 v2 g2] H1 H2.
    unfold Valid.native in *. cbn [Native.arch Native.build_type] in *.
    each_choice; intros H; vm_compute in H; first [discriminate H | repeat split].
  - intros proc [a1 t1 e1 v1 g1] [a2 t2 v2 g2] H1 H2.
    unfold Valid.configure, Valid.native in *.
    cbn [Configure.arch Configure.build_type Native.arch Native.build_type] in *.
    each_choice; destruct e1; intros H; vm_compute in H; discriminate H.
Qed.

Lemma artifact_names_identify_the_configuration_witness :
  Configure.artifact_name Scenario.configure_builder
  <> Native.artifact_name Native.default_config.
Proof.
  apply (proj2 (proj2 artifact_names_identify_the_configuration) Scenario.proc
           Configure.default_config Native.default_config);
    split; cbn; tauto.
Defined.

(** * Rejected command lines *)

Lemma pending_rejects opts o choices extras ns v rest :
  Argparse.opt_action o = Argparse.Store (Some choices) ->
  ~ In v choices ->
  Argparse.parse_loop opts (Some o) extras ns (v :: rest) = Argparse.Exit 2.
Proof.
  intros Hact Hv. cbn [Argparse.parse_loop]. rewrite Hact.
  destruct (Argparse.classify opts v); try reflexivity.
  cbn [Argparse.check_choice].
  destruct (bool_decide (v ∈ choices)) eqn:Hin; [|reflexivity].
  apply bool_decide_eq_true, list_elem_of_In in Hin. contradiction.
Qed.

(** X10.  A value outside the closed set after [--arch] or [--build-type]
    ends either script with exit status 2, whatever follows on the command
    line, before a configuration exists: nothing is printed by the builder,
    downloaded, run or written. *)
Theorem invalid_choice_exits_with_status_2 :
  forall ext proc v rest w,
    (~ Valid.arch v ->
     Configure.main ext proc ("--arch" :: v :: rest) w = (Ok 2%Z, w)
     /\ Native.main ext proc ("--arch" :: v :: rest) w = (Ok 2%Z, w))
    /\ (~ Valid.build_type v ->
        Configure.main ext proc ("--build-type" :: v :: rest) w = (Ok 2%Z, w)
        /\ Native.main ext proc ("--build-type" :: v :: rest) w = (Ok 2%Z, w)).
Proof.
  intros ext proc v rest w. split; intros Hv; split.
  - unfold Configure.main, Argparse.parse_args.
    change (Argparse.parse_loop ?opts None false ?ns ("--arch" :: v :: rest))
      with (match Argparse.classify opts "--arch" with
            | Argparse.Opt o None =>
                match Argparse.opt_action o with
                | Argparse.Store _ => Argparse.parse_loop opts (Some o) false ns (v :: rest)
                | _ => Argparse.Exit 2
                end
            | _ => Argparse.Exit 2
            end).
    replace (Argparse.classify (Argparse.help_option :: Configure.parser) "--arch")
      with (Argparse.Opt
              {| Argparse.opt_strings := ["--arch"]; Argparse.opt_dest := "arch";
                 Argparse.opt_action := Argparse.Store (Some ["x64"; "x86"]) |} None)
      by (vm_compute; reflexivity).
    cbn [Argparse.opt_action]. now rewrite (pending_rejects _ _ ["x64"; "x86"]).
  - unfold Native.main, Argparse.parse_args.
    change (Argparse.parse_loop ?opts None false ?ns ("--arch" :: v :: rest))
      with (match Argparse.classify opts "--arch" with
            | Argparse.Opt o None =>
                match Argparse.opt_action o with
                | Argparse.Store _ => Argparse.parse_loop opts (Some o) false ns (v :: rest)
                | _ => Argparse.Exit 2
                end
            | _ => Argparse.Exit 2
            end).
    replace (Argparse.classify (Argparse.help_option :: Native.parser) "--arch")
      with (Argparse.Opt
              {| Argparse.opt_strings := ["--arch"]; Argparse.opt_dest := "arch";
                 Argparse.opt_action := Argparse.Store (Some ["x64"; "x86"]) |} None)
      by (vm_compute; reflexivity).
    cbn [Argparse.opt_action]. now rewrite (pending_rejects _ _ ["x64"; "x86"]).
  - unfold Configure.main, Argparse.parse_args.
    change (Argparse.parse_loop ?opts None false ?ns ("--build-type" :: v :: rest))
      with (match Argparse.classify opts "--build-type" with
            | Argparse.Opt o None =>
                match Argparse.opt_action o with
                | Argparse.Store _ => Argparse.parse_loop opts (Some o) false ns (v :: rest)
                | _ => Argparse.Exit 2
                end
            | _ => Argparse.Exit 2
            end).
    replace (Argparse.classify (Argparse.help_option :: Configure.parser) "--build-type")
      with (Argparse.Opt
              {| Argparse.opt_strings := ["--build-type"]; Argparse.opt_dest := "build_type";
                 Argparse.opt_action := Argparse.Store (Some ["Release"; "Debug"]) |} None)
      by (vm_compute; reflexivity).
    cbn [Argparse.opt_action]. now rewrite (pending_rejects _ _ ["Release"; "Debug"]).
  - unfold Native.main, Argparse.parse_args.
    change (Argparse.parse_loop ?opts None false ?ns ("--build-type" :: v :: rest))
      with (match Argparse.classify opts "--build-type" with
            | Argparse.Opt o None =>
                match Argparse.opt_action o with
                | Argparse.Store _ => Argparse.parse_loop opts (Some o) false ns (v :: rest)
                | _ => Argparse.Exit 2
                end
            | _ => Argparse.Exit 2
            end).
    replace (Argparse.classify (Argparse.help_option :: Native.parser) "--build-type")
      with (Argparse.Opt
              {| Argparse.opt_strings := ["--build-type"]; Argparse.opt_dest := "build_type";
                 Argparse.opt_action := Argparse.Store (Some ["Release"; "Debug"]) |} None)
      by (vm_compute; reflexivity).
    cbn [Argparse.opt_action]. now rewrite (pending_rejects _ _ ["Release"; "Debug"]).
Qed.

Lemma invalid_choice_exits_with_status_2_witness :
  Configure.main Scenario.quiet Scenario.proc ["--arch"; "arm64"] Scenario.bare
  = (Ok 2%Z, Scenario.bare).
Proof.
  apply (proj1 (invalid_choice_exits_with_status_2 Scenario.quiet Scenario.proc
                  "arm64" [] Scenario.bare)).
  unfold Valid.arch. cbn. intros [H|[H|[]]]; discriminate H.
Defined.

(** * Verification with probes that answer *)

(** With probes that answer, [verify_build] returns the verdict on the
    directory it inspects and does nothing but print; when the library
    directory is missing, or holds no [*.lib] entry, its last line says
    which. *)
Lemma verification_with_answering_probes :
  forall ext w,
    (forall self,
        exists lines,
          emits (Configure.verify_build ext self) w
            (Verifier.verdict (fs w) (Configure.build_dir self)) lines
          /\ (path_exists (fs w) (Configure.build_dir self // "lib") = false ->
              last lines = Some ("❌ Library directory not found: "
                                 +:+ str_of_path (Configure.build_dir self // "lib")))
          /\ (path_exists (fs w) (Configure.build_dir self // "lib") = true ->
              glob (fs w) (Configure.build_dir self // "lib") ".lib" = [] ->
              last lines = Some "❌ No library files found"))
    /\ (forall self,
          exists lines,
            emits (Native.verify_build ext self) w
              (Verifier.verdict (fs w) (Native.artifact_dir self)) lines
            /\ (path_exists (fs w) (Native.artifact_dir self // "lib") = false ->
                last lines = Some ("❌ Library directory not found: "
                                   +:+ str_of_path (Native.artifact_dir self // "lib")))
            /\ (path_exists (fs w) (Native.artifact_dir self // "lib") = true ->
                glob (fs w) (Native.artifact_dir self // "lib") ".lib" = [] ->
                last lines = Some "❌ No library files found")).
Proof.
  intros ext w. split; intros self.
  - unfold Verifier.verdict.
    destruct (Verifier.has_libraries (fs w) (Configure.build_dir self)) eqn:Hlib.
    + pose proof (has_libraries_true _ _ Hlib) as (Hdir & k & ks & Hglob).
      destruct (Verifier.has_header_dir (fs w) (Configure.build_dir self)) eqn:Hhdr.
      * destruct (configure_verify_success ext self w) as (lines & H & _).
        { unfold Verifier.verdict. now rewrite Hlib, Hhdr. }
        exists lines. split; [exact H|]. split; congruence.
      * destruct (configure_verify_headers_missing ext self w Hlib Hhdr)
          as (lines & H & _).
        exists lines. split; [exact H|]. split; congruence.
    + apply has_libraries_false in Hlib as [Hdir|[Hdir Hglob]]; eexists; split.
      * unfold Configure.verify_build.
        emit_step. emit_step. rewrite Hdir. cbn [negb]. emit_step. apply emits_ret.
      * split; [intros _; cbn [app]; reflexivity|congruence].
      * unfold Configure.verify_build.
        emit_step. emit_step. rewrite Hdir. cbn [negb]. rewrite Hglob.
        emit_step. apply emits_ret.
      * split; [congruence|intros _ _; cbn [app]; reflexivity].
  - unfold Verifier.verdict.
    destruct (Verifier.has_libraries (fs w) (Native.artifact_dir self)) eqn:Hlib.
    + pose proof (has_libraries_true _ _ Hlib) as (Hdir & k & ks & Hglob).
      destruct (Verifier.has_header_dir (fs w) (Native.artifact_dir self)) eqn:Hhdr.
      * destruct (native_verify_success ext self w) as (lines & H & _).
        { unfold Verifier.verdict. now rewrite Hlib, Hhdr. }
        exists lines. split; [exact H|]. split; congruence.
      * destruct (native_verify_headers_missing ext self w Hlib Hhdr)
          as (lines & H & _).
        exists lines. split; [exact H|]. split; congruence.
    + apply has_libraries_false in Hlib as [Hdir|[Hdir Hglob]]; eexists; split.
      * unfold Native.verify_build.
        emit_step. emit_step. rewrite Hdir. cbn [negb]. emit_step. apply emits_ret.
      * split; [intros _; cbn [app]; reflexivity|congruence].
      * unfold Native.verify_build.
        emit_step. emit_step. rewrite Hdir. cbn [negb]. rewrite Hglob.
        emit_step. apply emits_ret.
      * split; [congruence|intros _ _; cbn [app]; reflexivity].
Qed.

(** * Packaging without libraries *)

(** X12.  When none of the candidate directories holds a [*.lib] entry, the
    project-file-driven [package_artifacts] returns [False] with the
    missing libraries as its last line, and has done nothing but print: the
    previous artifact directory, if any, is still there and no archive is
    written. *)
Theorem native_packaging_needs_a_library :
  forall ext self w,
    Locator.found_in (fs w) ".lib" (Native.possible_paths self) = [] ->
    exists lines,
      emits (Native.package_artifacts ext self) w false lines
      /\ last lines = Some "❌ No .lib files found in any expected location".
Proof. exact native_package_fails_without_libraries. Qed.

Lemma native_packaging_needs_a_library_witness :
  exists lines,
    emits (Native.package_artifacts Scenario.quiet Scenario.native_builder)
      Scenario.packaged_without_headers false lines
    /\ last lines = Some "❌ No .lib files found in any expected location".
Proof.
  apply (native_packaging_needs_a_library Scenario.quiet Scenario.native_builder
           Scenario.packaged_without_headers).
  vm_compute. reflexivity.
Defined.

(** * Archiving *)

Lemma bind_inv {A B} (m : M A) (k : A -> M B) w b w' :
  bind m k w = (Ok b, w') ->
  exists a w1, m w = (Ok a, w1) /\ k a w1 = (Ok b, w').
Proof.
  unfold bind. destruct (m w) as [[a|e] w1]; [eauto|discriminate].
Qed.

Lemma faulting_inv ext {A} op p (m : M A) w a w' :
  faulting ext op p m w = (Ok a, w') -> m w = (Ok a, w').
Proof. unfold faulting. now destruct (io_fault ext op p). Qed.

Lemma store_file_inv p c w u w' :
  store_file p c w = (Ok u, w') ->
  w' = set_fs (<[norm p := File c]> (fs w)) w
  /\ is_dir (fs w) (path_parent (norm p)) = true.
Proof.
  unfold store_file, is_dir.
  destruct (lookup_path (fs w) p) as [[|]|]; try discriminate;
    destruct (lookup_path (fs w) (path_parent (norm p))) as [[|]|]; try discriminate;
    intros [= _ <-]; auto.
Qed.

Lemma read_text_inv ext k w c w' :
  read_text ext k w = (Ok c, w') -> w' = w /\ lookup_path (fs w) k = Some (File c).
Proof.
  intros H. apply faulting_inv in H.
  destruct (lookup_path (fs w) k) as [[|]|]; try discriminate.
  now injection H as -> ->.
Qed.

Lemma canonical_lookup f k : canonical k = true -> lookup_path f k = f !! k.
Proof.
  unfold canonical, lookup_path, path_eqb. destruct k as [|c k]; [discriminate|].
  intros H. apply bool_decide_eq_true in H. now rewrite H.
Qed.

Lemma member_insert_ne f root k q n :
  k <> q -> Archive.member (<[q := n]> f) root k = Archive.member f root k.
Proof. intros H. unfold Archive.member. now rewrite lookup_insert_ne. Qed.

Lemma flat_map_ext_within {A B} (f g : A -> list B) l :
  (forall x, In x l -> f x = g x) -> flat_map f l = flat_map g l.
Proof.
  induction l as [|x l IH]; intros H; [reflexivity|]. cbn [flat_map].
  rewrite (H x (or_introl eq_refl)), IH; [reflexivity|].
  intros y Hy. apply H. now right.
Qed.

Lemma zip_members_spec ext zip_path root ks :
  forall acc w w',
    (forall k, In k ks -> canonical k = true /\ k <> norm zip_path) ->
    fs w !! norm zip_path = Some (File (zip_encode ext acc)) ->
    zip_members ext zip_path root acc ks w = (Ok tt, w') ->
    fs w'
    = <[norm zip_path :=
          File (zip_encode ext (acc ++ flat_map (Archive.member (fs w) root) ks))]> (fs w).
Proof.
  induction ks as [|k ks IH]; intros acc w w' Hks Hinv; cbn [zip_members flat_map].
  - intros [= <-]. rewrite app_nil_r. symmetry. now apply insert_id.
  - destruct (Hks k (or_introl eq_refl)) as [Hcanon Hne].
    intros H. apply bind_inv in H as (f & w1 & Hget & H).
    injection Hget as <- <-.
    unfold is_file in H. unfold Archive.member at 1.
    rewrite (canonical_lookup _ _ Hcanon) in H.
    destruct (fs w !! k) as [[c|]|] eqn:Hk.
    + apply bind_inv in H as (c' & w1 & Hread & H).
      apply read_text_inv in Hread as [-> Hread].
      rewrite (canonical_lookup _ _ Hcanon), Hk in Hread. injection Hread as <-.
      apply bind_inv in H as (u & w2 & Hstore & H).
      apply store_file_inv in Hstore as [-> _].
      apply IH in H.
      * rewrite H. cbn [fs set_fs]. rewrite insert_insert_eq. f_equal. f_equal. f_equal.
        rewrite <- app_assoc. cbn [app]. f_equal. f_equal.
        apply flat_map_ext_within. intros q Hq. apply member_insert_ne.
        now destruct (Hks q (or_intror Hq)).
      * intros q Hq. apply Hks. now right.
      * cbn [fs set_fs]. apply lookup_insert_eq.
    + apply IH in H; [exact H| |exact Hinv]. intros q Hq. apply Hks. now right.
    + apply IH in H; [exact H| |exact Hinv]. intros q Hq. apply Hks. now right.
Qed.
Lemma norm_rev_app acc p q : norm_rev acc (p ++ q) = norm_rev (norm_rev acc p) q.
Proof.
  revert acc. induction p as [|d p IH]; intros acc; cbn [norm_rev app]; [reflexivity|].
  destruct (String.eqb d ".."); [apply IH|]. destruct (String.eqb d "."); apply IH.
Qed.

Lemma norm_app_plain p q : Forall plain q -> norm (p ++ q) = norm p ++ q.
Proof.
  intros H. unfold norm. rewrite norm_rev_app, norm_rev_of_plain by exact H.
  now rewrite rev_app_distr, rev_involutive.
Qed.

Lemma is_prefix_app p q r : is_prefix (p ++ q) (p ++ r) = is_prefix q r.
Proof.
  induction p as [|c p IH]; [reflexivity|]. cbn [is_prefix app].
  now rewrite String.eqb_refl, IH.
Qed.

Lemma is_prefix_app_l p q : is_prefix p (p ++ q) = true.
Proof.
  rewrite <- (app_nil_r p) at 1. rewrite is_prefix_app. now destruct q.
Qed.

Lemma is_prefix_decompose p k : is_prefix p k = true -> k = p ++ drop (length p) k.
Proof.
  revert k. induction p as [|c p IH]; intros k H; [reflexivity|].
  destruct k as [|d k]; [discriminate|]. cbn [is_prefix] in H.
  apply andb_prop in H as [Hc Hp]. apply String.eqb_eq in Hc as ->.
  cbn [app length drop]. f_equal. now apply IH.
Qed.

Lemma append_never_self s t : t <> "" -> s <> s +:+ t.
Proof.
  intros Ht. induction s as [|c s IH]; cbn.
  - intros H. now symmetry in H.
  - intros [= H]. contradiction.
Qed.

Lemma canonical_plain k : canonical k = true -> k <> [] /\ Forall plain k.
Proof.
  unfold canonical, path_eqb. destruct k as [|c k]; [discriminate|].
  intros H. apply bool_decide_eq_true in H. split; [discriminate|].
  rewrite <- H. apply norm_plain.
Qed.

Lemma plain_canonical k : k <> [] -> Forall plain k -> canonical k = true.
Proof.
  intros Hne Hp. unfold canonical, path_eqb. destruct k as [|c k]; [contradiction|].
  apply bool_decide_eq_true. now apply norm_of_plain.
Qed.

Lemma in_entries f k : In k (entries f) <-> canonical k = true /\ is_Some (f !! k).
Proof.
  unfold entries. rewrite filter_In, in_map_iff. split.
  - intros [[[k' n] [Hk Hin]] Hcanon]. cbn in Hk. subst k'. split; [exact Hcanon|].
    apply list_elem_of_In, elem_of_map_to_list in Hin. eauto.
  - intros [Hcanon [n Hn]]. split; [|exact Hcanon].
    exists (k, n). split; [reflexivity|].
    now apply list_elem_of_In, elem_of_map_to_list.
Qed.

Lemma in_rglob f root k :
  In k (rglob f root)
  <-> is_dir f root = true /\ canonical k = true /\ is_Some (f !! k)
      /\ strictly_below (norm root) k = true.
Proof.
  unfold rglob. destruct (is_dir f root).
  - rewrite filter_In, in_entries. tauto.
  - cbn. split; [tauto|]. intros [H _]. discriminate H.
Qed.

Lemma in_members f root rel c :
  In (rel, c) (Archive.members f root)
  <-> exists k, In k (rglob f root) /\ f !! k = Some (File c) /\ rel = relative_to root k.
Proof.
  unfold Archive.members. rewrite in_flat_map. split.
  - intros (k & Hk & Hin). exists k. split; [exact Hk|].
    unfold Archive.member in Hin. destruct (f !! k) as [[c'|]|]; try contradiction.
    destruct Hin as [[= <- <-]|[]]. auto.
  - intros (k & Hk & Hfile & ->). exists k. split; [exact Hk|].
    unfold Archive.member. rewrite Hfile. now left.
Qed.

Lemma zip_tree_spec ext zip_path root w w' :
  (forall k, strictly_below (norm root) k = true -> k <> norm zip_path) ->
  zip_tree ext zip_path root w = (Ok tt, w') ->
  fs w'
  = <[norm zip_path :=
        File (zip_encode ext
                (Archive.members (<[norm zip_path := File (zip_encode ext [])]> (fs w)) root))]>
      (fs w).
Proof.
  intros Hout H. unfold zip_tree in H.
  apply bind_inv in H as (u & w1 & Hopen & H).
  apply faulting_inv, store_file_inv in Hopen as [-> _].
  apply bind_inv in H as (f & w2 & Hget & H). injection Hget as <- <-.
  apply zip_members_spec in H.
  - rewrite H. cbn [fs set_fs app]. now rewrite insert_insert_eq.
  - intros k Hk. apply in_rglob in Hk as (_ & Hcanon & _ & Hbelow). auto.
  - cbn [fs set_fs]. apply lookup_insert_eq.
Qed.
Lemma is_dir_canonical f k : canonical k = true -> is_dir f k = true -> f !! k = Some Dir.
Proof.
  intros Hc. unfold is_dir. rewrite (canonical_lookup _ _ Hc).
  now destruct (f !! k) as [[|]|].
Qed.

Lemma strictly_below_spec p k :
  strictly_below p k = true <-> is_prefix p k = true /\ k <> p.
Proof.
  unfold strictly_below, path_eqb. rewrite andb_true_iff, negb_true_iff.
  rewrite bool_decide_eq_false. split; intros [H1 H2]; split; auto.
Qed.

(** The last two statements of both [package_artifacts]: the manifest, then
    the archive of the artifact directory [W / name] as [W / name.zip]. *)
(** * No member of the archive is written twice *)

Lemma list_fmap_is_map {A B} (g : A -> B) (l : list A) : g <$> l = List.map g l.
Proof. induction l as [|x l IH]; [reflexivity|]. cbn. now rewrite IH. Qed.

Lemma entries_NoDup f : List.NoDup (entries f).
Proof.
  unfold entries. apply List.NoDup_filter.
  rewrite <- list_fmap_is_map. apply NoDup_ListNoDup, NoDup_fst_map_to_list.
Qed.

Lemma rglob_NoDup f root : List.NoDup (rglob f root).
Proof.
  unfold rglob. destruct (is_dir f root); [|constructor].
  apply List.NoDup_filter, entries_NoDup.
Qed.

Lemma relative_to_inj root k1 k2 :
  is_prefix (norm root) k1 = true -> is_prefix (norm root) k2 = true ->
  relative_to root k1 = relative_to root k2 -> k1 = k2.
Proof.
  intros H1 H2 Heq. unfold relative_to in Heq.
  rewrite (is_prefix_decompose _ _ H1), (is_prefix_decompose _ _ H2). now rewrite Heq.
Qed.

Lemma members_NoDup f root : List.NoDup (List.map fst (Archive.members f root)).
Proof.
  unfold Archive.members.
  assert (Hbelow : forall k, In k (rglob f root) -> is_prefix (norm root) k = true).
  { intros k Hk. apply in_rglob in Hk as (_ & _ & _ & Hsb).
    now apply strictly_below_spec in Hsb as [Hp _]. }
  pose proof (rglob_NoDup f root) as Hnd.
  induction (rglob f root) as [|k ks IH]; [constructor|].
  cbn [flat_map]. rewrite List.map_app.
  inversion Hnd as [|? ? Hk Hks]; subst.
  specialize (IH (fun q Hq => Hbelow q (or_intror Hq)) Hks).
  unfold Archive.member at 1. destruct (f !! k) as [[c|]|]; cbn [List.map app]; try exact IH.
  constructor; [|exact IH].
  intros Hin. apply in_map_iff in Hin as ([rel c'] & Hrel & Hin). cbn in Hrel. subst rel.
  apply in_flat_map in Hin as (q & Hq & Hin).
  unfold Archive.member in Hin. destruct (f !! q) as [[c''|]|]; try contradiction.
  destruct Hin as [[= Heq <-]|[]].
  apply relative_to_inj in Heq.
  - subst q. contradiction.
  - apply Hbelow. now right.
  - apply Hbelow. now left.
Qed.

Lemma manifest_and_archive ext (W : path) name info msg w w' :
  plain name -> plain (name +:+ ".zip") ->
  (write_file ext (W // name // "BUILD_INFO.txt") info ;;;
   zip_tree ext (W // (name +:+ ".zip")) (W // name) ;;;
   print msg ;;;
   ret true) w = (Ok true, w') ->
  let dir := norm W ++ [name] in
  fs w' !! (dir ++ ["BUILD_INFO.txt"]) = Some (File info)
  /\ exists members,
       fs w' !! (norm W ++ [name +:+ ".zip"]) = Some (File (zip_encode ext members))
       /\ List.NoDup (List.map fst members)
       /\ forall rel c,
            In (rel, c) members
            <-> rel <> [] /\ Forall plain rel /\ fs w' !! (dir ++ rel) = Some (File c).
Proof.
  intros Hname Hzipname H dir.
  set (zp := norm W ++ [name +:+ ".zip"]).
  assert (Hinfo : plain "BUILD_INFO.txt") by plain_string.
  assert (Hndir : norm (W // name) = dir) by now apply norm_snoc.
  assert (Hnzip : norm (W // (name +:+ ".zip")) = zp) by now apply norm_snoc.
  assert (Hnman : norm (W // name // "BUILD_INFO.txt") = dir ++ ["BUILD_INFO.txt"]).
  { rewrite norm_snoc by exact Hinfo. now rewrite Hndir. }
  assert (Hpdir : Forall plain dir).
  { apply Forall_app. split; [apply norm_plain|now constructor]. }
  assert (Hcdir : canonical dir = true).
  { apply plain_canonical; [|exact Hpdir]. unfold dir. now destruct (norm W). }
  assert (Hnozip : is_prefix dir zp = false).
  { unfold dir, zp. rewrite is_prefix_app. cbn [is_prefix].
    rewrite andb_true_r. apply String.eqb_neq, append_never_self. discriminate. }
  assert (Hbelow : forall rel, is_prefix dir (dir ++ rel) = true /\ dir ++ rel <> zp).
  { intros rel. split; [apply is_prefix_app_l|].
    intros Heq. rewrite <- Heq, is_prefix_app_l in Hnozip. discriminate. }
  apply bind_inv in H as (u & w1 & Hwrite & H).
  apply faulting_inv, store_file_inv in Hwrite as [-> Hdir].
  rewrite Hnman in Hdir. unfold path_parent in Hdir. rewrite removelast_last in Hdir.
  apply (is_dir_canonical _ _ Hcdir) in Hdir.
  apply bind_inv in H as (u' & w2 & Hzip & H). destruct u'.
  apply zip_tree_spec in Hzip; cycle 1.
  { rewrite Hndir, Hnzip. intros k Hk Heq. subst k.
    apply strictly_below_spec in Hk as [Hk _]. rewrite Hk in Hnozip. discriminate. }
  rewrite Hnzip, Hnman in Hzip. cbn [fs set_fs] in Hzip.
  apply bind_inv in H as (u'' & w3 & Hprint & H).
  injection Hprint as _ <-. injection H as <-.
  cbn [fs print snd]. rewrite Hzip. clear Hzip.
  set (f0 := <[dir ++ ["BUILD_INFO.txt"] := File info]> (fs w)).
  set (f1 := <[zp := File (zip_encode ext [])]> f0).
  assert (Hf1 : forall k, k <> zp -> f1 !! k = f0 !! k).
  { intros k Hk. unfold f1. now rewrite lookup_insert_ne. }
  assert (Hrootdir : is_dir f1 (W // name) = true).
  { unfold is_dir, lookup_path. rewrite Hndir.
    assert (f1 !! dir = Some Dir) as Hd.
    { rewrite Hf1.
      - unfold f0. rewrite lookup_insert_ne; [exact Hdir|].
        intros Heq. apply (f_equal length) in Heq. rewrite length_app in Heq.
        cbn in Heq. lia.
      - rewrite <- (app_nil_r dir). apply Hbelow. }
    unfold dir in *. destruct (norm W); cbn in *; now rewrite Hd. }
  split.
  - rewrite lookup_insert_ne by (intros Heq; now apply (proj2 (Hbelow ["BUILD_INFO.txt"]))).
    unfold f0. apply lookup_insert_eq.
  - eexists. split; [apply lookup_insert_eq|]. split; [apply members_NoDup|].
    intros rel c. rewrite in_members. split.
    + intros (k & Hk & Hfile & ->).
      apply in_rglob in Hk as (_ & Hcanon & _ & Hsb).
      rewrite Hndir in Hsb. apply strictly_below_spec in Hsb as [Hpre Hne].
      unfold relative_to. rewrite Hndir.
      pose proof (is_prefix_decompose _ _ Hpre) as Hk.
      set (rel := drop (length dir) k) in *.
      assert (Hkz : k <> zp).
      { rewrite Hk. apply Hbelow. }
      split; [|split].
      * intros Hrel. apply Hne. rewrite Hk, Hrel. apply app_nil_r.
      * apply canonical_plain in Hcanon as [_ Hp]. rewrite Hk in Hp.
        now apply Forall_app in Hp.
      * rewrite <- Hk, lookup_insert_ne by congruence.
        now rewrite <- Hf1.
    + intros (Hrel & Hplain & Hfile).
      destruct (Hbelow rel) as [Hpre Hkz].
      rewrite lookup_insert_ne in Hfile by congruence.
      exists (dir ++ rel). split; [|split].
      * apply in_rglob. split; [exact Hrootdir|]. split; [|split].
        -- apply plain_canonical; [|now apply Forall_app].
           intros Heq. apply app_eq_nil in Heq as [_ Heq]. contradiction.
        -- rewrite Hf1 by exact Hkz. eauto.
        -- rewrite Hndir. apply strictly_below_spec. split; [exact Hpre|].
           intros Heq. apply Hrel. rewrite <- (app_nil_r dir) in Heq at 2.
           now apply app_inv_head in Heq.
      * rewrite Hf1 by exact Hkz. exact Hfile.
      * unfold relative_to. rewrite Hndir. now rewrite drop_app_length.
Qed.
Ltac to_the_manifest H :=
  repeat match type of H with
         | bind (write_file _ (_ // "BUILD_INFO.txt") _) _ _ = _ => fail 1
         | bind _ _ _ = _ =>
             apply bind_inv in H; destruct H as (? & ? & _ & H); cbv beta zeta in H
         end.

Lemma configure_artifact_name_plain self :
  plain (Configure.artifact_name self) /\ plain (Configure.artifact_name self +:+ ".zip").
Proof. unfold Configure.artifact_name. split; split; discriminate. Qed.

Lemma native_artifact_name_plain c :
  plain (Native.artifact_name c) /\ plain (Native.artifact_name c +:+ ".zip").
Proof. unfold Native.artifact_name. split; split; discriminate. Qed.

(** X13.  Whenever [package_artifacts] returns [True], in either script,
    the artifact directory holds the manifest [BUILD_INFO.txt] with the
    build information, and the archive next to it has exactly one member
    for every regular file below the artifact directory: no member name
    occurs twice, and the members are the regular files below the
    artifact directory, each named by its path relative to that directory
    and carrying its content (so the manifest is one of them, and no
    absolute path is stored). *)
Theorem successful_packaging_archives_the_artifact_directory :
  forall ext,
    (forall self w w',
        Configure.package_artifacts ext self w = (Ok true, w') ->
        let dir := norm (Configure.workspace self) ++ [Configure.artifact_name self] in
        fs w' !! (dir ++ ["BUILD_INFO.txt"]) = Some (File (Configure.build_info ext self))
        /\ exists members,
             fs w' !! (norm (Configure.workspace self)
                       ++ [Configure.artifact_name self +:+ ".zip"])
             = Some (File (zip_encode ext members))
             /\ List.NoDup (List.map fst members)
             /\ forall rel c,
                  In (rel, c) members
                  <-> rel <> [] /\ Forall plain rel
                      /\ fs w' !! (dir ++ rel) = Some (File c))
    /\ (forall self w w',
          Native.package_artifacts ext self w = (Ok true, w') ->
          let dir := norm (Native.workspace self)
                     ++ [Native.artifact_name (Native.config self)] in
          fs w' !! (dir ++ ["BUILD_INFO.txt"]) = Some (File (Native.build_info ext self))
          /\ exists members,
               fs w' !! (norm (Native.workspace self)
                         ++ [Native.artifact_name (Native.config self) +:+ ".zip"])
               = Some (File (zip_encode ext members))
               /\ List.NoDup (List.map fst members)
               /\ forall rel c,
                    In (rel, c) members
                    <-> rel <> [] /\ Forall plain rel
                        /\ fs w' !! (dir ++ rel) = Some (File c)).
Proof.
  intros ext. split; intros self w w' H.
  - destruct (configure_artifact_name_plain self) as [Hn Hz].
    unfold Configure.package_artifacts, Configure.artifact_dir in H.
    to_the_manifest H.
    exact (manifest_and_archive ext _ _ _ _ _ _ Hn Hz H).
  - destruct (native_artifact_name_plain (Native.config self)) as [Hn Hz].
    unfold Native.package_artifacts, Native.artifact_dir in H.
    apply bind_inv in H as (u & w1 & _ & H).
    apply bind_inv in H as (found & w2 & _ & H).
    destruct (Native.lib_files found).
    { apply bind_inv in H as (u' & w3 & _ & H). discriminate H. }
    to_the_manifest H.
    exact (manifest_and_archive ext _ _ _ _ _ _ Hn Hz H).
Qed.

Lemma run_eta {A} (m : M A) w a : fst (m w) = Ok a -> m w = (Ok a, snd (m w)).
Proof. destruct (m w) as [r w']. cbn. now intros ->. Qed.

Lemma successful_packaging_archives_the_artifact_directory_witness :
  let after := snd (Configure.package_artifacts Scenario.quiet Scenario.configure_builder
                      Scenario.bare) in
  fs after !! ((norm (Configure.workspace Scenario.configure_builder)
                ++ [Configure.artifact_name Scenario.configure_builder])
               ++ ["BUILD_INFO.txt"])
  = Some (File (Configure.build_info Scenario.quiet Scenario.configure_builder)).
Proof.
  exact (proj1 (proj1 (successful_packaging_archives_the_artifact_directory Scenario.quiet)
                  Scenario.configure_builder Scenario.bare _
                  (run_eta (Configure.package_artifacts Scenario.quiet
                              Scenario.configure_builder)
                     Scenario.bare true ltac:(vm_compute; reflexivity)))).
Defined.

(** * The disk footprint of packaging *)

Lemma is_prefix_app_weaken p q k : is_prefix (p ++ q) k = true -> is_prefix p k = true.
Proof.
  revert k. induction p as [|c p IH]; intros k H; [reflexivity|].
  destruct k as [|d k]; [discriminate|]. cbn [is_prefix app] in *.
  apply andb_prop in H as [Hc Hp]. rewrite Hc. cbn. now apply IH.
Qed.

Lemma is_prefix_refl p : is_prefix p p = true.
Proof. rewrite <- (app_nil_r p) at 2. apply is_prefix_app_l. Qed.

Lemma outside_mkdir S ext p :
  S (norm p) -> respects (same_outside S) (mkdir ext p).
Proof.
  intros HS. apply respects_faulting; try typeclasses eauto.
  intros w r w'. destruct (path_exists (fs w) p); [inv_result; reflexivity|].
  destruct (lookup_path (fs w) (path_parent (norm p))) as [[|]|]; inv_result;
    try reflexivity.
  intros k Hk. cbn. rewrite lookup_insert_ne; [reflexivity|]. intros <-. contradiction.
Qed.

Lemma outside_store S p c :
  S (norm p) -> respects (same_outside S) (store_file p c).
Proof.
  intros HS. eapply outside_weaken; [|apply outside_store_file].
  now intros k <-.
Qed.

Lemma outside_write S ext p c :
  S (norm p) -> respects (same_outside S) (write_file ext p c).
Proof.
  intros HS. apply respects_faulting; try typeclasses eauto. now apply outside_store.
Qed.

Lemma outside_rmtree S ext p :
  (forall k, is_prefix (norm p) k = true -> S k) ->
  respects (same_outside S) (rmtree ext p).
Proof.
  intros HS. apply respects_faulting; try typeclasses eauto.
  intros w r w'. destruct (lookup_path (fs w) p) as [[|]|]; inv_result; try reflexivity.
  intros k Hk. cbn [fs set_fs].
  destruct (is_prefix (norm p) k) eqn:Hpre; [exfalso; auto|].
  rewrite map_lookup_filter. destruct (fs w !! k) as [n|]; [|reflexivity].
  cbn. now rewrite option_guard_True.
Qed.

Lemma path_name_plain k : plain (path_name (norm k)).
Proof.
  unfold path_name. pose proof (norm_plain k) as H.
  destruct (norm k) as [|c q] using rev_ind; [split; discriminate|].
  rewrite last_last. apply Forall_app in H as [_ H]. now inversion H.
Qed.

Lemma outside_copy2 S ext src dst :
  (forall k, is_prefix (norm dst) k = true -> S k) ->
  respects (same_outside S) (copy2 ext src dst).
Proof.
  intros HS. apply respects_faulting; try typeclasses eauto.
  intros w r w'. destruct (lookup_path (fs w) src) as [[c|]|];
    [|inv_result; reflexivity..].
  apply outside_store. apply HS.
  destruct (is_dir (fs w) dst).
  - rewrite norm_snoc by apply path_name_plain. apply is_prefix_app_l.
  - apply is_prefix_refl.
Qed.

Lemma outside_zip_tree S ext zip_path root :
  S (norm zip_path) -> respects (same_outside S) (zip_tree ext zip_path root).
Proof.
  intros HS.
  assert (Hmembers : forall ks acc,
             respects (same_outside S) (zip_members ext zip_path root acc ks)).
  { induction ks as [|k ks IH]; intros acc; cbn [zip_members].
    - apply respects_ret; typeclasses eauto.
    - apply respects_bind; try typeclasses eauto; [apply outside_of_fs, fs_get_fs|].
      intros f. destruct (is_file f k); [|apply IH].
      apply respects_bind; try typeclasses eauto; [apply outside_of_fs, fs_read_text|].
      intros c. apply respects_bind; try typeclasses eauto; [now apply outside_store|].
      intros _. apply IH. }
  unfold zip_tree.
  apply respects_bind; try typeclasses eauto.
  - apply respects_faulting; try typeclasses eauto. now apply outside_store.
  - intros _. apply respects_bind; try typeclasses eauto; [apply outside_of_fs, fs_get_fs|].
    intros f. apply Hmembers.
Qed.

Lemma is_prefix_of_app k p q :
  is_prefix k (p ++ q) = true -> is_prefix k p = true \/ is_prefix p k = true.
Proof.
  revert k. induction p as [|c p IH]; intros k H; [now right|].
  destruct k as [|d k]; [now left|]. cbn [is_prefix app] in *.
  apply andb_prop in H as [Hc Hk]. apply String.eqb_eq in Hc as ->.
  rewrite String.eqb_refl. cbn. now apply IH.
Qed.

Lemma is_prefix_removelast k p : is_prefix k (removelast p) = true -> is_prefix k p = true.
Proof.
  destruct p as [|c p] using rev_ind; [auto|]. rewrite removelast_last.
  intros H. rewrite (is_prefix_decompose _ _ H), <- app_assoc. apply is_prefix_app_l.
Qed.

Lemma norm_parent p : norm (path_parent (norm p)) = path_parent (norm p).
Proof.
  apply norm_of_plain. unfold path_parent. pose proof (norm_plain p) as H.
  destruct (norm p) as [|c q _] using rev_ind; [constructor|].
  rewrite removelast_last. now apply Forall_app in H as [H _].
Qed.

Lemma outside_makedirs_from S (made todo : path) :
  Forall plain (made ++ todo) ->
  (forall k, is_prefix k (made ++ todo) = true -> S k) ->
  respects (same_outside S) (makedirs_from made todo).
Proof.
  revert made. induction todo as [|c rest IH]; intros made Hplain HS; cbn [makedirs_from].
  - apply respects_ret; typeclasses eauto.
  - assert (Hd : norm (made // c) = made ++ [c]).
    { apply norm_of_plain. apply Forall_app in Hplain as [Hmade Hrest].
      apply Forall_app. split; [exact Hmade|]. inversion Hrest; subst. now constructor. }
    apply respects_bind; try typeclasses eauto.
    + intros w r w'. destruct (lookup_path (fs w) (made // c)) as [[|]|]; inv_result;
        try reflexivity.
      intros k Hk. cbn [fs set_fs]. rewrite lookup_insert_ne; [reflexivity|].
      intros <-. apply Hk, HS. rewrite Hd.
      change (c :: rest) with ([c] ++ rest). rewrite app_assoc. apply is_prefix_app_l.
    + intros _. apply IH; unfold pdiv; now rewrite <- app_assoc.
Qed.

Lemma outside_makedirs S p :
  (forall k, is_prefix k (norm p) = true -> S k) ->
  respects (same_outside S) (makedirs p).
Proof.
  intros HS. unfold makedirs. apply outside_makedirs_from; [apply norm_plain|exact HS].
Qed.

Lemma outside_copytree S ext src dst :
  (forall k, is_prefix (norm dst) k = true \/ is_prefix k (norm dst) = true -> S k) ->
  respects (same_outside S) (copytree ext src dst).
Proof.
  intros HS.
  assert (Htarget : forall k q,
             canonical k = true ->
             is_prefix q (norm (dst ++ relative_to src k)) = true -> S q).
  { intros k q Hk Hq. apply canonical_plain in Hk as [_ Hk].
    rewrite norm_app_plain in Hq by (unfold relative_to; now apply Forall_drop).
    apply HS. apply is_prefix_of_app in Hq. tauto. }
  assert (Hentry : forall k,
             canonical k = true ->
             respects (same_outside S) (copytree_entry ext src dst k)).
  { intros k Hk w r w'. unfold copytree_entry. cbv zeta.
    destruct (lookup_path (fs w) k) as [[c|]|].
    - match goal with
      | |- context [let (_, _) := ?t in _] => destruct t as [[u|e] w1] eqn:H1
      end; inv_result.
      all: refine ((_ : respects (same_outside S) _) _ _ _ H1).
      all: apply respects_bind; try typeclasses eauto.
      all: try (apply outside_makedirs; intros q Hq; apply (Htarget k); [exact Hk|];
                rewrite norm_parent in Hq; now apply is_prefix_removelast).
      all: intros ?; apply respects_faulting; try typeclasses eauto;
           apply outside_store; apply (Htarget k); [exact Hk|apply is_prefix_refl].
    - match goal with
      | |- context [let (_, _) := ?t in _] => destruct t as [[u|e] w1] eqn:H1
      end; inv_result.
      all: refine ((_ : respects (same_outside S) _) _ _ _ H1).
      all: apply outside_makedirs; intros q Hq; now apply (Htarget k).
    - inv_result. reflexivity. }
  assert (Hentries : forall ks,
             (forall k, In k ks -> canonical k = true) ->
             respects (same_outside S) (copytree_entries ext src dst ks)).
  { induction ks as [|k ks IH]; intros Hks; cbn [copytree_entries].
    - apply respects_ret; typeclasses eauto.
    - apply respects_bind; try typeclasses eauto; [apply Hentry, Hks; now left|].
      intros ok1. apply respects_bind; try typeclasses eauto.
      + apply IH. intros q Hq. apply Hks. now right.
      + intros ok2. apply respects_ret; typeclasses eauto. }
  unfold copytree. apply respects_faulting; try typeclasses eauto.
  apply respects_bind; try typeclasses eauto; [apply outside_of_fs, fs_get_fs|].
  intros f. destruct (lookup_path f src) as [[|]|];
    try (apply respects_raise; typeclasses eauto).
  apply respects_bind; try typeclasses eauto.
  - apply outside_makedirs. intros k Hk. apply HS. now right.
  - intros _. apply respects_bind; try typeclasses eauto.
    + apply Hentries. intros k Hk. now apply in_rglob in Hk.
    + intros [|]; [apply respects_ret|apply respects_raise]; typeclasses eauto.
Qed.

(** Like [footprint], for the relation [same_outside S]: [side] proves that
    the key or subtree an operation writes lies within [S]. *)
Ltac disk_footprint side :=
  repeat first
    [ solve [eauto 2 with footprint typeclass_instances]
    | apply outside_mkdir; side
    | apply outside_write; side
    | apply outside_rmtree; side
    | apply outside_copy2; side
    | apply outside_zip_tree; side
    | apply outside_copytree; side
    | apply respects_ret; try typeclasses eauto
    | apply respects_raise; try typeclasses eauto
    | apply respects_bind; try typeclasses eauto; [|intros ?]
    | apply respects_try_except; try typeclasses eauto; [|intros ?]
    | apply respects_for_each; try typeclasses eauto; intros ?
    | apply respects_for_fold; try typeclasses eauto; intros ? ?
    | apply respects_when; try typeclasses eauto
    | match goal with
      | |- respects _ (if ?b then _ else _) => destruct b
      | |- respects _ (match ?x with _ => _ end) => destruct x
      | |- respects _ (let '(_, _) := ?x in _) => destruct x
      end ].

(** Proves that a path built from the artifact directory (or the path of
    the archive) normalises to a key below that directory (or to the key of
    the archive). *)
Ltac within_artifact_dir Hdir :=
  cbv beta;
  repeat (rewrite norm_snoc by first [assumption | plain_string]);
  rewrite ?Hdir; rewrite <- ?app_assoc;
  first
    [ right; reflexivity
    | left; apply is_prefix_app_l
    | left; apply is_prefix_refl
    | let k := fresh "k" in
      let Hk := fresh "Hk" in
      intros k Hk; left; rewrite <- ?app_assoc in Hk;
      first [exact Hk | eapply is_prefix_app_weaken, Hk] ].

(** X14.  Whatever its outcome (success, failure or exception), the
    project-file-driven [package_artifacts] creates, changes or removes
    nothing outside its artifact directory and the archive next to it:
    sources, build outputs and every other file of the workspace are left
    as they were.  It makes no network call and starts no process. *)
Theorem native_packaging_stays_in_its_directory :
  forall ext self w,
    let dir := norm (Native.workspace self) ++ [Native.artifact_name (Native.config self)] in
    let archive := norm (Native.workspace self)
                   ++ [Native.artifact_name (Native.config self) +:+ ".zip"] in
    let after := snd (Native.package_artifacts ext self w) in
    (forall k, is_prefix dir k = false -> k <> archive -> fs after !! k = fs w !! k)
    /\ http_log after = http_log w
    /\ proc_log after = proc_log w.
Proof.
  intros ext self w dir archive after. subst after.
  destruct (native_artifact_name_plain (Native.config self)) as [Hn Hz].
  assert (Hdir : norm (Native.artifact_dir self) = dir) by now apply norm_snoc.
  split; [|split].
  - intros k Hpre Hne.
    apply (respects_snd (same_outside (fun k => is_prefix dir k = true \/ k = archive))).
    + unfold Native.package_artifacts, Native.locate_build_artifacts, Native.locate.
      disk_footprint ltac:(within_artifact_dir Hdir).
    + intros [H|H]; congruence.
  - apply (respects_snd same_http).
    unfold Native.package_artifacts, Native.locate_build_artifacts, Native.locate.
    footprint.
  - apply (respects_snd same_procs).
    unfold Native.package_artifacts, Native.locate_build_artifacts, Native.locate.
    footprint.
Qed.
Lemma native_packaging_stays_in_its_directory_witness :
  let k : path := ["W"; "icu-release-release-77-1"; "icu4c"; "lib64"; "icuuc.lib"] in
  fs (snd (Native.package_artifacts Scenario.quiet Scenario.native_builder
             Scenario.native_stale_artifact)) !! k
  = fs Scenario.native_stale_artifact !! k.
Proof.
  exact (proj1 (native_packaging_stays_in_its_directory Scenario.quiet
                  Scenario.native_builder Scenario.native_stale_artifact)
           ["W"; "icu-release-release-77-1"; "icu4c"; "lib64"; "icuuc.lib"]
           ltac:(vm_compute; reflexivity) ltac:(vm_compute; discriminate)).
Defined.

(** Like [within_artifact_dir], where the directories leading to the
    artifact directory are within the footprint as well. *)
Ltac within_artifact_tree Hdir :=
  cbv beta;
  repeat (rewrite norm_snoc by first [assumption | plain_string]);
  rewrite ?Hdir; rewrite <- ?app_assoc;
  first
    [ right; left; reflexivity
    | left; apply is_prefix_app_l
    | left; apply is_prefix_refl
    | let k := fresh "k" in
      let Hk := fresh "Hk" in
      intros k [Hk|Hk];
      [ left; eapply is_prefix_app_weaken, Hk
      | apply is_prefix_of_app in Hk; tauto ]
    | let k := fresh "k" in
      let Hk := fresh "Hk" in
      intros k Hk; left; rewrite <- ?app_assoc in Hk;
      first [exact Hk | eapply is_prefix_app_weaken, Hk] ].

(** X15.  Whatever its outcome, the configure-and-make [package_artifacts]
    leaves every path alone that is neither inside its artifact directory,
    nor the archive next to it, nor one of the directories leading to the
    artifact directory (which [shutil.copytree] creates when missing).  It
    makes no network call and starts no process. *)
Theorem configure_packaging_stays_in_its_directory :
  forall ext self w,
    let dir := norm (Configure.workspace self) ++ [Configure.artifact_name self] in
    let archive := norm (Configure.workspace self)
                   ++ [Configure.artifact_name self +:+ ".zip"] in
    let after := snd (Configure.package_artifacts ext self w) in
    (forall k,
        is_prefix dir k = false -> k <> archive -> is_prefix k dir = false ->
        fs after !! k = fs w !! k)
    /\ http_log after = http_log w
    /\ proc_log after = proc_log w.
Proof.
  intros ext self w dir archive after. subst after.
  destruct (configure_artifact_name_plain self) as [Hn Hz].
  assert (Hdir : norm (Configure.artifact_dir self) = dir) by now apply norm_snoc.
  split; [|split].
  - intros k Hpre Hne Hanc.
    apply (respects_snd
             (same_outside (fun k => is_prefix dir k = true \/ k = archive
                                     \/ is_prefix k dir = true))).
    + unfold Configure.package_artifacts, Configure.copy_data_files.
      disk_footprint ltac:(within_artifact_tree Hdir).
    + intros [H|[H|H]]; congruence.
  - apply (respects_snd same_http).
    unfold Configure.package_artifacts, Configure.copy_data_files.
    footprint.
  - apply (respects_snd same_procs).
    unfold Configure.package_artifacts, Configure.copy_data_files.
    footprint.
Qed.
Lemma configure_packaging_stays_in_its_directory_witness :
  let k : path := ["W"; "icu-release-release-77-1"; "icu4c"; "source"] in
  fs (snd (Configure.package_artifacts Scenario.quiet Scenario.configure_builder
             Scenario.unpacked)) !! k
  = fs Scenario.unpacked !! k.
Proof.
  exact (proj1 (configure_packaging_stays_in_its_directory Scenario.quiet
                  Scenario.configure_builder Scenario.unpacked)
           ["W"; "icu-release-release-77-1"; "icu4c"; "source"]
           ltac:(vm_compute; reflexivity) ltac:(vm_compute; discriminate)
           ltac:(vm_compute; reflexivity)).
Defined.

(** * From packaging to verification *)

#[export] Instance kinds_kept_refl : Reflexive kinds_kept.
Proof. intros w k. destruct (fs w !! k) as [[c|]|]; eauto. Qed.

#[export] Instance kinds_kept_trans : Transitive kinds_kept.
Proof.
  intros a b c H1 H2 k. specialize (H1 k). specialize (H2 k).
  destruct (fs a !! k) as [[x|]|]; [|now rewrite H1 in H2|exact I].
  destruct H1 as [y Hy]. now rewrite Hy in H2.
Qed.

Lemma kept_of_fs {A} (m : M A) : respects same_fs m -> respects kinds_kept m.
Proof.
  apply respects_weaken. intros w w' H k. unfold same_fs in H. rewrite H.
  destruct (fs w !! k) as [[c|]|]; eauto.
Qed.

Lemma kept_insert (w : world) p n :
  match fs w !! p with
  | Some Dir => n = Dir
  | Some (File _) => exists c, n = File c
  | None => True
  end ->
  kinds_kept w (set_fs (<[p := n]> (fs w)) w).
Proof.
  intros H k. cbn [fs set_fs]. destruct (decide (k = p)) as [->|Hne].
  - rewrite lookup_insert_eq. destruct (fs w !! p) as [[c|]|]; [|now subst|exact I].
    destruct H as [c' ->]. eauto.
  - rewrite lookup_insert_ne by congruence. destruct (fs w !! k) as [[c|]|]; eauto.
Qed.

Lemma kept_mkdir ext p : respects kinds_kept (mkdir ext p).
Proof.
  apply respects_faulting; try typeclasses eauto.
  intros w r w'. destruct (path_exists (fs w) p) eqn:Hex; [inv_result; reflexivity|].
  destruct (lookup_path (fs w) (path_parent (norm p))) as [[|]|];
    inv_result; try reflexivity.
  apply kept_insert. unfold path_exists, lookup_path in Hex.
  destruct (norm p); [discriminate|].
  now destruct (fs w !! (s :: l)).
Qed.

Lemma kept_store_file p c : respects kinds_kept (store_file p c).
Proof.
  intros w r w'. unfold store_file.
  destruct (lookup_path (fs w) p) as [[c0|]|] eqn:Hl; [|inv_result; reflexivity|];
    (destruct (lookup_path (fs w) (path_parent (norm p))) as [[|]|];
     inv_result; try reflexivity);
    apply kept_insert; unfold lookup_path in Hl;
    destruct (norm p); try discriminate; rewrite Hl; eauto.
Qed.

Lemma kept_write_file ext p c : respects kinds_kept (write_file ext p c).
Proof. apply respects_faulting; try typeclasses eauto. apply kept_store_file. Qed.

Lemma kept_copy2 ext src dst : respects kinds_kept (copy2 ext src dst).
Proof.
  apply respects_faulting; try typeclasses eauto.
  intros w r w'. destruct (lookup_path (fs w) src) as [[c|]|];
    [|inv_result; reflexivity..].
  apply kept_store_file.
Qed.

Lemma kept_zip_tree ext zip_path root : respects kinds_kept (zip_tree ext zip_path root).
Proof.
  assert (Hmembers : forall ks acc,
             respects kinds_kept (zip_members ext zip_path root acc ks)).
  { induction ks as [|k ks IH]; intros acc; cbn [zip_members].
    - apply respects_ret; typeclasses eauto.
    - apply respects_bind; try typeclasses eauto; [apply kept_of_fs, fs_get_fs|].
      intros f. destruct (is_file f k); [|apply IH].
      apply respects_bind; try typeclasses eauto; [apply kept_of_fs, fs_read_text|].
      intros c. apply respects_bind; try typeclasses eauto; [apply kept_store_file|].
      intros _. apply IH. }
  unfold zip_tree.
  apply respects_bind; try typeclasses eauto.
  - apply respects_faulting; try typeclasses eauto. apply kept_store_file.
  - intros _. apply respects_bind; try typeclasses eauto; [apply kept_of_fs, fs_get_fs|].
    intros f. apply Hmembers.
Qed.

(** Like [footprint], for the relation [kinds_kept]. *)
Ltac kinds_footprint :=
  repeat first
    [ apply kept_mkdir
    | apply kept_write_file
    | apply kept_copy2
    | apply kept_zip_tree
    | apply kept_of_fs; solve [eauto 2 with footprint]
    | apply respects_ret; try typeclasses eauto
    | apply respects_raise; try typeclasses eauto
    | apply respects_bind; try typeclasses eauto; [|intros ?]
    | apply respects_for_each; try typeclasses eauto; intros ?
    | apply respects_when; try typeclasses eauto
    | match goal with
      | |- respects _ (if ?b then _ else _) => destruct b
      | |- respects _ (match ?x with _ => _ end) => destruct x
      end ].

(** From a run [H : m w = (r, w')], that [kinds_kept w w']. *)
Ltac kept_along H Hk :=
  match type of H with
  | ?m ?w = (_, ?w') =>
      assert (Hk : kinds_kept w w')
        by (refine ((_ : respects kinds_kept m) _ _ _ H); kinds_footprint)
  end.

Lemma kept_dir w w' k : kinds_kept w w' -> fs w !! k = Some Dir -> fs w' !! k = Some Dir.
Proof. intros H Hk. specialize (H k). now rewrite Hk in H. Qed.

Lemma kept_file w w' k c :
  kinds_kept w w' -> fs w !! k = Some (File c) -> exists c', fs w' !! k = Some (File c').
Proof. intros H Hk. specialize (H k). now rewrite Hk in H. Qed.

Lemma mkdir_inv ext p w u w' :
  mkdir ext p w = (Ok u, w') -> fs w' !! norm p = Some Dir.
Proof.
  intros H. apply faulting_inv in H.
  destruct (path_exists (fs w) p); [discriminate|].
  destruct (lookup_path (fs w) (path_parent (norm p))) as [[|]|]; try discriminate.
  injection H as _ <-. cbn [fs set_fs]. apply lookup_insert_eq.
Qed.

Lemma lookup_path_dir f p : f !! norm p = Some Dir -> lookup_path f p = Some Dir.
Proof. unfold lookup_path. now destruct (norm p). Qed.

Lemma copy2_into_directory ext src dst w u w' :
  copy2 ext src dst w = (Ok u, w') ->
  fs w !! norm dst = Some Dir ->
  exists c, fs w' !! (norm dst ++ [path_name (norm src)]) = Some (File c).
Proof.
  intros H Hdst. apply faulting_inv in H.
  destruct (lookup_path (fs w) src) as [[c|]|]; try discriminate.
  unfold is_dir in H. rewrite (lookup_path_dir _ _ Hdst) in H.
  apply store_file_inv in H as [-> _]. exists c. cbn [fs set_fs].
  rewrite norm_snoc by apply path_name_plain. apply lookup_insert_eq.
Qed.

Lemma in_glob f p suf k :
  In k (glob f p suf)
  <-> is_dir f p = true /\ canonical k = true /\ is_Some (f !! k)
      /\ path_parent k = norm p /\ ends_with suf (path_name k) = true.
Proof.
  unfold glob, children. rewrite filter_In. destruct (is_dir f p).
  - rewrite filter_In, in_entries. unfold path_eqb. rewrite bool_decide_eq_true. tauto.
  - cbn. split; [tauto|]. intros [H _]. discriminate.
Qed.

Lemma in_found_in f suf candidates k :
  In k (Locator.found_in f suf candidates) ->
  canonical k = true /\ ends_with suf (path_name k) = true.
Proof.
  unfold Locator.found_in. rewrite in_flat_map. intros (p & _ & H).
  destruct (path_exists f p); [|contradiction]. apply in_glob in H. tauto.
Qed.

(** A directory [root/lib] holding a regular file whose name ends in
    [.lib], and a directory [root/include/unicode], are all the verdict
    of verification asks for. *)
Lemma verdict_of_layout f root name c :
  f !! norm (root // "lib") = Some Dir ->
  f !! (norm (root // "lib") ++ [name]) = Some (File c) ->
  plain name -> ends_with ".lib" name = true ->
  f !! norm (root // "include" // "unicode") = Some Dir ->
  Verifier.verdict f root = true.
Proof.
  intros Hlib Hfile Hname Hends Hinc.
  unfold Verifier.verdict, Verifier.has_libraries, Verifier.has_header_dir, path_exists.
  rewrite (lookup_path_dir _ _ Hlib), (lookup_path_dir _ _ Hinc). cbn [andb].
  rewrite andb_true_r. apply negb_true_iff, bool_decide_eq_false. intros Hnil.
  assert (Hin : In (norm (root // "lib") ++ [name]) (glob f (root // "lib") ".lib")).
  { apply in_glob. unfold is_dir. rewrite (lookup_path_dir _ _ Hlib).
    rewrite path_parent_snoc, path_name_snoc, Hfile. repeat split; eauto.
    apply plain_canonical; [now destruct (norm (root // "lib"))|].
    apply Forall_app. split; [apply norm_plain|now constructor]. }
  rewrite Hnil in Hin. destruct Hin.
Qed.

(** X16.  In the project-file-driven script, packaging that returns [True]
    leaves an artifact directory that passes verification: [verify_build],
    run on the world that [package_artifacts] leaves, returns [True].  The
    last step of that pipeline can therefore fail only if something else
    changes the artifact directory in between. *)
Theorem native_packaging_passes_verification :
  forall ext self w w',
    Native.package_artifacts ext self w = (Ok true, w') ->
    fst (Native.verify_build ext self w') = Ok true.
Proof.
  intros ext self w w' H. rewrite native_verify_verdict. f_equal.
  unfold Native.package_artifacts in H.
  apply bind_inv in H as (u & w1 & _ & H).
  apply bind_inv in H as (found & w2 & Hloc & H).
  destruct (locate_emits (Native.possible_paths self) (Native.data_paths self) w1)
    as [lines Hemits].
  unfold Native.locate_build_artifacts in Hloc. rewrite Hemits in Hloc. clear Hemits.
  pose proof (in_found_in (fs w1) ".lib" (Native.possible_paths self)) as Hfound.
  remember (Locator.found_in (fs w1) ".lib" (Native.possible_paths self)) as libs.
  remember (Locator.found_in (fs w1) ".exe" (Native.possible_paths self)) as exes.
  remember (Locator.found_in (fs w1) ".dat" (Native.data_paths self)) as dats.
  injection Hloc as <- _.
  cbn [Native.lib_files Native.exe_files Native.dat_files] in H.
  destruct libs as [|l ls].
  { apply bind_inv in H as (u' & w3 & _ & H). discriminate H. }
  assert (Hl : canonical l = true /\ ends_with ".lib" (path_name l) = true)
    by (apply Hfound; now left).
  destruct Hl as [Hcanon Hends].
  apply bind_inv in H as (f & w3 & _ & H).
  apply bind_inv in H as (u3 & w4 & _ & H).
  apply bind_inv in H as (u4 & w5 & _ & H).
  apply bind_inv in H as (u5 & w6 & Hmk & H).
  apply mkdir_inv in Hmk.
  apply bind_inv in H as (u6 & w7 & H7 & H). kept_along H7 K7.
  apply bind_inv in H as (u7 & w8 & H8 & H). kept_along H8 K8.
  apply bind_inv in H as (u8 & w9 & H9 & H). kept_along H9 K9.
  apply bind_inv in H as (u9 & w10 & H10 & H). kept_along H10 K10.
  assert (Hlib10 : fs w10 !! norm (Native.artifact_dir self // "lib") = Some Dir).
  { eapply kept_dir; [exact K10|]. eapply kept_dir; [exact K9|].
    eapply kept_dir; [exact K8|]. eapply kept_dir; [exact K7|]. exact Hmk. }
  apply bind_inv in H as (u10 & w11 & Hloop & H).
  cbn [for_each] in Hloop.
  apply bind_inv in Hloop as (u11 & w12 & Hbody & Hloop).
  apply bind_inv in Hbody as (u12 & w13 & Hcopy & Hbody).
  destruct (copy2_into_directory _ _ _ _ _ _ Hcopy Hlib10) as [c Hfile].
  kept_along Hbody Kbody. kept_along Hloop Kloop.
  cbv zeta in H.
  apply bind_inv in H as (u13 & w14 & Hinc & H).
  pose proof (mkdir_inv _ _ _ _ _ Hinc) as Hunicode. kept_along Hinc Kinc.
  kept_along H Krest.
  assert (Hcanon' : norm l = l).
  { unfold canonical, path_eqb in Hcanon. destruct l; [discriminate|].
    now apply bool_decide_eq_true in Hcanon. }
  rewrite Hcanon' in Hfile.
  assert (K : kinds_kept w13 w').
  { etransitivity; [exact Kbody|]. etransitivity; [exact Kloop|].
    etransitivity; [exact Kinc|exact Krest]. }
  destruct (kept_file _ _ _ _ K Hfile) as [c' Hfile'].
  eapply verdict_of_layout.
  - eapply kept_dir; [exact K|]. eapply kept_dir; [|exact Hlib10].
    kept_along Hcopy Kcopy. exact Kcopy.
  - exact Hfile'.
  - rewrite <- Hcanon'. apply path_name_plain.
  - exact Hends.
  - eapply kept_dir; [exact Krest|exact Hunicode].
Qed.

Lemma native_packaging_passes_verification_witness :
  fst (Native.verify_build Scenario.quiet Scenario.native_builder
         (snd (Native.package_artifacts Scenario.quiet Scenario.native_builder
                 ScenarioBuilt.one_library)))
  = Ok true.
Proof.
  exact (native_packaging_passes_verification Scenario.quiet Scenario.native_builder
           ScenarioBuilt.one_library _
           (run_eta (Native.package_artifacts Scenario.quiet Scenario.native_builder)
              ScenarioBuilt.one_library true ltac:(vm_compute; reflexivity))).
Defined.

(** * What lies in the artifact directory *)

Lemma is_prefix_antisym p k : is_prefix p k = true -> is_prefix k p = true -> p = k.
Proof.
  revert k. induction p as [|c p IH]; intros [|d k]; cbn [is_prefix]; try discriminate;
    [reflexivity|].
  intros H1 H2. apply andb_prop in H1 as [Hc H1]. apply andb_prop in H2 as [_ H2].
  apply String.eqb_eq in Hc as ->. f_equal. now apply IH.
Qed.

Lemma is_prefix_snoc k p c :
  is_prefix k (p ++ [c]) = true -> is_prefix k p = true \/ k = p ++ [c].
Proof.
  revert k. induction p as [|d p IH]; intros [|e k]; cbn [is_prefix app]; auto.
  - intros H. apply andb_prop in H as [He Hk]. apply String.eqb_eq in He as ->.
    destruct k; [now right|discriminate].
  - intros H. apply andb_prop in H as [He Hk]. apply String.eqb_eq in He as ->.
    rewrite String.eqb_refl. cbn [andb].
    destruct (IH _ Hk) as [H|H]; [now left|right; now f_equal].
Qed.

Lemma is_prefix_same_parent p a b : is_prefix (p ++ [a]) (p ++ [b]) = true -> a = b.
Proof.
  induction p as [|c p IH]; cbn [is_prefix app].
  - intros H. apply andb_prop in H as [H _]. now apply String.eqb_eq in H.
  - intros H. apply andb_prop in H as [_ H]. now apply IH.
Qed.

Lemma append_never_shorter s t : s +:+ t = s -> t = "".
Proof.
  induction s as [|c s IH]; cbn; [auto|]. intros [= H]. now apply IH.
Qed.

Lemma within_entry dir archive top k :
  In top package_entries -> is_prefix (dir ++ [top]) k = true ->
  packaging_target dir archive k = true.
Proof.
  intros Hin Hk. unfold packaging_target. apply orb_true_iff. right.
  apply existsb_exists. eauto.
Qed.

Lemma within_ancestors dir archive k :
  is_prefix k dir = true -> packaging_target dir archive k = true.
Proof. intros H. unfold packaging_target. now rewrite H. Qed.

Lemma within_archive dir archive : packaging_target dir archive archive = true.
Proof.
  unfold packaging_target, path_eqb. rewrite bool_decide_true by reflexivity.
  now rewrite orb_true_r.
Qed.

(** What of the artifact directory's subtree is a packaging target. *)
Lemma packaging_target_below dir name k :
  is_prefix (dir ++ [name]) k = true ->
  packaging_target (dir ++ [name]) (dir ++ [name +:+ ".zip"]) k = true ->
  k = dir ++ [name]
  \/ exists top, In top package_entries /\ is_prefix ((dir ++ [name]) ++ [top]) k = true.
Proof.
  intros Hpre H. unfold packaging_target in H.
  apply orb_true_iff in H as [H|H]; [apply orb_true_iff in H as [H|H]|].
  - left. symmetry. now apply is_prefix_antisym.
  - unfold path_eqb in H. apply bool_decide_eq_true in H. subst k.
    apply is_prefix_same_parent in Hpre. symmetry in Hpre.
    apply append_never_shorter in Hpre. discriminate.
  - right. now apply existsb_exists in H.
Qed.

(** Proves that a path built from the artifact directory, or the path of
    the archive, is a packaging target. *)
Ltac is_packaging_target Hdir :=
  cbv beta;
  repeat (rewrite norm_snoc by first [assumption | plain_string]);
  rewrite ?Hdir;
  first
    [ apply within_archive
    | apply within_ancestors, is_prefix_refl
    | eapply within_entry;
      [|first [apply is_prefix_refl | apply is_prefix_app_l]];
      cbn; tauto
    | let k := fresh "k" in
      let Hk := fresh "Hk" in
      intros k [Hk|Hk];
      [ eapply within_entry; [|exact Hk]; cbn; tauto
      | apply is_prefix_snoc in Hk as [Hk| ->];
        [ now apply within_ancestors
        | eapply within_entry; [|apply is_prefix_refl]; cbn; tauto ] ]
    | let k := fresh "k" in
      let Hk := fresh "Hk" in
      intros k Hk; eapply within_entry;
      [|first [exact Hk | eapply is_prefix_app_weaken, Hk]]; cbn; tauto ].

Lemma rmtree_clears ext p w u w' k :
  rmtree ext p w = (Ok u, w') -> is_prefix (norm p) k = true -> fs w' !! k = None.
Proof.
  intros H Hk. apply faulting_inv in H.
  destruct (lookup_path (fs w) p) as [[|]|]; try discriminate.
  injection H as _ <-. cbn [fs set_fs]. rewrite map_lookup_filter.
  destruct (fs w !! k) as [n|]; [|reflexivity]. cbn.
  rewrite option_guard_False; [reflexivity|]. cbn. now rewrite Hk.
Qed.

(** When [package_artifacts] returns [True], in either script, everything
    inside the artifact directory lies at or below one of [lib],
    [include], [bin], [data] and [BUILD_INFO.txt].  (On a tree where the
    artifact directory does not exist, nothing exists below it.) *)
Lemma packaged_entries_only :
  forall ext,
    (forall self w w',
        let dir := norm (Configure.workspace self) ++ [Configure.artifact_name self] in
        Configure.package_artifacts ext self w = (Ok true, w') ->
        (path_exists (fs w) (Configure.artifact_dir self) = false ->
         forall k, is_prefix dir k = true -> fs w !! k = None) ->
        forall k n,
          is_prefix dir k = true -> fs w' !! k = Some n ->
          k = dir
          \/ exists top, In top package_entries /\ is_prefix (dir ++ [top]) k = true)
    /\ (forall self w w',
          let dir := norm (Native.workspace self)
                     ++ [Native.artifact_name (Native.config self)] in
          Native.package_artifacts ext self w = (Ok true, w') ->
          (path_exists (fs w) (Native.artifact_dir self) = false ->
           forall k, is_prefix dir k = true -> fs w !! k = None) ->
          forall k n,
            is_prefix dir k = true -> fs w' !! k = Some n ->
            k = dir
            \/ exists top, In top package_entries /\ is_prefix (dir ++ [top]) k = true).
Proof.
  intros ext. split; intros self w w' dir H Htree k n Hpre Hk.
  - destruct (configure_artifact_name_plain self) as [Hn Hz].
    assert (Hdir : norm (Configure.artifact_dir self) = dir) by now apply norm_snoc.
    set (archive := norm (Configure.workspace self) ++ [Configure.artifact_name self +:+ ".zip"]).
    apply packaging_target_below; [exact Hpre|].
    fold dir. fold archive.
    destruct (packaging_target dir archive k) eqn:Htarget; [reflexivity|exfalso].
    unfold Configure.package_artifacts in H.
    apply bind_inv in H as (u & w1 & Hprint & H).
    apply bind_inv in H as (f & w2 & Hget & H).
    apply bind_inv in H as (u2 & w3 & Hclean & H).
    injection Hprint as _ <-. injection Hget as <- <-. cbn [fs] in *.
    assert (Hclear : fs w3 !! k = None).
    { destruct (path_exists (fs w) (Configure.artifact_dir self)) eqn:Hex;
        cbn [when] in Hclean.
      - eapply rmtree_clears; [exact Hclean|now rewrite Hdir].
      - injection Hclean as _ <-. cbn [fs]. now apply Htree. }
    assert (Hsame : same_outside (fun k => packaging_target dir archive k = true) w3 w').
    { refine ((_ : respects (same_outside _) _) _ _ _ H).
      unfold Configure.copy_data_files.
      disk_footprint ltac:(is_packaging_target Hdir). }
    rewrite Hsame, Hclear in Hk by congruence. discriminate.
  - destruct (native_artifact_name_plain (Native.config self)) as [Hn Hz].
    assert (Hdir : norm (Native.artifact_dir self) = dir) by now apply norm_snoc.
    set (archive := norm (Native.workspace self)
                    ++ [Native.artifact_name (Native.config self) +:+ ".zip"]).
    apply packaging_target_below; [exact Hpre|].
    fold dir. fold archive.
    destruct (packaging_target dir archive k) eqn:Htarget; [reflexivity|exfalso].
    unfold Native.package_artifacts in H.
    apply bind_inv in H as (u & w1 & Hprint & H).
    apply bind_inv in H as (found & w2 & Hloc & H).
    destruct (locate_emits (Native.possible_paths self) (Native.data_paths self) w1)
      as [lines Hemits].
    unfold Native.locate_build_artifacts in Hloc. rewrite Hemits in Hloc. clear Hemits.
    injection Hprint as _ <-. injection Hloc as _ <-.
    destruct (Native.lib_files found).
    { apply bind_inv in H as (u' & w3 & _ & H). discriminate H. }
    apply bind_inv in H as (f & w2 & Hget & H).
    apply bind_inv in H as (u2 & w3 & Hclean & H).
    injection Hget as <- <-. cbn [fs add_lines] in *.
    assert (Hclear : fs w3 !! k = None).
    { destruct (path_exists (fs w) (Native.artifact_dir self)) eqn:Hex;
        cbn [when] in Hclean.
      - eapply rmtree_clears; [exact Hclean|now rewrite Hdir].
      - injection Hclean as _ <-. cbn [fs]. now apply Htree. }
    assert (Hsame : same_outside (fun k => packaging_target dir archive k = true) w3 w').
    { refine ((_ : respects (same_outside _) _) _ _ _ H).
      disk_footprint ltac:(is_packaging_target Hdir). }
    rewrite Hsame, Hclear in Hk by congruence. discriminate.
Qed.

(** * The exit status *)

Lemma parse_loop_exit opts pending extras ns tokens code :
  Argparse.parse_loop opts pending extras ns tokens = Argparse.Exit code ->
  code = 0%Z \/ code = 2%Z.
Proof.
  revert pending extras ns.
  induction tokens as [|t rest IH]; intros pending extras ns; cbn [Argparse.parse_loop].
  - destruct pending; [intros [= <-]; now right|].
    destruct extras; [intros [= <-]; now right|discriminate].
  - destruct pending as [o|].
    + destruct (Argparse.classify opts t); try (intros [= <-]; now right).
      destruct (Argparse.opt_action o) as [choices| |]; try (intros [= <-]; now right).
      destruct (Argparse.check_choice choices t); [apply IH|intros [= <-]; now right].
    + destruct (Argparse.classify opts t) as [|o explicit| |];
        try apply IH; try (intros [= <-]; now right).
      destruct (Argparse.opt_action o) as [choices| |], explicit as [v|];
        try apply IH; try (intros [= <-]; auto).
      destruct (Argparse.check_choice choices v); [apply IH|intros [= <-]; now right].
Qed.

Lemma run_traced_report message steps w b w' called :
  Pipeline.run_traced message steps w = ((Ok b, w'), called) ->
  if b then last (stdout w') = Some message
  else exists name,
         In name (List.map fst steps)
         /\ last (stdout w') = Some ("❌ Build failed at step: " +:+ name).
Proof.
  revert w called. induction steps as [|[name action] rest IH]; intros w called;
    cbn [Pipeline.run_traced].
  - intros [= <- <- _]. unfold Pipeline.completed. cbn. apply last_snoc.
  - destruct (action (Pipeline.announced name w)) as [[[|]|e] w1].
    + destruct (Pipeline.run_traced message rest (Pipeline.acknowledged w1))
        as [[r w2] called'] eqn:Hrest.
      intros [= -> -> _]. specialize (IH _ _ Hrest).
      destruct b; [exact IH|]. destruct IH as (n & Hn & Hlast).
      exists n. split; [now right|exact Hlast].
    + intros [= <- <- _]. exists name. split; [now left|].
      unfold Pipeline.failed_at. cbn. apply last_snoc.
    + discriminate.
Qed.

Lemma configure_build_report ext self w b w' :
  Configure.build ext self w = (Ok b, w') ->
  if b then last (stdout w') = Some "🎉 ICU build completed successfully!"
  else exists name,
         In name (List.map fst (Configure.steps ext self))
         /\ last (stdout w') = Some ("❌ Build failed at step: " +:+ name).
Proof.
  unfold Configure.build. intros H.
  do 5 (apply bind_inv in H as (? & ? & _ & H)).
  rewrite configure_run_steps_traced in H.
  match type of H with
  | fst ?t = _ => destruct t as [[r w2] called] eqn:Hrun
  end.
  cbn [fst] in H. injection H as -> ->.
  exact (run_traced_report _ _ _ _ _ _ Hrun).
Qed.

Lemma native_build_report ext self w b w' :
  Native.build ext self w = (Ok b, w') ->
  if b then last (stdout w') = Some "🎉 ICU native MSVC build completed successfully!"
  else exists name,
         In name (List.map fst (Native.steps ext self))
         /\ last (stdout w') = Some ("❌ Build failed at step: " +:+ name).
Proof.
  unfold Native.build. intros H.
  do 4 (apply bind_inv in H as (? & ? & _ & H)).
  rewrite native_run_steps_traced in H.
  match type of H with
  | fst ?t = _ => destruct t as [[r w2] called] eqn:Hrun
  end.
  cbn [fst] in H. injection H as -> ->.
  exact (run_traced_report _ _ _ _ _ _ Hrun).
Qed.

(** X18.  What the exit status of [main] means, in both scripts.  Status 0
    is reached only with the completion line as last line of output (or on
    a request for help, with nothing done on disk, network or toolchain);
    status 1 only with the failure report of one of the script's steps as
    last line; status 2 only for a rejected command line, with the world
    untouched.  [main] ends with no other status unless an exception
    escapes it. *)
Theorem exit_status_reports_the_outcome :
  forall ext proc argv w code w',
    (Configure.main ext proc argv w = (Ok code, w') ->
     (code = 0%Z
      /\ (last (stdout w') = Some "🎉 ICU build completed successfully!"
          \/ (fs w' = fs w /\ http_log w' = http_log w /\ proc_log w' = proc_log w)))
     \/ (code = 1%Z
         /\ exists self name,
              In name (List.map fst (Configure.steps ext self))
              /\ last (stdout w') = Some ("❌ Build failed at step: " +:+ name))
     \/ (code = 2%Z /\ w' = w))
    /\ (Native.main ext proc argv w = (Ok code, w') ->
        (code = 0%Z
         /\ (last (stdout w') = Some "🎉 ICU native MSVC build completed successfully!"
             \/ (fs w' = fs w /\ http_log w' = http_log w /\ proc_log w' = proc_log w)))
        \/ (code = 1%Z
            /\ exists self name,
                 In name (List.map fst (Native.steps ext self))
                 /\ last (stdout w') = Some ("❌ Build failed at step: " +:+ name))
        \/ (code = 2%Z /\ w' = w)).
Proof.
  intros ext proc argv w code w'. split.
  - unfold Configure.main.
    destruct (Argparse.parse_args Configure.parser Configure.parser_defaults argv)
      as [args|c] eqn:Hparse.
    + intros H. apply bind_inv in H as (b & w1 & Hbuild & H).
      injection H as <- <-. apply configure_build_report in Hbuild. destruct b.
      * left. split; [reflexivity|left; exact Hbuild].
      * right. left. split; [reflexivity|]. destruct Hbuild as (name & Hin & Hlast).
        eexists _, name. split; [exact Hin|exact Hlast].
    + intros [= <- <-]. destruct (parse_loop_exit _ _ _ _ _ _ Hparse) as [-> | ->].
      * left. split; [reflexivity|]. right. repeat split.
      * right. right. split; reflexivity.
  - unfold Native.main.
    destruct (Argparse.parse_args Native.parser Native.parser_defaults argv)
      as [args|c] eqn:Hparse.
    + intros H. apply bind_inv in H as (b & w1 & Hbuild & H).
      injection H as <- <-. apply native_build_report in Hbuild. destruct b.
      * left. split; [reflexivity|left; exact Hbuild].
      * right. left. split; [reflexivity|]. destruct Hbuild as (name & Hin & Hlast).
        eexists _, name. split; [exact Hin|exact Hlast].
    + intros [= <- <-]. destruct (parse_loop_exit _ _ _ _ _ _ Hparse) as [-> | ->].
      * left. split; [reflexivity|]. right. repeat split.
      * right. right. split; reflexivity.
Qed.

Lemma exit_status_reports_the_outcome_witness :
  let w' := snd (Configure.main Scenario.quiet Scenario.proc [] Scenario.bare) in
  (1 = 0
   /\ (last (stdout w') = Some "🎉 ICU build completed successfully!"
       \/ (fs w' = fs Scenario.bare /\ http_log w' = http_log Scenario.bare
           /\ proc_log w' = proc_log Scenario.bare)))%Z
  \/ (1 = 1
      /\ exists self name,
           In name (List.map fst (Configure.steps Scenario.quiet self))
           /\ last (stdout w') = Some ("❌ Build failed at step: " +:+ name))%Z
  \/ (1 = 2 /\ w' = Scenario.bare)%Z.
Proof.
  exact (proj1 (exit_status_reports_the_outcome Scenario.quiet Scenario.proc []
                  Scenario.bare 1%Z _)
           (run_eta (Configure.main Scenario.quiet Scenario.proc []) Scenario.bare 1%Z
              ltac:(vm_compute; reflexivity))).
Defined.

(** * What packaging copies *)

Lemma copy2_state ext src dst w u w' :
  copy2 ext src dst w = (Ok u, w') ->
  fs w !! norm dst = Some Dir ->
  exists c,
    lookup_path (fs w) src = Some (File c)
    /\ w' = set_fs (<[norm dst ++ [path_name (norm src)] := File c]> (fs w)) w.
Proof.
  intros H Hdst. apply faulting_inv in H.
  destruct (lookup_path (fs w) src) as [[c|]|]; try discriminate.
  unfold is_dir in H. rewrite (lookup_path_dir _ _ Hdst) in H.
  apply store_file_inv in H as [-> _]. exists c. split; [reflexivity|].
  now rewrite norm_snoc by apply path_name_plain.
Qed.

Lemma snoc_never_self {A} (p : list A) c : p <> p ++ [c].
Proof.
  intros H. apply (f_equal (@length A)) in H. rewrite length_app in H. cbn in H. lia.
Qed.

Lemma copied_into_ext f0 f1 dst srcs g :
  (forall l, In l srcs -> lookup_path f1 l = lookup_path f0 l) ->
  copied_into f1 dst srcs g = copied_into f0 dst srcs g.
Proof.
  unfold copied_into. revert g. induction srcs as [|l ls IH]; intros g H; [reflexivity|].
  cbn [fold_left]. rewrite (H l (or_introl eq_refl)). apply IH.
  intros l' Hl'. apply H. now right.
Qed.

(** A loop whose body copies its item into the directory [dst] leaves the
    tree [copied_into] describes, when no item lies inside [dst]. *)
Lemma copy_loop_state (body : path -> M unit) dst srcs :
  (forall l w u w1,
      body l w = (Ok u, w1) -> fs w !! norm dst = Some Dir ->
      exists c,
        lookup_path (fs w) l = Some (File c)
        /\ fs w1 = <[norm dst ++ [path_name (norm l)] := File c]> (fs w)) ->
  forall w u w',
    for_each srcs body w = (Ok u, w') ->
    fs w !! norm dst = Some Dir ->
    (forall l, In l srcs -> is_prefix (norm dst) (norm l) = false) ->
    fs w' = copied_into (fs w) dst srcs (fs w)
    /\ forall l, In l srcs -> exists c, lookup_path (fs w) l = Some (File c).
Proof.
  intros Hbody. induction srcs as [|l ls IH]; intros w u w' H Hdst Hout.
  - injection H as _ <-. split; [reflexivity|]. intros l [].
  - cbn [for_each] in H. apply bind_inv in H as (u1 & w1 & H1 & H).
    destruct (Hbody _ _ _ _ H1 Hdst) as (c & Hl & Hfs1).
    assert (Hsame : forall l', In l' ls -> lookup_path (fs w1) l' = lookup_path (fs w) l').
    { intros l' Hl'. unfold lookup_path. destruct (norm l') as [|d q] eqn:Hn; [reflexivity|].
      rewrite Hfs1. apply lookup_insert_ne. intros Heq.
      specialize (Hout l' (or_intror Hl')). rewrite Hn, <- Heq, is_prefix_app_l in Hout.
      discriminate. }
    destruct (IH w1 u w' H) as [Hfs Hfiles].
    + rewrite Hfs1. rewrite lookup_insert_ne; [exact Hdst|].
      intros Heq. symmetry in Heq. now apply snoc_never_self in Heq.
    + intros l' Hl'. apply Hout. now right.
    + split.
      * rewrite Hfs, (copied_into_ext (fs w)) by exact Hsame.
        unfold copied_into. cbn [fold_left]. now rewrite Hl, Hfs1.
      * intros l' [<-|Hl']; [eauto|].
        destruct (Hfiles l' Hl') as [c' Hc']. rewrite Hsame in Hc' by exact Hl'. eauto.
Qed.

(** Every copied file has its name in [dst], with the content of a source
    of that name. *)
Lemma copied_into_lookup f0 dst srcs g l :
  (forall l, In l srcs -> exists c, lookup_path f0 l = Some (File c)) ->
  In l srcs ->
  exists l' c,
    In l' srcs /\ path_name (norm l') = path_name (norm l)
    /\ lookup_path f0 l' = Some (File c)
    /\ copied_into f0 dst srcs g !! (norm dst ++ [path_name (norm l)]) = Some (File c).
Proof.
  unfold copied_into. induction srcs as [|x ls IH] using rev_ind; intros Hfiles Hin;
    [destruct Hin|].
  rewrite fold_left_app. cbn [fold_left].
  destruct (Hfiles x) as [cx Hx]; [apply in_or_app; right; now left|]. rewrite Hx.
  destruct (decide (path_name (norm x) = path_name (norm l))) as [Heq|Hne].
  - exists x, cx. rewrite Heq, lookup_insert_eq. repeat split; auto.
    apply in_or_app. right. now left.
  - apply in_app_or in Hin as [Hin|[->|[]]]; [|contradiction].
    destruct IH as (l' & c & Hl' & Hname & Hc & Hlook); [|exact Hin|].
    { intros l0 H0. apply Hfiles, in_or_app. now left. }
    exists l', c. repeat split; auto.
    + apply in_or_app. now left.
    + rewrite lookup_insert_ne; [exact Hlook|].
      intros H. apply app_inv_head in H. congruence.
Qed.

Lemma siblings_disjoint p a b k :
  a <> b -> is_prefix (p ++ [b]) k = true -> is_prefix (p ++ [a]) k = false.
Proof.
  intros Hne Hb. destruct (is_prefix (p ++ [a]) k) eqn:Ha; [exfalso|reflexivity].
  apply is_prefix_decompose in Ha, Hb. rewrite Ha in Hb at 1.
  rewrite <- !app_assoc in Hb. apply app_inv_head in Hb. cbn in Hb. congruence.
Qed.

Lemma archive_outside_directory ws name top :
  is_prefix ((ws ++ [name]) ++ [top]) (ws ++ [name +:+ ".zip"]) = false.
Proof.
  destruct (is_prefix _ _) eqn:H; [exfalso|reflexivity].
  apply is_prefix_app_weaken, is_prefix_same_parent in H.
  symmetry in H. apply append_never_shorter in H. discriminate.
Qed.

(** The files copied by a loop into [dst] are there at the end of
    packaging, when nothing after the loop writes below [dst]; [w0] is the
    world in which packaging started. *)
Lemma copies_arrive (body : path -> M unit) dst srcs w0 wa u wb w' :
  (forall l w u w1,
      body l w = (Ok u, w1) -> fs w !! norm dst = Some Dir ->
      exists c,
        lookup_path (fs w) l = Some (File c)
        /\ fs w1 = <[norm dst ++ [path_name (norm l)] := File c]> (fs w)) ->
  for_each srcs body wa = (Ok u, wb) ->
  fs wa !! norm dst = Some Dir ->
  (forall l, In l srcs ->
             canonical l = true /\ is_prefix (norm dst) l = false
             /\ fs wa !! l = fs w0 !! l) ->
  same_outside (fun k => is_prefix (norm dst) k = false) wb w' ->
  forall l,
    In l srcs ->
    exists l' c,
      In l' srcs /\ path_name l' = path_name l
      /\ fs w0 !! l' = Some (File c)
      /\ fs w' !! (norm dst ++ [path_name l]) = Some (File c).
Proof.
  intros Hbody Hloop Hdst Hsrcs Hafter l Hl.
  assert (Hnorm : forall l, In l srcs -> norm l = l).
  { intros l0 H0. destruct (Hsrcs l0 H0) as (Hc & _ & _).
    unfold canonical, path_eqb in Hc. destruct l0; [discriminate|].
    now apply bool_decide_eq_true in Hc. }
  destruct (copy_loop_state body dst srcs Hbody _ _ _ Hloop Hdst) as [Hfs Hfiles].
  { intros l0 H0. rewrite (Hnorm l0 H0). now destruct (Hsrcs l0 H0) as (_ & H & _). }
  destruct (copied_into_lookup (fs wa) dst srcs (fs wa) l Hfiles Hl)
    as (l' & c & Hl' & Hname & Hc & Hlook).
  exists l', c. rewrite (Hnorm l Hl), (Hnorm l' Hl') in Hname.
  rewrite (Hnorm l Hl) in Hlook.
  destruct (Hsrcs l' Hl') as (Hcanon & _ & Hsame).
  repeat split; auto.
  - rewrite <- Hsame, <- (canonical_lookup _ _ Hcanon). exact Hc.
  - rewrite Hafter, Hfs; [exact Hlook|].
    rewrite is_prefix_app_l. discriminate.
Qed.

(** Every copied file has its name in [dst], with the content of the last
    source of that name. *)
Lemma copied_into_lookup_last f0 dst srcs g l :
  (forall l, In l srcs -> exists c, lookup_path f0 l = Some (File c)) ->
  In l srcs ->
  exists pre l' post c,
    srcs = (pre ++ l' :: post)%list
    /\ path_name (norm l') = path_name (norm l)
    /\ (forall q, In q post -> path_name (norm q) <> path_name (norm l))
    /\ lookup_path f0 l' = Some (File c)
    /\ copied_into f0 dst srcs g !! (norm dst ++ [path_name (norm l)]) = Some (File c).
Proof.
  unfold copied_into. induction srcs as [|x ls IH] using rev_ind; intros Hfiles Hin;
    [destruct Hin|].
  rewrite fold_left_app. cbn [fold_left].
  destruct (Hfiles x) as [cx Hx]; [apply in_or_app; right; now left|]. rewrite Hx.
  destruct (decide (path_name (norm x) = path_name (norm l))) as [Heq|Hne].
  - exists ls, x, [], cx. rewrite Heq, lookup_insert_eq. repeat split; auto.
  - apply in_app_or in Hin as [Hin|[->|[]]]; [|contradiction].
    destruct IH as (pre & l' & post & c & Hsplit & Hname & Hlast & Hc & Hlook);
      [|exact Hin|].
    { intros l0 H0. apply Hfiles, in_or_app. now left. }
    exists pre, l', (post ++ [x])%list, c. repeat split; auto.
    + rewrite Hsplit, <- app_assoc. reflexivity.
    + intros q Hq. apply in_app_or in Hq as [Hq|[<-|[]]]; [now apply Hlast|exact Hne].
    + rewrite lookup_insert_ne; [exact Hlook|].
      intros H. apply app_inv_head in H. congruence.
Qed.

(** The files copied by a loop into [dst] are there at the end of
    packaging, each name with the content of the last source of that name,
    when nothing after the loop writes below [dst]; [w0] is the world in
    which packaging started. *)
Lemma copies_arrive_last (body : path -> M unit) dst srcs w0 wa u wb w' :
  (forall l w u w1,
      body l w = (Ok u, w1) -> fs w !! norm dst = Some Dir ->
      exists c,
        lookup_path (fs w) l = Some (File c)
        /\ fs w1 = <[norm dst ++ [path_name (norm l)] := File c]> (fs w)) ->
  for_each srcs body wa = (Ok u, wb) ->
  fs wa !! norm dst = Some Dir ->
  (forall l, In l srcs ->
             canonical l = true /\ is_prefix (norm dst) l = false
             /\ fs wa !! l = fs w0 !! l) ->
  same_outside (fun k => is_prefix (norm dst) k = false) wb w' ->
  forall l,
    In l srcs ->
    exists pre l' post c,
      srcs = (pre ++ l' :: post)%list
      /\ path_name l' = path_name l
      /\ (forall q, In q post -> path_name q <> path_name l)
      /\ fs w0 !! l' = Some (File c)
      /\ fs w' !! (norm dst ++ [path_name l]) = Some (File c).
Proof.
  intros Hbody Hloop Hdst Hsrcs Hafter l Hl.
  assert (Hnorm : forall l, In l srcs -> norm l = l).
  { intros l0 H0. destruct (Hsrcs l0 H0) as (Hc & _ & _).
    unfold canonical, path_eqb in Hc. destruct l0; [discriminate|].
    now apply bool_decide_eq_true in Hc. }
  destruct (copy_loop_state body dst srcs Hbody _ _ _ Hloop Hdst) as [Hfs Hfiles].
  { intros l0 H0. rewrite (Hnorm l0 H0). now destruct (Hsrcs l0 H0) as (_ & H & _). }
  destruct (copied_into_lookup_last (fs wa) dst srcs (fs wa) l Hfiles Hl)
    as (pre & l' & post & c & Hsplit & Hname & Hlast & Hc & Hlook).
  assert (Hl' : In l' srcs) by (rewrite Hsplit; apply in_or_app; right; now left).
  exists pre, l', post, c. rewrite (Hnorm l Hl), (Hnorm l' Hl') in Hname.
  rewrite (Hnorm l Hl) in Hlook.
  destruct (Hsrcs l' Hl') as (Hcanon & _ & Hsame).
  repeat split; auto.
  - intros q Hq. specialize (Hlast q Hq).
    rewrite (Hnorm l Hl), (Hnorm q) in Hlast; [exact Hlast|].
    rewrite Hsplit. apply in_or_app. right. now right.
  - rewrite <- Hsame, <- (canonical_lookup _ _ Hcanon). exact Hc.
  - rewrite Hafter, Hfs; [exact Hlook|].
    rewrite is_prefix_app_l. discriminate.
Qed.

Lemma copy2_body ext dst l w u w1 :
  copy2 ext l dst w = (Ok u, w1) -> fs w !! norm dst = Some Dir ->
  exists c,
    lookup_path (fs w) l = Some (File c)
    /\ fs w1 = <[norm dst ++ [path_name (norm l)] := File c]> (fs w).
Proof.
  intros H Hdst. destruct (copy2_state _ _ _ _ _ _ H Hdst) as (c & Hc & ->). eauto.
Qed.

(** From a run [H : m w = (r, w')], that [w'] is [w] outside [S]. *)
Ltac outside_along H S side Hs :=
  match type of H with
  | ?m ?w = (_, ?w') =>
      assert (Hs : same_outside S w w')
        by (refine ((_ : respects (same_outside S) m) _ _ _ H); disk_footprint side)
  end.

(** Proves that a path built from the artifact directory normalises to a
    key at or below that directory. *)
Ltac below_artifact_dir Hdir :=
  cbv beta;
  repeat (rewrite norm_snoc by first [assumption | plain_string]);
  rewrite ?Hdir; rewrite <- ?app_assoc;
  first
    [ apply is_prefix_app_l
    | apply is_prefix_refl
    | let k := fresh "k" in
      let Hk := fresh "Hk" in
      intros k Hk; rewrite <- ?app_assoc in Hk;
      first [exact Hk | eapply is_prefix_app_weaken, Hk] ].

(** Proves that a path of the package outside the entry [top] of the
    artifact directory normalises to a key that is not below [top]. *)
Ltac outside_entry Hdir :=
  cbv beta;
  repeat (rewrite norm_snoc by first [assumption | plain_string]);
  rewrite ?Hdir;
  first
    [ apply archive_outside_directory
    | eapply siblings_disjoint;
      [|first [apply is_prefix_refl | apply is_prefix_app_l]];
      discriminate
    | let k := fresh "k" in
      let Hk := fresh "Hk" in
      intros k Hk; eapply siblings_disjoint;
      [|first [exact Hk | eapply is_prefix_app_weaken, Hk]]; discriminate ].

Lemma outside_trans S w1 w2 w3 :
  same_outside S w1 w2 -> same_outside S w2 w3 -> same_outside S w1 w3.
Proof. intros H1 H2. etransitivity; eassumption. Qed.

Lemma unchanged_outside_dir dir w w' :
  same_outside (fun k => is_prefix dir k = true) w w' ->
  forall l, is_prefix dir l = false -> fs w' !! l = fs w !! l.
Proof. intros H l Hl. apply H. congruence. Qed.

Lemma not_below_entry dir top l :
  is_prefix dir l = false -> is_prefix (dir ++ [top]) l = false.
Proof.
  intros H. destruct (is_prefix (dir ++ [top]) l) eqn:E; [|reflexivity].
  apply is_prefix_app_weaken in E. congruence.
Qed.

(** From a run [H : m w = (r, w')], that [w'] is [w] outside the
    artifact directory [dir]. *)
Ltac below_along H dir Hdir Hs :=
  outside_along H (fun k : path => is_prefix dir k = true) ltac:(below_artifact_dir Hdir) Hs.

(** From a run [H : m w = (r, w')], that [w'] is [w] at and below the
    entry [dst] of the artifact directory. *)
Ltac entry_along H dst Hdir Hs :=
  outside_along H (fun k : path => is_prefix (norm dst) k = false)
    ltac:(outside_entry Hdir) Hs.

(** X19.  The project-file-driven package holds what was located.  When
    [package_artifacts] returns [True] and the located files lie outside
    the artifact directory, every located library has its name in [lib],
    every located executable in [bin] and every located data file in
    [data], with the content that the last located file of that name had
    when packaging started: of two located files of one name, the later
    one overwrites the earlier. *)
Theorem native_package_holds_the_last_located :
  forall ext self w w',
    let dir := norm (Native.workspace self) ++ [Native.artifact_name (Native.config self)] in
    let located :=
      [ ("lib", Locator.found_in (fs w) ".lib" (Native.possible_paths self));
        ("bin", Locator.found_in (fs w) ".exe" (Native.possible_paths self));
        ("data", Locator.found_in (fs w) ".dat" (Native.data_paths self)) ] in
    Native.package_artifacts ext self w = (Ok true, w') ->
    (forall sub srcs l, In (sub, srcs) located -> In l srcs -> is_prefix dir l = false) ->
    forall sub srcs l,
      In (sub, srcs) located -> In l srcs ->
      exists pre l' post c,
        srcs = (pre ++ l' :: post)%list
        /\ path_name l' = path_name l
        /\ (forall q, In q post -> path_name q <> path_name l)
        /\ fs w !! l' = Some (File c)
        /\ fs w' !! (dir ++ [sub; path_name l]) = Some (File c).
Proof.
  intros ext self w w' dir located H Hout sub srcs l Hsub Hl. subst located.
  destruct (native_artifact_name_plain (Native.config self)) as [Hn Hz].
  assert (Hdir : norm (Native.artifact_dir self) = dir) by now apply norm_snoc.
  pose proof (fun l H => proj1 (in_found_in (fs w) ".lib" (Native.possible_paths self) l H))
    as Hlibs.
  pose proof (fun l H => proj1 (in_found_in (fs w) ".exe" (Native.possible_paths self) l H))
    as Hexes.
  pose proof (fun l H => proj1 (in_found_in (fs w) ".dat" (Native.data_paths self) l H))
    as Hdats.
  unfold Native.package_artifacts in H.
  apply bind_inv in H as (u & w1 & Hp & H).
  apply bind_inv in H as (found & w2 & Hloc & H).
  assert (Hw1 : fs w1 = fs w) by (injection Hp as _ <-; reflexivity).
  destruct (locate_emits (Native.possible_paths self) (Native.data_paths self) w1)
    as [lines Hemits].
  unfold Native.locate_build_artifacts in Hloc. rewrite Hemits, Hw1 in Hloc. clear Hemits.
  remember (Locator.found_in (fs w) ".lib" (Native.possible_paths self)) as libs.
  remember (Locator.found_in (fs w) ".exe" (Native.possible_paths self)) as exes.
  remember (Locator.found_in (fs w) ".dat" (Native.data_paths self)) as dats.
  assert (Hw2 : fs w2 = fs w) by (injection Hloc as _ <-; exact Hw1).
  injection Hloc as <- _.
  cbn [Native.lib_files Native.exe_files Native.dat_files] in H.
  assert (H' : (f <- get_fs ;;
                when (path_exists f (Native.artifact_dir self))
                  (rmtree ext (Native.artifact_dir self)) ;;;
                mkdir ext (Native.artifact_dir self) ;;;
                mkdir ext (Native.artifact_dir self // "lib") ;;;
                mkdir ext (Native.artifact_dir self // "include") ;;;
                mkdir ext (Native.artifact_dir self // "bin") ;;;
                mkdir ext (Native.artifact_dir self // "data") ;;;
                print ("📚 Copying " +:+ pretty (length libs) +:+ " library files...") ;;;
                for_each libs
                  (fun lib_file =>
                     copy2 ext lib_file (Native.artifact_dir self // "lib") ;;;
                     size <- stat_size lib_file ;;
                     print ("  " +:+ path_name lib_file +:+ " (" +:+ fmt_mb ext size
                            +:+ " MB)")) ;;;
                mkdir ext (Native.artifact_dir self // "include" // "unicode") ;;;
                for_each (Native.header_paths self)
                  (fun header_path =>
                     f <- get_fs ;;
                     when (path_exists f header_path)
                       (print ("📄 Copying headers from: " +:+ str_of_path header_path) ;;;
                        for_each (glob f header_path ".h")
                          (fun header_file =>
                             copy2 ext header_file
                               (Native.artifact_dir self // "include" // "unicode")))) ;;;
                when (negb (bool_decide (exes = [])))
                  (print ("⚙️  Copying " +:+ pretty (length exes)
                          +:+ " executable files...") ;;;
                   for_each exes
                     (fun exe_file => copy2 ext exe_file (Native.artifact_dir self // "bin"))) ;;;
                (if negb (bool_decide (dats = [])) then
                   print ("📊 Copying " +:+ pretty (length dats) +:+ " data files...") ;;;
                   for_each dats
                     (fun dat_file =>
                        size <- stat_size dat_file ;;
                        print ("  " +:+ path_name dat_file +:+ " (" +:+ fmt_mb ext size
                               +:+ " MB)") ;;;
                        copy2 ext dat_file (Native.artifact_dir self // "data"))
                 else print "⚠️  Warning: No .dat files found - ICU data may be incomplete") ;;;
                write_file ext (Native.artifact_dir self // "BUILD_INFO.txt")
                  (Native.build_info ext self) ;;;
                zip_tree ext
                  (Native.workspace self
                   // (Native.artifact_name (Native.config self) +:+ ".zip"))
                  (Native.artifact_dir self) ;;;
                print ("✅ Artifacts packaged: "
                       +:+ str_of_path
                             (Native.workspace self
                              // (Native.artifact_name (Native.config self) +:+ ".zip"))) ;;;
                ret true) w2 = (Ok true, w')).
  { destruct libs; [|exact H].
    apply bind_inv in H as (u' & w3 & _ & H). discriminate H. }
  clear H. rename H' into H.
  apply bind_inv in H as (f & w3 & Hget & H). injection Hget as <- <-.
  apply bind_inv in H as (u3 & w3 & Hclean & H).
  apply bind_inv in H as (u4 & w4 & Hm0 & H).
  apply bind_inv in H as (u5 & w5 & Hm1 & H).
  apply bind_inv in H as (u6 & w6 & Hm2 & H).
  apply bind_inv in H as (u7 & w7 & Hm3 & H).
  apply bind_inv in H as (u8 & w8 & Hm4 & H).
  apply bind_inv in H as (u9 & w9 & Hp2 & H).
  apply bind_inv in H as (u10 & w10 & HloopL & H).
  apply bind_inv in H as (u11 & w11 & Hmu & H).
  apply bind_inv in H as (u12 & w12 & Hhead & H).
  apply bind_inv in H as (u13 & w13 & Hexe & H).
  apply bind_inv in H as (u14 & w14 & Hdat & H).
  (* the three directories exist once made, and stay *)
  pose proof (mkdir_inv _ _ _ _ _ Hm1) as Dlib.
  pose proof (mkdir_inv _ _ _ _ _ Hm3) as Dbin.
  pose proof (mkdir_inv _ _ _ _ _ Hm4) as Ddata.
  kept_along Hm2 K2. kept_along Hm3 K3. kept_along Hm4 K4. kept_along Hp2 K5.
  kept_along HloopL K6. kept_along Hmu K7. kept_along Hhead K8. kept_along Hexe K9.
  (* nothing outside the artifact directory changes on the way *)
  below_along Hclean dir Hdir B0. below_along Hm0 dir Hdir B1.
  below_along Hm1 dir Hdir B2. below_along Hm2 dir Hdir B3.
  below_along Hm3 dir Hdir B4. below_along Hm4 dir Hdir B5.
  below_along Hp2 dir Hdir B6. below_along HloopL dir Hdir B7.
  below_along Hmu dir Hdir B8. below_along Hhead dir Hdir B9.
  below_along Hexe dir Hdir B10.
  assert (B9' : same_outside (fun k => is_prefix dir k = true) w2 w9).
  { eapply outside_trans; [exact B0|]. eapply outside_trans; [exact B1|].
    eapply outside_trans; [exact B2|]. eapply outside_trans; [exact B3|].
    eapply outside_trans; [exact B4|]. eapply outside_trans; [exact B5|exact B6]. }
  assert (B12 : same_outside (fun k => is_prefix dir k = true) w2 w12).
  { eapply outside_trans; [exact B9'|]. eapply outside_trans; [exact B7|].
    eapply outside_trans; [exact B8|exact B9]. }
  assert (B13 : same_outside (fun k => is_prefix dir k = true) w2 w13).
  { eapply outside_trans; [exact B12|exact B10]. }
  cbn [In] in Hsub. destruct Hsub as [[= <- <-]|[[= <- <-]|[[= <- <-]|[]]]].
  - (* libraries *)
    entry_along Hmu (Native.artifact_dir self // "lib") Hdir A1.
    entry_along Hhead (Native.artifact_dir self // "lib") Hdir A2.
    entry_along Hexe (Native.artifact_dir self // "lib") Hdir A3.
    entry_along Hdat (Native.artifact_dir self // "lib") Hdir A4.
    entry_along H (Native.artifact_dir self // "lib") Hdir A5.
    change (dir ++ ["lib"; path_name l]) with (dir ++ ["lib"] ++ [path_name l]).
    rewrite app_assoc, <- Hdir, <- (norm_snoc _ "lib") by plain_string.
    eapply (copies_arrive_last _ _ _ w w9 _ w10 w'); [|exact HloopL| | | |exact Hl].
    + intros l0 wa ua wb Hb Hd. apply bind_inv in Hb as (ub & wc & Hcopy & Hb).
      destruct (copy2_body _ _ _ _ _ _ Hcopy Hd) as (c & Hc & Hfs).
      exists c. split; [exact Hc|]. rewrite <- Hfs.
      refine ((_ : respects same_fs _) _ _ _ Hb). footprint.
    + eapply kept_dir; [exact K5|]. eapply kept_dir; [exact K4|].
      eapply kept_dir; [exact K3|]. eapply kept_dir; [exact K2|]. exact Dlib.
    + intros l0 H0. split; [now apply Hlibs|].
      assert (Hl0 : is_prefix dir l0 = false) by (eapply Hout; [now left|exact H0]).
      split.
      * rewrite norm_snoc, Hdir by plain_string. now apply not_below_entry.
      * rewrite <- Hw2. now apply (unchanged_outside_dir dir).
    + eapply outside_trans; [exact A1|]. eapply outside_trans; [exact A2|].
      eapply outside_trans; [exact A3|]. eapply outside_trans; [exact A4|exact A5].
  - (* executables *)
    destruct exes as [|e0 es]; [destruct Hl|].
    cbn [bool_decide decide_rel negb when] in Hexe.
    rewrite bool_decide_false in Hexe by discriminate. cbn [negb when] in Hexe.
    apply bind_inv in Hexe as (ue & we & Hpe & HloopE).
    entry_along Hdat (Native.artifact_dir self // "bin") Hdir A4.
    entry_along H (Native.artifact_dir self // "bin") Hdir A5.
    kept_along Hpe K10. below_along Hpe dir Hdir B11.
    change (dir ++ ["bin"; path_name l]) with (dir ++ ["bin"] ++ [path_name l]).
    rewrite app_assoc, <- Hdir, <- (norm_snoc _ "bin") by plain_string.
    eapply (copies_arrive_last _ _ _ w we _ w13 w'); [|exact HloopE| | | |exact Hl].
    + intros l0 wa ua wb Hb Hd. exact (copy2_body _ _ _ _ _ _ Hb Hd).
    + eapply kept_dir; [exact K10|]. eapply kept_dir; [exact K8|].
      eapply kept_dir; [exact K7|]. eapply kept_dir; [exact K6|].
      eapply kept_dir; [exact K5|]. eapply kept_dir; [exact K4|]. exact Dbin.
    + intros l0 H0. split; [now apply Hexes|].
      assert (Hl0 : is_prefix dir l0 = false)
        by (eapply Hout; [right; now left|exact H0]).
      split.
      * rewrite norm_snoc, Hdir by plain_string. now apply not_below_entry.
      * rewrite <- Hw2. apply (unchanged_outside_dir dir); [|exact Hl0].
        eapply outside_trans; [exact B12|exact B11].
    + eapply outside_trans; [exact A4|exact A5].
  - (* data files *)
    destruct dats as [|d0 ds]; [destruct Hl|].
    rewrite bool_decide_false in Hdat by discriminate. cbn [negb] in Hdat.
    apply bind_inv in Hdat as (ud & wd & Hpd & HloopD).
    entry_along H (Native.artifact_dir self // "data") Hdir A5.
    kept_along Hpd K10. below_along Hpd dir Hdir B11.
    change (dir ++ ["data"; path_name l]) with (dir ++ ["data"] ++ [path_name l]).
    rewrite app_assoc, <- Hdir, <- (norm_snoc _ "data") by plain_string.
    eapply (copies_arrive_last _ _ _ w wd _ w14 w'); [|exact HloopD| | | |exact Hl].
    + intros l0 wa ua wb Hb Hd. apply bind_inv in Hb as (size & wc & Hsize & Hb).
      apply bind_inv in Hb as (up & wp & Hpr & Hb).
      assert (Hsame : fs wp = fs wa).
      { transitivity (fs wc).
        - refine ((_ : respects same_fs _) _ _ _ Hpr). footprint.
        - refine ((_ : respects same_fs _) _ _ _ Hsize). footprint. }
      rewrite <- Hsame in Hd |- *. exact (copy2_body _ _ _ _ _ _ Hb Hd).
    + eapply kept_dir; [exact K10|]. eapply kept_dir; [exact K9|].
      eapply kept_dir; [exact K8|]. eapply kept_dir; [exact K7|].
      eapply kept_dir; [exact K6|]. eapply kept_dir; [exact K5|]. exact Ddata.
    + intros l0 H0. split; [now apply Hdats|].
      assert (Hl0 : is_prefix dir l0 = false)
        by (eapply Hout; [right; right; now left|exact H0]).
      split.
      * rewrite norm_snoc, Hdir by plain_string. now apply not_below_entry.
      * rewrite <- Hw2. apply (unchanged_outside_dir dir); [|exact Hl0].
        eapply outside_trans; [exact B13|exact B11].
    + exact A5.
Qed.

Lemma native_package_holds_the_last_located_witness :
  let l : path := ["W"; "icu-release-release-77-1"; "icu4c"; "bin64"; "icuuc.lib"] in
  let srcs := Locator.found_in (fs ScenarioTwice.one_name_twice) ".lib"
                (Native.possible_paths Scenario.native_builder) in
  exists pre l' post c,
    srcs = (pre ++ l' :: post)%list
    /\ path_name l' = path_name l
    /\ (forall q, In q post -> path_name q <> path_name l)
    /\ fs ScenarioTwice.one_name_twice !! l' = Some (File c)
    /\ fs (snd (Native.package_artifacts Scenario.quiet Scenario.native_builder
                  ScenarioTwice.one_name_twice))
       !! ((norm (Native.workspace Scenario.native_builder)
            ++ [Native.artifact_name (Native.config Scenario.native_builder)])
           ++ ["lib"; path_name l])
       = Some (File c).
Proof.
  refine (native_package_holds_the_last_located Scenario.quiet Scenario.native_builder
            ScenarioTwice.one_name_twice _
            (run_eta (Native.package_artifacts Scenario.quiet Scenario.native_builder)
               ScenarioTwice.one_name_twice true ltac:(vm_compute; reflexivity))
            _ "lib" _ ["W"; "icu-release-release-77-1"; "icu4c"; "bin64"; "icuuc.lib"]
            (or_introl eq_refl) ltac:(vm_compute; left; reflexivity)).
  intros sub srcs l Hsub Hl. vm_compute in Hsub.
  destruct Hsub as [[= <- <-]|[[= <- <-]|[[= <- <-]|[]]]]; vm_compute in Hl.
  - destruct Hl as [<-|[<-|[]]]; vm_compute; reflexivity.
  - destruct Hl.
  - destruct Hl.
Defined.

(** In that tree the packaged library is the one found last. *)
Lemma the_later_library_is_packaged :
  Locator.found_in (fs ScenarioTwice.one_name_twice) ".lib"
    (Native.possible_paths Scenario.native_builder)
  = [ ["W"; "icu-release-release-77-1"; "icu4c"; "bin64"; "icuuc.lib"];
      ["W"; "icu-release-release-77-1"; "icu4c"; "lib64"; "icuuc.lib"] ]
  /\ fs (snd (Native.package_artifacts Scenario.quiet Scenario.native_builder
                ScenarioTwice.one_name_twice))
     !! ["W"; "icu-x64-Release"; "lib"; "icuuc.lib"] = Some (File "second").
Proof. vm_compute. split; reflexivity. Qed.

Lemma is_prefix_trans p q r :
  is_prefix p q = true -> is_prefix q r = true -> is_prefix p r = true.
Proof.
  intros H1 H2. apply is_prefix_decompose in H1, H2. rewrite H2, H1, <- app_assoc.
  apply is_prefix_app_l.
Qed.

Lemma ancestors_disjoint p a b k :
  a <> b -> is_prefix k (p ++ [b]) = true -> is_prefix (p ++ [a]) k = false.
Proof.
  intros Hne Hk. destruct (is_prefix (p ++ [a]) k) eqn:Ha; [exfalso|reflexivity].
  apply Hne. eapply is_prefix_same_parent, is_prefix_trans; eassumption.
Qed.

(** A directory [p] apart from [dir] (neither inside nor above it) has
    its entries apart from [dir] as well. *)
Lemma entries_apart dir p n :
  is_prefix dir p = false -> is_prefix p dir = false ->
  ~ (is_prefix dir (p ++ [n]) = true \/ is_prefix (p ++ [n]) dir = true).
Proof.
  intros H1 H2 [H|H].
  - apply is_prefix_snoc in H as [H| ->]; [congruence|].
    rewrite is_prefix_app_l in H2. discriminate.
  - apply is_prefix_app_weaken in H. congruence.
Qed.

Lemma canonical_split l : canonical l = true -> l = path_parent l ++ [path_name l].
Proof.
  intros H. unfold path_parent, path_name. apply app_removelast_last.
  now destruct l.
Qed.

Lemma glob_same f g p suf l :
  g !! norm p = f !! norm p -> g !! l = f !! l ->
  In l (glob f p suf) -> In l (glob g p suf).
Proof.
  intros Hp Hl. rewrite !in_glob. unfold is_dir, lookup_path.
  destruct (norm p); rewrite ?Hp, ?Hl; tauto.
Qed.

(** Proves that a path built from the artifact directory normalises to a
    key inside or above that directory. *)
Ltac near_artifact_dir Hdir :=
  cbv beta;
  repeat (rewrite norm_snoc by first [assumption | plain_string]);
  rewrite ?Hdir; rewrite <- ?app_assoc;
  first
    [ left; apply is_prefix_app_l
    | left; apply is_prefix_refl
    | let k := fresh "k" in
      let Hk := fresh "Hk" in
      intros k [Hk|Hk];
      [ left; eapply is_prefix_app_weaken, Hk
      | apply is_prefix_snoc in Hk as [Hk| ->];
        [right; exact Hk | left; apply is_prefix_app_l] ]
    | let k := fresh "k" in
      let Hk := fresh "Hk" in
      intros k Hk; left; rewrite <- ?app_assoc in Hk;
      first [exact Hk | eapply is_prefix_app_weaken, Hk] ].

(** Like [outside_entry], with the directories [shutil.copytree] makes. *)
Ltac outside_entry_tree Hdir :=
  first
    [ outside_entry Hdir
    | cbv beta;
      repeat (rewrite norm_snoc by first [assumption | plain_string]);
      rewrite ?Hdir;
      let k := fresh "k" in
      let Hk := fresh "Hk" in
      intros k [Hk|Hk];
      [ eapply siblings_disjoint; [|exact Hk]; discriminate
      | eapply ancestors_disjoint; [|exact Hk]; discriminate ] ].

Lemma kept_makedirs p : respects kinds_kept (makedirs p).
Proof.
  unfold makedirs. generalize (norm p). generalize (@nil string).
  intros made todo. revert made. induction todo as [|c rest IH]; intros made;
    cbn [makedirs_from].
  - apply respects_ret; typeclasses eauto.
  - apply respects_bind; try typeclasses eauto; [|intros _; apply IH].
    intros w r w'. unfold lookup_path.
    destruct (norm (made // c)) as [|d q] eqn:Hn; [inv_result; reflexivity|].
    destruct (fs w !! (d :: q)) as [[|]|] eqn:Hk; inv_result; try reflexivity.
    apply kept_insert. now rewrite Hk.
Qed.

Lemma kept_copytree ext src dst : respects kinds_kept (copytree ext src dst).
Proof.
  assert (Hentry : forall k, respects kinds_kept (copytree_entry ext src dst k)).
  { intros k w r w'. unfold copytree_entry. cbv zeta.
    destruct (lookup_path (fs w) k) as [[c|]|].
    - match goal with
      | |- context [let (_, _) := ?t in _] => destruct t as [[u|e] w1] eqn:H1
      end; inv_result.
      all: refine ((_ : respects kinds_kept _) _ _ _ H1).
      all: apply respects_bind; try typeclasses eauto; [apply kept_makedirs|].
      all: intros ?; apply respects_faulting; try typeclasses eauto;
           apply kept_store_file.
    - match goal with
      | |- context [let (_, _) := ?t in _] => destruct t as [[u|e] w1] eqn:H1
      end; inv_result.
      all: exact (kept_makedirs _ _ _ _ H1).
    - inv_result. reflexivity. }
  assert (Hentries : forall ks, respects kinds_kept (copytree_entries ext src dst ks)).
  { induction ks as [|k ks IH]; cbn [copytree_entries].
    - apply respects_ret; typeclasses eauto.
    - apply respects_bind; try typeclasses eauto; [apply Hentry|].
      intros ok1. apply respects_bind; try typeclasses eauto; [apply IH|].
      intros ok2. apply respects_ret; typeclasses eauto. }
  unfold copytree. apply respects_faulting; try typeclasses eauto.
  apply respects_bind; try typeclasses eauto; [apply kept_of_fs, fs_get_fs|].
  intros f. destruct (lookup_path f src) as [[|]|];
    try (apply respects_raise; typeclasses eauto).
  apply respects_bind; try typeclasses eauto; [apply kept_makedirs|].
  intros _. apply respects_bind; try typeclasses eauto; [apply Hentries|].
  intros [|]; [apply respects_ret|apply respects_raise]; typeclasses eauto.
Qed.

(** X20.  The configure-and-make package holds what was installed.  When
    [package_artifacts] returns [True], every [*.lib] entry of the
    install prefix's [lib] directory has its name in the package's [lib],
    and every [*.exe] entry of its [bin] directory in the package's
    [bin], with the content an entry of that name had when packaging
    started, provided the directory copied from is neither inside nor
    above the artifact directory. *)
Theorem configure_package_holds_what_was_installed :
  forall ext self w w',
    let dir := norm (Configure.workspace self) ++ [Configure.artifact_name self] in
    Configure.package_artifacts ext self w = (Ok true, w') ->
    forall sub suf,
      In (sub, suf) [("lib", ".lib"); ("bin", ".exe")] ->
      let src := Configure.build_dir self // sub in
      is_prefix dir (norm src) = false -> is_prefix (norm src) dir = false ->
      forall l,
        In l (glob (fs w) src suf) ->
        exists l' c,
          In l' (glob (fs w) src suf) /\ path_name l' = path_name l
          /\ fs w !! l' = Some (File c)
          /\ fs w' !! (dir ++ [sub; path_name l]) = Some (File c).
Proof.
  intros ext self w w' dir H sub suf Hsub src Hout1 Hout2 l Hl.
  destruct (configure_artifact_name_plain self) as [Hn Hz].
  assert (Hdir : norm (Configure.artifact_dir self) = dir) by now apply norm_snoc.
  set (near := fun k : path => is_prefix dir k = true \/ is_prefix k dir = true).
  (* the entries of the directory copied from are apart from the package *)
  assert (Hsrc : ~ near (norm src)) by (intros [E|E]; congruence).
  assert (Hentry : forall g l0, In l0 (glob g src suf) ->
                                canonical l0 = true /\ ~ near l0).
  { intros g l0 H0. apply in_glob in H0 as (_ & Hc & _ & Hparent & _).
    split; [exact Hc|]. rewrite (canonical_split l0 Hc), Hparent.
    now apply entries_apart. }
  assert (Hglob : forall w1 w2 l0,
             same_outside near w1 w2 ->
             In l0 (glob (fs w1) src suf) <-> In l0 (glob (fs w2) src suf)).
  { intros w1 w2 l0 Hsame. split; intros H0; pose proof (Hentry _ _ H0) as [_ Hfar].
    - eapply glob_same; [| |exact H0]; now apply Hsame.
    - eapply glob_same; [| |exact H0]; symmetry; now apply Hsame. }
  unfold Configure.package_artifacts in H. cbv zeta in H.
  apply bind_inv in H as (u & w1 & Hp & H).
  apply bind_inv in H as (f & w2 & Hget & H). injection Hget as <- <-.
  apply bind_inv in H as (u3 & w3 & Hclean & H).
  apply bind_inv in H as (u4 & w4 & Hm0 & H).
  apply bind_inv in H as (u5 & w5 & Hm1 & H).
  apply bind_inv in H as (u6 & w6 & Hm2 & H).
  apply bind_inv in H as (u7 & w7 & Hm3 & H).
  apply bind_inv in H as (f & w8 & Hget & H). injection Hget as <- <-.
  apply bind_inv in H as (u8 & w8 & HsegL & H).
  apply bind_inv in H as (f & w9 & Hget & H). injection Hget as <- <-.
  apply bind_inv in H as (u9 & w9 & HsegI & H).
  apply bind_inv in H as (f & w10 & Hget & H). injection Hget as <- <-.
  apply bind_inv in H as (u10 & w10 & HsegB & H).
  apply bind_inv in H as (u11 & w11 & HsegD & H).
  unfold Configure.copy_data_files in HsegD.
  pose proof (mkdir_inv _ _ _ _ _ Hm1) as Dlib.
  pose proof (mkdir_inv _ _ _ _ _ Hm3) as Dbin.
  kept_along Hm2 K2. kept_along Hm3 K3.
  outside_along Hp near ltac:(near_artifact_dir Hdir) B0.
  outside_along Hclean near ltac:(near_artifact_dir Hdir) B1.
  outside_along Hm0 near ltac:(near_artifact_dir Hdir) B2.
  outside_along Hm1 near ltac:(near_artifact_dir Hdir) B3.
  outside_along Hm2 near ltac:(near_artifact_dir Hdir) B4.
  outside_along Hm3 near ltac:(near_artifact_dir Hdir) B5.
  assert (B7 : same_outside near w w7).
  { eapply outside_trans; [exact B0|]. eapply outside_trans; [exact B1|].
    eapply outside_trans; [exact B2|]. eapply outside_trans; [exact B3|].
    eapply outside_trans; [exact B4|exact B5]. }
  cbn [In] in Hsub. destruct Hsub as [[= <- <-]|[[= <- <-]|[]]]; subst src.
  - (* libraries *)
    entry_along HsegB (Configure.artifact_dir self // "lib") Hdir A3.
    entry_along HsegD (Configure.artifact_dir self // "lib") Hdir A4.
    entry_along H (Configure.artifact_dir self // "lib") Hdir A5.
    outside_along HsegI (fun k : path =>
                           is_prefix (norm (Configure.artifact_dir self // "lib")) k = false)
      ltac:(outside_entry_tree Hdir) A2.
    pose proof (proj1 (Hglob _ _ _ B7) Hl) as Hl7.
    assert (Hex : path_exists (fs w7) (Configure.build_dir self // "lib") = true).
    { apply in_glob in Hl7 as (Hd & _). unfold is_dir in Hd. unfold path_exists.
      now destruct (lookup_path (fs w7) (Configure.build_dir self // "lib")) as [[|]|]. }
    rewrite Hex in HsegL. cbn [when] in HsegL.
    apply bind_inv in HsegL as (up & wp & Hpl & HloopL).
    kept_along Hpl K4. outside_along Hpl near ltac:(near_artifact_dir Hdir) B8.
    change (dir ++ ["lib"; path_name l]) with (dir ++ ["lib"] ++ [path_name l]).
    rewrite app_assoc, <- Hdir, <- (norm_snoc _ "lib") by plain_string.
    destruct (copies_arrive _ _ _ w wp _ w8 w'
                (fun l0 wa ua wb Hb Hd => copy2_body _ _ _ _ _ _ Hb Hd) HloopL)
      with (l := l) as (l' & c & Hl' & Hrest).
    + eapply kept_dir; [exact K4|]. eapply kept_dir; [exact K3|].
      eapply kept_dir; [exact K2|exact Dlib].
    + intros l0 H0. destruct (Hentry _ _ H0) as [Hc Hfar]. split; [exact Hc|]. split.
      * rewrite norm_snoc, Hdir by plain_string. apply not_below_entry.
        destruct (is_prefix dir l0) eqn:E; [exfalso; apply Hfar; now left|reflexivity].
      * apply (outside_trans _ _ _ _ B7 B8). exact Hfar.
    + eapply outside_trans; [exact A2|]. eapply outside_trans; [exact A3|].
      eapply outside_trans; [exact A4|exact A5].
    + exact Hl7.
    + exists l', c. split; [|exact Hrest]. apply (Hglob _ _ _ B7). exact Hl'.
  - (* executables *)
    entry_along HsegD (Configure.artifact_dir self // "bin") Hdir A4.
    entry_along H (Configure.artifact_dir self // "bin") Hdir A5.
    outside_along HsegL near ltac:(near_artifact_dir Hdir) B8.
    outside_along HsegI near ltac:(near_artifact_dir Hdir) B9.
    kept_along HsegL K4.
    assert (K5 : kinds_kept w8 w9).
    { refine ((_ : respects kinds_kept _) _ _ _ HsegI).
      apply respects_when; try typeclasses eauto.
      apply respects_bind; try typeclasses eauto; [apply kept_of_fs, fs_print|].
      intros _. apply kept_copytree. }
    assert (B10 : same_outside near w w9).
    { eapply outside_trans; [exact B7|]. eapply outside_trans; [exact B8|exact B9]. }
    pose proof (proj1 (Hglob _ _ _ B10) Hl) as Hl9.
    assert (Hex : path_exists (fs w9) (Configure.build_dir self // "bin") = true).
    { apply in_glob in Hl9 as (Hd & _). unfold is_dir in Hd. unfold path_exists.
      now destruct (lookup_path (fs w9) (Configure.build_dir self // "bin")) as [[|]|]. }
    rewrite Hex in HsegB. cbn [when] in HsegB.
    apply bind_inv in HsegB as (up & wp & Hpl & HloopB).
    kept_along Hpl K6. outside_along Hpl near ltac:(near_artifact_dir Hdir) B11.
    change (dir ++ ["bin"; path_name l]) with (dir ++ ["bin"] ++ [path_name l]).
    rewrite app_assoc, <- Hdir, <- (norm_snoc _ "bin") by plain_string.
    destruct (copies_arrive _ _ _ w wp _ w10 w'
                (fun l0 wa ua wb Hb Hd => copy2_body _ _ _ _ _ _ Hb Hd) HloopB)
      with (l := l) as (l' & c & Hl' & Hrest).
    + eapply kept_dir; [exact K6|]. eapply kept_dir; [exact K5|].
      eapply kept_dir; [exact K4|exact Dbin].
    + intros l0 H0. destruct (Hentry _ _ H0) as [Hc Hfar]. split; [exact Hc|]. split.
      * rewrite norm_snoc, Hdir by plain_string. apply not_below_entry.
        destruct (is_prefix dir l0) eqn:E; [exfalso; apply Hfar; now left|reflexivity].
      * apply (outside_trans _ _ _ _ B10 B11). exact Hfar.
    + eapply outside_trans; [exact A4|exact A5].
    + exact Hl9.
    + exists l', c. split; [|exact Hrest]. apply (Hglob _ _ _ B10). exact Hl'.
Qed.

Lemma configure_package_holds_what_was_installed_witness :
  let l : path := ["D:"; "icu-build"; "x64-Release"; "lib"; "icuuc.lib"] in
  let src := Configure.build_dir Scenario.configure_builder // "lib" in
  exists l' c,
    In l' (glob (fs Scenario.packaged_without_header_dir) src ".lib")
    /\ path_name l' = path_name l
    /\ fs Scenario.packaged_without_header_dir !! l' = Some (File c)
    /\ fs (snd (Configure.package_artifacts Scenario.quiet Scenario.configure_builder
                  Scenario.packaged_without_header_dir))
       !! ((norm (Configure.workspace Scenario.configure_builder)
            ++ [Configure.artifact_name Scenario.configure_builder])
           ++ ["lib"; path_name l])
       = Some (File c).
Proof.
  exact (configure_package_holds_what_was_installed Scenario.quiet
           Scenario.configure_builder Scenario.packaged_without_header_dir _
           (run_eta (Configure.package_artifacts Scenario.quiet Scenario.configure_builder)
              Scenario.packaged_without_header_dir true ltac:(vm_compute; reflexivity))
           "lib" ".lib" (or_introl eq_refl)
           ltac:(vm_compute; reflexivity) ltac:(vm_compute; reflexivity)
           ["D:"; "icu-build"; "x64-Release"; "lib"; "icuuc.lib"]
           ltac:(vm_compute; left; reflexivity)).
Defined.

(** * The order of the toolchain *)

Ltac after_the_call :=
  unfold try_except, run_process, bind, log_proc;
  cbn [fs stdout http_log proc_log add_lines];
  match goal with
  | |- context [subprocess_run ?ext ?c ?W] =>
      destruct (subprocess_run ext c W) as [?e|[?cp ?f']]; cbn; [reflexivity|];
      match goal with
      | |- context [(returncode ?cp =? 0)%Z] => destruct (returncode cp =? 0)%Z
      end; reflexivity
  end.

(** Each Cygwin step logs its command, once, whatever becomes of it. *)
Lemma cygwin_steps_log_their_command ext self :
  Forall2
    (fun (step : M bool) c => forall w, proc_log (snd (step w)) = proc_log w ++ [c])
    [ Configure.prepare_source ext self; Configure.configure_build ext self;
      Configure.build_icu ext self; Configure.install_icu ext self ]
    (configure_toolchain self).
Proof.
  unfold configure_toolchain. repeat constructor; intros w.
  - unfold Configure.prepare_source.
    rewrite (bind_ok _ _ _ _ _ (emits_print _ w)). after_the_call.
  - unfold Configure.configure_build.
    rewrite (bind_ok _ _ _ _ _ (emits_print _ w)).
    destruct (Configure.embed_data (Configure.config self));
      rewrite (bind_ok _ _ _ _ _ (emits_print _ _));
      rewrite (bind_ok _ _ _ _ _ (get_msvc_env_emits ext _));
      after_the_call.
  - unfold Configure.build_icu.
    rewrite (bind_ok _ _ _ _ _ (emits_print _ w)).
    unfold try_except. rewrite (bind_ok _ _ _ _ _ (get_msvc_env_emits ext _)).
    after_the_call.
  - unfold Configure.install_icu.
    rewrite (bind_ok _ _ _ _ _ (emits_print _ w)).
    unfold try_except. rewrite (bind_ok _ _ _ _ _ (get_msvc_env_emits ext _)).
    after_the_call.
Qed.

(** The process log after the step loop: what the steps called have
    logged, in their order; every step has been called when the loop
    returns [True]. *)
Lemma run_traced_proc_log message steps css :
  Forall2
    (fun (step : string * M bool) cs =>
       forall w, proc_log (snd (snd step w)) = proc_log w ++ cs)
    steps css ->
  forall w,
    exists n,
      proc_log (snd (fst (Pipeline.run_traced message steps w)))
      = proc_log w ++ concat (take n css)
      /\ (fst (fst (Pipeline.run_traced message steps w)) = Ok true -> n = length css).
Proof.
  induction 1 as [|[name action] cs steps css Hstep _ IH]; intros w.
  - exists 0%nat. cbn. now rewrite app_nil_r.
  - cbn [Pipeline.run_traced]. specialize (Hstep (Pipeline.announced name w)).
    cbn [snd] in Hstep. change (proc_log (Pipeline.announced name w)) with (proc_log w) in Hstep.
    destruct (action (Pipeline.announced name w)) as [[[|]|e] w1]; cbn [snd] in Hstep.
    + destruct (IH (Pipeline.acknowledged w1)) as (n & Hn & Hall).
      destruct (Pipeline.run_traced message steps (Pipeline.acknowledged w1))
        as [[r w2] called].
      cbn [fst snd] in *. exists (S n). split.
      * rewrite Hn. change (proc_log (Pipeline.acknowledged w1)) with (proc_log w1).
        rewrite Hstep. cbn [take concat]. now rewrite app_assoc.
      * intros Hr. cbn [length]. f_equal. now apply Hall.
    + exists 1%nat. cbn [fst snd take concat]. split; [|discriminate].
      change (proc_log (Pipeline.failed_at name w1)) with (proc_log w1).
      rewrite Hstep. destruct css; cbn; now rewrite app_nil_r.
    + exists 1%nat. cbn [fst snd take concat]. split; [|discriminate].
      rewrite Hstep. destruct css; cbn; now rewrite app_nil_r.
Qed.

Lemma configure_build_enters_the_loop ext self w :
  exists w0,
    Configure.build ext self w = Configure.run_steps (Configure.steps ext self) w0
    /\ proc_log w0 = proc_log w.
Proof.
  unfold Configure.build.
  repeat match goal with
         | |- context [bind (print ?line) ?k ?w1] =>
             change (bind (print line) k w1) with (k tt (snd (print line w1))); cbv beta
         end.
  eexists. split; reflexivity.
Qed.

(** X21.  The configure-driven pipeline starts its four shell commands in
    the order prepare, configure, make, install, each at most once and none
    before its predecessors: whatever the outcome of [build] (even an
    exception), the processes started are an initial part of that list,
    and all four when [build] returns [True].  No step but the first, in
    either script, touches the network. *)
Theorem toolchain_runs_in_pipeline_order :
  forall ext,
    (forall self w,
        (exists n,
            proc_log (snd (Configure.build ext self w))
            = proc_log w ++ take n (configure_toolchain self))
        /\ (fst (Configure.build ext self w) = Ok true ->
            proc_log (snd (Configure.build ext self w))
            = proc_log w ++ configure_toolchain self))
    /\ (forall self,
          Forall (fun step : string * M bool =>
                    forall w, http_log (snd (snd step w)) = http_log w)
            (tail (Configure.steps ext self)))
    /\ (forall self,
          Forall (fun step : string * M bool =>
                    forall w, http_log (snd (snd step w)) = http_log w)
            (tail (Native.steps ext self))).
Proof.
  intros ext. split; [|split].
  - intros self w.
    pose proof (cygwin_steps_log_their_command ext self) as Hcyg.
    unfold configure_toolchain in *.
    inversion Hcyg as [|s1 c1 l1 l1' H1 Hc1]; subst. inversion Hc1 as [|s2 c2 l2 l2' H2 Hc2]; subst.
    inversion Hc2 as [|s3 c3 l3 l3' H3 Hc3]; subst. inversion Hc3 as [|s4 c4 l4 l4' H4 _]; subst.
    clear Hcyg Hc1 Hc2 Hc3.
    match goal with
    | |- context [take _ [?a; ?b; ?c; ?d]] =>
        set (c1 := a) in *; set (c2 := b) in *; set (c3 := c) in *; set (c4 := d) in *
    end.
    assert (Hsteps :
              Forall2
                (fun (step : string * M bool) cs =>
                   forall w, proc_log (snd (snd step w)) = proc_log w ++ cs)
                (Configure.steps ext self) [[]; [c1]; [c2]; [c3]; [c4]; []; []]).
    { unfold Configure.steps. repeat constructor; cbn [snd]; try assumption;
        intros w0; rewrite app_nil_r; apply (respects_snd same_procs).
      - unfold Configure.download_icu_source. footprint.
      - unfold Configure.package_artifacts, Configure.copy_data_files. footprint.
      - unfold Configure.verify_build. footprint. }
    destruct (configure_build_enters_the_loop ext self w) as (w0 & -> & Hw0).
    rewrite (configure_run_steps_traced (Configure.steps ext self) w0).
    destruct (run_traced_proc_log "🎉 ICU build completed successfully!" _ _ Hsteps w0)
      as (n & Hn & Hall).
    rewrite Hw0 in Hn.
    split.
    + rewrite Hn.
      destruct n as [|[|[|[|[|n]]]]];
        [exists 0%nat|exists 0%nat|exists 1%nat|exists 2%nat|exists 3%nat|exists 4%nat];
        try reflexivity.
      destruct n as [|[|n]]; cbn [take concat app]; rewrite ?take_nil; reflexivity.
    + intros Hok. rewrite Hn, (Hall Hok). reflexivity.
  - intros self. unfold Configure.steps. cbn [tail]. repeat constructor; cbn [snd]; intros w;
      apply (respects_snd same_http).
    + unfold Configure.prepare_source. footprint.
    + unfold Configure.configure_build, Configure.get_msvc_env. footprint.
    + unfold Configure.build_icu, Configure.get_msvc_env. footprint.
    + unfold Configure.install_icu, Configure.get_msvc_env. footprint.
    + unfold Configure.package_artifacts, Configure.copy_data_files. footprint.
    + unfold Configure.verify_build. footprint.
  - intros self. unfold Native.steps. cbn [tail]. repeat constructor; cbn [snd]; intros w;
      apply (respects_snd same_http).
    + unfold Native.verify_visual_studio_solution. footprint.
    + unfold Native.update_visual_studio_toolset. footprint.
    + unfold Native.build_icu_with_msbuild. footprint.
    + unfold Native.package_artifacts, Native.locate_build_artifacts, Native.locate. footprint.
    + unfold Native.verify_build. footprint.
Qed.

Lemma toolchain_runs_in_pipeline_order_witness :
  proc_log (snd (Configure.build Scenario.quiet Scenario.configure_builder
                   ScenarioInstalled.ready))
  = proc_log ScenarioInstalled.ready ++ configure_toolchain Scenario.configure_builder.
Proof.
  exact (proj2 (proj1 (toolchain_runs_in_pipeline_order Scenario.quiet)
                  Scenario.configure_builder ScenarioInstalled.ready)
           ltac:(vm_compute; reflexivity)).
Defined.

(** * The probed methods under probes that answer *)

Lemma for_fold_ext {A S} (l : list A) (b1 b2 : A -> S -> M S) :
  (forall x s w, b1 x s w = b2 x s w) ->
  forall s w, for_fold l s b1 w = for_fold l s b2 w.
Proof.
  intros H. induction l as [|x l IH]; intros s w; [reflexivity|].
  cbn [for_fold]. unfold bind. rewrite H.
  destruct (b2 x s w) as [[s'|e] w']; [apply IH|reflexivity].
Qed.

Lemma bind_ext {A B} (m1 m2 : M A) (k1 k2 : A -> M B) w :
  m1 w = m2 w -> (forall a w', k1 a w' = k2 a w') -> bind m1 k1 w = bind m2 k2 w.
Proof.
  intros Hm Hk. unfold bind. rewrite Hm. destruct (m2 w) as [[a|e] w']; [apply Hk|reflexivity].
Qed.

(** Splits on the answers of the probes until both sides are one program. *)
Ltac probe_steps :=
  cbv beta iota delta [bind ret when Probe.exists_ Probe.stat_size faulting answering
                       io_fault fmt_mb get_fs print fs stdout http_log proc_log].

Ltac same_program :=
  probe_steps;
  repeat (match goal with
          | |- context [path_exists ?f ?p] => destruct (path_exists f p)
          | |- context [bool_decide ?P] => destruct (bool_decide P)
          end; cbn [negb]; probe_steps);
  try reflexivity.

Lemma configure_download_answering ext self w :
  ProbedConfigure.download_icu_source (answering ext) self w
  = Configure.download_icu_source ext self w.
Proof.
  unfold ProbedConfigure.download_icu_source, Configure.download_icu_source.
  same_program.
Qed.

Lemma native_download_answering ext self w :
  ProbedNative.download_icu_source (answering ext) self w
  = Native.download_icu_source ext self w.
Proof.
  unfold ProbedNative.download_icu_source, Native.download_icu_source.
  same_program.
Qed.

Lemma native_toolset_answering ext self w :
  ProbedNative.update_visual_studio_toolset (answering ext) self w
  = Native.update_visual_studio_toolset ext self w.
Proof.
  unfold ProbedNative.update_visual_studio_toolset, Native.update_visual_studio_toolset.
  same_program.
Qed.

Lemma configure_copy_data_files_answering ext self paths found w :
  for_fold paths found
    (fun data_path found =>
       present <- Probe.exists_ (answering ext) data_path ;;
       if present then
         f <- get_fs ;;
         for_fold (glob f data_path ".dat") found
           (fun dat_file _ =>
              size <- Probe.stat_size (answering ext) dat_file ;;
              print ("📊 Copying data file: " +:+ path_name dat_file
                     +:+ " (" +:+ fmt_mb (answering ext) size +:+ " MB)") ;;;
              copy2 (answering ext) dat_file (Configure.artifact_dir self // "data") ;;;
              ret true)
       else ret found) w
  = for_fold paths found
      (fun data_path found =>
         f <- get_fs ;;
         if path_exists f data_path then
           for_fold (glob f data_path ".dat") found
             (fun dat_file _ =>
                size <- stat_size dat_file ;;
                print ("📊 Copying data file: " +:+ path_name dat_file
                       +:+ " (" +:+ fmt_mb ext size +:+ " MB)") ;;;
                copy2 ext dat_file (Configure.artifact_dir self // "data") ;;;
                ret true)
         else ret found) w.
Proof.
  apply for_fold_ext. intros p s w0.
  same_program.
Qed.

Lemma native_locate_answering ext pp dp w :
  ProbedNative.locate (answering ext) pp dp w = Native.locate pp dp w.
Proof.
  unfold ProbedNative.locate, Native.locate.
  apply bind_ext; [reflexivity|]. intros _ w1.
  apply bind_ext.
  - apply for_fold_ext. intros p s w0.
    same_program.
  - intros found w2. apply bind_ext; [|reflexivity].
    apply for_fold_ext. intros p s w0.
    same_program.
Qed.

Lemma bind_ext_along {A B} (R : world -> world -> Prop) (m1 m2 : M A)
    (k1 k2 : A -> M B) w :
  m1 w = m2 w -> respects R m2 ->
  (forall a w', R w w' -> k1 a w' = k2 a w') ->
  bind m1 k1 w = bind m2 k2 w.
Proof.
  intros Hm HR Hk. unfold bind. rewrite Hm.
  destruct (m2 w) as [[a|e] w'] eqn:E; [|reflexivity]. apply Hk. eapply HR, E.
Qed.

(** Replaces a probe that answers, and a reading of the tree, by what
    they return. *)
Ltac answer_probes :=
  repeat first
    [ progress change (bind (Probe.exists_ (answering ?e) ?p) ?k ?w)
        with (k (path_exists (fs w) p) w)
    | progress change (bind get_fs ?k ?w) with (k (fs w) w) ];
  cbv beta.

(** One step of two programs that start alike and keep the tree. *)
Ltac step_along :=
  eapply (bind_ext_along same_fs);
  [ first [reflexivity | apply for_fold_ext; intros; same_program]
  | footprint
  | let a := fresh "a" in
    let w := fresh "w" in
    let H := fresh "Hfs" in
    intros a w H; unfold same_fs in H ].

Lemma configure_verify_answering ext self w :
  ProbedConfigure.verify_build (answering ext) self w = Configure.verify_build ext self w.
Proof.
  unfold ProbedConfigure.verify_build, Configure.verify_build. cbv zeta.
  step_along. answer_probes.
  destruct (path_exists (fs w0) (Configure.build_dir self // "lib")); cbn [negb];
    [|reflexivity].
  answer_probes.
  destruct (glob (fs w0) (Configure.build_dir self // "lib") ".lib") as [|k ks];
    [reflexivity|].
  step_along. step_along. answer_probes. rewrite Hfs1, Hfs0.
  destruct (path_exists (fs w0) (Configure.build_dir self // "include" // "unicode"));
    [|reflexivity].
  answer_probes. rewrite Hfs1, Hfs0.
  step_along. apply bind_ext; [|reflexivity].
  destruct (Configure.embed_data (Configure.config self)); [|reflexivity].
  answer_probes. rewrite Hfs2, Hfs1, Hfs0.
  destruct (path_exists (fs w0) _); reflexivity.
Qed.

Lemma native_verify_answering ext self w :
  ProbedNative.verify_build (answering ext) self w = Native.verify_build ext self w.
Proof.
  unfold ProbedNative.verify_build, Native.verify_build. cbv zeta.
  step_along. answer_probes.
  destruct (path_exists (fs w0) (Native.artifact_dir self // "lib")); cbn [negb];
    [|reflexivity].
  answer_probes.
  destruct (glob (fs w0) (Native.artifact_dir self // "lib") ".lib") as [|k ks];
    [reflexivity|].
  step_along. step_along. answer_probes. rewrite Hfs1, Hfs0.
  destruct (path_exists (fs w0) (Native.artifact_dir self // "include" // "unicode"));
    [|reflexivity].
  answer_probes. rewrite Hfs1, Hfs0.
  step_along. answer_probes. rewrite Hfs2, Hfs1, Hfs0.
  apply bind_ext; [|reflexivity].
  destruct (path_exists (fs w0) (Native.artifact_dir self // "data")); [|reflexivity].
  cbn [when]. answer_probes. rewrite Hfs2, Hfs1, Hfs0.
  destruct (glob (fs w0) (Native.artifact_dir self // "data") ".dat"); reflexivity.
Qed.

(** * Probes that fail *)

Lemma fs_probe_exists ext p : respects same_fs (Probe.exists_ ext p).
Proof. apply respects_faulting; try typeclasses eauto. atomic_footprint. Qed.

Lemma logs_probe_exists ext p : respects same_logs (Probe.exists_ ext p).
Proof. apply respects_faulting; try typeclasses eauto. atomic_footprint. Qed.

Lemma fs_probe_stat ext p : respects same_fs (Probe.stat_size ext p).
Proof. apply respects_faulting; try typeclasses eauto. apply fs_stat_size. Qed.

Lemma logs_probe_stat ext p : respects same_logs (Probe.stat_size ext p).
Proof. apply respects_faulting; try typeclasses eauto. apply logs_stat_size. Qed.

#[export] Hint Resolve fs_probe_exists logs_probe_exists fs_probe_stat logs_probe_stat
  : footprint.

Lemma probe_answers ext p w :
  io_fault ext OpExists p = None ->
  Probe.exists_ ext p w = (Ok (path_exists (fs w) p), w).
Proof. intros H. unfold Probe.exists_, faulting. now rewrite H. Qed.

Lemma probe_faults ext p e w :
  io_fault ext OpExists p = Some e -> Probe.exists_ ext p w = (Raise e, w).
Proof. intros H. unfold Probe.exists_, faulting. now rewrite H. Qed.

Lemma for_fold_ext_in {A S} (l : list A) (b1 b2 : A -> S -> M S) :
  (forall x s w, In x l -> b1 x s w = b2 x s w) ->
  forall s w, for_fold l s b1 w = for_fold l s b2 w.
Proof.
  induction l as [|x l IH]; intros H s w; [reflexivity|].
  cbn [for_fold]. unfold bind. rewrite (H x s w (or_introl eq_refl)).
  destruct (b2 x s w) as [[s'|e] w']; [|reflexivity].
  apply IH. intros y s0 w0 Hy. apply H. now right.
Qed.

Lemma for_fold_app {A S} (l1 l2 : list A) (s : S) (body : A -> S -> M S) w :
  for_fold (l1 ++ l2) s body w = (s1 <- for_fold l1 s body ;; for_fold l2 s1 body) w.
Proof.
  revert s w. induction l1 as [|x l1 IH]; intros s w; [reflexivity|].
  cbn [app for_fold]. unfold bind at 1 2 3.
  destruct (body x s w) as [[s'|e] w']; [|reflexivity]. rewrite IH. reflexivity.
Qed.

(** ** The toolset update *)

Lemma toolset_update_answered ext self w :
  io_fault ext OpExists
    (Native.source_dir self // "allinone" // "Build.Windows.ProjectConfiguration.props")
  = None ->
  ProbedNative.update_visual_studio_toolset ext self w
  = Native.update_visual_studio_toolset ext self w.
Proof.
  intros H. rewrite <- native_toolset_answering.
  unfold ProbedNative.update_visual_studio_toolset. cbv zeta.
  apply bind_ext; [reflexivity|]. intros _ w1.
  apply bind_ext; [|reflexivity].
  rewrite (probe_answers _ _ _ H). reflexivity.
Qed.

(** C10, as stated, fails: the step asks whether the props file exists
    before it enters its handler.  When that question itself fails (here:
    permission denied), the exception leaves the step, and the step loop
    ends with it at this step. *)
Lemma toolset_update_lets_a_failed_probe_escape :
  let ext := ScenarioProbe.denying ScenarioProbe.props_file in
  fst (ProbedNative.update_visual_studio_toolset ext Scenario.native_builder
         Scenario.unpacked) = Raise PermissionError
  /\ fst (Native.run_steps
            [ ("Update Visual Studio toolset",
               ProbedNative.update_visual_studio_toolset ext Scenario.native_builder);
              ("Build ICU with MSBuild",
               Native.build_icu_with_msbuild ext Scenario.native_builder) ]
            Scenario.unpacked) = Raise PermissionError
  /\ proc_log
       (snd (Native.run_steps
               [ ("Update Visual Studio toolset",
                  ProbedNative.update_visual_studio_toolset ext Scenario.native_builder);
                 ("Build ICU with MSBuild",
                  Native.build_icu_with_msbuild ext Scenario.native_builder) ]
               Scenario.unpacked)) = [].
Proof. vm_compute. repeat split. Qed.

(** C10, amended.  Whenever the existence check on the props file answers,
    [update_visual_studio_toolset] returns [True]: with the file missing,
    with a file that needs no change, with one that is rewritten, and when
    reading or writing it raises; the step loop then goes on to the steps
    that follow.  When the existence check fails, its exception leaves the
    step, which has printed its heading and nothing else. *)
Theorem toolset_update_succeeds_when_the_probe_answers :
  forall ext self w,
    let props_file :=
      Native.source_dir self // "allinone" // "Build.Windows.ProjectConfiguration.props" in
    (io_fault ext OpExists props_file = None ->
     (exists w', ProbedNative.update_visual_studio_toolset ext self w = (Ok true, w'))
     /\ forall rest,
          Native.run_steps
            (("Update Visual Studio toolset",
              ProbedNative.update_visual_studio_toolset ext self) :: rest) w
          = Native.run_steps rest
              (Pipeline.acknowledged
                 (snd (ProbedNative.update_visual_studio_toolset ext self
                         (Pipeline.announced "Update Visual Studio toolset" w)))))
    /\ (forall e,
          io_fault ext OpExists props_file = Some e ->
          ProbedNative.update_visual_studio_toolset ext self w
          = (Raise e,
             add_lines ["🔧 Updating project configuration for Visual Studio 2022..."] w)).
Proof.
  intros ext self w props_file. split.
  - intros H. split.
    + rewrite (toolset_update_answered _ _ _ H).
      destruct (toolset_update_with_answering_probe ext self w) as (w' & Hw' & _). eauto.
    + intros rest.
      destruct (toolset_update_with_answering_probe ext self w) as (_ & _ & Hrest).
      specialize (Hrest rest).
      rewrite !native_run_steps_traced in *. cbn [Pipeline.run_traced] in *.
      rewrite (toolset_update_answered _ _ _ H). exact Hrest.
  - intros e H. unfold ProbedNative.update_visual_studio_toolset. cbv zeta.
    rewrite (bind_ok _ _ _ _ _ (emits_print _ w)).
    apply bind_raise. apply (probe_faults _ _ _ _ H).
Qed.

Lemma toolset_update_succeeds_when_the_probe_answers_witness :
  exists w',
    ProbedNative.update_visual_studio_toolset Scenario.quiet Scenario.native_builder
      ScenarioToolset.old_toolset = (Ok true, w').
Proof.
  exact (proj1 (proj1 (toolset_update_succeeds_when_the_probe_answers Scenario.quiet
                         Scenario.native_builder ScenarioToolset.old_toolset)
                  eq_refl)).
Defined.

(** ** The locator *)

Lemma found_in_app f suf l1 l2 :
  Locator.found_in f suf (l1 ++ l2)
  = (Locator.found_in f suf l1 ++ Locator.found_in f suf l2)%list.
Proof. unfold Locator.found_in. apply flat_map_app. Qed.

Lemma found_in_skips f suf pre p post :
  path_exists f p = false ->
  Locator.found_in f suf (pre ++ p :: post) = Locator.found_in f suf (pre ++ post).
Proof.
  intros Hp. rewrite !found_in_app. f_equal.
  cbn [Locator.found_in flat_map]. now rewrite Hp.
Qed.

(** While the existence checks on the candidates answer, the probing loops
    of the locator are those of [Native.locate]. *)
Lemma locate_binaries_answered ext (paths : list path) acc w :
  (forall p, In p paths -> io_fault ext OpExists p = None) ->
  for_fold paths acc
    (fun p (acc : list path * list path) =>
       present <- Probe.exists_ ext p ;;
       if present then
         print ("📁 Checking directory: " +:+ str_of_path p) ;;;
         f <- get_fs ;;
         let libs := glob f p ".lib" in
         when (negb (bool_decide (libs = [])))
           (print ("  Found " +:+ pretty (length libs) +:+ " .lib files")) ;;;
         f <- get_fs ;;
         let exes := glob f p ".exe" in
         when (negb (bool_decide (exes = [])))
           (print ("  Found " +:+ pretty (length exes) +:+ " .exe files")) ;;;
         ret ((fst acc ++ libs)%list, (snd acc ++ exes)%list)
       else ret acc) w
  = for_fold paths acc
      (fun p (acc : list path * list path) =>
         f <- get_fs ;;
         if path_exists f p then
           print ("📁 Checking directory: " +:+ str_of_path p) ;;;
           let libs := glob f p ".lib" in
           when (negb (bool_decide (libs = [])))
             (print ("  Found " +:+ pretty (length libs) +:+ " .lib files")) ;;;
           let exes := glob f p ".exe" in
           when (negb (bool_decide (exes = [])))
             (print ("  Found " +:+ pretty (length exes) +:+ " .exe files")) ;;;
           ret ((fst acc ++ libs)%list, (snd acc ++ exes)%list)
         else ret acc) w.
Proof.
  intros H. apply for_fold_ext_in. intros p s w0 Hp.
  unfold bind at 1. rewrite (probe_answers _ _ _ (H p Hp)).
  same_program.
Qed.

Lemma locate_data_answered ext (paths : list path) (acc : list path) w :
  (forall p, In p paths -> io_fault ext OpExists p = None) ->
  for_fold paths acc
    (fun data_path (acc : list path) =>
       present <- Probe.exists_ ext data_path ;;
       if present then
         f <- get_fs ;;
         let dat := glob f data_path ".dat" in
         when (negb (bool_decide (dat = [])))
           (print ("📊 Found " +:+ pretty (length dat) +:+ " .dat files in: "
                   +:+ str_of_path data_path)) ;;;
         ret (acc ++ dat)%list
       else ret acc) w
  = for_fold paths acc
      (fun data_path (acc : list path) =>
         f <- get_fs ;;
         if path_exists f data_path then
           let dat := glob f data_path ".dat" in
           when (negb (bool_decide (dat = [])))
             (print ("📊 Found " +:+ pretty (length dat) +:+ " .dat files in: "
                     +:+ str_of_path data_path)) ;;;
           ret (acc ++ dat)%list
         else ret acc) w.
Proof.
  intros H. apply for_fold_ext_in. intros p s w0 Hp.
  unfold bind at 1. rewrite (probe_answers _ _ _ (H p Hp)).
  same_program.
Qed.

Lemma locate_answered ext (possible_paths data_paths : list path) w :
  (forall p, In p (possible_paths ++ data_paths) -> io_fault ext OpExists p = None) ->
  ProbedNative.locate ext possible_paths data_paths w
  = Native.locate possible_paths data_paths w.
Proof.
  intros H. unfold ProbedNative.locate, Native.locate.
  apply bind_ext; [reflexivity|]. intros _ w1.
  apply bind_ext.
  - apply locate_binaries_answered. intros p Hp. apply H, in_or_app. now left.
  - intros found w2. apply bind_ext; [|reflexivity].
    apply locate_data_answered. intros p Hp. apply H, in_or_app. now right.
Qed.

(** A failing existence check on a candidate of the first list ends the
    locator, whatever precedes and follows the candidate. *)
Lemma locate_probe_escapes ext pre p post data_paths e w :
  (forall q, In q pre -> io_fault ext OpExists q = None) ->
  io_fault ext OpExists p = Some e ->
  fst (ProbedNative.locate ext (pre ++ p :: post) data_paths w) = Raise e.
Proof.
  intros Hpre Hp. unfold ProbedNative.locate.
  rewrite (bind_ok _ _ _ _ _ (emits_print _ w)).
  match goal with
  | |- fst (bind ?m ?k ?w0) = _ =>
      assert (Hloop : exists w1, m w0 = (Raise e, w1)); [|destruct Hloop as [w1 Hloop];
        now rewrite (bind_raise _ _ _ _ _ Hloop)]
  end.
  rewrite for_fold_app.
  destruct (locate_binaries_emits pre ([], []) (add_lines ["🔍 Locating build artifacts..."] w))
    as [lines Hlines].
  unfold emits in Hlines.
  rewrite <- (locate_binaries_answered ext) in Hlines by exact Hpre.
  rewrite (bind_ok _ _ _ _ _ Hlines).
  cbn [for_fold]. eexists. apply bind_raise. apply bind_raise.
  apply (probe_faults _ _ _ _ Hp).
Qed.

Lemma bind_ext_ok {A B} (m : M A) (k1 k2 : A -> M B) w :
  (forall a w1, m w = (Ok a, w1) -> k1 a w1 = k2 a w1) ->
  bind m k1 w = bind m k2 w.
Proof.
  intros H. unfold bind. destruct (m w) as [[a|e] w1]; [|reflexivity].
  now apply H.
Qed.

(** The data loop of the configure-driven [package_artifacts]. *)
Lemma copy_data_files_generalised ext self (paths : list path) w :
  ProbedConfigure.copy_data_files ext self paths w
  = for_fold paths false
      (fun data_path found =>
         present <- Probe.exists_ ext data_path ;;
         if present then
           f <- get_fs ;;
           for_fold (glob f data_path ".dat") found
             (fun dat_file _ =>
                size <- Probe.stat_size ext dat_file ;;
                print ("📊 Copying data file: " +:+ path_name dat_file
                       +:+ " (" +:+ fmt_mb ext size +:+ " MB)") ;;;
                copy2 ext dat_file (Configure.artifact_dir self // "data") ;;;
                ret true)
         else ret found) w.
Proof. reflexivity. Qed.

Lemma copy_data_files_skips_anywhere ext self pre p post w :
  io_fault ext OpExists p = None ->
  (forall found w1,
      ProbedConfigure.copy_data_files ext self pre w = (Ok found, w1) ->
      path_exists (fs w1) p = false) ->
  ProbedConfigure.copy_data_files ext self (pre ++ p :: post) w
  = ProbedConfigure.copy_data_files ext self (pre ++ post) w.
Proof.
  intros Hans Hmiss. unfold ProbedConfigure.copy_data_files in *.
  rewrite !for_fold_app. apply bind_ext_ok. intros found w1 Hpre.
  cbn [for_fold]. unfold bind at 1. unfold bind at 1.
  rewrite (probe_answers _ _ _ Hans), (Hmiss found w1 Hpre). reflexivity.
Qed.

Lemma copy_data_files_probe_escapes ext self pre p post found e w w1 :
  io_fault ext OpExists p = Some e ->
  ProbedConfigure.copy_data_files ext self pre w = (Ok found, w1) ->
  ProbedConfigure.copy_data_files ext self (pre ++ p :: post) w = (Raise e, w1).
Proof.
  intros Hp Hpre. unfold ProbedConfigure.copy_data_files in *.
  rewrite for_fold_app, (bind_ok _ _ _ _ _ Hpre).
  cbn [for_fold]. apply bind_raise, bind_raise, (probe_faults _ _ _ _ Hp).
Qed.

(** C8, as stated, fails: the locator asks of each candidate whether it
    exists, outside of any handler.  In a workspace in which no candidate
    exists, a candidate whose existence check fails (permission denied on
    the way to it) makes [locate_build_artifacts] raise; the data loop of
    the configure-driven [package_artifacts] does the same. *)
Lemma locator_lets_a_failed_probe_escape :
  let ext := ScenarioProbe.denying ScenarioProbe.lib64 in
  In ScenarioProbe.lib64 (Native.possible_paths Scenario.native_builder)
  /\ forallb (fun p => negb (path_exists (fs Scenario.bare) p))
       (Native.possible_paths Scenario.native_builder
        ++ Native.data_paths Scenario.native_builder) = true
  /\ ProbedNative.locate_build_artifacts ext Scenario.native_builder Scenario.bare
     = (Raise PermissionError, add_lines ["🔍 Locating build artifacts..."] Scenario.bare)
  /\ ProbedConfigure.copy_data_files (ScenarioProbe.denying ScenarioProbe.data_out_tmp)
       Scenario.configure_builder
       (Configure.data_paths Scenario.configure_builder) Scenario.bare
     = (Raise PermissionError, Scenario.bare).
Proof. vm_compute. intuition. Qed.

(** C8, amended.  Provided the existence check answers on every candidate,
    the locator returns normally for every two lists of candidate
    directories, leaves the tree as it is, and reports, per kind, the
    matching entries of the candidates that exist, in order; a candidate
    that does not exist contributes nothing, wherever it stands in its
    list; and when no candidate exists the three collections are empty and
    only the heading has been printed.  The data loop of the
    configure-driven [package_artifacts] passes over a missing candidate,
    wherever it stands, as if it were not in the list.  In both loops an
    existence check that fails is not handled: its exception ends the
    loop at that candidate. *)
Theorem locator_skips_missing_candidates :
  forall ext,
    (forall possible_paths data_paths w,
        (forall p, In p (possible_paths ++ data_paths) -> io_fault ext OpExists p = None) ->
        exists w',
          ProbedNative.locate ext possible_paths data_paths w
          = (Ok {| Native.lib_files := Locator.found_in (fs w) ".lib" possible_paths;
                   Native.exe_files := Locator.found_in (fs w) ".exe" possible_paths;
                   Native.dat_files := Locator.found_in (fs w) ".dat" data_paths |}, w')
          /\ fs w' = fs w)
    /\ (forall f suf pre p post,
          path_exists f p = false ->
          Locator.found_in f suf (pre ++ p :: post) = Locator.found_in f suf (pre ++ post))
    /\ (forall self w,
          (forall p, In p (Native.possible_paths self ++ Native.data_paths self) ->
                     io_fault ext OpExists p = None) ->
          forallb (fun p => negb (path_exists (fs w) p))
            (Native.possible_paths self ++ Native.data_paths self) = true ->
          ProbedNative.locate_build_artifacts ext self w
          = (Ok {| Native.lib_files := []; Native.exe_files := []; Native.dat_files := [] |},
             add_lines ["🔍 Locating build artifacts..."] w))
    /\ (forall self pre p post w,
          io_fault ext OpExists p = None ->
          (forall found w1,
              ProbedConfigure.copy_data_files ext self pre w = (Ok found, w1) ->
              path_exists (fs w1) p = false) ->
          ProbedConfigure.copy_data_files ext self (pre ++ p :: post) w
          = ProbedConfigure.copy_data_files ext self (pre ++ post) w)
    /\ (forall pre p post data_paths e w,
          (forall q, In q pre -> io_fault ext OpExists q = None) ->
          io_fault ext OpExists p = Some e ->
          fst (ProbedNative.locate ext (pre ++ p :: post) data_paths w) = Raise e)
    /\ (forall self pre p post found e w w1,
          io_fault ext OpExists p = Some e ->
          ProbedConfigure.copy_data_files ext self pre w = (Ok found, w1) ->
          ProbedConfigure.copy_data_files ext self (pre ++ p :: post) w = (Raise e, w1)).
Proof.
  intros ext. repeat apply conj.
  - intros possible_paths data_paths w H.
    rewrite (locate_answered _ _ _ _ H).
    destruct (locate_emits possible_paths data_paths w) as [lines Hl].
    eexists. split; [exact Hl|apply fs_add_lines].
  - intros f suf pre p post. apply found_in_skips.
  - intros self w Hans Hnone. unfold ProbedNative.locate_build_artifacts.
    rewrite (locate_answered _ _ _ _ Hans).
    apply locate_nothing, none_exists_spec, Hnone.
  - intros self pre p post w. apply copy_data_files_skips_anywhere.
  - intros pre p post dp e w. apply locate_probe_escapes.
  - intros self pre p post found e w w1. apply copy_data_files_probe_escapes.
Qed.

Lemma locator_skips_missing_candidates_witness :
  ProbedNative.locate_build_artifacts Scenario.quiet Scenario.native_builder Scenario.bare
  = (Ok {| Native.lib_files := []; Native.exe_files := []; Native.dat_files := [] |},
     add_lines ["🔍 Locating build artifacts..."] Scenario.bare).
Proof.
  apply (proj1 (proj2 (proj2 (locator_skips_missing_candidates Scenario.quiet)))
           Scenario.native_builder Scenario.bare).
  - intros p _. reflexivity.
  - vm_compute. reflexivity.
Defined.

(** ** Which steps can raise, with probes that can fail *)

Lemma never_raises_ext {A} (m1 m2 : M A) :
  (forall w, m1 w = m2 w) -> never_raises m2 -> never_raises m1.
Proof. intros H Hm w. rewrite H. apply Hm. Qed.

(** The environment [answering ext] differs from [ext] in the answers of
    the probes only, and not at all when the probes of [ext] answer. *)
Lemma answering_agrees ext :
  (forall p, io_fault ext OpExists p = None) ->
  (forall p, io_fault ext OpStat p = None) ->
  forall op p, io_fault (answering ext) op p = io_fault ext op p.
Proof. intros Hex Hst op p. destruct op; cbn; now rewrite ?Hex, ?Hst. Qed.

Lemma configure_download_probe_escapes ext self e w :
  io_fault ext OpExists (Configure.source_dir self) = Some e ->
  ProbedConfigure.download_icu_source ext self w
  = (Raise e, add_lines ["🔍 Checking for ICU source..."] w).
Proof.
  intros H. unfold ProbedConfigure.download_icu_source.
  rewrite (bind_ok _ _ _ _ _ (emits_print _ w)).
  apply bind_raise, (probe_faults _ _ _ _ H).
Qed.

Lemma native_download_probe_escapes ext self e w :
  io_fault ext OpExists (Native.source_dir self) = Some e ->
  ProbedNative.download_icu_source ext self w
  = (Raise e, add_lines ["🔍 Checking for ICU source..."] w).
Proof.
  intros H. unfold ProbedNative.download_icu_source.
  rewrite (bind_ok _ _ _ _ _ (emits_print _ w)).
  apply bind_raise, (probe_faults _ _ _ _ H).
Qed.

Lemma configure_verify_probe_escapes ext self e w :
  io_fault ext OpExists (Configure.build_dir self // "lib") = Some e ->
  ProbedConfigure.verify_build ext self w
  = (Raise e, add_lines ["🔍 Verifying build output..."] w).
Proof.
  intros H. unfold ProbedConfigure.verify_build.
  rewrite (bind_ok _ _ _ _ _ (emits_print _ w)).
  apply bind_raise, (probe_faults _ _ _ _ H).
Qed.

Lemma native_verify_probe_escapes ext self e w :
  io_fault ext OpExists (Native.artifact_dir self // "lib") = Some e ->
  ProbedNative.verify_build ext self w
  = (Raise e, add_lines ["🔍 Verifying build output..."] w).
Proof.
  intros H. unfold ProbedNative.verify_build.
  rewrite (bind_ok _ _ _ _ _ (emits_print _ w)).
  apply bind_raise, (probe_faults _ _ _ _ H).
Qed.

(** A library whose size cannot be read ends the verification. *)
Lemma configure_verify_stat_escapes ext self e l ls w :
  io_fault ext OpExists (Configure.build_dir self // "lib") = None ->
  path_exists (fs w) (Configure.build_dir self // "lib") = true ->
  glob (fs w) (Configure.build_dir self // "lib") ".lib" = l :: ls ->
  io_fault ext OpStat l = Some e ->
  ProbedConfigure.verify_build ext self w
  = (Raise e, add_lines ["🔍 Verifying build output..."; "📚 Static libraries built:"] w).
Proof.
  intros Hans Hdir Hglob Hstat. unfold ProbedConfigure.verify_build. cbv zeta.
  rewrite (bind_ok _ _ _ _ _ (emits_print _ w)).
  rewrite (bind_ok _ _ _ _ _ (probe_answers _ _ _ Hans)).
  rewrite fs_add_lines, Hdir. cbn [negb].
  unfold bind at 1. cbn [get_fs]. rewrite fs_add_lines, Hglob.
  rewrite (bind_ok _ _ _ _ _ (emits_print _ _)). rewrite add_lines_app. cbn [app].
  apply bind_raise. cbn [for_fold]. apply bind_raise, bind_raise.
  unfold Probe.stat_size, faulting. now rewrite Hstat.
Qed.

Lemma native_verify_stat_escapes ext self e l ls w :
  io_fault ext OpExists (Native.artifact_dir self // "lib") = None ->
  path_exists (fs w) (Native.artifact_dir self // "lib") = true ->
  glob (fs w) (Native.artifact_dir self // "lib") ".lib" = l :: ls ->
  io_fault ext OpStat l = Some e ->
  ProbedNative.verify_build ext self w
  = (Raise e, add_lines ["🔍 Verifying build output..."; "📚 Static libraries built:"] w).
Proof.
  intros Hans Hdir Hglob Hstat. unfold ProbedNative.verify_build. cbv zeta.
  rewrite (bind_ok _ _ _ _ _ (emits_print _ w)).
  rewrite (bind_ok _ _ _ _ _ (probe_answers _ _ _ Hans)).
  rewrite fs_add_lines, Hdir. cbn [negb].
  unfold bind at 1. cbn [get_fs]. rewrite fs_add_lines, Hglob.
  rewrite (bind_ok _ _ _ _ _ (emits_print _ _)). rewrite add_lines_app. cbn [app].
  apply bind_raise. cbn [for_fold]. apply bind_raise, bind_raise.
  unfold Probe.stat_size, faulting. now rewrite Hstat.
Qed.

(** X2.  The steps that talk to the toolchain return a boolean in every
    world and for every behaviour of the network, the toolchain and the
    disk: whatever is raised inside is caught by the step itself.  The
    other steps, apart from [package_artifacts] and
    [verify_visual_studio_solution], ask the file system whether a path
    exists, or for the size of a file, outside of any handler: they return
    a boolean whenever these probes answer, and a probe that fails ends the
    step with its exception. *)
Theorem steps_return_a_boolean_unless_a_probe_fails :
  forall ext,
    (forall self,
        never_raises (Configure.prepare_source ext self)
        /\ never_raises (Configure.configure_build ext self)
        /\ never_raises (Configure.build_icu ext self)
        /\ never_raises (Configure.install_icu ext self))
    /\ (forall self, never_raises (Native.build_icu_with_msbuild ext self))
    /\ (forall self,
          never_raises (ProbedConfigure.download_icu_source (answering ext) self)
          /\ never_raises (ProbedConfigure.verify_build (answering ext) self))
    /\ (forall self,
          never_raises (ProbedNative.download_icu_source (answering ext) self)
          /\ never_raises (ProbedNative.update_visual_studio_toolset (answering ext) self)
          /\ never_raises (ProbedNative.locate_build_artifacts (answering ext) self)
          /\ never_raises (ProbedNative.verify_build (answering ext) self))
    /\ (forall self e w,
          io_fault ext OpExists (Configure.source_dir self) = Some e ->
          fst (ProbedConfigure.download_icu_source ext self w) = Raise e)
    /\ (forall self e w,
          io_fault ext OpExists (Configure.build_dir self // "lib") = Some e ->
          fst (ProbedConfigure.verify_build ext self w) = Raise e)
    /\ (forall self e w,
          io_fault ext OpExists (Native.source_dir self) = Some e ->
          fst (ProbedNative.download_icu_source ext self w) = Raise e)
    /\ (forall self e w,
          io_fault ext OpExists
            (Native.source_dir self // "allinone"
             // "Build.Windows.ProjectConfiguration.props") = Some e ->
          fst (ProbedNative.update_visual_studio_toolset ext self w) = Raise e)
    /\ (forall self e w,
          io_fault ext OpExists (Native.icu4c self // "bin64") = Some e ->
          fst (ProbedNative.locate_build_artifacts ext self w) = Raise e)
    /\ (forall self e w,
          io_fault ext OpExists (Native.artifact_dir self // "lib") = Some e ->
          fst (ProbedNative.verify_build ext self w) = Raise e).
Proof.
  intros ext.
  destruct (steps_return_when_probes_answer ext) as [Hc Hn].
  repeat apply conj.
  - intros self. destruct (Hc self) as (_ & Hp & Hcb & Hb & Hi & _). auto.
  - intros self. apply (Hn self).
  - intros self. destruct (Hc self) as (Hd & _ & _ & _ & _ & Hv). split.
    + eapply never_raises_ext; [apply configure_download_answering|exact Hd].
    + eapply never_raises_ext; [apply configure_verify_answering|exact Hv].
  - intros self. destruct (Hn self) as (Hd & Ht & _ & Hl & Hv). repeat split.
    + eapply never_raises_ext; [apply native_download_answering|exact Hd].
    + eapply never_raises_ext; [apply native_toolset_answering|exact Ht].
    + eapply never_raises_ext; [|exact Hl].
      intros w. apply native_locate_answering.
    + eapply never_raises_ext; [apply native_verify_answering|exact Hv].
  - intros self e w H. now rewrite (configure_download_probe_escapes _ _ _ _ H).
  - intros self e w H. now rewrite (configure_verify_probe_escapes _ _ _ _ H).
  - intros self e w H. now rewrite (native_download_probe_escapes _ _ _ _ H).
  - intros self e w H. unfold ProbedNative.update_visual_studio_toolset. cbv zeta.
    rewrite (bind_ok _ _ _ _ _ (emits_print _ w)).
    now rewrite (bind_raise _ _ _ _ _ (probe_faults _ _ _ _ H)).
  - intros self e w H. unfold ProbedNative.locate_build_artifacts.
    apply (locate_probe_escapes ext [] _ _ _ e w); [intros q []|exact H].
  - intros self e w H. now rewrite (native_verify_probe_escapes _ _ _ _ H).
Qed.

Lemma steps_return_a_boolean_unless_a_probe_fails_witness :
  fst (ProbedConfigure.download_icu_source
         (ScenarioProbe.denying (Configure.source_dir Scenario.configure_builder))
         Scenario.configure_builder Scenario.bare) = Raise PermissionError.
Proof.
  apply (proj1 (proj2 (proj2 (proj2 (proj2
           (steps_return_a_boolean_unless_a_probe_fails
              (ScenarioProbe.denying (Configure.source_dir Scenario.configure_builder)))))))).
  vm_compute. reflexivity.
Defined.

(** ** Verification reads, and only reads *)

Lemma fs_configure_verify ext self :
  respects same_fs (ProbedConfigure.verify_build ext self).
Proof. unfold ProbedConfigure.verify_build. cbv zeta. footprint. Qed.

Lemma logs_configure_verify ext self :
  respects same_logs (ProbedConfigure.verify_build ext self).
Proof. unfold ProbedConfigure.verify_build. cbv zeta. footprint. Qed.

Lemma fs_native_verify ext self :
  respects same_fs (ProbedNative.verify_build ext self).
Proof. unfold ProbedNative.verify_build. cbv zeta. footprint. Qed.

Lemma logs_native_verify ext self :
  respects same_logs (ProbedNative.verify_build ext self).
Proof. unfold ProbedNative.verify_build. cbv zeta. footprint. Qed.

(** X11.  In both scripts [verify_build] changes nothing but the console,
    however it ends: no file, no network call, no process.  When the probes
    it makes answer, it returns the verdict on the directory it inspects,
    and when the library directory is missing, or holds no [*.lib] entry,
    its last line says which.  A probe that fails is not handled: the
    existence check on the library directory, or reading the size of the
    first library, ends the step with the exception. *)
Theorem verification_only_reads :
  forall ext w,
    (forall self,
        (fs (snd (ProbedConfigure.verify_build ext self w)) = fs w
         /\ http_log (snd (ProbedConfigure.verify_build ext self w)) = http_log w
         /\ proc_log (snd (ProbedConfigure.verify_build ext self w)) = proc_log w)
        /\ (exists lines,
              emits (ProbedConfigure.verify_build (answering ext) self) w
                (Verifier.verdict (fs w) (Configure.build_dir self)) lines
              /\ (path_exists (fs w) (Configure.build_dir self // "lib") = false ->
                  last lines = Some ("❌ Library directory not found: "
                                     +:+ str_of_path (Configure.build_dir self // "lib")))
              /\ (path_exists (fs w) (Configure.build_dir self // "lib") = true ->
                  glob (fs w) (Configure.build_dir self // "lib") ".lib" = [] ->
                  last lines = Some "❌ No library files found"))
        /\ (forall e,
              io_fault ext OpExists (Configure.build_dir self // "lib") = Some e ->
              ProbedConfigure.verify_build ext self w
              = (Raise e, add_lines ["🔍 Verifying build output..."] w))
        /\ (forall e l ls,
              io_fault ext OpExists (Configure.build_dir self // "lib") = None ->
              path_exists (fs w) (Configure.build_dir self // "lib") = true ->
              glob (fs w) (Configure.build_dir self // "lib") ".lib" = l :: ls ->
              io_fault ext OpStat l = Some e ->
              ProbedConfigure.verify_build ext self w
              = (Raise e,
                 add_lines ["🔍 Verifying build output..."; "📚 Static libraries built:"] w)))
    /\ (forall self,
          (fs (snd (ProbedNative.verify_build ext self w)) = fs w
           /\ http_log (snd (ProbedNative.verify_build ext self w)) = http_log w
           /\ proc_log (snd (ProbedNative.verify_build ext self w)) = proc_log w)
          /\ (exists lines,
                emits (ProbedNative.verify_build (answering ext) self) w
                  (Verifier.verdict (fs w) (Native.artifact_dir self)) lines
                /\ (path_exists (fs w) (Native.artifact_dir self // "lib") = false ->
                    last lines = Some ("❌ Library directory not found: "
                                       +:+ str_of_path (Native.artifact_dir self // "lib")))
                /\ (path_exists (fs w) (Native.artifact_dir self // "lib") = true ->
                    glob (fs w) (Native.artifact_dir self // "lib") ".lib" = [] ->
                    last lines = Some "❌ No library files found"))
          /\ (forall e,
                io_fault ext OpExists (Native.artifact_dir self // "lib") = Some e ->
                ProbedNative.verify_build ext self w
                = (Raise e, add_lines ["🔍 Verifying build output..."] w))
          /\ (forall e l ls,
                io_fault ext OpExists (Native.artifact_dir self // "lib") = None ->
                path_exists (fs w) (Native.artifact_dir self // "lib") = true ->
                glob (fs w) (Native.artifact_dir self // "lib") ".lib" = l :: ls ->
                io_fault ext OpStat l = Some e ->
                ProbedNative.verify_build ext self w
                = (Raise e,
                   add_lines ["🔍 Verifying build output..."; "📚 Static libraries built:"]
                     w))).
Proof.
  intros ext w. split; intros self; repeat apply conj.
  - apply (respects_snd same_fs), fs_configure_verify.
  - apply (respects_snd same_logs), logs_configure_verify.
  - apply (respects_snd same_logs), logs_configure_verify.
  - destruct (proj1 (verification_with_answering_probes ext w) self) as (lines & H & Hl).
    exists lines. split; [|exact Hl].
    unfold emits. rewrite configure_verify_answering. exact H.
  - intros e. apply configure_verify_probe_escapes.
  - intros e l ls. apply configure_verify_stat_escapes.
  - apply (respects_snd same_fs), fs_native_verify.
  - apply (respects_snd same_logs), logs_native_verify.
  - apply (respects_snd same_logs), logs_native_verify.
  - destruct (proj2 (verification_with_answering_probes ext w) self) as (lines & H & Hl).
    exists lines. split; [|exact Hl].
    unfold emits. rewrite native_verify_answering. exact H.
  - intros e. apply native_verify_probe_escapes.
  - intros e l ls. apply native_verify_stat_escapes.
Qed.

Lemma verification_only_reads_witness :
  ProbedNative.verify_build
    (ScenarioProbe.denying (Native.artifact_dir Scenario.native_builder // "lib"))
    Scenario.native_builder Scenario.bare
  = (Raise PermissionError, add_lines ["🔍 Verifying build output..."] Scenario.bare).
Proof.
  apply (proj1 (proj2 (proj2
           (proj2 (verification_only_reads
                     (ScenarioProbe.denying
                        (Native.artifact_dir Scenario.native_builder // "lib"))
                     Scenario.bare)
              Scenario.native_builder)))).
  vm_compute. reflexivity.
Defined.

(** * The warnings of verification *)

Lemma emits_for_fold_such {A S} (P : string -> Prop) (l : list A)
    (body : A -> S -> M S) f :
  (forall x s w, In x l -> fs w = f ->
                 exists s' lines, emits (body x s) w s' lines /\ Forall P lines) ->
  forall s w, fs w = f ->
              exists s' lines, emits (for_fold l s body) w s' lines /\ Forall P lines.
Proof.
  induction l as [|x l IH]; intros Hbody s w Hw; cbn [for_fold].
  - exists s, []. split; [apply emits_ret|constructor].
  - destruct (Hbody x s w (or_introl eq_refl) Hw) as (s1 & l1 & H1 & P1).
    destruct (IH (fun y s w Hy => Hbody y s w (or_intror Hy)) s1 (add_lines l1 w) Hw)
      as (s2 & l2 & H2 & P2).
    exists s2, (l1 ++ l2)%list. split; [eapply emits_bind; eassumption|].
    apply Forall_app. now split.
Qed.

Lemma emits_for_each_such (P : string -> Prop) {A} (l : list A) (body : A -> M unit) f :
  (forall x w, In x l -> fs w = f ->
               exists lines, emits (body x) w tt lines /\ Forall P lines) ->
  forall w, fs w = f -> exists lines, emits (for_each l body) w tt lines /\ Forall P lines.
Proof.
  induction l as [|x l IH]; intros Hbody w Hw; cbn [for_each].
  - exists []. split; [apply emits_ret|constructor].
  - destruct (Hbody x w (or_introl eq_refl) Hw) as (l1 & H1 & P1).
    destruct (IH (fun y w Hy => Hbody y w (or_intror Hy)) (add_lines l1 w) Hw)
      as (l2 & H2 & P2).
    exists (l1 ++ l2)%list. split; [eapply emits_bind; eassumption|].
    apply Forall_app. now split.
Qed.

Lemma no_warning_among (lines : list string) :
  Forall (fun l => is_warning l = false) lines -> List.filter is_warning lines = [].
Proof.
  induction 1 as [|l ls Hl _ IH]; [reflexivity|]. cbn [List.filter]. now rewrite Hl.
Qed.

Lemma filter_cons_quiet l (lines : list string) :
  is_warning l = false -> List.filter is_warning (l :: lines) = List.filter is_warning lines.
Proof. intros H. cbn [List.filter]. now rewrite H. Qed.

(** Drops the lines that visibly do not warn. *)
Ltac sift_warnings :=
  repeat first
    [ rewrite List.filter_app
    | rewrite filter_cons_quiet by reflexivity
    | progress rewrite ?app_nil_r
    | progress change (List.filter is_warning []) with (@nil string)
    | progress change (@app string [] ?l) with l ].

(** The size report warns of nothing. *)
Lemma library_report_warns_of_nothing ext f (libs : list path) w :
  (forall k, In k libs -> In k (entries f)) ->
  fs w = f ->
  exists total lines,
    emits
      (for_fold libs O
         (fun lib_file total =>
            size <- stat_size lib_file ;;
            print ("  " +:+ path_name lib_file +:+ " (" +:+ fmt_mb ext size +:+ " MB)") ;;;
            ret (total + size)%nat))
      w total lines
    /\ Forall (fun l => is_warning l = false) lines.
Proof.
  intros Hlibs Hw. eapply emits_for_fold_such; [|exact Hw].
  intros k s w0 Hk Hw0.
  destruct (emits_stat_size k w0) as [size Hsize].
  { rewrite Hw0. now apply Hlibs. }
  eexists _, _. split.
  - emit_step. emit_step. apply emits_ret.
  - repeat constructor.
Qed.

Lemma configure_verify_warnings ext self w :
  Verifier.verdict (fs w) (Configure.build_dir self) = true ->
  exists lines,
    emits (Configure.verify_build ext self) w true lines
    /\ List.filter is_warning lines
       = if Configure.embed_data (Configure.config self)
            && negb (path_exists (fs w)
                       (Configure.build_dir self // "lib"
                        // (Configure.lib_prefix (Configure.config self) +:+ "icudt.lib")))
         then ["⚠️  Data library not found"] else [].
Proof.
  unfold Verifier.verdict. intros H. apply andb_prop in H as [Hlib Hhdr].
  apply has_libraries_true in Hlib as (Hdir & k & ks & Hglob).
  unfold Verifier.has_header_dir in Hhdr.
  destruct (library_report_warns_of_nothing ext (fs w) (k :: ks)
              (add_lines ["🔍 Verifying build output..."; "📚 Static libraries built:"] w))
    as (total & lines & Hrep & Hquiet).
  { intros x Hx. rewrite <- Hglob in Hx. eapply glob_entries, Hx. }
  { reflexivity. }
  apply no_warning_among in Hquiet.
  destruct (Configure.embed_data (Configure.config self)) eqn:Hembed.
  - destruct (path_exists (fs w)
                (Configure.build_dir self // "lib"
                 // (Configure.lib_prefix (Configure.config self) +:+ "icudt.lib")))
      eqn:Hdata.
    + match type of Hdata with
      | path_exists _ ?p = _ =>
          destruct (emits_stat_size_exists p
                      (add_lines
                         (["🔍 Verifying build output..."; "📚 Static libraries built:"]
                          ++ lines
                          ++ ["📄 Header files installed: " +:+
                              pretty (length (glob (fs w)
                                (Configure.build_dir self // "include" // "unicode") ".h"))
                              +:+ " files"]) w) Hdata) as [size Hsize]
      end.
      eexists. split.
      * unfold Configure.verify_build.
        emit_step. emit_step. rewrite Hdir. cbn [negb]. rewrite Hglob.
        emit_step. emit_step. rewrite Hhdr. emit_step. rewrite Hembed, Hdata.
        eapply emits_bind.
        { emit_step. apply emits_print. }
        rewrite ?add_lines_app. emit_step. apply emits_ret.
      * cbn [andb negb]. sift_warnings. rewrite Hquiet. reflexivity.
    + eexists. split.
      * unfold Configure.verify_build.
        emit_step. emit_step. rewrite Hdir. cbn [negb]. rewrite Hglob.
        emit_step. emit_step. rewrite Hhdr. emit_step. rewrite Hembed, Hdata.
        emit_step. emit_step. apply emits_ret.
      * cbn [andb negb]. sift_warnings. rewrite Hquiet. reflexivity.
  - eexists. split.
    + unfold Configure.verify_build.
      emit_step. emit_step. rewrite Hdir. cbn [negb]. rewrite Hglob.
      emit_step. emit_step. rewrite Hhdr. emit_step. rewrite Hembed.
      emit_step. emit_step. apply emits_ret.
    + cbn [andb negb]. sift_warnings. rewrite Hquiet. reflexivity.
Qed.

Lemma native_data_warnings ext f data_dir w :
  fs w = f ->
  exists lines,
    emits
      (when (path_exists f data_dir)
         (match glob f data_dir ".dat" with
          | [] => print "⚠️  Warning: No data files found"
          | dats =>
              print "📊 ICU data files:" ;;;
              for_each dats
                (fun dat_file =>
                   size <- stat_size dat_file ;;
                   print ("  " +:+ path_name dat_file +:+ " ("
                          +:+ fmt_mb ext size +:+ " MB)"))
          end))
      w tt lines
    /\ List.filter is_warning lines
       = if path_exists f data_dir && bool_decide (glob f data_dir ".dat" = [])
         then ["⚠️  Warning: No data files found"] else [].
Proof.
  intros Hw. destruct (path_exists f data_dir); cbn [when andb].
  - destruct (glob f data_dir ".dat") as [|d ds] eqn:Hglob.
    + exists ["⚠️  Warning: No data files found"]. split; [apply emits_print|reflexivity].
    + destruct (emits_for_each_such (fun l => is_warning l = false) (d :: ds)
                  (fun dat_file =>
                     size <- stat_size dat_file ;;
                     print ("  " +:+ path_name dat_file +:+ " ("
                            +:+ fmt_mb ext size +:+ " MB)"))
                  f) with (w := add_lines ["📊 ICU data files:"] w)
        as (lines & Hlines & Hquiet).
      { intros k w0 Hk Hw0.
        destruct (emits_stat_size k w0) as [size Hsize].
        { rewrite Hw0, <- Hglob in *. eapply glob_entries, Hk. }
        eexists. split; [emit_step; apply emits_print|repeat constructor]. }
      { rewrite fs_add_lines. exact Hw. }
      exists ("📊 ICU data files:" :: lines). split.
      * change ("📊 ICU data files:" :: lines) with (["📊 ICU data files:"] ++ lines)%list.
        eapply emits_bind; [apply emits_print|exact Hlines].
      * sift_warnings. rewrite (no_warning_among _ Hquiet).
        rewrite bool_decide_eq_false_2 by discriminate. reflexivity.
  - exists []. split; [apply emits_ret|reflexivity].
Qed.

Lemma native_verify_warnings ext self w :
  Verifier.verdict (fs w) (Native.artifact_dir self) = true ->
  exists lines,
    emits (Native.verify_build ext self) w true lines
    /\ List.filter is_warning lines
       = if path_exists (fs w) (Native.artifact_dir self // "data")
            && bool_decide (glob (fs w) (Native.artifact_dir self // "data") ".dat" = [])
         then ["⚠️  Warning: No data files found"] else [].
Proof.
  unfold Verifier.verdict. intros H. apply andb_prop in H as [Hlib Hhdr].
  apply has_libraries_true in Hlib as (Hdir & k & ks & Hglob).
  unfold Verifier.has_header_dir in Hhdr.
  destruct (library_report_warns_of_nothing ext (fs w) (k :: ks)
              (add_lines ["🔍 Verifying build output..."; "📚 Static libraries built:"] w))
    as (total & lines & Hrep & Hquiet).
  { intros x Hx. rewrite <- Hglob in Hx. eapply glob_entries, Hx. }
  { reflexivity. }
  apply no_warning_among in Hquiet.
  destruct (native_data_warnings ext (fs w) (Native.artifact_dir self // "data")
              (add_lines
                 (["🔍 Verifying build output..."; "📚 Static libraries built:"]
                  ++ lines
                  ++ ["📄 Header files installed: " +:+
                      pretty (length (glob (fs w)
                        (Native.artifact_dir self // "include" // "unicode") ".h"))
                      +:+ " files"]) w) eq_refl) as (dlines & Hdata & Hwarn).
  eexists. split.
  - unfold Native.verify_build.
    emit_step. emit_step. rewrite Hdir. cbn [negb]. rewrite Hglob.
    emit_step. emit_step. rewrite Hhdr. emit_step.
    emit_step. emit_step. apply emits_ret.
  - sift_warnings. rewrite Hquiet, Hwarn. sift_warnings. reflexivity.
Qed.

(** C7, as stated, fails for separate data.  With an installation that has
    its libraries and its header directory, separate data packaging and not
    one data file, the configure-driven [verify_build] returns [True]
    without a warning: it does not look for data files.  The
    project-file-driven one warns only when the packaged [data] directory
    exists; without that directory it returns [True] without a warning
    too. *)
Lemma separate_data_goes_unwarned :
  Configure.embed_data (Configure.config Scenario.configure_builder) = false
  /\ List.filter (fun k => ends_with ".dat" (path_name k))
       (entries (fs Scenario.installed_without_headers)) = []
  /\ fst (Configure.verify_build Scenario.quiet Scenario.configure_builder
            Scenario.installed_without_headers) = Ok true
  /\ stdout (snd (Configure.verify_build Scenario.quiet Scenario.configure_builder
                    Scenario.installed_without_headers))
     = [ "🔍 Verifying build output...";
         "📚 Static libraries built:";
         "  icuuc.lib (0 MB)";
         "📄 Header files installed: 0 files";
         "📊 Data files should be in separate .dat files";
         "✅ Build verification completed - Total library size: 0 MB" ]
  /\ List.filter (fun k => ends_with ".dat" (path_name k))
       (entries (fs Scenario.packaged_without_headers)) = []
  /\ fst (Native.verify_build Scenario.quiet Scenario.native_builder
            Scenario.packaged_without_headers) = Ok true
  /\ stdout (snd (Native.verify_build Scenario.quiet Scenario.native_builder
                    Scenario.packaged_without_headers))
     = [ "🔍 Verifying build output...";
         "📚 Static libraries built:";
         "  icuuc.lib (0 MB)";
         "📄 Header files installed: 0 files";
         "✅ Build verification completed - Total library size: 0 MB" ].
Proof. repeat split; vm_compute; reflexivity. Qed.

(** C7, amended.  Once the mandatory checks have passed, verification
    returns [True] whatever the state of the data artifacts.  The
    configure-driven script warns exactly when data is embedded and
    [<prefix>icudt.lib] is missing; with separate data it does not look for
    data files and never warns.  The project-file-driven script warns
    exactly when the packaged [data] directory exists and holds no [*.dat]
    entry; without that directory it does not warn. *)
Theorem missing_data_never_fails_verification :
  forall ext w,
    (forall self,
        Verifier.verdict (fs w) (Configure.build_dir self) = true ->
        exists lines,
          emits (Configure.verify_build ext self) w true lines
          /\ List.filter is_warning lines
             = if Configure.embed_data (Configure.config self)
                  && negb (path_exists (fs w)
                             (Configure.build_dir self // "lib"
                              // (Configure.lib_prefix (Configure.config self)
                                  +:+ "icudt.lib")))
               then ["⚠️  Data library not found"] else [])
    /\ (forall self,
          Verifier.verdict (fs w) (Native.artifact_dir self) = true ->
          exists lines,
            emits (Native.verify_build ext self) w true lines
            /\ List.filter is_warning lines
               = if path_exists (fs w) (Native.artifact_dir self // "data")
                    && bool_decide
                         (glob (fs w) (Native.artifact_dir self // "data") ".dat" = [])
                 then ["⚠️  Warning: No data files found"] else []).
Proof.
  intros ext w. split; intros self Hok.
  - apply configure_verify_warnings, Hok.
  - apply native_verify_warnings, Hok.
Qed.

Lemma missing_data_never_fails_verification_witness :
  exists lines,
    emits (Configure.verify_build Scenario.quiet Scenario.embedded_builder)
      Scenario.installed_without_headers true lines
    /\ List.filter is_warning lines = ["⚠️  Data library not found"].
Proof.
  destruct (proj1 (missing_data_never_fails_verification Scenario.quiet
                     Scenario.installed_without_headers) Scenario.embedded_builder)
    as (lines & H & Hwarn).
  - vm_compute. reflexivity.
  - exists lines. split; [exact H|]. rewrite Hwarn. vm_compute. reflexivity.
Defined.

(** * Packaging does not see what an earlier run left *)

Lemma fs_only_ret {A} (a : A) : fs_only (ret a).
Proof. intros w1 w2 H. now split. Qed.

Lemma fs_only_raise {A} e : fs_only (@raise A e).
Proof. intros w1 w2 H. now split. Qed.

Lemma fs_only_print line : fs_only (print line).
Proof. intros w1 w2 H. now split. Qed.

Lemma fs_only_get_fs : fs_only get_fs.
Proof. intros w1 w2 H. cbn. now rewrite H. Qed.

Lemma fs_only_bind {A B} (m : M A) (k : A -> M B) :
  fs_only m -> (forall a, fs_only (k a)) -> fs_only (bind m k).
Proof.
  intros Hm Hk w1 w2 H. unfold bind. destruct (Hm w1 w2 H) as [Hr Hf].
  destruct (m w1) as [[a|e] w1'], (m w2) as [[a'|e'] w2']; cbn in Hr, Hf;
    try discriminate.
  - injection Hr as <-. now apply Hk.
  - injection Hr as <-. now split.
Qed.

Lemma fs_only_when b (m : M unit) : fs_only m -> fs_only (when b m).
Proof. intros Hm. destruct b; [exact Hm|apply fs_only_ret]. Qed.

Lemma fs_only_for_each {A} (l : list A) (body : A -> M unit) :
  (forall x, fs_only (body x)) -> fs_only (for_each l body).
Proof.
  intros Hbody. induction l as [|x l IH]; cbn [for_each]; [apply fs_only_ret|].
  apply fs_only_bind; [apply Hbody|intros _; exact IH].
Qed.

Lemma fs_only_for_fold {A S} (l : list A) (body : A -> S -> M S) :
  (forall x s, fs_only (body x s)) -> forall s, fs_only (for_fold l s body).
Proof.
  intros Hbody. induction l as [|x l IH]; intros s; cbn [for_fold]; [apply fs_only_ret|].
  apply fs_only_bind; [apply Hbody|intros s'; apply IH].
Qed.

Lemma fs_only_faulting {A} ext op p (m : M A) : fs_only m -> fs_only (faulting ext op p m).
Proof. intros Hm. unfold faulting. destruct (io_fault ext op p); [apply fs_only_raise|exact Hm]. Qed.

(** A state transformer written as a cascade of matches on the tree. *)
Ltac fs_only_atomic :=
  let w1 := fresh "w1" in
  let w2 := fresh "w2" in
  let H := fresh "H" in
  intros w1 w2 H; cbv beta zeta; rewrite H;
  repeat match goal with
         | |- context [match ?x with _ => _ end] => destruct x
         end;
  split; cbn [fst snd fs set_fs]; first [reflexivity | exact H].

Lemma fs_only_store_file p c : fs_only (store_file p c).
Proof. unfold store_file. fs_only_atomic. Qed.

Lemma fs_only_stat_size p : fs_only (stat_size p).
Proof. unfold stat_size. fs_only_atomic. Qed.

Lemma fs_only_mkdir ext p : fs_only (mkdir ext p).
Proof. apply fs_only_faulting. fs_only_atomic. Qed.

Lemma fs_only_rmtree ext p : fs_only (rmtree ext p).
Proof. apply fs_only_faulting. fs_only_atomic. Qed.

Lemma fs_only_write_file ext p c : fs_only (write_file ext p c).
Proof. apply fs_only_faulting, fs_only_store_file. Qed.

Lemma fs_only_read_text ext p : fs_only (read_text ext p).
Proof. apply fs_only_faulting. fs_only_atomic. Qed.

Lemma fs_only_copy2 ext src dst : fs_only (copy2 ext src dst).
Proof.
  apply fs_only_faulting. intros w1 w2 H. cbv beta zeta. rewrite H.
  destruct (lookup_path (fs w2) src) as [[c|]|];
    try (split; cbn [fst snd]; first [reflexivity | exact H]).
  now apply fs_only_store_file.
Qed.

Lemma fs_only_makedirs_from made todo : fs_only (makedirs_from made todo).
Proof.
  revert made. induction todo as [|c rest IH]; intros made; cbn [makedirs_from];
    [apply fs_only_ret|].
  apply fs_only_bind; [fs_only_atomic|intros _; apply IH].
Qed.

Lemma fs_only_makedirs p : fs_only (makedirs p).
Proof. apply fs_only_makedirs_from. Qed.

Create HintDb fs_only.

#[export] Hint Resolve fs_only_ret fs_only_raise fs_only_print fs_only_get_fs
  fs_only_store_file fs_only_stat_size fs_only_mkdir fs_only_rmtree fs_only_write_file
  fs_only_read_text fs_only_copy2 fs_only_makedirs : fs_only.

(** Decomposes a program along its binds, loops and branches, closing the
    leaves with the [fs_only] hints. *)
Ltac fs_only_steps :=
  repeat first
    [ solve [eauto 2 with fs_only]
    | apply fs_only_bind; [|intros ?]
    | apply fs_only_for_each; intros ?
    | apply fs_only_for_fold; intros ? ?
    | apply fs_only_when
    | apply fs_only_faulting
    | match goal with
      | |- fs_only (if ?b then _ else _) => destruct b
      | |- fs_only (match ?x with _ => _ end) => destruct x
      end ].

Lemma fs_only_outcome {A B} (m : M A) (g : result A -> result B) :
  fs_only m -> fs_only (fun w => let (r, w') := m w in (g r, w')).
Proof.
  intros Hm w1 w2 H. destruct (Hm w1 w2 H) as [Hr Hf].
  destruct (m w1) as [r1 w1'], (m w2) as [r2 w2']. cbn in *. now subst.
Qed.

Lemma fs_only_copytree_entry ext src dst k : fs_only (copytree_entry ext src dst k).
Proof.
  intros w1 w2 H. unfold copytree_entry. cbv zeta. rewrite H.
  destruct (lookup_path (fs w2) k) as [[c|]|]; [| |now split].
  - match goal with
    | |- context [?m w1] =>
        assert (Hm : fs_only m) by fs_only_steps;
        destruct (Hm w1 w2 H) as [Hr Hf];
        destruct (m w1) as [[u1|e1] w1'], (m w2) as [[u2|e2] w2']
    end; cbn in *; try discriminate; now split.
  - destruct (fs_only_makedirs (dst ++ relative_to src k) w1 w2 H) as [Hr Hf].
    destruct (makedirs _ w1) as [[u1|e1] w1'], (makedirs _ w2) as [[u2|e2] w2'];
      cbn in *; try discriminate; now split.
Qed.

Lemma fs_only_copytree_entries ext src dst ks : fs_only (copytree_entries ext src dst ks).
Proof.
  induction ks as [|k ks IH]; cbn [copytree_entries]; [apply fs_only_ret|].
  apply fs_only_bind; [apply fs_only_copytree_entry|intros ok1].
  apply fs_only_bind; [exact IH|intros ok2; apply fs_only_ret].
Qed.

Lemma fs_only_copytree ext src dst : fs_only (copytree ext src dst).
Proof.
  unfold copytree. apply fs_only_faulting.
  apply fs_only_bind; [apply fs_only_get_fs|intros f].
  destruct (lookup_path f src) as [[c|]|]; try apply fs_only_raise.
  apply fs_only_bind; [apply fs_only_makedirs|intros _].
  apply fs_only_bind; [apply fs_only_copytree_entries|intros ok].
  destruct ok; [apply fs_only_ret|apply fs_only_raise].
Qed.

Lemma fs_only_zip_members ext zip_path root ks :
  forall acc, fs_only (zip_members ext zip_path root acc ks).
Proof.
  induction ks as [|k ks IH]; intros acc; cbn [zip_members]; [apply fs_only_ret|].
  apply fs_only_bind; [apply fs_only_get_fs|intros f].
  destruct (is_file f k); [|apply IH].
  apply fs_only_bind; [apply fs_only_read_text|intros c].
  apply fs_only_bind; [apply fs_only_store_file|intros _; apply IH].
Qed.

Lemma fs_only_zip_tree ext zip_path root : fs_only (zip_tree ext zip_path root).
Proof.
  unfold zip_tree.
  apply fs_only_bind; [apply fs_only_faulting, fs_only_store_file|intros _].
  apply fs_only_bind; [apply fs_only_get_fs|intros f].
  apply fs_only_zip_members.
Qed.

#[export] Hint Resolve fs_only_copytree fs_only_zip_tree : fs_only.

Lemma cleared_lookup dir w k :
  fs (cleared dir w) !! k = if is_prefix dir k then None else fs w !! k.
Proof.
  unfold cleared. cbn [fs set_fs]. rewrite map_lookup_filter.
  destruct (fs w !! k) as [n|]; cbn; [|now destruct (is_prefix dir k)].
  destruct (is_prefix dir k) eqn:Hk.
  - rewrite option_guard_False; [reflexivity|]. cbn. discriminate.
  - rewrite option_guard_True; reflexivity.
Qed.

(** Removing the directory leaves a tree without it. *)
Lemma cleared_gone dir w p :
  norm p = dir -> dir <> [] -> path_exists (fs (cleared dir w)) p = false.
Proof.
  intros Hp Hne. unfold path_exists, lookup_path. rewrite Hp.
  destruct dir as [|c dir]; [contradiction|].
  now rewrite cleared_lookup, is_prefix_refl.
Qed.

(** Where nothing lies at or below [dir], removing it changes nothing. *)
Lemma cleared_nothing dir w :
  (forall k, is_prefix dir k = true -> fs w !! k = None) -> fs (cleared dir w) = fs w.
Proof.
  intros H. apply map_eq. intros k. rewrite cleared_lookup.
  destruct (is_prefix dir k) eqn:Hk; [|reflexivity]. symmetry. now apply H.
Qed.

(** Packaging removes the artifact directory before it does anything
    else with the tree, so what follows runs as it would have run without
    that directory. *)
Lemma clean_start ext (p : path) (rest : M bool) w w' w0 :
  norm p <> [] ->
  fs_only rest ->
  (f <- get_fs ;; when (path_exists f p) (rmtree ext p) ;;; rest) w = (Ok true, w') ->
  (path_exists (fs w) p = false ->
   forall k, is_prefix (norm p) k = true -> fs w !! k = None) ->
  fs w0 = fs (cleared (norm p) w) ->
  exists w0',
    (f <- get_fs ;; when (path_exists f p) (rmtree ext p) ;;; rest) w0 = (Ok true, w0')
    /\ fs w0' = fs w'.
Proof.
  intros Hne Hrest H Htree Hw0.
  apply bind_inv in H as (f & w1 & Hget & H). injection Hget as <- <-.
  apply bind_inv in H as (u & w3 & Hclean & H).
  assert (Hgone : path_exists (fs w0) p = false).
  { rewrite Hw0. now apply cleared_gone. }
  assert (Hsame : fs w0 = fs w3).
  { rewrite Hw0. destruct (path_exists (fs w) p) eqn:Hex; cbn [when] in Hclean.
    - apply faulting_inv in Hclean.
      destruct (lookup_path (fs w) p) as [[|]|]; try discriminate.
      injection Hclean as _ <-. reflexivity.
    - injection Hclean as _ <-. apply cleared_nothing. now apply Htree. }
  destruct (Hrest w0 w3 Hsame) as [Hr Hf]. rewrite H in Hr, Hf. cbn [fst snd] in Hr, Hf.
  exists (snd (rest w0)). split; [|exact Hf].
  unfold bind at 1. cbn [get_fs]. rewrite Hgone. cbn [when].
  unfold bind, ret. destruct (rest w0) as [r w0']. cbn in Hr. now subst.
Qed.

(** X17.  Packaging starts from a clean directory.  When [package_artifacts]
    returns [True], in either script, it would have returned [True] and
    left the same tree had the artifact directory, with all an earlier run
    left in it, been removed beforehand: nothing of an earlier package
    reaches the new one or its archive.  Everything inside the artifact
    directory then lies at or below one of [lib], [include], [bin], [data]
    and [BUILD_INFO.txt].  (On a tree where the artifact directory does not
    exist, nothing exists below it; and the locator of the
    project-file-driven script, which searches the source tree, finds the
    same files without the artifact directory.) *)
Theorem packaging_starts_from_a_clean_directory :
  forall ext,
    (forall self w w',
        let dir := norm (Configure.workspace self) ++ [Configure.artifact_name self] in
        Configure.package_artifacts ext self w = (Ok true, w') ->
        (path_exists (fs w) (Configure.artifact_dir self) = false ->
         forall k, is_prefix dir k = true -> fs w !! k = None) ->
        (exists w0',
            Configure.package_artifacts ext self (cleared dir w) = (Ok true, w0')
            /\ fs w0' = fs w')
        /\ forall k n,
             is_prefix dir k = true -> fs w' !! k = Some n ->
             k = dir
             \/ exists top, In top package_entries /\ is_prefix (dir ++ [top]) k = true)
    /\ (forall self w w',
          let dir := norm (Native.workspace self)
                     ++ [Native.artifact_name (Native.config self)] in
          Native.package_artifacts ext self w = (Ok true, w') ->
          (path_exists (fs w) (Native.artifact_dir self) = false ->
           forall k, is_prefix dir k = true -> fs w !! k = None) ->
          fst (Native.locate_build_artifacts self (cleared dir w))
          = fst (Native.locate_build_artifacts self w) ->
          (exists w0',
              Native.package_artifacts ext self (cleared dir w) = (Ok true, w0')
              /\ fs w0' = fs w')
          /\ forall k n,
               is_prefix dir k = true -> fs w' !! k = Some n ->
               k = dir
               \/ exists top, In top package_entries /\ is_prefix (dir ++ [top]) k = true).
Proof.
  intros ext. split.
  - intros self w w' dir H Htree. split;
      [|exact (proj1 (packaged_entries_only ext) self w w' H Htree)].
    destruct (configure_artifact_name_plain self) as [Hn Hz].
    assert (Hdir : norm (Configure.artifact_dir self) = dir) by now apply norm_snoc.
    assert (Hne : norm (Configure.artifact_dir self) <> []).
    { rewrite Hdir. unfold dir. now destruct (norm (Configure.workspace self)). }
    unfold Configure.package_artifacts in *.
    apply bind_inv in H as (u & w1 & Hprint & H). injection Hprint as _ <-.
    rewrite (bind_ok _ _ _ _ _ (emits_print _ (cleared dir w))).
    eapply (clean_start ext _ _ _ _ _ Hne); [| exact H | now rewrite Hdir | now rewrite Hdir].
    unfold Configure.copy_data_files. cbv zeta. fs_only_steps.
  - intros self w w' dir H Htree Hfound. split;
      [|exact (proj2 (packaged_entries_only ext) self w w' H Htree)].
    destruct (native_artifact_name_plain (Native.config self)) as [Hn Hz].
    assert (Hdir : norm (Native.artifact_dir self) = dir) by now apply norm_snoc.
    assert (Hne : norm (Native.artifact_dir self) <> []).
    { rewrite Hdir. unfold dir. now destruct (norm (Native.workspace self)). }
    unfold Native.package_artifacts in *.
    apply bind_inv in H as (u & w1 & Hprint & H). injection Hprint as _ <-.
    apply bind_inv in H as (found & w2 & Hloc & H).
    rewrite (bind_ok _ _ _ _ _ (emits_print _ (cleared dir w))).
    unfold Native.locate_build_artifacts in *.
    destruct (locate_emits (Native.possible_paths self) (Native.data_paths self)
                (add_lines ["📦 Packaging artifacts..."] w)) as [lines Hl].
    destruct (locate_emits (Native.possible_paths self) (Native.data_paths self)
                (add_lines ["📦 Packaging artifacts..."] (cleared dir w))) as [lines0 Hl0].
    destruct (locate_emits (Native.possible_paths self) (Native.data_paths self) w)
      as [lines1 Hl1].
    destruct (locate_emits (Native.possible_paths self) (Native.data_paths self)
                (cleared dir w)) as [lines2 Hl2].
    unfold emits in Hl, Hl0, Hl1, Hl2.
    rewrite fs_add_lines in Hl, Hl0.
    match type of Hl with _ = (Ok ?r, _) => remember r as R eqn:HR end.
    match type of Hl0 with _ = (Ok ?r, _) => remember r as R0 eqn:HR0 end.
    rewrite Hl1, Hl2 in Hfound. cbn [fst] in Hfound. injection Hfound as ->.
    change (Native.locate (Native.possible_paths self) (Native.data_paths self)
              (add_lines ["📦 Packaging artifacts..."] w) = (Ok found, w2)) in Hloc.
    rewrite Hl in Hloc. injection Hloc as -> <-.
    rewrite (bind_ok _ _ _ _ _ Hl0). clear Hl Hl0 Hl1 Hl2 HR HR0.
    destruct (Native.lib_files found).
    { apply bind_inv in H as (u' & w3 & _ & H). discriminate H. }
    eapply (clean_start ext _ _ _ _ _ Hne); [| exact H | now rewrite Hdir | now rewrite Hdir].
    cbv zeta. fs_only_steps.
Qed.

Lemma packaging_starts_from_a_clean_directory_witness :
  let dir := norm (Native.workspace Scenario.native_builder)
             ++ [Native.artifact_name (Native.config Scenario.native_builder)] in
  let after := snd (Native.package_artifacts Scenario.quiet Scenario.native_builder
                      ScenarioStale.leftover) in
  exists w0',
    Native.package_artifacts Scenario.quiet Scenario.native_builder
      (cleared dir ScenarioStale.leftover) = (Ok true, w0')
    /\ fs w0' = fs after.
Proof.
  exact (proj1 (proj2 (packaging_starts_from_a_clean_directory Scenario.quiet)
                  Scenario.native_builder ScenarioStale.leftover _
                  (run_eta (Native.package_artifacts Scenario.quiet Scenario.native_builder)
                     ScenarioStale.leftover true ltac:(vm_compute; reflexivity))
                  ltac:(intros Hex; vm_compute in Hex; discriminate Hex)
                  ltac:(vm_compute; reflexivity))).
Defined.
